(** * xgraph: graph compiler, validator and traffic simulator

    A shallow embedding of the core of the xray graph builder:
    the connection rule checker ([connectionRules.ts]), the validation
    engine ([validation.ts]), the forward compiler ([exportConfig.ts]),
    the reverse compiler ([importConfig.ts]) and the traffic simulator
    ([simulation.ts]).

    Conventions of the embedding.
    - JavaScript strings are [string]; the case and whitespace functions
      act on the ASCII range.
    - JavaScript numbers that hold ports, priorities and user levels are
      integers [Z].
    - An optional property [p?: T] is a field of type [option T]; a
      property holding [undefined] and a missing property are both [None].
    - An array is a [list]; a JavaScript [Map] is an association list kept
      in insertion order.
    - Code that only appends to a shared array of results is rendered as a
      function returning the elements it appends, in order. *)

From Stdlib Require Import List Bool Arith ZArith Lia.
From Stdlib Require Import Strings.String Strings.Ascii.
From Stdlib Require Import Numbers.DecimalString.
Import ListNotations.

Open Scope list_scope.
Open Scope string_scope.

(* ================================================================== *)
(** * JavaScript string and array primitives *)
(* ================================================================== *)

Module Js.

(** [s.startsWith(p)] *)
Definition startsWith (s p : string) : bool := String.prefix p s.

(** [s.includes(sub)] *)
Fixpoint includes (s sub : string) : bool :=
  String.prefix sub s ||
  match s with
  | EmptyString => false
  | String _ rest => includes rest sub
  end.

(** [s.slice(n)] for a non-negative [n] *)
Definition slice (n : nat) (s : string) : string :=
  String.substring n (String.length s - n) s.

(** [s.slice(0, n)] *)
Definition take (n : nat) (s : string) : string :=
  String.substring 0 n s.

(** [s.endsWith(suf)] *)
Definition endsWith (s suf : string) : bool :=
  (String.length suf <=? String.length s)%nat &&
  String.eqb (slice (String.length s - String.length suf) s) suf.

Definition lowerAscii (c : ascii) : ascii :=
  let n := nat_of_ascii c in
  if ((65 <=? n) && (n <=? 90))%nat then ascii_of_nat (n + 32) else c.

Definition upperAscii (c : ascii) : ascii :=
  let n := nat_of_ascii c in
  if ((97 <=? n) && (n <=? 122))%nat then ascii_of_nat (n - 32) else c.

Fixpoint mapString (f : ascii -> ascii) (s : string) : string :=
  match s with
  | EmptyString => EmptyString
  | String c rest => String (f c) (mapString f rest)
  end.

(** [s.toLowerCase()] and [s.toUpperCase()] *)
Definition toLowerCase : string -> string := mapString lowerAscii.
Definition toUpperCase : string -> string := mapString upperAscii.

(** White space removed by [trim]: tab, line feed, vertical tab, form
    feed, carriage return and space. *)
Definition isSpace (c : ascii) : bool :=
  let n := nat_of_ascii c in
  ((9 <=? n) && (n <=? 13))%nat || (n =? 32)%nat.

Fixpoint trimStart (s : string) : string :=
  match s with
  | EmptyString => EmptyString
  | String c rest => if isSpace c then trimStart rest else s
  end.

(** [trimEnd] drops a character when it is a space and everything after
    it was dropped. *)
Fixpoint trimEnd (s : string) : string :=
  match s with
  | EmptyString => EmptyString
  | String c rest =>
      match trimEnd rest with
      | EmptyString => if isSpace c then EmptyString else String c EmptyString
      | kept => String c kept
      end
  end.

(** [s.trim()] *)
Definition trim (s : string) : string := trimEnd (trimStart s).

(** [s.split(sep)] for a one-character separator; [cur] is the piece
    read so far. *)
Fixpoint splitAux (sep : ascii) (s : string) (cur : string) : list string :=
  match s with
  | EmptyString => [cur]
  | String c rest =>
      if Ascii.eqb c sep then cur :: splitAux sep rest EmptyString
      else splitAux sep rest (cur ++ String c EmptyString)
  end.

Definition split (sep : ascii) (s : string) : list string :=
  splitAux sep s EmptyString.

(** [xs.join(sep)] *)
Definition join (sep : string) (xs : list string) : string :=
  String.concat sep xs.

(** A string in a boolean position: the empty string is falsy. *)
Definition truthy (s : string) : bool := negb (String.eqb s EmptyString).

(** [s] between double quotes, as in a template literal ["${s}"]. *)
Definition quoted (s : string) : string :=
  String (ascii_of_nat 34) (s ++ String (ascii_of_nat 34) EmptyString).

(** An optional string in a boolean position. *)
Definition truthyOpt (o : option string) : bool :=
  match o with
  | Some s => truthy s
  | None => false
  end.

(** An optional array tested with [a && a.length > 0] or [a?.length]. *)
Definition nonEmptyOpt {A : Type} (o : option (list A)) : bool :=
  match o with
  | Some (_ :: _) => true
  | _ => false
  end.

(** A number in a template literal. *)
Definition showZ (z : Z) : string := NilZero.string_of_int (Z.to_int z).

(** [xs.includes(x)] on an array of strings. *)
Definition memStr (x : string) (xs : list string) : bool :=
  existsb (String.eqb x) xs.

Definition isDigit (c : ascii) : bool :=
  let n := nat_of_ascii c in ((48 <=? n) && (n <=? 57))%nat.

Definition isHexDigit (c : ascii) : bool :=
  let n := nat_of_ascii c in
  isDigit c || ((65 <=? n) && (n <=? 70))%nat || ((97 <=? n) && (n <=? 102))%nat.

Fixpoint allChars (p : ascii -> bool) (s : string) : bool :=
  match s with
  | EmptyString => true
  | String c rest => p c && allChars p rest
  end.

(** The value of a string of decimal digits. *)
Fixpoint digitsValue (acc : Z) (s : string) : Z :=
  match s with
  | EmptyString => acc
  | String c rest =>
      digitsValue (10 * acc + Z.of_nat (nat_of_ascii c - 48))%Z rest
  end.

(** A [Map<string, T[]>] filled by reading the entry of a key, pushing
    an element on it and storing it back: a new key goes last. *)
Fixpoint pushTo {A : Type} (key : string) (x : A) (m : list (string * list A))
    : list (string * list A) :=
  match m with
  | [] => [(key, [x])]
  | (k, xs) :: rest =>
      if String.eqb k key then (k, (xs ++ [x])%list) :: rest
      else (k, xs) :: pushTo key x rest
  end.

End Js.

(** How a call ends: with a value or with a thrown error. *)
Inductive Completion (A : Type) :=
| Returned (a : A)
| Thrown (error : string).
Arguments Returned {A} a.
Arguments Thrown {A} error.

(* ================================================================== *)
(** * Graph model ([types/schemas.ts]) *)
(* ================================================================== *)

Inductive NodeType :=
| device | inbound | routing | balancer | outbound_terminal | outbound_proxy
| simple_server | simple_internet | simple_block | simple_rules.

Definition NodeType_eqb (a b : NodeType) : bool :=
  match a, b with
  | device, device | inbound, inbound | routing, routing
  | balancer, balancer | outbound_terminal, outbound_terminal
  | outbound_proxy, outbound_proxy | simple_server, simple_server
  | simple_internet, simple_internet | simple_block, simple_block
  | simple_rules, simple_rules => true
  | _, _ => false
  end.

(** The string a node type is in the source. *)
Definition nodeTypeName (t : NodeType) : string :=
  match t with
  | device => "device"
  | inbound => "inbound"
  | routing => "routing"
  | balancer => "balancer"
  | outbound_terminal => "outbound-terminal"
  | outbound_proxy => "outbound-proxy"
  | simple_server => "simple-server"
  | simple_internet => "simple-internet"
  | simple_block => "simple-block"
  | simple_rules => "simple-rules"
  end.

Inductive Network := NetRaw | NetWs | NetGrpc | NetXhttp.
Inductive Security := SecNone | SecTls | SecReality.

Definition networkName (n : Network) : string :=
  match n with
  | NetRaw => "raw" | NetWs => "ws" | NetGrpc => "grpc" | NetXhttp => "xhttp"
  end.

Definition securityName (s : Security) : string :=
  match s with
  | SecNone => "none" | SecTls => "tls" | SecReality => "reality"
  end.

Record WsSettings := mkWs {
  ws_path : option string;
  ws_headers : option (list (string * string)) }.

Record GrpcSettings := mkGrpc {
  grpc_serviceName : option string;
  grpc_multiMode : option bool }.

Record XhttpSettings := mkXhttp {
  xhttp_path : option string;
  xhttp_host : option string }.

Record TlsSettings := mkTls {
  tls_serverName : option string;
  tls_alpn : option (list string);
  tls_fingerprint : option string }.

Record RealitySettings := mkReality {
  reality_serverName : option string;
  reality_fingerprint : option string;
  reality_publicKey : option string;
  reality_shortId : option string;
  reality_spiderX : option string }.

Record TransportSettings := mkTransport {
  network : Network;
  wsSettings : option WsSettings;
  grpcSettings : option GrpcSettings;
  xhttpSettings : option XhttpSettings;
  security : Security;
  tlsSettings : option TlsSettings;
  realitySettings : option RealitySettings }.

Definition defaultTransport : TransportSettings :=
  mkTransport NetRaw None None None SecNone None None.

Record User := mkUser {
  user_email : string;
  user_id : option string;
  user_password : option string;
  user_level : option Z }.

Inductive InboundProtocol :=
| InHttp | InSocks | InVless | InVmess | InTrojan | InShadowsocks | InDokodemo.

Definition inboundProtocolName (p : InboundProtocol) : string :=
  match p with
  | InHttp => "http" | InSocks => "socks" | InVless => "vless"
  | InVmess => "vmess" | InTrojan => "trojan"
  | InShadowsocks => "shadowsocks" | InDokodemo => "dokodemo-door"
  end.

Record InboundData := mkInbound {
  in_tag : string;
  in_protocol : InboundProtocol;
  in_listen : string;
  in_port : Z;
  in_sniffing : option bool;
  in_users : option (list User);
  in_transport : option TransportSettings;
  in_serverId : option string }.

Inductive RuleNetwork := RnTcp | RnUdp.

Definition ruleNetworkName (n : RuleNetwork) : string :=
  match n with RnTcp => "tcp" | RnUdp => "udp" end.

Record RoutingData := mkRouting {
  rt_tag : string;
  rt_domain : option (list string);
  rt_ip : option (list string);
  rt_port : option string;
  rt_protocol : option (list string);
  rt_network : option RuleNetwork;
  rt_inboundTag : option string;
  rt_serverId : option string }.

(** The reverse compiler stores whatever strategy and outbound protocol
    string the document holds, so both are strings here.  [selector] is
    an array in every graph that went through the schemas; for the
    graphs that did not, see [Validation.Unchecked]. *)
Record BalancerData := mkBalancer {
  bal_tag : string;
  bal_strategy : string;
  bal_selector : list string;
  bal_serverId : option string }.

Record OutboundData := mkOutbound {
  out_tag : string;
  out_protocol : string;
  out_serverAddress : option string;
  out_serverPort : option Z;
  out_transport : option TransportSettings;
  out_serverId : option string }.

Inductive DeviceConnectionType := ConnTun2socks | ConnSocks | ConnHttp.

Definition connectionTypeName (c : DeviceConnectionType) : string :=
  match c with
  | ConnTun2socks => "tun2socks" | ConnSocks => "socks" | ConnHttp => "http"
  end.

(** The schemas of the device and of the simple nodes declare no
    [serverId], but the Inspector writes one into the data of whatever
    node is selected, and the compilers and the validator read it off
    any node; so every kind of node data carries the optional field. *)
Record DeviceData := mkDevice {
  dev_name : string;
  dev_connectionType : DeviceConnectionType;
  dev_serverId : option string }.

Inductive SimpleServerProtocol := SsVless | SsVmess | SsTrojan | SsShadowsocks.

Definition simpleServerProtocolName (p : SimpleServerProtocol) : string :=
  match p with
  | SsVless => "vless" | SsVmess => "vmess"
  | SsTrojan => "trojan" | SsShadowsocks => "shadowsocks"
  end.

Record SimpleServerData := mkSimpleServer {
  ss_name : string;
  ss_host : string;
  ss_port : Z;
  ss_protocol : SimpleServerProtocol;
  ss_uuid : option string;
  ss_password : option string;
  ss_network : Network;
  ss_security : Security;
  ss_sni : option string;
  ss_fingerprint : option string;
  ss_alpn : option string;
  ss_wsPath : option string;
  ss_wsHost : option string;
  ss_grpcServiceName : option string;
  ss_xhttpPath : option string;
  ss_xhttpHost : option string;
  ss_realityPublicKey : option string;
  ss_realityShortId : option string;
  ss_realitySpiderX : option string;
  ss_serverId : option string }.

Inductive SimpleRuleType := SrDomain | SrGeosite | SrGeoip | SrAll.

Definition simpleRuleTypeName (t : SimpleRuleType) : string :=
  match t with
  | SrDomain => "domain" | SrGeosite => "geosite"
  | SrGeoip => "geoip" | SrAll => "all"
  end.

Record SimpleRuleCondition := mkSimpleRule {
  sr_type : SimpleRuleType;
  sr_value : string }.

(** [XrayNodeData]: the union discriminated by [nodeType]. *)
Inductive XrayNodeData :=
| DeviceNode (d : DeviceData)
| InboundNode (d : InboundData)
| RoutingNode (d : RoutingData)
| BalancerNode (d : BalancerData)
| OutboundTerminalNode (d : OutboundData)
| OutboundProxyNode (d : OutboundData)
| SimpleServerNode (d : SimpleServerData)
| SimpleInternetNode (label : string) (serverId : option string)
| SimpleBlockNode (label : string) (serverId : option string)
| SimpleRulesNode (label : string) (rules : list SimpleRuleCondition)
    (serverId : option string).

Definition nodeType (d : XrayNodeData) : NodeType :=
  match d with
  | DeviceNode _ => device
  | InboundNode _ => inbound
  | RoutingNode _ => routing
  | BalancerNode _ => balancer
  | OutboundTerminalNode _ => outbound_terminal
  | OutboundProxyNode _ => outbound_proxy
  | SimpleServerNode _ => simple_server
  | SimpleInternetNode _ _ => simple_internet
  | SimpleBlockNode _ _ => simple_block
  | SimpleRulesNode _ _ _ => simple_rules
  end.

(** ['tag' in data ? data.tag : undefined] *)
Definition dataTag (d : XrayNodeData) : option string :=
  match d with
  | InboundNode i => Some (in_tag i)
  | RoutingNode r => Some (rt_tag r)
  | BalancerNode b => Some (bal_tag b)
  | OutboundTerminalNode o | OutboundProxyNode o => Some (out_tag o)
  | _ => None
  end.

(** ['name' in data ? data.name : undefined] *)
Definition dataName (d : XrayNodeData) : option string :=
  match d with
  | DeviceNode v => Some (dev_name v)
  | SimpleServerNode s => Some (ss_name s)
  | _ => None
  end.

(** [typeof data.serverId === 'string' ? data.serverId : undefined] *)
Definition dataServerId (d : XrayNodeData) : option string :=
  match d with
  | InboundNode i => in_serverId i
  | RoutingNode r => rt_serverId r
  | BalancerNode b => bal_serverId b
  | OutboundTerminalNode o | OutboundProxyNode o => out_serverId o
  | DeviceNode v => dev_serverId v
  | SimpleServerNode s => ss_serverId s
  | SimpleInternetNode _ serverId => serverId
  | SimpleBlockNode _ serverId => serverId
  | SimpleRulesNode _ _ serverId => serverId
  end.

(** A React Flow node: [type] is the name of the component that renders
    it and [position] its place on the canvas. *)
Record GraphNode := mkNode {
  node_id : string;
  node_type : string;
  node_position : Z * Z;
  node_data : XrayNodeData }.

Record EdgeData := mkEdgeData {
  ed_priority : option Z;
  ed_label : option string;
  ed_transport : option TransportSettings }.

Record GraphEdge := mkEdge {
  edge_id : string;
  edge_source : string;
  edge_target : string;
  edge_data : option EdgeData }.

Record Server := mkServer {
  srv_id : string;
  srv_name : string;
  srv_host : string;
  srv_sshPort : Z;
  srv_sshUser : option string }.

(** [nodes.find((n) => n.id === id)] *)
Definition findNodeById (nodes : list GraphNode) (id : string) : option GraphNode :=
  find (fun n => String.eqb (node_id n) id) nodes.

(** [nodeServerMap.get(id)]: the map is built from the node list, so the
    last node with the id decides; an unknown id gives [undefined]. *)
Fixpoint serverOfId (nodes : list GraphNode) (id : string) : option string :=
  match nodes with
  | [] => None
  | n :: rest =>
      if existsb (fun m => String.eqb (node_id m) id) rest then serverOfId rest id
      else if String.eqb (node_id n) id then dataServerId (node_data n)
      else None
  end.

Definition optStr_eqb (a b : option string) : bool :=
  match a, b with
  | Some x, Some y => String.eqb x y
  | None, None => true
  | _, _ => false
  end.

Definition edgeTransport (e : GraphEdge) : option TransportSettings :=
  match edge_data e with
  | Some d => ed_transport d
  | None => None
  end.

(** A node built for examples: the component name follows the node type
    and the node sits at the origin. *)
Definition node (id : string) (d : XrayNodeData) : GraphNode :=
  mkNode id (nodeTypeName (nodeType d)) (0, 0)%Z d.

Definition edge (id source target : string) : GraphEdge :=
  mkEdge id source target None.

(* ================================================================== *)
(** * Connection rule checker ([connectionRules.ts]) *)
(* ================================================================== *)

Module ConnectionRules.

Record Verdict := mkVerdict {
  valid : bool;
  reason : option string }.

(** The table [allowed]; a source type with no entry has no row. *)
Definition allowed (sourceType : NodeType) : option (list NodeType) :=
  match sourceType with
  | device => Some [inbound; outbound_proxy]
  | inbound => Some [routing; balancer; outbound_terminal; outbound_proxy]
  | routing => Some [routing; balancer; outbound_terminal; outbound_proxy]
  | balancer => Some [outbound_terminal; outbound_proxy]
  | outbound_proxy => Some [inbound]
  | _ => None
  end.

Definition isValidConnection (sourceNode targetNode : GraphNode) : Verdict :=
  let sourceType := nodeType (node_data sourceNode) in
  let targetType := nodeType (node_data targetNode) in
  if NodeType_eqb sourceType outbound_terminal then
    mkVerdict false
      (Some "Terminal OUTPUT nodes (freedom/blackhole/dns) cannot have outgoing connections")
  else
    match allowed sourceType with
    | Some allowedTargets =>
        if existsb (NodeType_eqb targetType) allowedTargets
        then mkVerdict true None
        else mkVerdict false
               (Some ("Cannot connect " ++ nodeTypeName sourceType ++
                      " to " ++ nodeTypeName targetType))
    | None =>
        mkVerdict false
          (Some ("Cannot connect " ++ nodeTypeName sourceType ++
                 " to " ++ nodeTypeName targetType))
    end.

(** The adjacency table as the specification words it. *)
Definition specTable (s t : NodeType) : bool :=
  match s, t with
  | device, inbound | device, outbound_proxy
  | inbound, routing | inbound, balancer
  | inbound, outbound_terminal | inbound, outbound_proxy
  | routing, routing | routing, balancer
  | routing, outbound_terminal | routing, outbound_proxy
  | balancer, outbound_terminal | balancer, outbound_proxy
  | outbound_proxy, inbound => true
  | _, _ => false
  end.

(** The earlier copy of the checker kept beside the simulator: its table
    gives a device the single target [inbound]. *)
Definition allowedEarlier (sourceType : NodeType) : option (list NodeType) :=
  match sourceType with
  | device => Some [inbound]
  | other => allowed other
  end.

Definition isValidConnectionEarlier (sourceNode targetNode : GraphNode) : Verdict :=
  let sourceType := nodeType (node_data sourceNode) in
  let targetType := nodeType (node_data targetNode) in
  if NodeType_eqb sourceType outbound_terminal then
    mkVerdict false
      (Some "Terminal outbound nodes (freedom/blackhole/dns) cannot have outgoing connections")
  else
    match allowedEarlier sourceType with
    | Some allowedTargets =>
        if existsb (NodeType_eqb targetType) allowedTargets
        then mkVerdict true None
        else mkVerdict false
               (Some ("Cannot connect " ++ nodeTypeName sourceType ++
                      " to " ++ nodeTypeName targetType))
    | None =>
        mkVerdict false
          (Some ("Cannot connect " ++ nodeTypeName sourceType ++
                 " to " ++ nodeTypeName targetType))
    end.

End ConnectionRules.

(* ================================================================== *)
(** * Traffic simulator ([simulation.ts]) *)
(* ================================================================== *)

Module Simulation.

Record SimulationInput := mkInput {
  si_domain : string;
  si_protocol : RuleNetwork;
  si_port : Z;
  si_inboundTag : string }.

(** [description] is what [describeNode] returned, which is [undefined]
    for the node kinds its [switch] does not list. *)
Record SimulationStep := mkStep {
  step_nodeId : string;
  step_tag : string;
  step_nodeType : NodeType;
  step_description : option string }.

Record SimulationResult := mkResult {
  success : bool;
  path : list SimulationStep;
  highlightNodeIds : list string;
  highlightEdgeIds : list string;
  finalOutbound : option string;
  explanation : string }.

(** One value of [Math.random()]: the fraction
    [draw_num / (draw_num + draw_gap + 1)], which lies in [0, 1). *)
Record Draw := mkDraw {
  draw_num : nat;
  draw_gap : nat }.

(** [Math.floor(r * len)] *)
Definition floorScale (r : Draw) (len : nat) : nat :=
  (draw_num r * len) / (draw_num r + draw_gap r + 1).

(** An undefined value in a template literal. *)
Definition showOpt (o : option string) : string :=
  match o with
  | Some s => s
  | None => "undefined"
  end.

(** [x || '?'] *)
Definition orQuestion (o : option string) : string :=
  match o with
  | Some s => if Js.truthy s then s else "?"
  | None => "?"
  end.

Definition orQuestionZ (o : option Z) : string :=
  match o with
  | Some z => if (z =? 0)%Z then "?" else Js.showZ z
  | None => "?"
  end.

(** [Number(s)] on the strings of the port grammar: decimal digits with
    optional white space around them; the empty string is 0.  [None] is
    [NaN].  The digits are read exactly, which is what [Number] gives
    up to 2^53, where it starts to round to the nearest double; signs,
    fractions, exponents and radix prefixes are not covered and count
    as [NaN].  Statements about port rules keep to digit strings of
    value up to 2^53. *)
Definition toNumber (s : string) : option Z :=
  let t := Js.trim s in
  if Js.allChars Js.isDigit t then Some (Js.digitsValue 0 t) else None.

(** [getOutgoingEdges]: the edges leaving [nodeId], in ascending
    priority; [Array.prototype.sort] is stable. *)
Definition priorityOf (e : GraphEdge) : Z :=
  match edge_data e with
  | Some d => match ed_priority d with Some p => p | None => 999%Z end
  | None => 999%Z
  end.

Fixpoint insertByPriority (e : GraphEdge) (sorted : list GraphEdge) : list GraphEdge :=
  match sorted with
  | [] => [e]
  | x :: rest =>
      if (priorityOf e <=? priorityOf x)%Z then e :: sorted
      else x :: insertByPriority e rest
  end.

Definition sortByPriority (es : list GraphEdge) : list GraphEdge :=
  fold_right insertByPriority [] es.

Definition getOutgoingEdges (nodeId : string) (edges : list GraphEdge) : list GraphEdge :=
  sortByPriority (filter (fun e => String.eqb (edge_source e) nodeId) edges).

Definition getNodeById (nodeId : string) (nodes : list GraphNode) : option GraphNode :=
  find (fun n => String.eqb (node_id n) nodeId) nodes.

Section WithRegExp.

(** [new RegExp(pattern, 'i').test(subject)]: [None] when the
    constructor throws on the pattern. *)
Variable regexpTest : string -> string -> option bool.

Definition suffixMatch (lower target : string) : bool :=
  String.eqb lower target || Js.endsWith lower ("." ++ target).

Definition matchGeosite (geo lower : string) : bool :=
  if String.eqb geo "google" then
    Js.includes lower "google." || Js.includes lower "youtube." ||
    Js.includes lower "gmail." || Js.includes lower "gstatic."
  else if String.eqb geo "facebook" then
    Js.includes lower "facebook." || Js.includes lower "fb." ||
    Js.includes lower "instagram." || Js.includes lower "whatsapp."
  else if String.eqb geo "twitter" then
    Js.includes lower "twitter." || Js.includes lower "x.com" ||
    Js.includes lower "twimg."
  else if String.eqb geo "cn" || String.eqb geo "geolocation-cn" then
    Js.endsWith lower ".cn" || Js.includes lower "baidu." ||
    Js.includes lower "qq." || Js.includes lower "taobao." ||
    Js.includes lower "alibaba."
  else false.

Definition matchDomainRule (rule domain : string) : bool :=
  let lower := Js.toLowerCase domain in
  if Js.startsWith rule "regexp:" then
    match regexpTest (Js.slice 7 rule) lower with
    | Some b => b
    | None => false
    end
  else if Js.startsWith rule "domain:" then
    suffixMatch lower (Js.toLowerCase (Js.slice 7 rule))
  else if Js.startsWith rule "full:" then
    String.eqb lower (Js.toLowerCase (Js.slice 5 rule))
  else if Js.startsWith rule "geosite:" then
    matchGeosite (Js.toLowerCase (Js.slice 8 rule)) lower
  else
    suffixMatch lower (Js.toLowerCase rule).

Definition matchIpRule (_rule _domain : string) : bool := false.

Definition matchPortPart (part : string) (port : Z) : bool :=
  let trimmed := Js.trim part in
  if Js.includes trimmed "-" then
    match map toNumber (Js.split "-" trimmed) with
    | Some start :: Some stop :: _ => (start <=? port)%Z && (port <=? stop)%Z
    | _ => false
    end
  else
    match toNumber trimmed with
    | Some n => (n =? port)%Z
    | None => false
    end.

Definition matchPortRule (rule : string) (port : Z) : bool :=
  existsb (fun part => matchPortPart part port) (Js.split "," rule).

Definition matchProtocolRule (rules : list string) (protocol : string) : bool :=
  existsb (fun r => String.eqb (Js.toLowerCase r) (Js.toLowerCase protocol)) rules.

Definition someOpt {A : Type} (p : A -> bool) (o : option (list A)) : bool :=
  match o with
  | Some xs => existsb p xs
  | None => false
  end.

Definition doesRoutingMatch (r : RoutingData) (input : SimulationInput)
    (sourceInboundTag : string) : bool :=
  if Js.truthyOpt (rt_inboundTag r) &&
     negb (String.eqb (showOpt (rt_inboundTag r)) sourceInboundTag)
  then false
  else
    let hasDomain := Js.nonEmptyOpt (rt_domain r) in
    let hasIp := Js.nonEmptyOpt (rt_ip r) in
    let hasPort := Js.truthyOpt (rt_port r) in
    let hasProtocol := Js.nonEmptyOpt (rt_protocol r) in
    let hasNetwork := match rt_network r with Some _ => true | None => false end in
    let hasRules := hasDomain || hasIp || hasPort || hasProtocol || hasNetwork in
    let domainOk :=
      negb hasDomain ||
      someOpt (fun rule => matchDomainRule rule (si_domain input)) (rt_domain r) in
    let ipOk :=
      negb hasIp ||
      someOpt (fun rule => matchIpRule rule (si_domain input)) (rt_ip r) ||
      hasDomain in
    let portOk :=
      negb hasPort ||
      matchPortRule (showOpt (rt_port r)) (si_port input) in
    let protocolOk :=
      negb hasProtocol ||
      match rt_protocol r with
      | Some rules => matchProtocolRule rules (ruleNetworkName (si_protocol input))
      | None => false
      end in
    let networkOk :=
      match rt_network r with
      | Some n => String.eqb (ruleNetworkName n) (ruleNetworkName (si_protocol input))
      | None => true
      end in
    if negb hasRules then true
    else domainOk && ipOk && portOk && protocolOk && networkOk.

(** [xs.slice(0, 2).join(', ')] followed by ['...'] when more follow. *)
Definition firstTwo (xs : list string) : string :=
  Js.join ", " (firstn 2 xs) ++ (if (2 <? List.length xs)%nat then "..." else EmptyString).

Definition capitalize (s : string) : string :=
  Js.toUpperCase (Js.take 1 s) ++ Js.slice 1 s.

Definition describeRouting (d : RoutingData) : string :=
  let domainPart : list string :=
    match rt_domain d with
    | Some (x :: xs) => ["domain: " ++ firstTwo (x :: xs)]
    | _ => []
    end in
  let ipPart : list string :=
    match rt_ip d with
    | Some (x :: xs) => ["ip: " ++ firstTwo (x :: xs)]
    | _ => []
    end in
  let portPart : list string :=
    if Js.truthyOpt (rt_port d) then ["port: " ++ showOpt (rt_port d)] else [] in
  let protoPart : list string :=
    match rt_protocol d with
    | Some (x :: xs) => ["proto: " ++ Js.join ", " (x :: xs)]
    | _ => []
    end in
  let netPart : list string :=
    match rt_network d with
    | Some n => ["net: " ++ ruleNetworkName n]
    | None => []
    end in
  let rules := (domainPart ++ ipPart ++ portPart ++ protoPart ++ netPart)%list in
  match rules with
  | [] => "Routing [catch-all]"
  | _ => "Routing [" ++ Js.join "; " rules ++ "]"
  end.

Definition describeNode (n : GraphNode) : option string :=
  match node_data n with
  | DeviceNode d =>
      Some ("Device (" ++ connectionTypeName (dev_connectionType d) ++ ")")
  | InboundNode d =>
      Some (Js.toUpperCase (inboundProtocolName (in_protocol d)) ++
            " INPUT :" ++ Js.showZ (in_port d))
  | RoutingNode d => Some (describeRouting d)
  | BalancerNode d => Some ("Balancer (" ++ bal_strategy d ++ ")")
  | OutboundTerminalNode d =>
      Some (capitalize (out_protocol d) ++ " OUTPUT (terminal)")
  | OutboundProxyNode d =>
      Some ("OUTPUT " ++ Js.toUpperCase (out_protocol d) ++ " → " ++
            orQuestion (out_serverAddress d) ++ ":" ++
            orQuestionZ (out_serverPort d))
  | _ => None
  end.

(** ['tag' in data ? data.tag : ('name' in data ? data.name : node.id)] *)
Definition stepTag (n : GraphNode) : string :=
  match dataTag (node_data n) with
  | Some t => t
  | None =>
      match dataName (node_data n) with
      | Some nm => nm
      | None => node_id n
      end
  end.

(** The scan of an inbound node's outgoing edges: [nextEdge] is the
    loop variable of the source, and a matching routing target ends the
    scan. *)
Fixpoint scanInbound (nodes : list GraphNode) (input : SimulationInput)
    (inboundTag : string) (outgoing : list GraphEdge)
    (nextEdge : option GraphEdge) : option GraphEdge :=
  match outgoing with
  | [] => nextEdge
  | e :: rest =>
      match getNodeById (edge_target e) nodes with
      | None => scanInbound nodes input inboundTag rest nextEdge
      | Some targetNode =>
          match node_data targetNode with
          | RoutingNode r =>
              if doesRoutingMatch r input inboundTag then Some e
              else scanInbound nodes input inboundTag rest nextEdge
          | _ =>
              scanInbound nodes input inboundTag rest
                (match nextEdge with Some _ => nextEdge | None => Some e end)
          end
      end
  end.

(** The predicate of the balancer's [outgoing.filter]: reading
    [includes] of a target that has no tag throws. *)
Definition isValidTarget (nodes : list GraphNode) (selector : list string)
    (e : GraphEdge) : Completion bool :=
  match getNodeById (edge_target e) nodes with
  | None => Returned false
  | Some targetNode =>
      match selector with
      | [] => Returned true
      | _ :: _ =>
          match dataTag (node_data targetNode) with
          | Some tag =>
              Returned
                (existsb (fun sel => String.eqb tag sel || Js.includes tag sel)
                   selector)
          | None =>
              Thrown "TypeError: Cannot read properties of undefined (reading 'includes')"
          end
      end
  end.

Fixpoint validTargets (nodes : list GraphNode) (selector : list string)
    (outgoing : list GraphEdge) : Completion (list GraphEdge) :=
  match outgoing with
  | [] => Returned []
  | e :: rest =>
      match isValidTarget nodes selector e with
      | Thrown err => Thrown err
      | Returned keep =>
          match validTargets nodes selector rest with
          | Thrown err => Thrown err
          | Returned kept => Returned (if keep then e :: kept else kept)
          end
      end
  end.

(** The variables of the tracing loop; [draws] counts the calls of
    [Math.random] made so far. *)
Record LoopState := mkState {
  currentNode : GraphNode;
  visited : list string;
  st_path : list SimulationStep;
  st_nodeIds : list string;
  st_edgeIds : list string;
  draws : nat }.

(** What one turn of the loop does. *)
Inductive Turn :=
| Return (r : SimulationResult)
| Continue (s : LoopState)
| LeaveLoop (s : LoopState)
| Throw (error : string).

Definition failure (pathNow : list SimulationStep) (nodeIds edgeIds : list string)
    (why : string) : SimulationResult :=
  mkResult false pathNow nodeIds edgeIds None why.

(** [currentNode = getNodeById(nextEdge.target, nodes); continue;] *)
Definition follow (nodes : list GraphNode) (s : LoopState)
    (pathNow : list SimulationStep) (nodeIds : list string)
    (e : GraphEdge) (drawsNow : nat) : Turn :=
  let next :=
    fun n => mkState n (node_id (currentNode s) :: visited s) pathNow nodeIds
               (st_edgeIds s ++ [edge_id e])%list drawsNow in
  match getNodeById (edge_target e) nodes with
  | Some n => Continue (next n)
  | None => LeaveLoop (next (currentNode s))
  end.

(** [path[path.length - 1].description += suffix] *)
Fixpoint appendToLastDescription (p : list SimulationStep) (suffix : string)
    : list SimulationStep :=
  match p with
  | [] => []
  | [x] =>
      [mkStep (step_nodeId x) (step_tag x) (step_nodeType x)
         (Some (showOpt (step_description x) ++ suffix))]
  | x :: rest => x :: appendToLastDescription rest suffix
  end.

Definition turn (random : nat -> Draw) (input : SimulationInput)
    (nodes : list GraphNode) (edges : list GraphEdge) (s : LoopState) : Turn :=
  let cur := currentNode s in
  let data := node_data cur in
  if Js.memStr (node_id cur) (visited s) then
    Return
      (failure
         (st_path s ++
          [mkStep (node_id cur) (stepTag cur) (nodeType data)
             (Some "Cycle detected — stopping.")])%list
         (st_nodeIds s) (st_edgeIds s)
         "Traffic entered a cycle. This is likely a misconfiguration.")
  else
    let nodeIds := (st_nodeIds s ++ [node_id cur])%list in
    let pathNow :=
      (st_path s ++
       [mkStep (node_id cur) (stepTag cur) (nodeType data) (describeNode cur)])%list in
    let outgoing := getOutgoingEdges (node_id cur) edges in
    match data with
    | OutboundTerminalNode d =>
        let action :=
          if String.eqb (out_protocol d) "freedom" then "Direct connection to internet"
          else if String.eqb (out_protocol d) "blackhole" then "Traffic blocked"
          else if String.eqb (out_protocol d) "dns" then "DNS query forwarded"
          else "Unknown" in
        Return
          (mkResult true pathNow nodeIds (st_edgeIds s) (Some (out_tag d))
             (action ++ " via " ++ Js.quoted (out_tag d) ++ "."))
    | OutboundProxyNode d =>
        let stop :=
          Return
            (mkResult true pathNow nodeIds (st_edgeIds s) (Some (out_tag d))
               ("Traffic forwarded to " ++ orQuestion (out_serverAddress d) ++ ":" ++
                orQuestionZ (out_serverPort d) ++ " via " ++ Js.quoted (out_tag d) ++ ".")) in
        match outgoing with
        | nextEdge :: _ =>
            match getNodeById (edge_target nextEdge) nodes with
            | Some nextNode =>
                match node_data nextNode with
                | InboundNode _ => follow nodes s pathNow nodeIds nextEdge (draws s)
                | _ => stop
                end
            | None => stop
            end
        | [] => stop
        end
    | _ =>
        match outgoing with
        | [] =>
            Return
              (failure pathNow nodeIds (st_edgeIds s)
                 ("Dead end at " ++ Js.quoted (showOpt (dataTag data)) ++
                  " — no outgoing connections."))
        | first :: _ =>
            match data with
            | InboundNode d =>
                match scanInbound nodes input (in_tag d) outgoing None with
                | None =>
                    Return
                      (failure pathNow nodeIds (st_edgeIds s)
                         ("No routing rule matched for " ++ si_domain input ++ ":" ++
                          Js.showZ (si_port input) ++ " (" ++
                          ruleNetworkName (si_protocol input) ++ ") from " ++
                          Js.quoted (in_tag d) ++ "."))
                | Some nextEdge => follow nodes s pathNow nodeIds nextEdge (draws s)
                end
            | RoutingNode _ => follow nodes s pathNow nodeIds first (draws s)
            | BalancerNode b =>
                match validTargets nodes (bal_selector b) outgoing with
                | Thrown err => Throw err
                | Returned [] => follow nodes s pathNow nodeIds first (draws s)
                | Returned (firstValid :: moreValid) =>
                    let candidates := firstValid :: moreValid in
                    let isRandom := String.eqb (bal_strategy b) "random" in
                    let picked :=
                      if isRandom
                      then nth_error candidates
                             (floorScale (random (draws s)) (List.length candidates))
                      else Some firstValid in
                    let drawsNow := if isRandom then S (draws s) else draws s in
                    match picked with
                    | None =>
                        Throw "TypeError: Cannot read properties of undefined (reading 'target')"
                    | Some selectedEdge =>
                        let pathSel :=
                          match getNodeById (edge_target selectedEdge) nodes with
                          | Some selectedTarget =>
                              appendToLastDescription pathNow
                                (" → selected: " ++
                                 showOpt (dataTag (node_data selectedTarget)))
                          | None => pathNow
                          end in
                        follow nodes s pathSel nodeIds selectedEdge drawsNow
                    end
                end
            | _ => LeaveLoop (mkState cur (node_id cur :: visited s) pathNow nodeIds
                                (st_edgeIds s) (draws s))
            end
        end
    end.

(** The [while (currentNode)] loop, run for at most [fuel] turns; [None]
    when the turns run out. *)
Fixpoint trace (fuel : nat) (random : nat -> Draw) (input : SimulationInput)
    (nodes : list GraphNode) (edges : list GraphEdge) (s : LoopState)
    : option (Completion SimulationResult) :=
  match fuel with
  | O => None
  | S fuel' =>
      match turn random input nodes edges s with
      | Return r => Some (Returned r)
      | Throw err => Some (Thrown err)
      | LeaveLoop s' =>
          Some (Returned
                  (failure (st_path s') (st_nodeIds s') (st_edgeIds s')
                     "Simulation ended unexpectedly."))
      | Continue s' => trace fuel' random input nodes edges s'
      end
  end.

(** [runSimulation]; [random] gives the successive values of
    [Math.random].  A turn either ends the loop or visits a node for the
    first time, so one turn more than there are nodes is enough. *)
Definition runSimulation (random : nat -> Draw) (input : SimulationInput)
    (nodes : list GraphNode) (edges : list GraphEdge)
    : option (Completion SimulationResult) :=
  match
    find (fun n =>
            match node_data n with
            | InboundNode d => String.eqb (in_tag d) (si_inboundTag input)
            | _ => false
            end) nodes
  with
  | None =>
      Some (Returned
              (mkResult false [] [] [] None
                 ("INPUT " ++ Js.quoted (si_inboundTag input) ++ " not found.")))
  | Some startNode =>
      trace (S (List.length nodes)) random input nodes edges
        (mkState startNode [] [] [] [] 0)
  end.

End WithRegExp.

End Simulation.

(* ================================================================== *)
(** * Validation engine ([validation.ts]) *)
(* ================================================================== *)

Module Validation.

Inductive ValidationLevel := LevelError | LevelWarning | LevelInfo.

Definition ValidationLevel_eqb (a b : ValidationLevel) : bool :=
  match a, b with
  | LevelError, LevelError | LevelWarning, LevelWarning
  | LevelInfo, LevelInfo => true
  | _, _ => false
  end.

Record ValidationIssue := mkIssue {
  level : ValidationLevel;
  nodeId : option string;
  message : string }.

Record ValidationResult := mkValidation {
  valid : bool;
  errors : list ValidationIssue;
  warnings : list ValidationIssue;
  infos : list ValidationIssue }.

Definition issueError (id msg : string) : ValidationIssue :=
  mkIssue LevelError (Some id) msg.

Definition issueWarning (id msg : string) : ValidationIssue :=
  mkIssue LevelWarning (Some id) msg.

(** ** Helpers *)

Definition isValidPort (port : Z) : bool :=
  (1 <=? port)%Z && (port <=? 65535)%Z.

Definition isDigits (s : string) : bool :=
  negb (String.eqb s EmptyString) && Js.allChars Js.isDigit s.

(** [IP_RE]: four groups of one to three digits separated by dots. *)
Definition IP_RE_test (ip : string) : bool :=
  let parts := Js.split "." ip in
  (List.length parts =? 4)%nat &&
  forallb (fun p => isDigits p && (String.length p <=? 3)%nat) parts.

Definition isValidIP (ip : string) : bool :=
  if String.eqb ip "0.0.0.0" || String.eqb ip "127.0.0.1" then true
  else if negb (IP_RE_test ip) then false
  else forallb (fun octet =>
                  let n := Js.digitsValue 0 octet in
                  (0 <=? n)%Z && (n <=? 255)%Z)
         (Js.split "." ip).

(** [UUID_RE]: hexadecimal groups of 8, 4, 4, 4 and 12 characters. *)
Definition UUID_RE_test (s : string) : bool :=
  match Js.split "-" s with
  | [a; b; c; d; e] =>
      forallb (Js.allChars Js.isHexDigit) [a; b; c; d; e] &&
      (String.length a =? 8)%nat && (String.length b =? 4)%nat &&
      (String.length c =? 4)%nat && (String.length d =? 4)%nat &&
      (String.length e =? 12)%nat
  | _ => false
  end.

(** [PORT_RANGE_RE]: items separated by commas, each a number or two
    numbers joined by a dash. *)
Definition PORT_RANGE_RE_test (s : string) : bool :=
  forallb (fun item =>
             match Js.split "-" item with
             | [a] => isDigits a
             | [a; b] => isDigits a && isDigits b
             | _ => false
             end)
    (Js.split "," s).

(** [!s || s.trim() === ''] *)
Definition blank (s : string) : bool :=
  String.eqb (Js.trim s) EmptyString.

Definition blankOpt (o : option string) : bool :=
  match o with
  | Some s => blank s
  | None => true
  end.

(** ** Node validation *)

Definition validateUser (id : string) (protocol : InboundProtocol)
    (i : nat) (user : User) : list ValidationIssue :=
  let uuidIssue : list ValidationIssue :=
    match protocol, user_id user with
    | (InVless | InVmess), Some uid =>
        if Js.truthy uid && negb (UUID_RE_test uid)
        then [issueError id
                ("User " ++ Js.showZ (Z.of_nat (i + 1)) ++
                 " has invalid UUID: " ++ Js.quoted uid)]
        else []
    | _, _ => []
    end in
  let passwordIssue : list ValidationIssue :=
    match protocol with
    | InTrojan =>
        if blankOpt (user_password user)
        then [issueError id
                ("User " ++ Js.showZ (Z.of_nat (i + 1)) ++
                 " requires a password for Trojan")]
        else []
    | _ => []
    end in
  (uuidIssue ++ passwordIssue)%list.

Fixpoint validateUsers (id : string) (protocol : InboundProtocol)
    (i : nat) (users : list User) : list ValidationIssue :=
  match users with
  | [] => []
  | u :: rest =>
      (validateUser id protocol i u ++ validateUsers id protocol (S i) rest)%list
  end.

Definition validateInbound (n : GraphNode) (data : InboundData)
    : list ValidationIssue :=
  let id := node_id n in
  let tagIssue : list ValidationIssue :=
    if blank (in_tag data) then [issueError id "INPUT node requires a tag"] else [] in
  let portIssue : list ValidationIssue :=
    if negb (isValidPort (in_port data))
    then [issueError id
            ("Invalid port: " ++ Js.showZ (in_port data) ++ ". Must be 1-65535")]
    else [] in
  let listenIssue : list ValidationIssue :=
    if Js.truthy (in_listen data) && negb (String.eqb (in_listen data) "0.0.0.0")
       && negb (isValidIP (in_listen data))
    then [issueWarning id
            ("Listen address " ++ Js.quoted (in_listen data) ++
             " may not be a valid IP")]
    else [] in
  let userIssues : list ValidationIssue :=
    match in_protocol data with
    | InVless | InVmess | InTrojan =>
        match in_users data with
        | Some (u :: us) => validateUsers id (in_protocol data) 0 (u :: us)
        | _ =>
            [issueWarning id
               (inboundProtocolName (in_protocol data) ++
                " INPUT has no users configured")]
        end
    | _ => []
    end in
  (tagIssue ++ portIssue ++ listenIssue ++ userIssues)%list.

Definition validateRouting (n : GraphNode) (data : RoutingData)
    : list ValidationIssue :=
  let id := node_id n in
  let tagIssue : list ValidationIssue :=
    if blank (rt_tag data) then [issueError id "Routing node requires a tag"] else [] in
  let hasRules :=
    Js.nonEmptyOpt (rt_domain data) || Js.nonEmptyOpt (rt_ip data) ||
    Js.truthyOpt (rt_port data) || Js.truthyOpt (rt_inboundTag data) ||
    (match rt_network data with Some _ => true | None => false end) ||
    Js.nonEmptyOpt (rt_protocol data) in
  let rulesIssue : list ValidationIssue :=
    if negb hasRules then [issueWarning id "Routing node has no rules defined"]
    else [] in
  let portIssue : list ValidationIssue :=
    match rt_port data with
    | Some p =>
        if Js.truthy p && negb (PORT_RANGE_RE_test p)
        then [issueError id
                ("Invalid port format: " ++ Js.quoted p ++ ". Use " ++
                 Js.quoted "80,443" ++ " or " ++ Js.quoted "1000-2000")]
        else []
    | None => []
    end in
  (tagIssue ++ rulesIssue ++ portIssue)%list.

Definition validateBalancer (n : GraphNode) (data : BalancerData)
    : list ValidationIssue :=
  let id := node_id n in
  let tagIssue : list ValidationIssue :=
    if blank (bal_tag data) then [issueError id "Balancer node requires a tag"] else [] in
  let selectorIssue : list ValidationIssue :=
    match bal_selector data with
    | [] => [issueWarning id
               "Balancer has no selectors — connections will define targets"]
    | _ => []
    end in
  (tagIssue ++ selectorIssue)%list.

Definition validateOutbound (n : GraphNode) (data : OutboundData)
    (nodeTypeOf : NodeType) : list ValidationIssue :=
  let id := node_id n in
  let tagIssue : list ValidationIssue :=
    if blank (out_tag data) then [issueError id "OUTPUT node requires a tag"] else [] in
  let proxyIssues : list ValidationIssue :=
    if NodeType_eqb nodeTypeOf outbound_proxy then
      ((if blankOpt (out_serverAddress data)
        then [issueError id "Proxy OUTPUT requires a server address"] else []) ++
       (match out_serverPort data with
        | Some p =>
            if (p =? 0)%Z || negb (isValidPort p)
            then [issueError id "Proxy OUTPUT requires a valid server port (1-65535)"]
            else []
        | None => [issueError id "Proxy OUTPUT requires a valid server port (1-65535)"]
        end))%list
    else [] in
  (tagIssue ++ proxyIssues)%list.

Definition validateSimpleServer (n : GraphNode) (data : SimpleServerData)
    : list ValidationIssue :=
  let id := node_id n in
  let hostIssue : list ValidationIssue :=
    if blank (ss_host data) then [issueError id "Server requires a host address"] else [] in
  let portIssue : list ValidationIssue :=
    if negb (isValidPort (ss_port data))
    then [issueError id
            ("Invalid port: " ++ Js.showZ (ss_port data) ++ ". Must be 1-65535")]
    else [] in
  let uuidIssue : list ValidationIssue :=
    match ss_protocol data with
    | SsVless | SsVmess =>
        if blankOpt (ss_uuid data)
        then [issueWarning id
                (simpleServerProtocolName (ss_protocol data) ++
                 " server should have a UUID configured")]
        else
          match ss_uuid data with
          | Some u =>
              if negb (UUID_RE_test u)
              then [issueError id ("Invalid UUID: " ++ Js.quoted u)] else []
          | None => []
          end
    | _ => []
    end in
  let passwordIssue : list ValidationIssue :=
    match ss_protocol data with
    | SsTrojan | SsShadowsocks =>
        if blankOpt (ss_password data)
        then [issueWarning id
                (simpleServerProtocolName (ss_protocol data) ++
                 " server should have a password configured")]
        else []
    | _ => []
    end in
  let realityIssues : list ValidationIssue :=
    match ss_security data with
    | SecReality =>
        ((match ss_network data with
          | NetRaw | NetXhttp => []
          | other =>
              [issueError id
                 ("Reality security only works with RAW or XHTTP transport (currently: "
                  ++ networkName other ++ ")")]
          end) ++
         (if negb (Js.truthyOpt (ss_realityPublicKey data))
          then [issueError id "Reality security requires a public key"] else []))%list
    | _ => []
    end in
  let tlsIssue : list ValidationIssue :=
    match ss_security data with
    | SecTls =>
        if negb (Js.truthyOpt (ss_sni data))
        then [issueWarning id "TLS security should have an SNI configured"] else []
    | _ => []
    end in
  let wsIssue : list ValidationIssue :=
    match ss_network data with
    | NetWs =>
        if negb (Js.truthyOpt (ss_wsPath data))
        then [issueWarning id "WebSocket transport should have a path configured"]
        else []
    | _ => []
    end in
  let grpcIssue : list ValidationIssue :=
    match ss_network data with
    | NetGrpc =>
        if negb (Js.truthyOpt (ss_grpcServiceName data))
        then [issueWarning id "gRPC transport should have a service name configured"]
        else []
    | _ => []
    end in
  (hostIssue ++ portIssue ++ uuidIssue ++ passwordIssue ++ realityIssues ++
   tlsIssue ++ wsIssue ++ grpcIssue)%list.

Fixpoint validateSimpleRuleList (id : string) (i : nat)
    (rules : list SimpleRuleCondition) : list ValidationIssue :=
  match rules with
  | [] => []
  | r :: rest =>
      let here : list ValidationIssue :=
        match sr_type r with
        | SrAll => []
        | other =>
            if blank (sr_value r)
            then [issueError id
                    ("Rule " ++ Js.showZ (Z.of_nat (i + 1)) ++ " (" ++
                     simpleRuleTypeName other ++ ") has no value")]
            else []
        end in
      (here ++ validateSimpleRuleList id (S i) rest)%list
  end.

Definition validateSimpleRules (n : GraphNode) (rules : list SimpleRuleCondition)
    : list ValidationIssue :=
  match rules with
  | [] => [issueWarning (node_id n)
             "Rules node has no rules defined — will match nothing"]
  | _ => validateSimpleRuleList (node_id n) 0 rules
  end.

(** ** Transport validation *)

Definition validateTransport (id : string) (t : TransportSettings)
    : list ValidationIssue :=
  let realityNetwork : list ValidationIssue :=
    match security t, network t with
    | SecReality, (NetWs | NetGrpc) =>
        [issueError id
           ("Reality security only works with RAW or XHTTP transport (currently: "
            ++ networkName (network t) ++ ")")]
    | _, _ => []
    end in
  let wsIssue : list ValidationIssue :=
    match network t with
    | NetWs =>
        if negb (Js.truthyOpt
                   (match wsSettings t with Some w => ws_path w | None => None end))
        then [issueWarning id "WebSocket transport should have a path configured"]
        else []
    | _ => []
    end in
  let grpcIssue : list ValidationIssue :=
    match network t with
    | NetGrpc =>
        if negb (Js.truthyOpt
                   (match grpcSettings t with
                    | Some g => grpc_serviceName g | None => None end))
        then [issueWarning id "gRPC transport should have a serviceName configured"]
        else []
    | _ => []
    end in
  let tlsIssue : list ValidationIssue :=
    match security t with
    | SecTls =>
        if negb (Js.truthyOpt
                   (match tlsSettings t with
                    | Some s => tls_serverName s | None => None end))
        then [issueWarning id "TLS security should have a serverName configured"]
        else []
    | _ => []
    end in
  let realityIssues : list ValidationIssue :=
    match security t with
    | SecReality =>
        let field := fun (get : RealitySettings -> option string) =>
          Js.truthyOpt
            (match realitySettings t with Some r => get r | None => None end) in
        ((if negb (field reality_publicKey)
          then [issueError id "Reality security requires a publicKey"] else []) ++
         (if negb (field reality_shortId)
          then [issueWarning id "Reality security should have a shortId configured"]
          else []) ++
         (if negb (field reality_serverName)
          then [issueWarning id "Reality security should have a serverName configured"]
          else []))%list
    | _ => []
    end in
  (realityNetwork ++ wsIssue ++ grpcIssue ++ tlsIssue ++ realityIssues)%list.

(** ** Structural validation *)

(** The map from tag to the ids of the nodes that carry it. *)
Definition tagMap (nodes : list GraphNode) : list (string * list string) :=
  fold_left
    (fun m n =>
       match dataTag (node_data n) with
       | Some tag => if negb (blank tag) then Js.pushTo tag (node_id n) m else m
       | None => m
       end)
    nodes [].

(** The map from port to the ids of the inbound nodes that listen on it. *)
Definition portMap (nodes : list GraphNode) : list (string * list string) :=
  fold_left
    (fun m n =>
       match node_data n with
       | InboundNode d => Js.pushTo (Js.showZ (in_port d)) (node_id n) m
       | _ => m
       end)
    nodes [].

(** [m.forEach]: an issue for every id of every entry that holds more
    than one id. *)
Definition sharedEntries (describe : string -> string)
    (m : list (string * list string)) : list ValidationIssue :=
  flat_map
    (fun entry =>
       let '(key, ids) := entry in
       if (1 <? List.length ids)%nat
       then map (fun id => issueError id (describe key)) ids
       else [])
    m.

Definition nodesOfType (t : NodeType) (nodes : list GraphNode) : list GraphNode :=
  filter (fun n => NodeType_eqb (nodeType (node_data n)) t) nodes.

Definition hasOutgoing (edges : list GraphEdge) (id : string) : bool :=
  existsb (fun e => String.eqb (edge_source e) id) edges.

Definition hasIncoming (edges : list GraphEdge) (id : string) : bool :=
  existsb (fun e => String.eqb (edge_target e) id) edges.

(** A warning with [msg] for each of [ns] that [ok] rejects. *)
Definition warnUnless (ok : string -> bool) (msg : string) (ns : list GraphNode)
    : list ValidationIssue :=
  flat_map (fun n => if ok (node_id n) then [] else [issueWarning (node_id n) msg]) ns.

Definition hasUpstreamProxy (nodes : list GraphNode) (edges : list GraphEdge)
    (id : string) : bool :=
  existsb
    (fun e =>
       if negb (String.eqb (edge_target e) id) then false
       else
         match findNodeById nodes (edge_source e) with
         | None => false
         | Some sourceNode =>
             NodeType_eqb (nodeType (node_data sourceNode)) outbound_proxy
         end)
    edges.

(** The protocol check of the edges leaving one device. *)
Definition deviceIssues (nodes : list GraphNode) (edges : list GraphEdge)
    (dev : GraphNode) : list ValidationIssue :=
  match node_data dev with
  | DeviceNode deviceData =>
      let connType := dev_connectionType deviceData in
      flat_map
        (fun e =>
           match findNodeById nodes (edge_target e) with
           | None => []
           | Some targetNode =>
               match node_data targetNode with
               | OutboundProxyNode outboundData =>
                   let outboundProtocol := out_protocol outboundData in
                   let requiredProtocol :=
                     match connType with ConnHttp => "http" | _ => "socks" end in
                   if negb (String.eqb outboundProtocol requiredProtocol) then
                     [issueError (node_id dev)
                        ("Device with " ++ Js.quoted (connectionTypeName connType) ++
                         " connection must connect to a " ++
                         Js.quoted requiredProtocol ++ " OUTPUT, but " ++
                         Js.quoted (out_tag outboundData) ++ " uses " ++
                         Js.quoted outboundProtocol);
                      issueError (node_id targetNode)
                        ("OUTPUT protocol " ++ Js.quoted outboundProtocol ++
                         " is incompatible with connected device using " ++
                         Js.quoted (connectionTypeName connType) ++ ". Expected " ++
                         Js.quoted requiredProtocol)]
                   else []
               | _ => []
               end
           end)
        (filter (fun e => String.eqb (edge_source e) (node_id dev)) edges)
  | _ => []
  end.

(** [outgoing.some((e) => reach(e.target))], where [reach] updates the
    set of visited ids: the scan stops at the first edge that succeeds
    and hands the set on from edge to edge. *)
Fixpoint someReach (reach : string -> list string -> option (bool * list string))
    (outgoing : list GraphEdge) (seen : list string)
    : option (bool * list string) :=
  match outgoing with
  | [] => Some (false, seen)
  | e :: rest =>
      match reach (edge_target e) seen with
      | None => None
      | Some (true, seen') => Some (true, seen')
      | Some (false, seen') => someReach reach rest seen'
      end
  end.

(** [canReachOutbound]: [visited] is the set shared by the whole search,
    so it is threaded through the calls.  [fuel] bounds the depth of the
    recursion; [None] when it runs out. *)
Fixpoint canReachOutbound (fuel : nat) (nodeId : string) (edges : list GraphEdge)
    (outboundIds : list string) (visited : list string)
    : option (bool * list string) :=
  match fuel with
  | O => None
  | S fuel' =>
      if Js.memStr nodeId outboundIds then Some (true, visited)
      else if Js.memStr nodeId visited then Some (false, visited)
      else
        someReach
          (fun target seen => canReachOutbound fuel' target edges outboundIds seen)
          (filter (fun e => String.eqb (edge_source e) nodeId) edges)
          (nodeId :: visited)
  end.

(** The depth of a search never exceeds the number of ids it can visit:
    the start and the targets of the edges. *)
Definition reachFuel (edges : list GraphEdge) : nat := 2 + List.length edges.

Fixpoint reachabilityIssues (inbounds : list GraphNode) (edges : list GraphEdge)
    (terminalIds : list string) : option (list ValidationIssue) :=
  match inbounds with
  | [] => Some []
  | n :: rest =>
      match canReachOutbound (reachFuel edges) (node_id n) edges terminalIds [] with
      | None => None
      | Some (reached, _) =>
          match reachabilityIssues rest edges terminalIds with
          | None => None
          | Some more =>
              Some ((if reached then []
                     else [issueWarning (node_id n)
                             "INPUT node cannot reach any terminal OUTPUT (Freedom/Blackhole/DNS). Traffic has no final destination."])
                    ++ more)%list
          end
      end
  end.

(** ** Cycle detection *)

(** [nodeTypes.get(id)]: the map is filled in node order, so the last
    node with the id decides. *)
Fixpoint nodeTypeOfId (nodes : list GraphNode) (id : string) : option NodeType :=
  match nodes with
  | [] => None
  | n :: rest =>
      match nodeTypeOfId rest id with
      | Some t => Some t
      | None =>
          if String.eqb (node_id n) id then Some (nodeType (node_data n)) else None
      end
  end.

Definition isProxyChainEdge (nodes : list GraphNode) (e : GraphEdge) : bool :=
  match nodeTypeOfId nodes (edge_source e), nodeTypeOfId nodes (edge_target e) with
  | Some outbound_proxy, Some inbound => true
  | _, _ => false
  end.

(** [adjacency.get(id) || []]: the targets of the edges that leave a node
    with this id, the proxy chain edges left out. *)
Definition neighborsOf (nodes : list GraphNode) (edges : list GraphEdge)
    (id : string) : list string :=
  match nodeTypeOfId nodes id with
  | None => []
  | Some _ =>
      map edge_target
        (filter (fun e => String.eqb (edge_source e) id &&
                          negb (isProxyChainEdge nodes e)) edges)
  end.

(** The sets and the issue list that [dfs] updates. *)
Record DfsState := mkDfs {
  dfs_visited : list string;
  inStack : list string;
  dfs_issues : list ValidationIssue }.

Definition removeStr (x : string) (xs : list string) : list string :=
  filter (fun y => negb (String.eqb y x)) xs.

Definition cycleIssue (id : string) : ValidationIssue :=
  issueError id "Cycle detected in graph — traffic would loop indefinitely".

(** The loop of [dfs] over the neighbors of [id]: the first neighbor on
    which [search] finds a cycle ends the loop with an issue on [id];
    when none does, [id] leaves the stack. *)
Fixpoint eachNeighbor (search : string -> DfsState -> option (bool * DfsState))
    (id : string) (neighbors : list string) (s : DfsState)
    : option (bool * DfsState) :=
  match neighbors with
  | [] =>
      Some (false, mkDfs (dfs_visited s) (removeStr id (inStack s)) (dfs_issues s))
  | neighbor :: rest =>
      match search neighbor s with
      | None => None
      | Some (true, s') =>
          Some (true,
                mkDfs (dfs_visited s') (inStack s')
                  (dfs_issues s' ++ [cycleIssue id])%list)
      | Some (false, s') => eachNeighbor search id rest s'
      end
  end.

(** [dfs]: [fuel] bounds the depth of the recursion. *)
Fixpoint dfs (fuel : nat) (nodes : list GraphNode) (edges : list GraphEdge)
    (id : string) (s : DfsState) : option (bool * DfsState) :=
  match fuel with
  | O => None
  | S fuel' =>
      if Js.memStr id (inStack s) then Some (true, s)
      else if Js.memStr id (dfs_visited s) then Some (false, s)
      else
        eachNeighbor (dfs fuel' nodes edges) id (neighborsOf nodes edges id)
          (mkDfs (id :: dfs_visited s) (id :: inStack s) (dfs_issues s))
  end.

Definition dfsFuel (nodes : list GraphNode) (edges : list GraphEdge) : nat :=
  1 + List.length nodes + List.length edges.

(** The loop over the nodes that starts a search at each one not yet
    visited. *)
Fixpoint dfsRoots (fuel : nat) (nodes : list GraphNode) (edges : list GraphEdge)
    (roots : list GraphNode) (s : DfsState) : option DfsState :=
  match roots with
  | [] => Some s
  | n :: rest =>
      if Js.memStr (node_id n) (dfs_visited s)
      then dfsRoots fuel nodes edges rest s
      else
        match dfs fuel nodes edges (node_id n) s with
        | None => None
        | Some (_, s') => dfsRoots fuel nodes edges rest s'
        end
  end.

Definition detectCycles (nodes : list GraphNode) (edges : list GraphEdge)
    : option (list ValidationIssue) :=
  match dfsRoots (dfsFuel nodes edges) nodes edges nodes (mkDfs [] [] []) with
  | None => None
  | Some s => Some (dfs_issues s)
  end.

Definition validateStructure (nodes : list GraphNode) (edges : list GraphEdge)
    : option (list ValidationIssue) :=
  let inboundNodes := nodesOfType inbound nodes in
  let proxyNodes := nodesOfType outbound_proxy nodes in
  let terminalNodes := nodesOfType outbound_terminal nodes in
  let duplicateTags :=
    sharedEntries (fun tag => "Duplicate tag: " ++ Js.quoted tag) (tagMap nodes) in
  let portConflicts :=
    sharedEntries
      (fun port => "Port conflict: port " ++ port ++ " used by multiple INPUT nodes")
      (portMap nodes) in
  let noOutgoing :=
    warnUnless (hasOutgoing edges) "INPUT node has no outgoing connections"
      inboundNodes in
  let noUpstream :=
    warnUnless (hasUpstreamProxy nodes edges)
      "No upstream OUTPUT connects to this INPUT. It's OK if you're just planning the infrastructure side."
      inboundNodes in
  let deviceProtocol :=
    flat_map (deviceIssues nodes edges) (nodesOfType device nodes) in
  let terminalIncoming :=
    warnUnless (hasIncoming edges) "Terminal OUTPUT has no incoming connections"
      terminalNodes in
  let proxyIncoming :=
    warnUnless (hasIncoming edges) "Proxy OUTPUT has no incoming connections"
      proxyNodes in
  let proxyDeadEnd :=
    warnUnless (hasOutgoing edges)
      "Proxy OUTPUT is a dead-end — no connection to a downstream INPUT node. In infrastructure mode, connect it to an INPUT on the exit server."
      proxyNodes in
  let serverIncoming :=
    warnUnless (hasIncoming edges) "Server has no incoming connections"
      (nodesOfType simple_server nodes) in
  let simpleTerminalIncoming :=
    warnUnless (hasIncoming edges) "Terminal node has no incoming connections"
      (filter (fun n =>
                 NodeType_eqb (nodeType (node_data n)) simple_internet ||
                 NodeType_eqb (nodeType (node_data n)) simple_block) nodes) in
  match reachabilityIssues inboundNodes edges (map node_id terminalNodes) with
  | None => None
  | Some unreachable =>
      match detectCycles nodes edges with
      | None => None
      | Some cycles =>
          Some (duplicateTags ++ portConflicts ++ noOutgoing ++ noUpstream ++
                deviceProtocol ++ terminalIncoming ++ proxyIncoming ++
                proxyDeadEnd ++ serverIncoming ++ simpleTerminalIncoming ++
                unreachable ++ cycles)%list
      end
  end.

(** ** Cross-reference validation *)

(** [allTags]: a [Set], so each tag appears once, in first-seen order. *)
Definition allTags (nodes : list GraphNode) : list string :=
  fold_left
    (fun tags n =>
       match dataTag (node_data n) with
       | Some tag =>
           if Js.truthy tag && negb (Js.memStr tag tags) then (tags ++ [tag])%list
           else tags
       | None => tags
       end)
    nodes [].

(** The second loop of [validateConfig]. *)
Definition danglingInboundTags (tags : list string) (nodes : list GraphNode)
    : list ValidationIssue :=
  flat_map
    (fun n =>
       match node_data n with
       | RoutingNode d =>
           match rt_inboundTag d with
           | Some t =>
               if Js.truthy t && negb (Js.memStr t tags)
               then [issueWarning (node_id n)
                       ("Routing references inboundTag " ++ Js.quoted t ++
                        " which doesn't match any INPUT tag")]
               else []
           | None => []
           end
       | _ => []
       end)
    nodes.

(** One turn of the third loop of [validateConfig], on a node whose
    balancer data has its selector. *)
Definition selectorIssues (tags : list string) (n : GraphNode) : list ValidationIssue :=
  match node_data n with
  | BalancerNode d =>
      flat_map
        (fun sel =>
           if existsb (fun tag => Js.startsWith tag sel) tags then []
           else [issueWarning (node_id n)
                   ("Balancer selector " ++ Js.quoted sel ++
                    " doesn't match any OUTPUT tag")])
        (bal_selector d)
  | _ => []
  end.

Definition validateConfig (nodes : list GraphNode) (_edges : list GraphEdge)
    : list ValidationIssue :=
  let tags := allTags nodes in
  (danglingInboundTags tags nodes ++ flat_map (selectorIssues tags) nodes)%list.

(** ** The main function *)

Definition validateNode (n : GraphNode) : list ValidationIssue :=
  match node_data n with
  | InboundNode d => validateInbound n d
  | RoutingNode d => validateRouting n d
  | BalancerNode d => validateBalancer n d
  | OutboundTerminalNode d => validateOutbound n d outbound_terminal
  | OutboundProxyNode d => validateOutbound n d outbound_proxy
  | SimpleServerNode d => validateSimpleServer n d
  | SimpleRulesNode _ rules _ => validateSimpleRules n rules
  | _ => []
  end.

Definition validateEdges (nodes : list GraphNode) (edges : list GraphEdge)
    : list ValidationIssue :=
  flat_map
    (fun e =>
       if optStr_eqb (serverOfId nodes (edge_source e))
                     (serverOfId nodes (edge_target e))
       then []
       else
         match edgeTransport e with
         | Some t => validateTransport (edge_source e) t
         | None => []
         end)
    edges.

Definition hasLevel (l : ValidationLevel) (i : ValidationIssue) : bool :=
  ValidationLevel_eqb (level i) l.

(** [validateGraph]: [None] stands for a search that ran out of fuel. *)
Definition validateGraph (nodes : list GraphNode) (edges : list GraphEdge)
    : option ValidationResult :=
  match validateStructure nodes edges with
  | None => None
  | Some structural =>
      let issues :=
        (flat_map validateNode nodes ++ validateEdges nodes edges ++
         structural ++ validateConfig nodes edges)%list in
      let errs := filter (hasLevel LevelError) issues in
      Some (mkValidation
              (match errs with [] => true | _ => false end)
              errs
              (filter (hasLevel LevelWarning) issues)
              (filter (hasLevel LevelInfo) issues))
  end.

(** ** Graphs that were never checked against the schemas *)

(** [validateGraph] also runs on graphs that no schema has seen:
    [importProjectFile] casts the nodes of a project file as they are
    ([project.nodes as unknown as XrayNode[]]).  The one field of the
    declared types whose absence the validator stumbles over is the
    [selector] of a balancer, so a node at run time is a node of the
    declared type or a balancer node whose data has no [selector]. *)
Module Unchecked.

Inductive Node :=
| Declared (n : GraphNode)
| BalancerWithoutSelector (id type : string) (position : Z * Z)
    (tag strategy : string) (serverId : option string).

(** The node as the code that never reads [selector] sees it. *)
Definition seen (u : Node) : GraphNode :=
  match u with
  | Declared n => n
  | BalancerWithoutSelector id type position tag strategy serverId =>
      mkNode id type position (BalancerNode (mkBalancer tag strategy [] serverId))
  end.

(** [validateBalancer] tests [!data.selector || data.selector.length
    === 0]: a missing selector gets the warning of an empty one, which
    is what [validateNode] gives on [seen]. *)
Definition validateNode (u : Node) : list ValidationIssue :=
  Validation.validateNode (seen u).

(** The third loop of [validateConfig] reads [data.selector.length]
    of every balancer without a test. *)
Fixpoint selectorLoop (tags : list string) (nodes : list Node)
    : Completion (list ValidationIssue) :=
  match nodes with
  | [] => Returned []
  | u :: rest =>
      match u with
      | BalancerWithoutSelector _ _ _ _ _ _ =>
          Thrown "TypeError: Cannot read properties of undefined (reading 'length')"
      | Declared n =>
          match selectorLoop tags rest with
          | Thrown err => Thrown err
          | Returned more => Returned (selectorIssues tags n ++ more)%list
          end
      end
  end.

Definition validateConfig (nodes : list Node) (_edges : list GraphEdge)
    : Completion (list ValidationIssue) :=
  let tags := allTags (map seen nodes) in
  let dangling := danglingInboundTags tags (map seen nodes) in
  match selectorLoop tags nodes with
  | Thrown err => Thrown err
  | Returned selectors => Returned (dangling ++ selectors)%list
  end.

(** [validateGraph]: nothing in it catches, so what [validateConfig]
    throws reaches the caller; [None] stands for a search that ran out
    of fuel. *)
Definition validateGraph (nodes : list Node) (edges : list GraphEdge)
    : option (Completion ValidationResult) :=
  let nodeIssues := flat_map validateNode nodes in
  let edgeIssues := validateEdges (map seen nodes) edges in
  match validateStructure (map seen nodes) edges with
  | None => None
  | Some structural =>
      match validateConfig nodes edges with
      | Thrown err => Some (Thrown err)
      | Returned configIssues =>
          let issues :=
            (nodeIssues ++ edgeIssues ++ structural ++ configIssues)%list in
          let errs := filter (hasLevel LevelError) issues in
          Some (Returned
                  (mkValidation
                     (match errs with [] => true | _ => false end)
                     errs
                     (filter (hasLevel LevelWarning) issues)
                     (filter (hasLevel LevelInfo) issues)))
      end
  end.

End Unchecked.

(** ** The validation hook ([useValidation.ts]) *)

Definition emptyResult : ValidationResult := mkValidation true [] [] [].

(** The body of the timer callback: the value is the one handed to
    [setResult], the result of [validateGraph] in the [try] branch and
    the empty valid result in the [catch] branch. *)
Definition useValidationCallback (nodes : list Unchecked.Node)
    (edges : list GraphEdge) : option ValidationResult :=
  match Unchecked.validateGraph nodes edges with
  | Some (Returned result) => Some result
  | Some (Thrown _) => Some emptyResult
  | None => None
  end.

End Validation.

(* ================================================================== *)
(** * Wire-format document *)
(* ================================================================== *)

(** The document both compilers share.  Its fields are the keys of the
    JSON text: a key that is missing, or that [JSON.stringify] drops
    because it holds [undefined], is [None].  [JSON.parse] of the text
    [JSON.stringify] writes for a document gives the document back. *)
Module Config.

Record Client := mkClient {
  client_id : option string;
  client_password : option string;
  client_email : option string;
  client_level : option Z }.

Record InboundSettings := mkInboundSettings {
  clients : option (list Client);
  decryption : option string;
  in_method : option string;
  in_password : option string;
  auth : option string;
  udp : option bool;
  followRedirect : option bool }.

Definition emptyInboundSettings : InboundSettings :=
  mkInboundSettings None None None None None None None.

Record Sniffing := mkSniffing {
  enabled : bool;
  destOverride : option (list string) }.

Record StreamSettings := mkStream {
  stream_network : option string;
  stream_security : option string;
  stream_ws : option WsSettings;
  stream_grpc : option GrpcSettings;
  stream_xhttp : option XhttpSettings;
  stream_tls : option TlsSettings;
  stream_reality : option RealitySettings }.

(** The object [{}]. *)
Definition emptyStream : StreamSettings :=
  mkStream None None None None None None None.

(** [Object.keys(stream).length] *)
Definition streamKeys (s : StreamSettings) : nat :=
  let count := fun {A : Type} (o : option A) =>
    match o with Some _ => 1 | None => 0 end in
  count (stream_network s) + count (stream_security s) + count (stream_ws s) +
  count (stream_grpc s) + count (stream_xhttp s) + count (stream_tls s) +
  count (stream_reality s).

Record XrayInbound := mkXrayInbound {
  xin_tag : string;
  xin_protocol : string;
  xin_listen : option string;
  xin_port : option Z;
  xin_settings : option InboundSettings;
  xin_sniffing : option Sniffing;
  xin_streamSettings : option StreamSettings }.

Record OutboundUser := mkOutboundUser {
  ou_id : string;
  ou_encryption : option string;
  ou_security : option string }.

Record ServerEntry := mkServerEntry {
  se_address : option string;
  se_port : option Z;
  se_users : option (list OutboundUser);
  se_method : option string;
  se_password : option string }.

Record OutboundSettings := mkOutboundSettings {
  out_domainStrategy : option string;
  responseType : option string;
  vnext : option (list ServerEntry);
  servers : option (list ServerEntry) }.

Record XrayOutbound := mkXrayOutbound {
  xout_tag : string;
  xout_protocol : string;
  xout_settings : option OutboundSettings;
  xout_streamSettings : option StreamSettings;
  proxySettingsTag : option string }.

Record XrayRoutingRule := mkRule {
  rule_type : option string;
  rule_domain : option (list string);
  rule_ip : option (list string);
  rule_port : option string;
  rule_protocol : option (list string);
  rule_network : option string;
  rule_inboundTag : option (list string);
  rule_outboundTag : option string;
  rule_balancerTag : option string }.

(** The reverse compiler reads [balancer.selector || []], so it counts
    with a balancer that has no selector. *)
Record XrayBalancer := mkXrayBalancer {
  xbal_tag : string;
  xbal_selector : option (list string);
  xbal_strategyType : option string }.

Record XrayRouting := mkXrayRouting {
  routing_domainStrategy : option string;
  routing_rules : option (list XrayRoutingRule);
  routing_balancers : option (list XrayBalancer) }.

Record XrayConfig := mkConfig {
  cfg_loglevel : option string;
  cfg_inbounds : option (list XrayInbound);
  cfg_outbounds : option (list XrayOutbound);
  cfg_routing : option XrayRouting }.

End Config.

(* ================================================================== *)
(** * Forward compiler ([exportConfig.ts]) *)
(* ================================================================== *)

Module ExportConfig.
Import Config.

Record ExportResult := mkExport {
  filename : string;
  config : XrayConfig }.

(** [...(s && { key: s })]: the key is present when the string is
    truthy. *)
Definition keepTruthy (o : option string) : option string :=
  match o with
  | Some s => if Js.truthy s then Some s else None
  | None => None
  end.

Definition keepNonEmpty {A : Type} (o : option (list A)) : option (list A) :=
  match o with
  | Some (x :: xs) => Some (x :: xs)
  | _ => None
  end.

(** ** Stream settings *)

Definition wireNetwork (n : Network) : string :=
  match n with
  | NetRaw => "tcp"
  | other => networkName other
  end.

Definition buildStreamSettings (transport : option TransportSettings)
    : StreamSettings :=
  match transport with
  | None => emptyStream
  | Some t =>
      let stream :=
        mkStream
          (Some (wireNetwork (network t)))
          (Some (securityName (security t)))
          (match network t, wsSettings t with
           | NetWs, Some w =>
               Some (mkWs (keepTruthy (ws_path w)) (keepNonEmpty (ws_headers w)))
           | _, _ => None
           end)
          (match network t, grpcSettings t with
           | NetGrpc, Some g =>
               Some (mkGrpc (keepTruthy (grpc_serviceName g)) (grpc_multiMode g))
           | _, _ => None
           end)
          (match network t, xhttpSettings t with
           | NetXhttp, Some x =>
               Some (mkXhttp (keepTruthy (xhttp_path x)) (keepTruthy (xhttp_host x)))
           | _, _ => None
           end)
          (match security t, tlsSettings t with
           | SecTls, Some l =>
               Some (mkTls (keepTruthy (tls_serverName l))
                       (keepNonEmpty (tls_alpn l))
                       (keepTruthy (tls_fingerprint l)))
           | _, _ => None
           end)
          (match security t, realitySettings t with
           | SecReality, Some r =>
               Some (mkReality (keepTruthy (reality_serverName r))
                       (keepTruthy (reality_fingerprint r))
                       (keepTruthy (reality_publicKey r))
                       (keepTruthy (reality_shortId r))
                       (keepTruthy (reality_spiderX r)))
           | _, _ => None
           end) in
      if String.eqb (wireNetwork (network t)) "tcp" &&
         String.eqb (securityName (security t)) "none" &&
         (streamKeys stream =? 2)%nat
      then emptyStream
      else stream
  end.

(** [if (Object.keys(streamSettings).length > 0) x.streamSettings = ...] *)
Definition streamBlock (s : StreamSettings) : option StreamSettings :=
  if (0 <? streamKeys s)%nat then Some s else None.

(** ** Inbound and outbound settings *)

Definition clientsOr (fallback : Client) (cs : list Client) : list Client :=
  match cs with
  | [] => [fallback]
  | _ => cs
  end.

Definition idClient (u : User) : Client :=
  mkClient (user_id u) None (Some (user_email u)) (user_level u).

Definition passwordClient (u : User) : Client :=
  mkClient None (user_password u) (Some (user_email u)) (user_level u).

Definition usersOf (data : InboundData) : list User :=
  match in_users data with
  | Some us => us
  | None => []
  end.

Definition buildInboundSettings (data : InboundData) : InboundSettings :=
  let defaultId := mkClient (Some EmptyString) None (Some "default") None in
  let defaultPassword := mkClient None (Some EmptyString) (Some "default") None in
  match in_protocol data with
  | InVless =>
      mkInboundSettings (Some (clientsOr defaultId (map idClient (usersOf data))))
        (Some "none") None None None None None
  | InVmess =>
      mkInboundSettings (Some (clientsOr defaultId (map idClient (usersOf data))))
        None None None None None None
  | InTrojan =>
      mkInboundSettings
        (Some (clientsOr defaultPassword (map passwordClient (usersOf data))))
        None None None None None None
  | InShadowsocks =>
      mkInboundSettings None None (Some "aes-256-gcm") (Some EmptyString)
        None None None
  | InSocks => mkInboundSettings None None None None (Some "noauth") None None
  | InHttp => emptyInboundSettings
  | InDokodemo => mkInboundSettings None None None None None None (Some true)
  end.

(** [data.serverAddress || ''] and [data.serverPort || fallback] *)
Definition addressOrEmpty (o : option string) : string :=
  match o with Some s => s | None => EmptyString end.

Definition portOr (fallback : Z) (o : option Z) : Z :=
  match o with
  | Some p => if (p =? 0)%Z then fallback else p
  | None => fallback
  end.

Definition serverEntry (data : OutboundData) (fallbackPort : Z)
    (users : option (list OutboundUser)) (method password : option string)
    : ServerEntry :=
  mkServerEntry (Some (addressOrEmpty (out_serverAddress data)))
    (Some (portOr fallbackPort (out_serverPort data))) users method password.

Definition buildOutboundSettings (data : OutboundData) : option OutboundSettings :=
  let p := out_protocol data in
  if String.eqb p "freedom" then
    Some (mkOutboundSettings (Some "UseIP") None None None)
  else if String.eqb p "blackhole" then
    Some (mkOutboundSettings None (Some "none") None None)
  else if String.eqb p "dns" then
    Some (mkOutboundSettings None None None None)
  else if String.eqb p "vless" then
    Some (mkOutboundSettings None None
            (Some [serverEntry data 443
                     (Some [mkOutboundUser EmptyString (Some "none") None])
                     None None])
            None)
  else if String.eqb p "vmess" then
    Some (mkOutboundSettings None None
            (Some [serverEntry data 443
                     (Some [mkOutboundUser EmptyString None (Some "auto")])
                     None None])
            None)
  else if String.eqb p "trojan" then
    Some (mkOutboundSettings None None None
            (Some [serverEntry data 443 None None (Some EmptyString)]))
  else if String.eqb p "shadowsocks" then
    Some (mkOutboundSettings None None None
            (Some [serverEntry data 443 None (Some "aes-256-gcm")
                     (Some EmptyString)]))
  else if String.eqb p "http" || String.eqb p "socks" then
    Some (mkOutboundSettings None None None
            (Some [serverEntry data 1080 None None None]))
  else None.

(** ** Graph traversal helpers *)

Definition getOutgoingEdges (nodeId : string) (edges : list GraphEdge)
    : list GraphEdge :=
  filter (fun e => String.eqb (edge_source e) nodeId) edges.

Definition findTargetNode (nodeId : string) (nodes : list GraphNode)
    : option GraphNode :=
  find (fun n => String.eqb (node_id n) nodeId) nodes.

(** [nodeServerMap] is the map built from [allNodes]; the functions below
    take the node list it was built from. *)
Definition isCrossGroupEdge (e : GraphEdge) (allNodes : list GraphNode) : bool :=
  negb (optStr_eqb (serverOfId allNodes (edge_source e))
                   (serverOfId allNodes (edge_target e))).

Fixpoint getIncomingTransport (nodeId : string) (edges : list GraphEdge)
    (allNodes : list GraphNode) : option TransportSettings :=
  match edges with
  | [] => None
  | e :: rest =>
      if negb (String.eqb (edge_target e) nodeId)
      then getIncomingTransport nodeId rest allNodes
      else if negb (isCrossGroupEdge e allNodes)
      then getIncomingTransport nodeId rest allNodes
      else
        match edgeTransport e with
        | Some t => Some t
        | None => getIncomingTransport nodeId rest allNodes
        end
  end.

Fixpoint getOutgoingTransport (nodeId : string) (edges : list GraphEdge)
    (allNodes : list GraphNode) : option TransportSettings :=
  match edges with
  | [] => None
  | e :: rest =>
      if negb (String.eqb (edge_source e) nodeId)
      then getOutgoingTransport nodeId rest allNodes
      else if negb (isCrossGroupEdge e allNodes)
      then getOutgoingTransport nodeId rest allNodes
      else
        match edgeTransport e with
        | Some t => Some t
        | None => getOutgoingTransport nodeId rest allNodes
        end
  end.

(** [a || b] on two optional transports *)
Definition orElse {A : Type} (a b : option A) : option A :=
  match a with
  | Some _ => a
  | None => b
  end.

(** ** Routing rules and balancers *)

Definition outboundTagOf (d : XrayNodeData) : option string :=
  match d with
  | OutboundTerminalNode o | OutboundProxyNode o => Some (out_tag o)
  | _ => None
  end.

(** The selector of one balancer: the declared entries, then the tag of
    each outbound it is wired to that is not yet listed. *)
Definition balancerSelector (nodes : list GraphNode) (declared : list string)
    (outEdges : list GraphEdge) : list string :=
  fold_left
    (fun selector e =>
       match findTargetNode (edge_target e) nodes with
       | Some target =>
           match outboundTagOf (node_data target) with
           | Some tag =>
               if Js.memStr tag selector then selector else (selector ++ [tag])%list
           | None => selector
           end
       | None => selector
       end)
    outEdges declared.

Definition buildBalancer (nodes : list GraphNode) (edges : list GraphEdge)
    (balNode : GraphNode) : list XrayBalancer :=
  match node_data balNode with
  | BalancerNode balData =>
      [mkXrayBalancer (bal_tag balData)
         (Some (balancerSelector nodes (bal_selector balData)
                  (getOutgoingEdges (node_id balNode) edges)))
         (if negb (String.eqb (bal_strategy balData) "random")
          then Some (bal_strategy balData) else None)]
  | _ => []
  end.

(** The rule of one edge that leaves a routing node. *)
Definition ruleOfEdge (nodes : list GraphNode) (routeData : RoutingData)
    (e : GraphEdge) : list XrayRoutingRule :=
  match findTargetNode (edge_target e) nodes with
  | None => []
  | Some target =>
      let rule := fun outboundTag balancerTag =>
        mkRule (Some "field")
          (keepNonEmpty (rt_domain routeData))
          (keepNonEmpty (rt_ip routeData))
          (keepTruthy (rt_port routeData))
          (keepNonEmpty (rt_protocol routeData))
          (option_map ruleNetworkName (rt_network routeData))
          (match keepTruthy (rt_inboundTag routeData) with
           | Some t => Some [t]
           | None => None
           end)
          outboundTag balancerTag in
      match node_data target with
      | BalancerNode b => [rule None (Some (bal_tag b))]
      | OutboundTerminalNode o | OutboundProxyNode o => [rule (Some (out_tag o)) None]
      | RoutingNode _ => []
      | _ => [rule None None]
      end
  end.

Definition rulesOfRoutingNode (nodes : list GraphNode) (edges : list GraphEdge)
    (routeNode : GraphNode) : list XrayRoutingRule :=
  match node_data routeNode with
  | RoutingNode routeData =>
      flat_map (ruleOfEdge nodes routeData)
        (getOutgoingEdges (node_id routeNode) edges)
  | _ => []
  end.

(** The rules of the edges that join an inbound to an outbound directly. *)
Definition directRules (nodes : list GraphNode) (edges : list GraphEdge)
    (inNode : GraphNode) : list XrayRoutingRule :=
  match node_data inNode with
  | InboundNode inData =>
      flat_map
        (fun e =>
           match findTargetNode (edge_target e) nodes with
           | Some target =>
               match outboundTagOf (node_data target) with
               | Some tag =>
                   [mkRule (Some "field") None None None None None
                      (Some [in_tag inData]) (Some tag) None]
               | None => []
               end
           | None => []
           end)
        (getOutgoingEdges (node_id inNode) edges)
  | _ => []
  end.

Definition buildRoutingRules (nodes : list GraphNode) (edges : list GraphEdge)
    : list XrayRoutingRule * list XrayBalancer :=
  let routingNodes := filter (fun n => NodeType_eqb (nodeType (node_data n)) routing) nodes in
  let balancerNodes := filter (fun n => NodeType_eqb (nodeType (node_data n)) balancer) nodes in
  let inboundNodes := filter (fun n => NodeType_eqb (nodeType (node_data n)) inbound) nodes in
  ((flat_map (rulesOfRoutingNode nodes edges) routingNodes ++
    flat_map (directRules nodes edges) inboundNodes)%list,
   flat_map (buildBalancer nodes edges) balancerNodes).

(** ** One document *)

Definition buildInbound (allEdges : list GraphEdge) (allNodes : list GraphNode)
    (n : GraphNode) : list XrayInbound :=
  match node_data n with
  | InboundNode data =>
      let edgeTransport := getIncomingTransport (node_id n) allEdges allNodes in
      let streamSettings :=
        buildStreamSettings (orElse edgeTransport (in_transport data)) in
      [mkXrayInbound (in_tag data) (inboundProtocolName (in_protocol data))
         (Some (in_listen data)) (Some (in_port data))
         (Some (buildInboundSettings data))
         (match in_sniffing data with
          | Some true => Some (mkSniffing true (Some ["http"; "tls"]))
          | _ => None
          end)
         (streamBlock streamSettings)]
  | _ => []
  end.

Definition buildOutbound (allEdges : list GraphEdge) (allNodes : list GraphNode)
    (n : GraphNode) : list XrayOutbound :=
  let entry := fun (data : OutboundData) (edgeTransport : option TransportSettings) =>
    mkXrayOutbound (out_tag data) (out_protocol data)
      (buildOutboundSettings data)
      (streamBlock (buildStreamSettings (orElse edgeTransport (out_transport data))))
      None in
  match node_data n with
  | OutboundTerminalNode data => [entry data None]
  | OutboundProxyNode data =>
      [entry data (getOutgoingTransport (node_id n) allEdges allNodes)]
  | _ => []
  end.

Definition buildSingleConfig (nodes : list GraphNode) (edges allEdges : list GraphEdge)
    (allNodes : list GraphNode) (file : string) : ExportResult :=
  let '(ruleList, balancerList) := buildRoutingRules nodes edges in
  mkExport file
    (mkConfig (Some "warning")
       (Some (flat_map (buildInbound allEdges allNodes) nodes))
       (Some (flat_map (buildOutbound allEdges allNodes) nodes))
       (Some (mkXrayRouting (Some "AsIs") (Some ruleList)
                (keepNonEmpty (Some balancerList))))).

(** ** Simple mode *)

Definition buildSimpleTransport (data : SimpleServerData) : TransportSettings :=
  mkTransport (ss_network data)
    (match ss_network data with
     | NetWs =>
         Some (mkWs (ss_wsPath data)
                 (match ss_wsHost data with
                  | Some h => if Js.truthy h then Some [("Host", h)] else None
                  | None => None
                  end))
     | _ => None
     end)
    (match ss_network data with
     | NetGrpc => Some (mkGrpc (ss_grpcServiceName data) None)
     | _ => None
     end)
    (match ss_network data with
     | NetXhttp => Some (mkXhttp (ss_xhttpPath data) (ss_xhttpHost data))
     | _ => None
     end)
    (ss_security data)
    (match ss_security data with
     | SecTls =>
         Some (mkTls (ss_sni data)
                 (match ss_alpn data with
                  | Some a =>
                      if Js.truthy a
                      then Some (filter Js.truthy (map Js.trim (Js.split "," a)))
                      else None
                  | None => None
                  end)
                 (ss_fingerprint data))
     | _ => None
     end)
    (match ss_security data with
     | SecReality =>
         Some (mkReality (ss_sni data) (ss_fingerprint data)
                 (ss_realityPublicKey data) (ss_realityShortId data)
                 (ss_realitySpiderX data))
     | _ => None
     end).

Definition buildSimpleOutbound (data : SimpleServerData) (tag : string)
    (proxyTag : option string) : XrayOutbound :=
  let entry := fun users method password =>
    mkServerEntry (Some (ss_host data)) (Some (ss_port data)) users method password in
  let uuid := addressOrEmpty (keepTruthy (ss_uuid data)) in
  let pass := addressOrEmpty (keepTruthy (ss_password data)) in
  let settings :=
    match ss_protocol data with
    | SsVless =>
        mkOutboundSettings None None
          (Some [entry (Some [mkOutboundUser uuid (Some "none") None]) None None])
          None
    | SsVmess =>
        mkOutboundSettings None None
          (Some [entry (Some [mkOutboundUser uuid None (Some "auto")]) None None])
          None
    | SsTrojan =>
        mkOutboundSettings None None None (Some [entry None None (Some pass)])
    | SsShadowsocks =>
        mkOutboundSettings None None None
          (Some [entry None (Some "aes-256-gcm") (Some pass)])
    end in
  mkXrayOutbound tag (simpleServerProtocolName (ss_protocol data)) (Some settings)
    (streamBlock (buildStreamSettings (Some (buildSimpleTransport data))))
    proxyTag.

Definition buildInboundSettingsFromSimple (data : SimpleServerData)
    : InboundSettings :=
  let uuid := addressOrEmpty (keepTruthy (ss_uuid data)) in
  let pass := addressOrEmpty (keepTruthy (ss_password data)) in
  match ss_protocol data with
  | SsVless =>
      mkInboundSettings (Some [mkClient (Some uuid) None (Some "default") None])
        (Some "none") None None None None None
  | SsVmess =>
      mkInboundSettings (Some [mkClient (Some uuid) None (Some "default") None])
        None None None None None None
  | SsTrojan =>
      mkInboundSettings (Some [mkClient None (Some pass) (Some "default") None])
        None None None None None None
  | SsShadowsocks =>
      mkInboundSettings None None (Some "aes-256-gcm") (Some pass) None None None
  end.

(** [name.toLowerCase().replace(/[^a-z0-9]+/g, '-').replace(/-+$/, '')] *)
Definition isLowerAlnum (c : ascii) : bool :=
  let n := nat_of_ascii c in
  Js.isDigit c || ((97 <=? n) && (n <=? 122))%nat.

Fixpoint dashRuns (s : string) (inRun : bool) : string :=
  match s with
  | EmptyString => EmptyString
  | String c rest =>
      if isLowerAlnum c then String c (dashRuns rest false)
      else if inRun then dashRuns rest true
      else String "-"%char (dashRuns rest true)
  end.

Fixpoint dropTrailingDashes (s : string) : string :=
  match s with
  | EmptyString => EmptyString
  | String c rest =>
      match dropTrailingDashes rest with
      | EmptyString =>
          if Ascii.eqb c "-"%char then EmptyString else String c EmptyString
      | kept => String c kept
      end
  end.

Definition safeName (name : string) : string :=
  dropTrailingDashes (dashRuns (Js.toLowerCase name) false).

(** [nodeMap.get(id)]: the map is built from the node list, so the last
    node with the id is found. *)
Definition nodeMapGet (nodes : list GraphNode) (id : string) : option GraphNode :=
  find (fun n => String.eqb (node_id n) id) (rev nodes).

Definition resolveOutboundTag (targetNode : GraphNode) : option string :=
  match node_data targetNode with
  | SimpleServerNode _ => Some ("proxy-" ++ node_id targetNode)
  | SimpleInternetNode _ _ => Some "direct"
  | SimpleBlockNode _ _ => Some "block"
  | _ => None
  end.

(** The first edge target that is a simple server. *)
Fixpoint chainTarget (nodes : list GraphNode) (outEdges : list GraphEdge)
    : option GraphNode :=
  match outEdges with
  | [] => None
  | e :: rest =>
      match nodeMapGet nodes (edge_target e) with
      | Some target =>
          match node_data target with
          | SimpleServerNode _ => Some target
          | _ => chainTarget nodes rest
          end
      | None => chainTarget nodes rest
      end
  end.

(** The first edge target that maps to an outbound tag. *)
Fixpoint rulesTarget (nodes : list GraphNode) (outEdges : list GraphEdge)
    : option string :=
  match outEdges with
  | [] => None
  | e :: rest =>
      match nodeMapGet nodes (edge_target e) with
      | Some target =>
          match resolveOutboundTag target with
          | Some tag => if Js.truthy tag then Some tag else rulesTarget nodes rest
          | None => rulesTarget nodes rest
          end
      | None => rulesTarget nodes rest
      end
  end.

Definition simpleRule (outboundTag : string) (condition : SimpleRuleCondition)
    : XrayRoutingRule :=
  let rule := fun domain ip =>
    mkRule (Some "field") domain ip None None None None (Some outboundTag) None in
  match sr_type condition with
  | SrDomain => rule (Some ["domain:" ++ sr_value condition]) None
  | SrGeosite => rule (Some ["geosite:" ++ sr_value condition]) None
  | SrGeoip => rule None (Some ["geoip:" ++ sr_value condition])
  | SrAll => rule None None
  end.

Definition freedomOutbound : XrayOutbound :=
  mkXrayOutbound "direct" "freedom"
    (Some (mkOutboundSettings (Some "UseIP") None None None)) None None.

Definition blackholeOutbound : XrayOutbound :=
  mkXrayOutbound "block" "blackhole"
    (Some (mkOutboundSettings None (Some "none") None None)) None None.

(** The server-side document of a server another server chains to. *)
Definition chainedServerConfig (nodes : list GraphNode) (e : GraphEdge)
    : list ExportResult :=
  match nodeMapGet nodes (edge_target e) with
  | Some target =>
      match node_data target with
      | SimpleServerNode targetData =>
          let serverInbound :=
            mkXrayInbound "inbound"
              (simpleServerProtocolName (ss_protocol targetData))
              (Some "0.0.0.0") (Some (ss_port targetData))
              (Some (buildInboundSettingsFromSimple targetData)) None
              (streamBlock
                 (buildStreamSettings (Some (buildSimpleTransport targetData)))) in
          [mkExport (safeName (ss_name targetData) ++ "_server_config.json")
             (mkConfig (Some "warning") (Some [serverInbound])
                (Some [freedomOutbound])
                (Some (mkXrayRouting (Some "AsIs") (Some []) None)))]
      | _ => []
      end
  | None => []
  end.

Definition exportSimpleConfig (nodes : list GraphNode) (edges : list GraphEdge)
    : list ExportResult :=
  let serverNodes := filter (fun n => NodeType_eqb (nodeType (node_data n)) simple_server) nodes in
  let rulesNodes := filter (fun n => NodeType_eqb (nodeType (node_data n)) simple_rules) nodes in
  let serverOutbounds :=
    flat_map
      (fun n =>
         match node_data n with
         | SimpleServerNode data =>
             [buildSimpleOutbound data ("proxy-" ++ node_id n)
                (option_map (fun t => "proxy-" ++ node_id t)
                   (chainTarget nodes (getOutgoingEdges (node_id n) edges)))]
         | _ => []
         end)
      serverNodes in
  let targets :=
    flat_map
      (fun n =>
         match rulesTarget nodes (getOutgoingEdges (node_id n) edges) with
         | Some tag => [tag]
         | None => []
         end)
      rulesNodes in
  let hasDirect :=
    existsb (fun n => NodeType_eqb (nodeType (node_data n)) simple_internet) nodes
    || Js.memStr "direct" targets in
  let hasBlock :=
    existsb (fun n => NodeType_eqb (nodeType (node_data n)) simple_block) nodes
    || Js.memStr "block" targets in
  let ruleList :=
    flat_map
      (fun n =>
         match node_data n with
         | SimpleRulesNode _ conditions _ =>
             match rulesTarget nodes (getOutgoingEdges (node_id n) edges) with
             | Some outboundTag => map (simpleRule outboundTag) conditions
             | None => []
             end
         | _ => []
         end)
      rulesNodes in
  let outboundList :=
    (serverOutbounds ++ (if hasDirect then [freedomOutbound] else []) ++
     (if hasBlock then [blackholeOutbound] else []))%list in
  let socksIn :=
    mkXrayInbound "socks-in" "socks" (Some "127.0.0.1") (Some 1080%Z)
      (Some (mkInboundSettings None None None None (Some "noauth") (Some true) None))
      (Some (mkSniffing true (Some ["http"; "tls"]))) None in
  (mkExport "config.json"
     (mkConfig (Some "warning") (Some [socksIn]) (Some outboundList)
        (Some (mkXrayRouting (Some "AsIs") (Some ruleList) None)))
   :: flat_map
        (fun n => flat_map (chainedServerConfig nodes)
                    (getOutgoingEdges (node_id n) edges))
        serverNodes)%list.

(** ** The main export function *)

(** [serverMap.get(id)]: the last server with the id. *)
Definition serverMapGet (servers : list Server) (id : string) : option Server :=
  find (fun s => String.eqb (srv_id s) id) (rev servers).

(** The server a node is grouped under: its [serverId] when that is a
    known server. *)
Definition groupOf (servers : list Server) (n : GraphNode) : option string :=
  match dataServerId (node_data n) with
  | Some sid =>
      if Js.truthy sid &&
         (match serverMapGet servers sid with Some _ => true | None => false end)
      then Some sid else None
  | None => None
  end.

(** [nodesByServer]: the groups in the order their first node appears. *)
Definition nodesByServer (servers : list Server) (configNodes : list GraphNode)
    : list (string * list GraphNode) :=
  fold_left
    (fun groups n =>
       match groupOf servers n with
       | Some sid => Js.pushTo sid n groups
       | None => groups
       end)
    configNodes [].

Definition unassignedNodes (servers : list Server) (configNodes : list GraphNode)
    : list GraphNode :=
  filter (fun n => match groupOf servers n with Some _ => false | None => true end)
    configNodes.

(** The edges with both ends among [group]. *)
Definition edgesWithin (group : list GraphNode) (edges : list GraphEdge)
    : list GraphEdge :=
  let ids := map node_id group in
  filter (fun e => Js.memStr (edge_source e) ids && Js.memStr (edge_target e) ids)
    edges.

Definition exportConfig (nodes : list GraphNode) (edges : list GraphEdge)
    (servers : list Server) (mode : option string) : list ExportResult :=
  if optStr_eqb mode (Some "simple") then exportSimpleConfig nodes edges
  else
    let configNodes :=
      filter (fun n => negb (NodeType_eqb (nodeType (node_data n)) device)) nodes in
    match nodesByServer servers configNodes with
    | [] => [buildSingleConfig configNodes edges edges nodes "config.json"]
    | groups =>
        let serverResults :=
          flat_map
            (fun group =>
               let '(serverId, serverNodes) := group in
               match serverMapGet servers serverId with
               | Some server =>
                   [buildSingleConfig serverNodes (edgesWithin serverNodes edges)
                      edges nodes (safeName (srv_name server) ++ "_config.json")]
               | None => []
               end)
            groups in
        let unassigned := unassignedNodes servers configNodes in
        (serverResults ++
         (match unassigned with
          | [] => []
          | _ =>
              [buildSingleConfig unassigned (edgesWithin unassigned edges)
                 edges nodes "unassigned_config.json"]
          end))%list
    end.

End ExportConfig.

(* ================================================================== *)
(** * Reverse compiler ([importConfig.ts]) *)
(* ================================================================== *)

Module ImportConfig.
Import Config.

Record ImportSummary := mkSummary {
  inboundCount : nat;
  outboundCount : nat;
  routingCount : nat;
  balancerCount : nat;
  edgeCount : nat;
  summary_warnings : list string;
  summary_mode : string }.

Record ImportResult := mkImport {
  nodes : list GraphNode;
  edges : list GraphEdge;
  mode : string;
  summary : ImportSummary }.

Record ImportOptions := mkOptions {
  createRoutingNodes : option bool;
  autoLayoutOption : option bool;
  forceMode : option string }.

Definition TERMINAL_PROTOCOLS : list string := ["freedom"; "blackhole"; "dns"].

Definition INBOUND_PROTOCOLS : list string :=
  ["http"; "socks"; "vless"; "vmess"; "trojan"; "shadowsocks"; "dokodemo-door"].

Definition inboundProtocolOfName (name : string) : option InboundProtocol :=
  if String.eqb name "http" then Some InHttp
  else if String.eqb name "socks" then Some InSocks
  else if String.eqb name "vless" then Some InVless
  else if String.eqb name "vmess" then Some InVmess
  else if String.eqb name "trojan" then Some InTrojan
  else if String.eqb name "shadowsocks" then Some InShadowsocks
  else if String.eqb name "dokodemo-door" then Some InDokodemo
  else None.

(** [x || fallback] on an optional string *)
Definition strOr (o : option string) (fallback : string) : string :=
  match o with
  | Some s => if Js.truthy s then s else fallback
  | None => fallback
  end.

(** [(x as string) || undefined] *)
Definition strOrUndefined (o : option string) : option string :=
  ExportConfig.keepTruthy o.

(** ** Stream settings to transport settings *)

Definition parseTransport (stream : option StreamSettings) : TransportSettings :=
  match stream with
  | None => defaultTransport
  | Some st =>
      let networkStr := strOr (stream_network st) "tcp" in
      let mappedNetwork := if String.eqb networkStr "tcp" then "raw" else networkStr in
      let securityStr := strOr (stream_security st) "none" in
      mkTransport
        (if String.eqb mappedNetwork "ws" then NetWs
         else if String.eqb mappedNetwork "grpc" then NetGrpc
         else if String.eqb mappedNetwork "xhttp" then NetXhttp
         else NetRaw)
        (match stream_ws st with
         | Some w =>
             if String.eqb networkStr "ws"
             then Some (mkWs (strOrUndefined (ws_path w)) (ws_headers w))
             else None
         | None => None
         end)
        (match stream_grpc st with
         | Some g =>
             if String.eqb networkStr "grpc"
             then Some (mkGrpc (strOrUndefined (grpc_serviceName g)) (grpc_multiMode g))
             else None
         | None => None
         end)
        (match stream_xhttp st with
         | Some x =>
             if String.eqb networkStr "xhttp"
             then Some (mkXhttp (strOrUndefined (xhttp_path x))
                          (strOrUndefined (xhttp_host x)))
             else None
         | None => None
         end)
        (if String.eqb securityStr "tls" then SecTls
         else if String.eqb securityStr "reality" then SecReality
         else SecNone)
        (match stream_tls st with
         | Some l =>
             if String.eqb securityStr "tls"
             then Some (mkTls (strOrUndefined (tls_serverName l)) (tls_alpn l)
                          (strOrUndefined (tls_fingerprint l)))
             else None
         | None => None
         end)
        (match stream_reality st with
         | Some r =>
             if String.eqb securityStr "reality"
             then Some (mkReality (strOrUndefined (reality_serverName r))
                          (strOrUndefined (reality_fingerprint r))
                          (strOrUndefined (reality_publicKey r))
                          (strOrUndefined (reality_shortId r))
                          (strOrUndefined (reality_spiderX r)))
             else None
         | None => None
         end)
  end.

(** ** Inbounds and outbounds *)

Definition parseInboundUsers (settings : option InboundSettings)
    (protocol : InboundProtocol) : list User :=
  match settings with
  | None => []
  | Some st =>
      match clients st with
      | None => []
      | Some cs =>
          map (fun c =>
                 match protocol with
                 | InTrojan =>
                     mkUser (strOr (client_email c) EmptyString) None
                       (Some (strOr (client_password c) EmptyString))
                       (client_level c)
                 | _ =>
                     mkUser (strOr (client_email c) EmptyString)
                       (Some (strOr (client_id c) EmptyString)) None
                       (client_level c)
                 end)
            cs
      end
  end.

(** [parseInbound]; [fresh] is the identifier [uuidv4()] gives when the
    tag has to be made up. *)
Definition parseInbound (fresh : string) (inb : XrayInbound) : InboundData :=
  let protocol :=
    match inboundProtocolOfName (xin_protocol inb) with
    | Some p => p
    | None => InVless
    end in
  mkInbound
    (if Js.truthy (xin_tag inb) then xin_tag inb else "input-" ++ Js.take 4 fresh)
    protocol
    (strOr (xin_listen inb) "0.0.0.0")
    (ExportConfig.portOr 443 (xin_port inb))
    (Some (match xin_sniffing inb with Some sn => enabled sn | None => false end))
    (Some (parseInboundUsers (xin_settings inb) protocol))
    (Some (parseTransport (xin_streamSettings inb)))
    None.

(** [(x as number) || undefined] *)
Definition portOrUndefined (o : option Z) : option Z :=
  match o with
  | Some p => if (p =? 0)%Z then None else Some p
  | None => None
  end.

Definition firstAddress (entries : option (list ServerEntry))
    : option (option string * option Z) :=
  match entries with
  | Some (e :: _) => Some (strOrUndefined (se_address e), portOrUndefined (se_port e))
  | _ => None
  end.

Definition extractOutboundAddress (settings : option OutboundSettings)
    (protocol : string) : option string * option Z :=
  match settings with
  | None => (None, None)
  | Some st =>
      let fromServers :=
        match firstAddress (servers st) with
        | Some a => a
        | None => (None, None)
        end in
      if String.eqb protocol "vless" || String.eqb protocol "vmess" then
        match firstAddress (vnext st) with
        | Some a => a
        | None => fromServers
        end
      else fromServers
  end.

Definition parseOutbound (fresh : string) (outb : XrayOutbound) : OutboundData :=
  let protocol := if Js.truthy (xout_protocol outb) then xout_protocol outb else "freedom" in
  let addr := extractOutboundAddress (xout_settings outb) protocol in
  let isTerminal := Js.memStr protocol TERMINAL_PROTOCOLS in
  mkOutbound
    (if Js.truthy (xout_tag outb) then xout_tag outb else "output-" ++ Js.take 4 fresh)
    protocol
    (if isTerminal then None else fst addr)
    (if isTerminal then None else snd addr)
    (if isTerminal then None else Some (parseTransport (xout_streamSettings outb)))
    None.

Definition parseRoutingRule (rule : XrayRoutingRule) (index : nat) : RoutingData :=
  mkRouting
    ("rule-" ++ Js.showZ (Z.of_nat (index + 1)))
    (rule_domain rule) (rule_ip rule) (rule_port rule) (rule_protocol rule)
    (match rule_network rule with
     | Some n =>
         if String.eqb n "tcp" then Some RnTcp
         else if String.eqb n "udp" then Some RnUdp
         else None
     | None => None
     end)
    (match rule_inboundTag rule with
     | Some (t :: _) => Some t
     | _ => None
     end)
    None.

(** ** Automatic layout *)

Definition layerOf (typeName : string) : Z :=
  if String.eqb typeName "inbound" then 0
  else if String.eqb typeName "routing" then 1
  else if String.eqb typeName "balancer" then 2
  else if String.eqb typeName "outbound-proxy" then 3
  else if String.eqb typeName "outbound-terminal" then 3
  else 1.

(** The nodes keep their order; each is placed by its rank among the
    nodes of its layer. *)
Fixpoint placeNodes (all : list GraphNode) (before rest : list GraphNode)
    : list GraphNode :=
  match rest with
  | [] => []
  | n :: more =>
      let layer := layerOf (node_type n) in
      let sameLayer := fun m => (layerOf (node_type m) =? layer)%Z in
      let size := Z.of_nat (List.length (filter sameLayer all)) in
      let rank := Z.of_nat (List.length (filter sameLayer before)) in
      let x := (50 + layer * 300)%Z in
      let startY := (50 + Z.max 0 ((4 * 150 - size * 150) / 2))%Z in
      mkNode (node_id n) (node_type n) (x, startY + rank * 150)%Z (node_data n)
      :: placeNodes all (before ++ [n])%list more
  end.

Definition autoLayout (ns : list GraphNode) (_es : list GraphEdge) : list GraphNode :=
  placeNodes ns [] ns.

(** ** Mode detection *)

Definition optZ_eqb (a b : option Z) : bool :=
  match a, b with
  | Some x, Some y => (x =? y)%Z
  | None, None => true
  | _, _ => false
  end.

Fixpoint distinctPorts (ps : list (option Z)) : list (option Z) :=
  match ps with
  | [] => []
  | p :: rest =>
      p :: filter (fun q => negb (optZ_eqb p q)) (distinctPorts rest)
  end.

Definition orEmpty {A : Type} (o : option (list A)) : list A :=
  match o with
  | Some xs => xs
  | None => []
  end.

Definition detectMode (cfg : XrayConfig) : string :=
  let outs := orEmpty (cfg_outbounds cfg) in
  let hasProxyOutbound :=
    existsb (fun o => negb (Js.memStr (xout_protocol o) TERMINAL_PROTOCOLS)) outs in
  let ins := orEmpty (cfg_inbounds cfg) in
  let uniquePorts := distinctPorts (map xin_port ins) in
  if hasProxyOutbound && (1 <? List.length ins)%nat &&
     (1 <? List.length uniquePorts)%nat
  then "infrastructure" else "client".

(** ** The main import function *)

(** [Map.set]: a known key keeps its place and takes the new value. *)
Fixpoint mapSet (key value : string) (m : list (string * string))
    : list (string * string) :=
  match m with
  | [] => [(key, value)]
  | (k, v) :: rest =>
      if String.eqb k key then (k, value) :: rest
      else (k, v) :: mapSet key value rest
  end.

Fixpoint mapGet (key : string) (m : list (string * string)) : option string :=
  match m with
  | [] => None
  | (k, v) :: rest => if String.eqb k key then Some v else mapGet key rest
  end.

(** [tagToNodeId.get(tag)] followed by [if (id)] *)
Definition lookupTag (m : list (string * string)) (tag : string) : option string :=
  match mapGet tag m with
  | Some id => if Js.truthy id then Some id else None
  | None => None
  end.

(** The arrays and the map the import fills, and the number of
    identifiers drawn from [uuidv4] so far. *)
Record ImportState := mkImportState {
  st_nodes : list GraphNode;
  st_edges : list GraphEdge;
  st_warnings : list string;
  tagToNodeId : list (string * string);
  drawn : nat }.

Section WithUuid.

(** [uuidv4()]: the [n]-th identifier the generator hands out. *)
Variable uuidv4 : nat -> string.

Definition pushEdge (s : ImportState) (source target : string) : ImportState :=
  mkImportState (st_nodes s)
    (st_edges s ++ [mkEdge (uuidv4 (drawn s)) source target None])%list
    (st_warnings s) (tagToNodeId s) (S (drawn s)).

Definition pushWarning (s : ImportState) (w : string) : ImportState :=
  mkImportState (st_nodes s) (st_edges s) (st_warnings s ++ [w])%list
    (tagToNodeId s) (drawn s).

Definition addInbound (s : ImportState) (inb : XrayInbound) : ImportState :=
  if negb (Js.memStr (xin_protocol inb) INBOUND_PROTOCOLS) then
    pushWarning s
      ("Unknown inbound protocol " ++ Js.quoted (xin_protocol inb) ++ " (skipped)")
  else
    let newId := uuidv4 (drawn s) in
    let data := parseInbound (uuidv4 (S (drawn s))) inb in
    mkImportState
      (st_nodes s ++ [mkNode newId "inbound" (0, 0)%Z (InboundNode data)])%list
      (st_edges s) (st_warnings s)
      (mapSet (in_tag data) newId (tagToNodeId s))
      (if Js.truthy (xin_tag inb) then S (drawn s) else S (S (drawn s))).

Definition addOutbound (s : ImportState) (outb : XrayOutbound) : ImportState :=
  let protocol := if Js.truthy (xout_protocol outb) then xout_protocol outb else "freedom" in
  let isTerminal := Js.memStr protocol TERMINAL_PROTOCOLS in
  let newId := uuidv4 (drawn s) in
  let data := parseOutbound (uuidv4 (S (drawn s))) outb in
  mkImportState
    (st_nodes s ++
     [if isTerminal
      then mkNode newId "outbound-terminal" (0, 0)%Z (OutboundTerminalNode data)
      else mkNode newId "outbound-proxy" (0, 0)%Z (OutboundProxyNode data)])%list
    (st_edges s) (st_warnings s)
    (mapSet (out_tag data) newId (tagToNodeId s))
    (if Js.truthy (xout_tag outb) then S (drawn s) else S (S (drawn s))).

Definition isOutboundType (typeName : string) : bool :=
  String.eqb typeName "outbound-terminal" || String.eqb typeName "outbound-proxy".

(** The edges from a balancer to the outbounds one selector entry
    names: the entries of the tag map are read in order. *)
Definition selectorEdges (balancerId selectorPattern : string) (s : ImportState)
    : ImportState :=
  fold_left
    (fun acc entry =>
       let '(tag, targetNodeId) := entry in
       if String.eqb tag selectorPattern || Js.startsWith tag selectorPattern then
         match findNodeById (st_nodes acc) targetNodeId with
         | Some targetNode =>
             if isOutboundType (node_type targetNode) then
               mkImportState (st_nodes acc)
                 (st_edges acc ++
                  [mkEdge (uuidv4 (drawn acc)) balancerId targetNodeId None])%list
                 (st_warnings acc) (tagToNodeId acc) (S (drawn acc))
             else acc
         | None => acc
         end
       else acc)
    (tagToNodeId s) s.

(** One balancer; iterating over a selector that is missing throws. *)
Definition addBalancer (s : ImportState) (bal : XrayBalancer)
    : Completion ImportState :=
  let newId := uuidv4 (drawn s) in
  let data :=
    mkBalancer (xbal_tag bal) (strOr (xbal_strategyType bal) "random")
      (orEmpty (xbal_selector bal)) None in
  let withNode :=
    mkImportState
      (st_nodes s ++ [mkNode newId "balancer" (0, 0)%Z (BalancerNode data)])%list
      (st_edges s) (st_warnings s)
      (mapSet (bal_tag data) newId (tagToNodeId s))
      (S (drawn s)) in
  match xbal_selector bal with
  | None => Thrown "TypeError: balancer.selector is not iterable"
  | Some selector =>
      Returned (fold_left (fun acc pattern => selectorEdges newId pattern acc)
                  selector withNode)
  end.

Fixpoint addBalancers (s : ImportState) (bals : list XrayBalancer)
    : Completion ImportState :=
  match bals with
  | [] => Returned s
  | b :: rest =>
      match addBalancer s b with
      | Thrown err => Thrown err
      | Returned s' => addBalancers s' rest
      end
  end.

(** One rule, as a routing node of its own. *)
Definition addRuleNode (s : ImportState) (rule : XrayRoutingRule) (i : nat)
    : ImportState :=
  let routeNodeId := uuidv4 (drawn s) in
  let s1 :=
    mkImportState
      (st_nodes s ++
       [mkNode routeNodeId "routing" (0, 0)%Z
          (RoutingNode (parseRoutingRule rule i))])%list
      (st_edges s) (st_warnings s) (tagToNodeId s) (S (drawn s)) in
  let s2 :=
    fold_left
      (fun acc inTag =>
         match lookupTag (tagToNodeId acc) inTag with
         | Some inNodeId => pushEdge acc inNodeId routeNodeId
         | None => acc
         end)
      (orEmpty (rule_inboundTag rule)) s1 in
  let s3 :=
    match rule_outboundTag rule with
    | Some t =>
        if Js.truthy t then
          match lookupTag (tagToNodeId s2) t with
          | Some outNodeId => pushEdge s2 routeNodeId outNodeId
          | None =>
              pushWarning s2
                ("Routing rule " ++ Js.showZ (Z.of_nat (i + 1)) ++ ": outboundTag " ++
                 Js.quoted t ++ " not found")
          end
        else s2
    | None => s2
    end in
  match rule_balancerTag rule with
  | Some t =>
      if Js.truthy t then
        match lookupTag (tagToNodeId s3) t with
        | Some balNodeId => pushEdge s3 routeNodeId balNodeId
        | None =>
            pushWarning s3
              ("Routing rule " ++ Js.showZ (Z.of_nat (i + 1)) ++ ": balancerTag " ++
               Js.quoted t ++ " not found")
        end
      else s3
  | None => s3
  end.

(** One rule, collapsed into edges from its inbounds to its outbound. *)
Definition addRuleEdges (s : ImportState) (rule : XrayRoutingRule) : ImportState :=
  match rule_outboundTag rule, rule_inboundTag rule with
  | Some t, Some inTags =>
      if Js.truthy t then
        fold_left
          (fun acc inTag =>
             match lookupTag (tagToNodeId acc) inTag, lookupTag (tagToNodeId acc) t with
             | Some inNodeId, Some outNodeId => pushEdge acc inNodeId outNodeId
             | _, _ => acc
             end)
          inTags s
      else s
  | _, _ => s
  end.

Fixpoint addRules (withNodes : bool) (s : ImportState)
    (ruleList : list XrayRoutingRule) (i : nat) : ImportState :=
  match ruleList with
  | [] => s
  | rule :: rest =>
      addRules withNodes
        (if withNodes then addRuleNode s rule i else addRuleEdges s rule)
        rest (S i)
  end.

Definition countType (typeNames : list string) (ns : list GraphNode) : nat :=
  List.length (filter (fun n => Js.memStr (node_type n) typeNames) ns).

(** [importXrayConfig]; [parsed] is what [JSON.parse] makes of the input
    text, [None] when it throws. *)
Definition importXrayConfig (parsed : option XrayConfig) (options : ImportOptions)
    : Completion ImportResult :=
  let withNodes := match createRoutingNodes options with Some b => b | None => true end in
  let doAutoLayout := match autoLayoutOption options with Some b => b | None => true end in
  match parsed with
  | None => Thrown "Invalid JSON: could not parse the file."
  | Some cfg =>
      match cfg_inbounds cfg, cfg_outbounds cfg with
      | None, None => Thrown "Invalid xray config: must have inbounds or outbounds."
      | _, _ =>
          let s1 := fold_left addInbound (orEmpty (cfg_inbounds cfg))
                      (mkImportState [] [] [] [] 0) in
          let s2 := fold_left addOutbound (orEmpty (cfg_outbounds cfg)) s1 in
          let balancerList :=
            match cfg_routing cfg with
            | Some r => orEmpty (routing_balancers r)
            | None => []
            end in
          let ruleList :=
            match cfg_routing cfg with
            | Some r => orEmpty (routing_rules r)
            | None => []
            end in
          match addBalancers s2 balancerList with
          | Thrown err => Thrown err
          | Returned s3 =>
              let s4 := addRules withNodes s3 ruleList 0 in
              let placed :=
                if doAutoLayout then autoLayout (st_nodes s4) (st_edges s4)
                else st_nodes s4 in
              let modeNow :=
                match forceMode options with
                | Some m => if Js.truthy m then m else detectMode cfg
                | None => detectMode cfg
                end in
              let advanced :=
                existsb
                  (fun r =>
                     match rule_type r with
                     | Some t => Js.truthy t && negb (String.eqb t "field")
                     | None => false
                     end)
                  ruleList in
              let warningList :=
                (st_warnings s4 ++
                 (if advanced
                  then ["Advanced routing rule types may need manual adjustment"]
                  else []))%list in
              Returned
                (mkImport placed (st_edges s4) modeNow
                   (mkSummary
                      (countType ["inbound"] placed)
                      (countType ["outbound-terminal"; "outbound-proxy"] placed)
                      (countType ["routing"] placed)
                      (countType ["balancer"] placed)
                      (List.length (st_edges s4))
                      warningList modeNow))
          end
      end
  end.

End WithUuid.

End ImportConfig.

(* ================================================================== *)
(** * Predicates and example graphs of the statements *)
(* ================================================================== *)

(** What holds of the loop variables at the start of every turn. *)
Definition loopInvariant (nodes : list GraphNode) (s : Simulation.LoopState) : Prop :=
  In (Simulation.currentNode s) nodes /\
  NoDup (Simulation.visited s) /\
  incl (Simulation.visited s) (map node_id nodes).

(** The node is a balancer at which [runSimulation] has a choice to
    draw: its strategy is [random], and two or more of its outgoing
    edges pass the filter of the candidates. *)
Definition choosesAtRandom (nodes : list GraphNode) (edges : list GraphEdge)
    (n : GraphNode) : bool :=
  match node_data n with
  | BalancerNode b =>
      String.eqb (bal_strategy b) "random" &&
      match Simulation.validTargets nodes (bal_selector b)
              (Simulation.getOutgoingEdges (node_id n) edges) with
      | Returned (_ :: _ :: _) => true
      | _ => false
      end
  | _ => false
  end.

(** One of the nodes the result highlights is such a balancer. *)
Definition passesRandomChoice (nodes : list GraphNode) (edges : list GraphEdge)
    (r : Simulation.SimulationResult) : bool :=
  existsb
    (fun id =>
       match Simulation.getNodeById id nodes with
       | Some n => choosesAtRandom nodes edges n
       | None => false
       end)
    (Simulation.highlightNodeIds r).

(** ** Example graphs of the simulator *)

(** A regular expression engine that rejects every pattern, and two
    sources of random numbers: always 0 and always one half. *)
Definition noRegExp (_pattern _subject : string) : option bool := None.
Definition drawZero (_ : nat) : Simulation.Draw := Simulation.mkDraw 0 0.
Definition drawHalf (_ : nat) : Simulation.Draw := Simulation.mkDraw 1 0.

(** The scenario of the specification: an inbound with tag [in1] on port
    443 speaking vless, a routing node for [domain:example.com] and a
    proxy outbound [out1] with no outgoing edge.  The ids, the other
    fields and the edge ids are left open. *)
Definition scenarioInput : Simulation.SimulationInput :=
  Simulation.mkInput "example.com" RnTcp 443 "in1".

Definition scenarioNodes (idIn idRt idOut : string) (inboundRest : InboundData)
    (routingTag : string) (proxy : OutboundData) : list GraphNode :=
  [node idIn
     (InboundNode
        (mkInbound "in1" InVless (in_listen inboundRest) 443
           (in_sniffing inboundRest) (in_users inboundRest)
           (in_transport inboundRest) (in_serverId inboundRest)));
   node idRt
     (RoutingNode
        (mkRouting routingTag (Some ["domain:example.com"]) None None None None
           None None));
   node idOut
     (OutboundProxyNode
        (mkOutbound "out1" (out_protocol proxy) (out_serverAddress proxy)
           (out_serverPort proxy) (out_transport proxy) (out_serverId proxy)))].

Definition scenarioEdges (e1 e2 idIn idRt idOut : string) : list GraphEdge :=
  [edge e1 idIn idRt; edge e2 idRt idOut].

Definition plainInbound (tag : string) (port : Z) : InboundData :=
  mkInbound tag InVless "0.0.0.0" port None None None None.

Definition plainProxy (tag : string) : OutboundData :=
  mkOutbound tag "vless" (Some "203.0.113.7") (Some 443%Z) None None.

Definition plainTerminal (tag : string) : OutboundData :=
  mkOutbound tag "freedom" None None None None.

Definition plainRouting (tag : string) : RoutingData :=
  mkRouting tag None None None None None None None.

(** An inbound wired to a balancer that picks at random between two
    terminal outbounds. *)
Definition randomBalancerNodes : list GraphNode :=
  [node "n1" (InboundNode (plainInbound "in1" 443));
   node "n2" (BalancerNode (mkBalancer "bal" "random" [] None));
   node "n3" (OutboundTerminalNode (plainTerminal "a"));
   node "n4" (OutboundTerminalNode (plainTerminal "b"))].

Definition randomBalancerEdges : list GraphEdge :=
  [edge "e1" "n1" "n2"; edge "e2" "n2" "n3"; edge "e3" "n2" "n4"].

(** The same graph, but the balancer's selector admits the outbound
    [a] only: the balancer draws among one candidate. *)
Definition singleCandidateNodes : list GraphNode :=
  [node "n1" (InboundNode (plainInbound "in1" 443));
   node "n2" (BalancerNode (mkBalancer "bal" "random" ["a"] None));
   node "n3" (OutboundTerminalNode (plainTerminal "a"));
   node "n4" (OutboundTerminalNode (plainTerminal "b"))].

Definition singleCandidateRun : Simulation.SimulationResult :=
  Eval vm_compute in
    match
      Simulation.runSimulation noRegExp drawZero scenarioInput
        singleCandidateNodes randomBalancerEdges
    with
    | Some (Returned r) => r
    | _ => Simulation.mkResult false [] [] [] None EmptyString
    end.

(** A balancer with the selector entry [proxy], wired first to an
    outbound tagged [my-proxy] and then to one tagged [proxy-1]. *)
Definition substringBalancerNodes : list GraphNode :=
  [node "n1" (InboundNode (plainInbound "in1" 443));
   node "n2" (BalancerNode (mkBalancer "bal" "leastPing" ["proxy"] None));
   node "n3" (OutboundProxyNode (plainProxy "my-proxy"));
   node "n4" (OutboundProxyNode (plainProxy "proxy-1"))].

Definition substringBalancerEdges : list GraphEdge :=
  [edge "e1" "n1" "n2";
   mkEdge "e2" "n2" "n3" (Some (mkEdgeData (Some 1%Z) None None));
   mkEdge "e3" "n2" "n4" (Some (mkEdgeData (Some 2%Z) None None))].

(** ** Measures and predicates of the validation statements *)

(** How many entries of [universe] are not in [visited]. *)
Definition unvisited (universe visited : list string) : nat :=
  List.length (filter (fun x => negb (Js.memStr x visited)) universe).

(** The ids a cycle search can meet: the nodes and the edge targets. *)
Definition searchUniverse (nodes : list GraphNode) (edges : list GraphEdge)
    : list string :=
  (map node_id nodes ++ map edge_target edges)%list.

Definition cycleMessage : string :=
  "Cycle detected in graph — traffic would loop indefinitely".

(** An issue that reports a cycle. *)
Definition isCycleIssue (i : Validation.ValidationIssue) : bool :=
  String.eqb (Validation.message i) cycleMessage.

Definition duplicateTagIssue (id tag : string) : Validation.ValidationIssue :=
  Validation.issueError id ("Duplicate tag: " ++ Js.quoted tag).

(** The entry of a key in a map kept as an association list. *)
Fixpoint assocGet {A : Type} (key : string) (m : list (string * A)) : option A :=
  match m with
  | [] => None
  | (k, v) :: rest => if String.eqb k key then Some v else assocGet key rest
  end.

(** The ids of the nodes that carry the non-blank tag [tag], in node
    order. *)
Definition carriesTag (tag : string) (n : GraphNode) : bool :=
  match dataTag (node_data n) with
  | Some t => negb (Validation.blank t) && String.eqb t tag
  | None => false
  end.

Definition taggedIds (tag : string) (nodes : list GraphNode) : list string :=
  map node_id (filter (carriesTag tag) nodes).

(** An entry extended by more ids: a missing entry stays missing when
    nothing is added. *)
Definition extendEntry (entry : option (list string)) (ids : list string)
    : option (list string) :=
  match ids with
  | [] => entry
  | _ => Some ((match entry with Some old => old | None => [] end) ++ ids)%list
  end.

(** Two routing nodes that share the empty tag. *)
Definition emptyTagNodes : list GraphNode :=
  [node "a" (RoutingNode (plainRouting EmptyString));
   node "b" (RoutingNode (plainRouting EmptyString))].

(** The ring of three routing nodes, and the ring of two proxy outbounds
    and two inbounds in which every second edge goes from a proxy to an
    inbound.  The fields of the nodes are left open. *)
Definition routingRing (da db dc : RoutingData) : list GraphNode :=
  [node "a" (RoutingNode da); node "b" (RoutingNode db); node "c" (RoutingNode dc)].

Definition routingRingEdges : list GraphEdge :=
  [edge "e1" "a" "b"; edge "e2" "b" "c"; edge "e3" "c" "a"].

Definition proxyRing (outA outB : OutboundData) (inA inB : InboundData)
    : list GraphNode :=
  [node "pA" (OutboundProxyNode outA); node "iB" (InboundNode inB);
   node "pB" (OutboundProxyNode outB); node "iA" (InboundNode inA)].

Definition proxyRingEdges : list GraphEdge :=
  [edge "e1" "pA" "iB"; edge "e2" "iB" "pB";
   edge "e3" "pB" "iA"; edge "e4" "iA" "pA"].

(** No issue of the list reports a cycle. *)
Definition noCycleIssue (l : list Validation.ValidationIssue) : Prop :=
  forallb (fun i => negb (isCycleIssue i)) l = true.

(** Every issue of the list is an error that reports a cycle. *)
Definition allCycleErrors (l : list Validation.ValidationIssue) : Prop :=
  forallb (fun i => isCycleIssue i && Validation.hasLevel Validation.LevelError i) l
  = true.

(** ** The stream settings of an inbound, as the specification words them *)

(** The node an end of an edge refers to: the node of the graph with
    that id, the latest should several nodes share it. *)
Definition endpointNode (allNodes : list GraphNode) (id : string)
    : option GraphNode :=
  find (fun n => String.eqb (node_id n) id) (rev allNodes).

(** The server group an end of an edge belongs to: the [serverId] its
    node carries, and no group when the node carries none or the id
    names no node. *)
Definition serverGroup (allNodes : list GraphNode) (id : string) : option string :=
  match endpointNode allNodes id with
  | Some n => dataServerId (node_data n)
  | None => None
  end.

(** A cross-group edge: its two ends belong to different server
    groups. *)
Definition crossGroup (allNodes : list GraphNode) (e : GraphEdge) : bool :=
  match serverGroup allNodes (edge_source e), serverGroup allNodes (edge_target e) with
  | Some a, Some b => negb (String.eqb a b)
  | None, None => false
  | _, _ => true
  end.

(** The transports carried by the edges that enter [nodeId] from another
    server group, in edge order. *)
Definition incomingCrossGroupTransports (nodeId : string) (edges : list GraphEdge)
    (allNodes : list GraphNode) : list TransportSettings :=
  flat_map
    (fun e =>
       if String.eqb (edge_target e) nodeId && crossGroup allNodes e
       then match edgeTransport e with Some t => [t] | None => [] end
       else [])
    edges.

(** The transport of an inbound: that of an incoming cross-group edge
    if one carries a transport, else the legacy inline transport, else
    the raw/none default. *)
Definition specInboundTransport (n : GraphNode) (data : InboundData)
    (edges : list GraphEdge) (allNodes : list GraphNode) : TransportSettings :=
  match incomingCrossGroupTransports (node_id n) edges allNodes with
  | t :: _ => t
  | [] =>
      match in_transport data with
      | Some t => t
      | None => defaultTransport
      end
  end.

(** Two servers; the inbound on the second is reached from a proxy
    outbound on the first through an edge that carries a WebSocket and
    TLS transport, while its own inline transport is gRPC. *)
Definition wsTlsTransport : TransportSettings :=
  mkTransport NetWs (Some (mkWs (Some "/tunnel") None)) None None
    SecTls (Some (mkTls (Some "edge.example.org") None None)) None.

Definition grpcTransport : TransportSettings :=
  mkTransport NetGrpc None (Some (mkGrpc (Some "svc") None)) None SecNone None None.

Definition twoServerNodes : list GraphNode :=
  [node "pA"
     (OutboundProxyNode
        (mkOutbound "to-b" "vless" (Some "198.51.100.2") (Some 443%Z) None (Some "A")));
   node "iB"
     (InboundNode
        (mkInbound "from-a" InVless "0.0.0.0" 443 None None (Some grpcTransport)
           (Some "B")));
   node "dB" (OutboundTerminalNode (mkOutbound "direct" "freedom" None None None (Some "B")))].

Definition twoServerEdges : list GraphEdge :=
  [mkEdge "e1" "pA" "iB" (Some (mkEdgeData None None (Some wsTlsTransport)));
   edge "e2" "iB" "dB"].

(** A simple-mode graph: the server [Entry] is chained to the server
    [Exit Node], which speaks vless over WebSocket.  No edge carries a
    transport and there is no inbound node. *)
Definition simpleServer (name host : string) (net : Network) (wsPath : option string)
    : SimpleServerData :=
  mkSimpleServer name host 443 SsVless (Some "uuid-1") None net SecNone None None None
    wsPath None None None None None None None None.

Definition chainedServerNodes : list GraphNode :=
  [node "s1" (SimpleServerNode (simpleServer "Entry" "198.51.100.1" NetRaw None));
   node "s2"
     (SimpleServerNode (simpleServer "Exit Node" "198.51.100.2" NetWs (Some "/tunnel")))].

Definition chainedServerEdges : list GraphEdge := [edge "e1" "s1" "s2"].

Definition twoServers : list Server :=
  [mkServer "A" "Entry" "198.51.100.1" 22 None;
   mkServer "B" "Exit Node" "198.51.100.2" 22 None].

(** ** Documents of the import statements *)

(** The document [{"inbounds": [], "routing": {"balancers": [{"tag":
    "b"}]}}]: it has an [inbounds] key, and its one balancer has no
    selector. *)
Definition selectorlessDocument : Config.XrayConfig :=
  Config.mkConfig None (Some []) None
    (Some (Config.mkXrayRouting None None
             (Some [Config.mkXrayBalancer "b" None None]))).

(** Every balancer of the document has a selector. *)
Definition balancersHaveSelectors (cfg : Config.XrayConfig) : bool :=
  match Config.cfg_routing cfg with
  | Some r =>
      forallb
        (fun b => match Config.xbal_selector b with Some _ => true | None => false end)
        (ImportConfig.orEmpty (Config.routing_balancers r))
  | None => true
  end.

(** The document has an [inbounds] key or an [outbounds] key. *)
Definition hasTopLevelKey (cfg : Config.XrayConfig) : bool :=
  match Config.cfg_inbounds cfg, Config.cfg_outbounds cfg with
  | None, None => false
  | _, _ => true
  end.

(** ** The round trip *)

(** The core fields of a document: tag, port, protocol and stream
    settings of every inbound; tag, protocol and stream settings of
    every outbound; every routing rule, whole; the tag of every
    balancer. *)
Record CoreDocument := mkCore {
  core_inbounds : list (string * option Z * string * option Config.StreamSettings);
  core_outbounds : list (string * string * option Config.StreamSettings);
  core_rules : list Config.XrayRoutingRule;
  core_balancers : list string }.

Definition coreInbound (x : Config.XrayInbound)
    : string * option Z * string * option Config.StreamSettings :=
  (Config.xin_tag x, Config.xin_port x, Config.xin_protocol x,
   Config.xin_streamSettings x).

Definition coreOutbound (x : Config.XrayOutbound)
    : string * string * option Config.StreamSettings :=
  (Config.xout_tag x, Config.xout_protocol x, Config.xout_streamSettings x).

Definition coreOf (cfg : Config.XrayConfig) : CoreDocument :=
  mkCore
    (map coreInbound (ImportConfig.orEmpty (Config.cfg_inbounds cfg)))
    (map coreOutbound (ImportConfig.orEmpty (Config.cfg_outbounds cfg)))
    (match Config.cfg_routing cfg with
     | Some r => ImportConfig.orEmpty (Config.routing_rules r)
     | None => []
     end)
    (match Config.cfg_routing cfg with
     | Some r => map Config.xbal_tag (ImportConfig.orEmpty (Config.routing_balancers r))
     | None => []
     end).

Definition isTerminalProtocol (p : string) : bool :=
  Js.memStr p ImportConfig.TERMINAL_PROTOCOLS.

(** The transport is written as no stream settings at all. *)
Definition streamless (t : option TransportSettings) : bool :=
  match ExportConfig.streamBlock (ExportConfig.buildStreamSettings t) with
  | None => true
  | Some _ => false
  end.

(** What the round trip asks of a node: a non-empty tag on inbounds,
    outbounds and balancers; a non-zero port on inbounds; a non-empty
    protocol on outbounds, and no stream settings on the outbounds of a
    terminal protocol; a balancer tag that no outbound carries. *)
Definition nodeReady (nodes : list GraphNode) (edges : list GraphEdge)
    (n : GraphNode) : bool :=
  match node_data n with
  | InboundNode d => Js.truthy (in_tag d) && negb (in_port d =? 0)%Z
  | OutboundTerminalNode d =>
      Js.truthy (out_tag d) && Js.truthy (out_protocol d) &&
      (negb (isTerminalProtocol (out_protocol d)) || streamless (out_transport d))
  | OutboundProxyNode d =>
      Js.truthy (out_tag d) && Js.truthy (out_protocol d) &&
      (negb (isTerminalProtocol (out_protocol d)) ||
       streamless
         (ExportConfig.orElse
            (ExportConfig.getOutgoingTransport (node_id n) edges nodes)
            (out_transport d)))
  | BalancerNode d =>
      Js.truthy (bal_tag d) &&
      forallb
        (fun m =>
           negb (optStr_eqb (ExportConfig.outboundTagOf (node_data m))
                   (Some (bal_tag d))))
        nodes
  | _ => true
  end.

(** What the round trip asks of an edge: when it leaves a routing node,
    it is a valid connection to whichever node carries its target id. *)
Definition routingEdgeReady (nodes : list GraphNode) (e : GraphEdge) : bool :=
  forallb
    (fun source =>
       forallb
         (fun target =>
            negb (NodeType_eqb (nodeType (node_data source)) routing &&
                  String.eqb (node_id source) (edge_source e) &&
                  String.eqb (node_id target) (edge_target e))
            || ConnectionRules.valid (ConnectionRules.isValidConnection source target))
         nodes)
    nodes.

Definition roundTripReady (nodes : list GraphNode) (edges : list GraphEdge) : bool :=
  forallb (nodeReady nodes edges) nodes && forallb (routingEdgeReady nodes) edges.

(** The tag under which the import enters a node in its tag map. *)
Definition registeredTag (n : GraphNode) : option string :=
  match node_data n with
  | InboundNode d => Some (in_tag d)
  | OutboundTerminalNode d | OutboundProxyNode d => Some (out_tag d)
  | BalancerNode d => Some (bal_tag d)
  | _ => None
  end.

(** The last node of the list entered under [tag]. *)
Fixpoint lastTagged (tag : string) (nodes : list GraphNode) : option GraphNode :=
  match nodes with
  | [] => None
  | n :: rest =>
      match lastTagged tag rest with
      | Some m => Some m
      | None => if optStr_eqb (registeredTag n) (Some tag) then Some n else None
      end
  end.

Definition isKind (t : NodeType) (n : GraphNode) : bool :=
  NodeType_eqb (nodeType (node_data n)) t.

Definition isOutboundNode (n : GraphNode) : bool :=
  isKind outbound_terminal n || isKind outbound_proxy n.

Section ImportInvariant.

Variable uuidv4 : nat -> string.

(** The identifier was handed out among the first [bound] draws. *)
Definition drawnBefore (bound : nat) (id : string) : Prop :=
  exists k, k < bound /\ id = uuidv4 k.

(** What holds of the import state between any two steps. *)
Record importInvariant (s : ImportConfig.ImportState) : Prop := mkImportInvariant {
  inv_ids :
    forall n, In n (ImportConfig.st_nodes s) ->
              drawnBefore (ImportConfig.drawn s) (node_id n);
  inv_nodup : NoDup (map node_id (ImportConfig.st_nodes s));
  inv_kinds :
    forall n, In n (ImportConfig.st_nodes s) ->
              dataServerId (node_data n) = None /\
              (isKind inbound n || isOutboundNode n || isKind balancer n
               || isKind routing n) = true /\
              node_type n = nodeTypeName (nodeType (node_data n));
  inv_edges :
    forall e, In e (ImportConfig.st_edges s) ->
              edge_data e = None /\
              drawnBefore (ImportConfig.drawn s) (edge_source e) /\
              (exists n, In n (ImportConfig.st_nodes s) /\ node_id n = edge_target e) /\
              ((exists n, In n (ImportConfig.st_nodes s) /\ isKind balancer n = true /\
                          node_id n = edge_source e) \/
               (exists n, In n (ImportConfig.st_nodes s) /\ isKind routing n = true /\
                          node_id n = edge_target e) \/
               (exists n, In n (ImportConfig.st_nodes s) /\ isKind routing n = true /\
                          node_id n = edge_source e));
  inv_tags :
    forall tag,
      ImportConfig.mapGet tag (ImportConfig.tagToNodeId s) =
      option_map node_id (lastTagged tag (ImportConfig.st_nodes s)) }.

End ImportInvariant.

(** The graph of a node up to its place on the canvas. *)
Definition nodeKey (n : GraphNode) : string * XrayNodeData :=
  (node_id n, node_data n).

(** The tag map after a node is added. *)
Definition tagsAfter (n : GraphNode) (m : list (string * string))
    : list (string * string) :=
  match registeredTag n with
  | Some t => ImportConfig.mapSet t (node_id n) m
  | None => m
  end.

(** The node data the import makes of an outbound entry and of a
    balancer entry whose tag is not empty. *)
Definition outboundNodeData (x : Config.XrayOutbound) : XrayNodeData :=
  if isTerminalProtocol
       (if Js.truthy (Config.xout_protocol x) then Config.xout_protocol x else "freedom")
  then OutboundTerminalNode (ImportConfig.parseOutbound EmptyString x)
  else OutboundProxyNode (ImportConfig.parseOutbound EmptyString x).

Definition balancerNodeData (b : Config.XrayBalancer) : XrayNodeData :=
  BalancerNode
    (mkBalancer (Config.xbal_tag b) (ImportConfig.strOr (Config.xbal_strategyType b) "random")
       (ImportConfig.orEmpty (Config.xbal_selector b)) None).

(** The rules a node list and an edge list compile to, routing node by
    routing node. *)
Definition rulesOf (nodes : list GraphNode) (edges : list GraphEdge)
    : list Config.XrayRoutingRule :=
  flat_map (ExportConfig.rulesOfRoutingNode nodes edges) nodes.

(** [ruleOfEdge] reads only the target of its edge. *)
Definition ruleOfTarget (nodes : list GraphNode) (routeData : RoutingData)
    (target : string) : list Config.XrayRoutingRule :=
  ExportConfig.ruleOfEdge nodes routeData (mkEdge EmptyString EmptyString target None).

(** The ids the tags of a rule resolve to. *)
Definition tagTargetIds (nodes : list GraphNode) (tag : option string) : list string :=
  match tag with
  | Some t =>
      if Js.truthy t then
        match lastTagged t nodes with
        | Some m => [node_id m]
        | None => []
        end
      else []
  | None => []
  end.

Definition ruleTargetIds (nodes : list GraphNode) (r : Config.XrayRoutingRule)
    : list string :=
  (tagTargetIds nodes (Config.rule_outboundTag r) ++
   tagTargetIds nodes (Config.rule_balancerTag r))%list.

(** A rule as the export writes it: its conditions hold no empty list
    and no empty string, its network is tcp or udp, and it names at most
    one inbound. *)
Definition ruleNormal (r : Config.XrayRoutingRule) : Prop :=
  Config.rule_type r = Some "field" /\
  ExportConfig.keepNonEmpty (Config.rule_domain r) = Config.rule_domain r /\
  ExportConfig.keepNonEmpty (Config.rule_ip r) = Config.rule_ip r /\
  ExportConfig.keepTruthy (Config.rule_port r) = Config.rule_port r /\
  ExportConfig.keepNonEmpty (Config.rule_protocol r) = Config.rule_protocol r /\
  (Config.rule_network r = None \/ Config.rule_network r = Some "tcp" \/
   Config.rule_network r = Some "udp") /\
  (Config.rule_inboundTag r = None \/
   exists t, Js.truthy t = true /\ Config.rule_inboundTag r = Some [t]).

(** The rule names one target, and the tag map leads to a node of the
    right kind. *)
Definition resolves (nodes : list GraphNode) (r : Config.XrayRoutingRule) : Prop :=
  (exists t m,
      Config.rule_outboundTag r = Some t /\ Config.rule_balancerTag r = None /\
      Js.truthy t = true /\ lastTagged t nodes = Some m /\
      isOutboundNode m = true) \/
  (exists t m,
      Config.rule_balancerTag r = Some t /\ Config.rule_outboundTag r = None /\
      Js.truthy t = true /\ lastTagged t nodes = Some m /\
      isKind balancer m = true).


(** Two node lists that differ only in where the nodes sit. *)
Definition sameKeys (l l' : list GraphNode) : Prop :=
  Forall2 (fun a b => nodeKey a = nodeKey b) l l'.

(** No edge of the list carries data. *)
Definition plainEdges (es : list GraphEdge) : Prop :=
  forall e, In e es -> edge_data e = None.

(** ** Documents the export writes *)

Definition inboundReady (x : Config.XrayInbound) : Prop :=
  Js.truthy (Config.xin_tag x) = true /\
  (exists q, Config.xin_protocol x = inboundProtocolName q) /\
  (exists p, Config.xin_port x = Some p /\ p <> 0%Z) /\
  exists t,
    Config.xin_streamSettings x =
    ExportConfig.streamBlock (ExportConfig.buildStreamSettings t).

Definition outboundReady (x : Config.XrayOutbound) : Prop :=
  Js.truthy (Config.xout_tag x) = true /\
  Js.truthy (Config.xout_protocol x) = true /\
  (exists t,
      Config.xout_streamSettings x =
      ExportConfig.streamBlock (ExportConfig.buildStreamSettings t)) /\
  (isTerminalProtocol (Config.xout_protocol x) = true ->
   Config.xout_streamSettings x = None).

Definition balancerReady (outs : list Config.XrayOutbound) (b : Config.XrayBalancer)
    : Prop :=
  Js.truthy (Config.xbal_tag b) = true /\
  (exists selector, Config.xbal_selector b = Some selector) /\
  forall x, In x outs -> Config.xout_tag x <> Config.xbal_tag b.

Definition ruleReady (outs : list Config.XrayOutbound)
    (bals : list Config.XrayBalancer) (r : Config.XrayRoutingRule) : Prop :=
  ruleNormal r /\
  ((exists x,
       In x outs /\ Config.rule_outboundTag r = Some (Config.xout_tag x) /\
       Config.rule_balancerTag r = None) \/
   (exists b,
       In b bals /\ Config.rule_balancerTag r = Some (Config.xbal_tag b) /\
       Config.rule_outboundTag r = None)).

Definition inboundsOf (cfg : Config.XrayConfig) : list Config.XrayInbound :=
  ImportConfig.orEmpty (Config.cfg_inbounds cfg).

Definition outboundsOf (cfg : Config.XrayConfig) : list Config.XrayOutbound :=
  ImportConfig.orEmpty (Config.cfg_outbounds cfg).

Definition balancersOf (cfg : Config.XrayConfig) : list Config.XrayBalancer :=
  match Config.cfg_routing cfg with
  | Some r => ImportConfig.orEmpty (Config.routing_balancers r)
  | None => []
  end.

Definition rulesOfDocument (cfg : Config.XrayConfig) : list Config.XrayRoutingRule :=
  match Config.cfg_routing cfg with
  | Some r => ImportConfig.orEmpty (Config.routing_rules r)
  | None => []
  end.

(** A document as the export writes it for a graph that is ready for
    the round trip. *)
Record documentReady (cfg : Config.XrayConfig) : Prop := mkDocumentReady {
  ready_key : hasTopLevelKey cfg = true;
  ready_inbounds : forall x, In x (inboundsOf cfg) -> inboundReady x;
  ready_outbounds : forall x, In x (outboundsOf cfg) -> outboundReady x;
  ready_balancers :
    forall b, In b (balancersOf cfg) -> balancerReady (outboundsOf cfg) b;
  ready_rules :
    forall r, In r (rulesOfDocument cfg) ->
              ruleReady (outboundsOf cfg) (balancersOf cfg) r }.

(** An identifier generator for the examples: the [n]-th identifier is
    [n] letters [i] and a final [d]. *)
Fixpoint unaryId (n : nat) : string :=
  match n with
  | O => "d"
  | S k => String "i"%char (unaryId k)
  end.

(** A graph with every kind of node the compilers handle: an inbound, a
    routing node that leads to a proxy outbound and to a balancer, and
    the two outbounds the balancer picks from. *)
Definition roundTripNodes : list GraphNode :=
  [node "n1" (InboundNode (plainInbound "in1" 443));
   node "n2"
     (RoutingNode
        (mkRouting "rule-1" (Some ["domain:example.com"]) None (Some "443") None
           (Some RnTcp) (Some "in1") None));
   node "n3" (BalancerNode (mkBalancer "bal" "random" ["out"] None));
   node "n4"
     (OutboundProxyNode
        (mkOutbound "out1" "vless" (Some "203.0.113.7") (Some 443%Z)
           (Some wsTlsTransport) None));
   node "n5" (OutboundTerminalNode (plainTerminal "direct"))].

Definition roundTripEdges : list GraphEdge :=
  [edge "e1" "n1" "n2"; edge "e2" "n2" "n4"; edge "e3" "n2" "n3";
   edge "e4" "n3" "n4"; edge "e5" "n3" "n5"].

(** A graph of one inbound with an empty tag. *)
Definition untaggedNodes : list GraphNode :=
  [node "n1" (InboundNode (plainInbound EmptyString 443))].

Definition defaultOptions : ImportConfig.ImportOptions :=
  ImportConfig.mkOptions None None None.

(* ================================================================== *)
(** * Further predicates and examples *)
(* ================================================================== *)
(** ** Statements about the results of the simulator *)

(** What holds of the loop variables besides [loopInvariant]: the
    highlighted node ids are the visited ids in the order of the visits,
    and every turn so far has highlighted one node and one edge. *)
Definition traceInvariant (nodes : list GraphNode) (s : Simulation.LoopState) : Prop :=
  loopInvariant nodes s /\
  Simulation.st_nodeIds s = rev (Simulation.visited s) /\
  List.length (Simulation.st_edgeIds s) = List.length (Simulation.st_nodeIds s) /\
  map Simulation.step_nodeId (Simulation.st_path s) = Simulation.st_nodeIds s.

Definition isOutboundType (t : NodeType) : bool :=
  NodeType_eqb t outbound_terminal || NodeType_eqb t outbound_proxy.

(** The last step of a path is at an outbound node with tag [tag]. *)
Definition endsAtOutbound (p : list Simulation.SimulationStep) (tag : string) : Prop :=
  exists before last,
    p = (before ++ [last])%list /\
    Simulation.step_tag last = tag /\
    isOutboundType (Simulation.step_nodeType last) = true.

(** What every result of the simulator satisfies. *)
Definition resultShape (nodes : list GraphNode) (r : Simulation.SimulationResult)
    : Prop :=
  NoDup (Simulation.highlightNodeIds r) /\
  incl (Simulation.highlightNodeIds r) (map node_id nodes) /\
  (Simulation.success r = true ->
   exists tag,
     Simulation.finalOutbound r = Some tag /\
     endsAtOutbound (Simulation.path r) tag /\
     map Simulation.step_nodeId (Simulation.path r) = Simulation.highlightNodeIds r /\
     List.length (Simulation.highlightEdgeIds r) + 1 =
     List.length (Simulation.highlightNodeIds r)) /\
  (Simulation.success r = false -> Simulation.finalOutbound r = None).

(** The run of the simulator on the balancer example, with a random
    source that always yields 0. *)
Definition balancerRun : option (Completion Simulation.SimulationResult) :=
  Simulation.runSimulation noRegExp drawZero scenarioInput
    randomBalancerNodes randomBalancerEdges.

Definition balancerRunResult : Simulation.SimulationResult :=
  Eval vm_compute in
    match balancerRun with
    | Some (Returned r) => r
    | _ => Simulation.mkResult false [] [] [] None EmptyString
    end.

(** ** The grammar of port rules *)

(** An item of a port rule: a port or a range of ports, written in
    decimal digits. *)
Inductive PortItem :=
| SinglePort (a : string)
| PortRange (a b : string).

Definition showItem (i : PortItem) : string :=
  match i with
  | SinglePort a => a
  | PortRange a b => a ++ "-" ++ b
  end.

(** The items of a rule, separated by commas. *)
Fixpoint showItems (first : PortItem) (rest : list PortItem) : string :=
  match rest with
  | [] => showItem first
  | next :: more => showItem first ++ "," ++ showItems next more
  end.

(** Digits whose value [Number] reads without rounding: at most 2^53. *)
Definition exactDigits (a : string) : bool :=
  Js.allChars Js.isDigit a && (Js.digitsValue 0 a <=? 2 ^ 53)%Z.

Definition exactItem (i : PortItem) : bool :=
  match i with
  | SinglePort a => exactDigits a
  | PortRange a b => exactDigits a && exactDigits b
  end.

(** The port is the port of the item, or lies in its range. *)
Definition itemMatches (port : Z) (i : PortItem) : bool :=
  match i with
  | SinglePort a => (Js.digitsValue 0 a =? port)%Z
  | PortRange a b =>
      ((Js.digitsValue 0 a <=? port) && (port <=? Js.digitsValue 0 b))%Z
  end.

(** A routing node with its IP rules taken away. *)
Definition withoutIpRules (r : RoutingData) : RoutingData :=
  mkRouting (rt_tag r) (rt_domain r) None (rt_port r) (rt_protocol r)
    (rt_network r) (rt_inboundTag r) (rt_serverId r).

(** A routing node with a domain rule and an IP rule. *)
Definition domainAndIpRouting : RoutingData :=
  mkRouting "r1" (Some ["domain:example.com"]) (Some ["geoip:cn"]) None None None
    None None.

(** ** Statements about the validator *)

(** Every issue of the list satisfies [p]. *)
Definition allIssues (p : Validation.ValidationIssue -> bool)
    (l : list Validation.ValidationIssue) : Prop :=
  forallb p l = true.

(** An issue that is an error or a warning and names a node. *)
Definition attachedIssue (i : Validation.ValidationIssue) : bool :=
  negb (Validation.hasLevel Validation.LevelInfo i) &&
  match Validation.nodeId i with
  | Some _ => true
  | None => false
  end.

(** A node that lacks a field the validator requires: a tag that is not
    blank on inbounds, routing nodes, balancers and outbounds; a port
    from 1 to 65535 on inbounds; a server address and a server port on
    proxy outbounds. *)
Definition lacksRequiredField (n : GraphNode) : bool :=
  match node_data n with
  | InboundNode d =>
      Validation.blank (in_tag d) || negb (Validation.isValidPort (in_port d))
  | RoutingNode d => Validation.blank (rt_tag d)
  | BalancerNode d => Validation.blank (bal_tag d)
  | OutboundTerminalNode d => Validation.blank (out_tag d)
  | OutboundProxyNode d =>
      Validation.blank (out_tag d) || Validation.blankOpt (out_serverAddress d) ||
      match out_serverPort d with
      | Some p => negb (Validation.isValidPort p)
      | None => true
      end
  | _ => false
  end.

(** The error of the port conflict check. *)
Definition portConflictIssue (id : string) (port : Z) : Validation.ValidationIssue :=
  Validation.issueError id
    ("Port conflict: port " ++ Js.showZ port ++ " used by multiple INPUT nodes").

(** The ids of the inbound nodes that listen on the port written [key],
    in node order. *)
Definition listensOn (key : string) (n : GraphNode) : bool :=
  match node_data n with
  | InboundNode d => String.eqb (Js.showZ (in_port d)) key
  | _ => false
  end.

Definition listenerIds (key : string) (nodes : list GraphNode) : list string :=
  map node_id (filter (listensOn key) nodes).





(** ** Statements about the cycle search *)

(** The cycle search goes from [x] to [y] in one step. *)
Definition adjacent (nodes : list GraphNode) (edges : list GraphEdge)
    (x y : string) : Prop :=
  In y (Validation.neighborsOf nodes edges x).

(** A walk of one step or more. *)
Inductive walk (nodes : list GraphNode) (edges : list GraphEdge)
    : string -> string -> Prop :=
| walk_one x y : adjacent nodes edges x y -> walk nodes edges x y
| walk_more x y z :
    adjacent nodes edges x y -> walk nodes edges y z -> walk nodes edges x z.

(** [x] lies on a cycle or a walk leads from it to one. *)
Definition reachesCycle (nodes : list GraphNode) (edges : list GraphEdge)
    (x : string) : Prop :=
  walk nodes edges x x \/ exists y, walk nodes edges x y /\ walk nodes edges y y.







(** ** Statements about the forward compiler *)

(** A character of a file name base: a lower-case letter, a digit or a
    dash. *)
Definition safeChar (c : ascii) : bool :=
  ExportConfig.isLowerAlnum c || Ascii.eqb c "-"%char.

Fixpoint lastChar (s : string) : option ascii :=
  match s with
  | EmptyString => None
  | String c rest =>
      match rest with
      | EmptyString => Some c
      | String _ _ => lastChar rest
      end
  end.

(** Two dashes in a row somewhere in the string. *)
Fixpoint hasDoubleDash (s : string) : bool :=
  match s with
  | EmptyString => false
  | String c rest =>
      match rest with
      | EmptyString => false
      | String d _ =>
          (Ascii.eqb c "-"%char && Ascii.eqb d "-"%char) || hasDoubleDash rest
      end
  end.

(** ** Statements about the reverse compiler *)

(** The edge joins two nodes of the list and carries no data. *)
Definition joins (ns : list GraphNode) (e : GraphEdge) : Prop :=
  In (edge_source e) (map node_id ns) /\
  In (edge_target e) (map node_id ns) /\
  edge_data e = None.

(** Between two steps of the import, the tag map and the edges name
    nodes that are there. *)
Definition joinedState (s : ImportConfig.ImportState) : Prop :=
  (forall tag id, In (tag, id) (ImportConfig.tagToNodeId s) ->
                  In id (map node_id (ImportConfig.st_nodes s))) /\
  (forall e, In e (ImportConfig.st_edges s) -> joins (ImportConfig.st_nodes s) e).

(** The inbounds of a document whose protocol the import knows. *)
Definition knownInbounds (cfg : Config.XrayConfig) : list Config.XrayInbound :=
  filter (fun inb => Js.memStr (Config.xin_protocol inb) ImportConfig.INBOUND_PROTOCOLS)
    (inboundsOf cfg).

(** [options.createRoutingNodes ?? true] *)
Definition wantsRoutingNodes (options : ImportConfig.ImportOptions) : bool :=
  match ImportConfig.createRoutingNodes options with
  | Some b => b
  | None => true
  end.

(** A document with an inbound of an unknown protocol, a balancer and
    two rules. *)
Definition sampleDocument : Config.XrayConfig :=
  Config.mkConfig (Some "warning")
    (Some [Config.mkXrayInbound "in" "socks" (Some "127.0.0.1") (Some 1080%Z)
             None None None;
           Config.mkXrayInbound "wg" "wireguard" None (Some 51820%Z) None None None])
    (Some [Config.mkXrayOutbound "proxy" "vless" None None None;
           Config.mkXrayOutbound "direct" "freedom" None None None])
    (Some (Config.mkXrayRouting (Some "AsIs")
             (Some [Config.mkRule (Some "field") None None None None None
                      (Some ["in"]) None (Some "bal");
                    Config.mkRule (Some "field") (Some ["geosite:private"]) None None
                      None None None (Some "direct") None])
             (Some [Config.mkXrayBalancer "bal" (Some ["pro"]) (Some "random")]))).

Definition sampleImport : Completion ImportConfig.ImportResult :=
  Eval vm_compute in
    ImportConfig.importXrayConfig unaryId (Some sampleDocument) defaultOptions.

(** The number of nodes of the list that the layout puts in the layer. *)
Definition layerCount (layer : Z) (ns : list GraphNode) : nat :=
  List.length (filter (fun m => (ImportConfig.layerOf (node_type m) =? layer)%Z) ns).

(* ================================================================== *)
(** * Properties of the connection rule checker *)
(* ================================================================== *)

Section ConnectionRuleFacts.
Import ConnectionRules.

(** The verdict depends on the two node types only. *)
Lemma isValidConnection_by_type (s t : GraphNode) :
  isValidConnection s t =
  isValidConnection (node EmptyString (node_data s)) (node EmptyString (node_data t)).
Proof. reflexivity. Qed.

(** C10. [isValidConnection] answers valid exactly on the pairs of the
    adjacency table of the specification; every other pair is invalid
    and comes with a reason, a valid pair comes without one, and a
    terminal outbound is never a valid source. *)
Theorem isValidConnection_adjacency_table (s t : GraphNode) :
  valid (isValidConnection s t) =
    specTable (nodeType (node_data s)) (nodeType (node_data t))
  /\ (if valid (isValidConnection s t)
      then reason (isValidConnection s t) = None
      else exists why, reason (isValidConnection s t) = Some why)
  /\ (if NodeType_eqb (nodeType (node_data s)) outbound_terminal
      then valid (isValidConnection s t) = false
      else True).
Proof.
  destruct s as [sid sty spos sd], t as [tid tty tpos td].
  destruct sd, td; cbn; repeat split; eauto.
Qed.

(** The earlier copy of the checker differs from the current one on the
    single pair device to outbound-proxy. *)
Lemma isValidConnectionEarlier_differs (s t : GraphNode) :
  valid (isValidConnectionEarlier s t) =
  valid (isValidConnection s t) &&
  negb (NodeType_eqb (nodeType (node_data s)) device &&
        NodeType_eqb (nodeType (node_data t)) outbound_proxy).
Proof.
  destruct s as [sid sty spos sd], t as [tid tty tpos td].
  destruct sd, td; reflexivity.
Qed.

End ConnectionRuleFacts.

(* ================================================================== *)
(** * Properties of the traffic simulator *)
(* ================================================================== *)

Lemma memStr_In (x : string) (xs : list string) :
  Js.memStr x xs = true <-> In x xs.
Proof.
  unfold Js.memStr. rewrite existsb_exists. split.
  - intros [y [Hin Heq]]. apply String.eqb_eq in Heq. now subst.
  - intros Hin. exists x. split; [assumption | apply String.eqb_refl].
Qed.

Lemma memStr_not_In (x : string) (xs : list string) :
  Js.memStr x xs = false <-> ~ In x xs.
Proof.
  rewrite <- memStr_In. destruct (Js.memStr x xs); split; congruence.
Qed.

Section SimulationFacts.
Import Simulation.

Variable regexpTest : string -> string -> option bool.

Lemma getNodeById_In (id : string) (nodes : list GraphNode) (n : GraphNode) :
  getNodeById id nodes = Some n -> In n nodes /\ node_id n = id.
Proof.
  unfold getNodeById. intros H. apply find_some in H. destruct H as [Hin Heq].
  apply String.eqb_eq in Heq. auto.
Qed.

(** ** The loop ends *)

Lemma follow_Continue nodes s p ids e d s' :
  follow nodes s p ids e d = Continue s' ->
  In (currentNode s') nodes /\
  visited s' = node_id (currentNode s) :: visited s.
Proof.
  unfold follow. destruct (getNodeById (edge_target e) nodes) eqn:Hget;
    [| discriminate].
  intros H. injection H as <-. cbn. split; [| reflexivity].
  now apply getNodeById_In in Hget.
Qed.

Lemma turn_Continue random input nodes edges s s' :
  turn regexpTest random input nodes edges s = Continue s' ->
  In (currentNode s') nodes /\
  Js.memStr (node_id (currentNode s)) (visited s) = false /\
  visited s' = node_id (currentNode s) :: visited s.
Proof.
  unfold turn.
  destruct (Js.memStr (node_id (currentNode s)) (visited s)) eqn:Hseen;
    [discriminate |].
  intros H.
  assert (In (currentNode s') nodes /\
          visited s' = node_id (currentNode s) :: visited s) as [H1 H2].
  { revert H.
    repeat match goal with
           | |- context [match ?x with _ => _ end] => destruct x eqn:?
           end;
      try discriminate; intros H; eapply follow_Continue; eassumption. }
  auto.
Qed.

Lemma loopInvariant_step random input nodes edges s s' :
  loopInvariant nodes s ->
  turn regexpTest random input nodes edges s = Continue s' ->
  loopInvariant nodes s' /\ List.length (visited s') = S (List.length (visited s)).
Proof.
  intros (Hcur & Hnd & Hincl) Hturn.
  apply turn_Continue in Hturn. destruct Hturn as (Hin & Hfresh & Hvis).
  unfold loopInvariant. rewrite Hvis. cbn. split; [| reflexivity].
  repeat split.
  - assumption.
  - constructor; [now apply memStr_not_In | assumption].
  - intros x [<- | Hx]; [now apply in_map | now apply Hincl].
Qed.

Lemma loopInvariant_bound nodes s :
  loopInvariant nodes s -> List.length (visited s) <= List.length nodes.
Proof.
  intros (_ & Hnd & Hincl).
  rewrite <- (length_map node_id nodes). now apply NoDup_incl_length.
Qed.

Lemma trace_returns random input nodes edges fuel :
  forall s,
    loopInvariant nodes s ->
    List.length nodes < fuel + List.length (visited s) ->
    exists c, trace regexpTest fuel random input nodes edges s = Some c.
Proof.
  induction fuel as [| fuel IH]; intros s Hinv Hfuel.
  - apply loopInvariant_bound in Hinv. cbn in Hfuel. lia.
  - cbn. destruct (turn regexpTest random input nodes edges s) eqn:Hturn;
      try (eexists; reflexivity).
    destruct (loopInvariant_step _ _ _ _ _ _ Hinv Hturn) as [Hinv' Hlen].
    apply IH; [assumption | lia].
Qed.

(** [runSimulation] ends on every input: with a result record or with a
    thrown error, never by running out of turns. *)
Lemma runSimulation_returns random input nodes edges :
  exists c, runSimulation regexpTest random input nodes edges = Some c.
Proof.
  unfold runSimulation.
  destruct (find _ nodes) as [startNode |] eqn:Hfind; [| eexists; reflexivity].
  apply trace_returns; cbn; [| lia].
  apply find_some in Hfind. repeat split.
  - tauto.
  - constructor.
  - intros x [].
Qed.

(** ** Dependence on [Math.random] *)

Lemma floorScale_one (r : Draw) : floorScale r 1 = 0.
Proof. unfold floorScale. apply Nat.div_small. lia. Qed.

(** A turn at a node where nothing is drawn among several candidates
    does not depend on the random source. *)
Lemma turn_without_choice random1 random2 input nodes edges s :
  choosesAtRandom nodes edges (currentNode s) = false ->
  turn regexpTest random1 input nodes edges s =
  turn regexpTest random2 input nodes edges s.
Proof.
  unfold choosesAtRandom, turn. intros Hnot.
  destruct (node_data (currentNode s)) as [| | | b | | | | | |] eqn:Hdata;
    try reflexivity.
  destruct (Js.memStr (node_id (currentNode s)) (visited s)); [reflexivity |].
  destruct (getOutgoingEdges (node_id (currentNode s)) edges) as [| first rest];
    [reflexivity |].
  destruct (validTargets nodes (bal_selector b) (first :: rest))
    as [[| v1 [| v2 more]] | err]; try reflexivity.
  - destruct (String.eqb (bal_strategy b) "random"); [| reflexivity].
    cbn [List.length]. now rewrite !floorScale_one.
  - rewrite andb_true_r in Hnot. now rewrite Hnot.
Qed.

(** A turn at a node that was visited before ends the run, whatever
    the random source. *)
Lemma turn_at_visited random1 random2 input nodes edges s :
  Js.memStr (node_id (currentNode s)) (visited s) = true ->
  turn regexpTest random1 input nodes edges s =
  turn regexpTest random2 input nodes edges s.
Proof. unfold turn. intros ->. reflexivity. Qed.

Lemma follow_found nodes s p ids e d s' :
  follow nodes s p ids e d = Continue s' ->
  getNodeById (node_id (currentNode s')) nodes = Some (currentNode s').
Proof.
  unfold follow. destruct (getNodeById (edge_target e) nodes) as [n |] eqn:Hget;
    [| discriminate].
  intros H. injection H as <-. cbn [currentNode].
  destruct (getNodeById_In _ _ _ Hget) as [_ ->]. exact Hget.
Qed.

Lemma follow_ids nodes s p ids e d s' :
  follow nodes s p ids e d = Continue s' \/ follow nodes s p ids e d = LeaveLoop s' ->
  st_nodeIds s' = ids.
Proof.
  unfold follow. destruct (getNodeById (edge_target e) nodes);
    intros [H | H]; try discriminate; injection H as <-; reflexivity.
Qed.

(** The node a turn goes on to is the one its id stands for. *)
Lemma turn_Continue_found random input nodes edges s s' :
  turn regexpTest random input nodes edges s = Continue s' ->
  getNodeById (node_id (currentNode s')) nodes = Some (currentNode s').
Proof.
  unfold turn. intros H. revert H.
  repeat match goal with
         | |- context [match ?x with _ => _ end] => destruct x eqn:?
         end;
    try discriminate; intros H; eapply follow_found; eassumption.
Qed.

(** A turn that does not end the run highlights the current node. *)
Lemma turn_next_ids random input nodes edges s s' :
  turn regexpTest random input nodes edges s = Continue s' \/
  turn regexpTest random input nodes edges s = LeaveLoop s' ->
  st_nodeIds s' = (st_nodeIds s ++ [node_id (currentNode s)])%list.
Proof.
  unfold turn. intros H. revert H.
  repeat match goal with
         | |- context [match ?x with _ => _ end] => destruct x eqn:?
         end;
    intros [H | H]; try discriminate;
    try (eapply follow_ids; first [left; exact H | right; exact H]);
    injection H as <-; reflexivity.
Qed.

Lemma turn_Return_ids random input nodes edges s r :
  turn regexpTest random input nodes edges s = Return r ->
  incl (st_nodeIds s) (highlightNodeIds r).
Proof.
  unfold turn, follow. intros H. revert H.
  repeat match goal with
         | |- context [match ?x with _ => _ end] => destruct x eqn:?
         end;
    intros H; try discriminate; injection H as <-; cbn [highlightNodeIds failure];
    first [apply incl_refl | apply incl_appl, incl_refl].
Qed.

(** The nodes highlighted so far stay highlighted in the result. *)
Lemma trace_ids random input nodes edges fuel :
  forall s r,
    trace regexpTest fuel random input nodes edges s = Some (Returned r) ->
    incl (st_nodeIds s) (highlightNodeIds r).
Proof.
  induction fuel as [| fuel IH]; intros s r; cbn [trace]; [discriminate |].
  destruct (turn regexpTest random input nodes edges s) as [r' | s' | s' | err]
    eqn:Hturn.
  - intros H. injection H as <-. now apply turn_Return_ids in Hturn.
  - intros H. apply IH in H.
    rewrite (turn_next_ids _ _ _ _ _ _ (or_introl Hturn)) in H.
    intros x Hx. apply H, in_or_app. now left.
  - intros H. injection H as <-. cbn [highlightNodeIds failure].
    rewrite (turn_next_ids _ _ _ _ _ _ (or_intror Hturn)).
    apply incl_appl, incl_refl.
  - discriminate.
Qed.

(** A turn at a fresh node where the balancer draws among several
    candidates never ends the run with a result of its own. *)
Lemma turn_at_choice random input nodes edges s r :
  choosesAtRandom nodes edges (currentNode s) = true ->
  Js.memStr (node_id (currentNode s)) (visited s) = false ->
  turn regexpTest random input nodes edges s <> Return r.
Proof.
  unfold choosesAtRandom, turn, follow. intros Hchoice ->.
  destruct (node_data (currentNode s)) as [| | | b | | | | | |]; try discriminate.
  destruct (getOutgoingEdges (node_id (currentNode s)) edges) as [| first rest].
  - cbn [validTargets] in Hchoice. rewrite andb_false_r in Hchoice. discriminate.
  - destruct (validTargets nodes (bal_selector b) (first :: rest))
      as [[| v1 [| v2 more]] | err];
      try (rewrite andb_false_r in Hchoice; discriminate).
    repeat match goal with
           | |- context [match ?x with _ => _ end] => destruct x eqn:?
           end;
      discriminate.
Qed.

(** A run that returns a result highlighting no balancer that draws
    among several candidates returns it for every random source. *)
Lemma trace_off_random_choice random1 random2 input nodes edges fuel :
  forall s r,
    getNodeById (node_id (currentNode s)) nodes = Some (currentNode s) \/
    choosesAtRandom nodes edges (currentNode s) = false ->
    trace regexpTest fuel random1 input nodes edges s = Some (Returned r) ->
    passesRandomChoice nodes edges r = false ->
    trace regexpTest fuel random2 input nodes edges s = Some (Returned r).
Proof.
  induction fuel as [| fuel IH]; intros s r Hcur; cbn [trace]; [discriminate |].
  intros Hrun Hpass.
  assert (Hsame :
            turn regexpTest random1 input nodes edges s =
            turn regexpTest random2 input nodes edges s).
  { destruct (choosesAtRandom nodes edges (currentNode s)) eqn:Hchoice;
      [| now apply turn_without_choice].
    destruct Hcur as [Hfound | Hnot]; [| discriminate].
    destruct (Js.memStr (node_id (currentNode s)) (visited s)) eqn:Hseen;
      [now apply turn_at_visited |].
    exfalso.
    assert (Hin : In (node_id (currentNode s)) (highlightNodeIds r)).
    { destruct (turn regexpTest random1 input nodes edges s) as [r' | s' | s' | err]
        eqn:Hturn.
      - now apply (turn_at_choice _ _ _ _ _ r' Hchoice Hseen) in Hturn.
      - apply trace_ids in Hrun. apply Hrun.
        rewrite (turn_next_ids _ _ _ _ _ _ (or_introl Hturn)).
        apply in_or_app. right. now left.
      - injection Hrun as <-. cbn [highlightNodeIds failure].
        rewrite (turn_next_ids _ _ _ _ _ _ (or_intror Hturn)).
        apply in_or_app. right. now left.
      - discriminate. }
    unfold passesRandomChoice in Hpass.
    assert (Htrue :
              existsb
                (fun id =>
                   match getNodeById id nodes with
                   | Some n => choosesAtRandom nodes edges n
                   | None => false
                   end)
                (highlightNodeIds r) = true).
    { apply existsb_exists. exists (node_id (currentNode s)).
      split; [exact Hin |]. now rewrite Hfound. }
    rewrite Htrue in Hpass. discriminate. }
  rewrite <- Hsame.
  destruct (turn regexpTest random1 input nodes edges s) as [r' | s' | s' | err]
    eqn:Hturn; try exact Hrun.
  apply IH; [| exact Hrun | exact Hpass].
  left. now apply turn_Continue_found in Hturn.
Qed.

End SimulationFacts.

(** ** The scenario of the specification *)

(** C4, as the code has it. On the three-node graph inbound [in1] (port
    443, vless), routing [domain:example.com], proxy outbound [out1]
    without outgoing edge, the request for [example.com] over tcp to
    port 443 from [in1] succeeds along a path of exactly three steps
    that ends on the outbound-proxy node, and [finalOutbound] is the tag
    [out1] of that node. *)
Theorem scenario_reaches_proxy
    (regexpTest : string -> string -> option bool)
    (random : nat -> Simulation.Draw)
    (idIn idRt idOut e1 e2 routingTag : string)
    (inboundRest : InboundData) (proxy : OutboundData) :
  String.eqb idIn idRt = false ->
  String.eqb idIn idOut = false ->
  String.eqb idRt idOut = false ->
  exists r,
    Simulation.runSimulation regexpTest random scenarioInput
      (scenarioNodes idIn idRt idOut inboundRest routingTag proxy)
      (scenarioEdges e1 e2 idIn idRt idOut) = Some (Returned r)
    /\ Simulation.success r = true
    /\ List.length (Simulation.path r) = 3
    /\ map Simulation.step_nodeId (Simulation.path r) = [idIn; idRt; idOut]
    /\ map Simulation.step_nodeType (Simulation.path r) =
         [inbound; routing; outbound_proxy]
    /\ Simulation.finalOutbound r = Some "out1".
Proof.
  intros H12 H13 H23.
  assert (H21 : String.eqb idRt idIn = false) by (rewrite String.eqb_sym; exact H12).
  assert (H31 : String.eqb idOut idIn = false) by (rewrite String.eqb_sym; exact H13).
  assert (H32 : String.eqb idOut idRt = false) by (rewrite String.eqb_sym; exact H23).
  assert (Hmatch :
    Simulation.doesRoutingMatch regexpTest
      (mkRouting routingTag (Some ["domain:example.com"]) None None None None
         None None)
      (Simulation.mkInput "example.com" RnTcp 443 "in1") "in1" = true)
    by (vm_compute; reflexivity).
  unfold Simulation.runSimulation, scenarioNodes, scenarioEdges, scenarioInput.
  cbv [find node_data node in_tag Simulation.si_inboundTag].
  change ("in1" =? "in1") with true. cbv iota.
  cbv [List.length Simulation.trace].
  (* the turn at the inbound *)
  unfold Simulation.turn at 1.
  cbv [Simulation.currentNode Simulation.visited node_id node Js.memStr existsb
       node_data Simulation.st_path Simulation.st_nodeIds app
       Simulation.getOutgoingEdges filter edge_source edge].
  rewrite String.eqb_refl, H21.
  cbv [Simulation.sortByPriority fold_right Simulation.insertByPriority
       Simulation.scanInbound edge_target Simulation.getNodeById find node_id in_tag].
  rewrite H12, String.eqb_refl. cbv [node_data]. rewrite Hmatch.
  cbv [Simulation.follow edge_target Simulation.getNodeById find node_id].
  rewrite H12, String.eqb_refl.
  cbv [Simulation.currentNode Simulation.visited node_id Simulation.st_edgeIds
       edge_id app Simulation.draws].
  (* the turn at the routing node *)
  unfold Simulation.turn at 1.
  cbv [Simulation.currentNode Simulation.visited node_id node Js.memStr existsb
       node_data Simulation.st_path Simulation.st_nodeIds app
       Simulation.getOutgoingEdges filter edge_source edge].
  rewrite H12, H21, String.eqb_refl.
  cbv [orb Simulation.sortByPriority fold_right Simulation.insertByPriority
       Simulation.follow edge_target Simulation.getNodeById find node_id].
  rewrite H13, H23, String.eqb_refl.
  cbv [Simulation.currentNode Simulation.visited node_id Simulation.st_edgeIds
       edge_id app Simulation.draws].
  (* the turn at the proxy outbound *)
  unfold Simulation.turn at 1.
  cbv [Simulation.currentNode Simulation.visited node_id node Js.memStr existsb
       node_data Simulation.st_path Simulation.st_nodeIds app
       Simulation.getOutgoingEdges filter edge_source edge].
  rewrite H23, H13, H31, H32.
  cbv [orb Simulation.sortByPriority fold_right].
  eexists. split; [reflexivity |]. cbn. auto 6.
Qed.

Lemma scenario_reaches_proxy_witness :
  exists r,
    Simulation.runSimulation noRegExp drawZero scenarioInput
      (scenarioNodes "n1" "n2" "n3" (plainInbound "in1" 443) "rule-1"
         (plainProxy "out1"))
      (scenarioEdges "e1" "e2" "n1" "n2" "n3") = Some (Returned r)
    /\ Simulation.success r = true
    /\ List.length (Simulation.path r) = 3
    /\ map Simulation.step_nodeId (Simulation.path r) = ["n1"; "n2"; "n3"]
    /\ map Simulation.step_nodeType (Simulation.path r) =
         [inbound; routing; outbound_proxy]
    /\ Simulation.finalOutbound r = Some "out1".
Proof.
  apply (scenario_reaches_proxy noRegExp drawZero "n1" "n2" "n3" "e1" "e2"
           "rule-1" (plainInbound "in1" 443) (plainProxy "out1"));
    reflexivity.
Defined.

(** C4 as stated fails: on the scenario no result has [success] true, a
    three-step path ending on the proxy and an undefined
    [finalOutbound]. *)
Lemma scenario_finalOutbound_not_undefined :
  ~ exists r,
      Simulation.runSimulation noRegExp drawZero scenarioInput
        (scenarioNodes "n1" "n2" "n3" (plainInbound "in1" 443) "rule-1"
           (plainProxy "out1"))
        (scenarioEdges "e1" "e2" "n1" "n2" "n3") = Some (Returned r)
      /\ Simulation.success r = true
      /\ List.length (Simulation.path r) = 3
      /\ map Simulation.step_nodeType (Simulation.path r) =
           [inbound; routing; outbound_proxy]
      /\ Simulation.finalOutbound r = None.
Proof.
  intros [r (Hrun & _ & _ & _ & Hfinal)].
  vm_compute in Hrun. injection Hrun as <-. discriminate Hfinal.
Qed.

(** ** Determinism *)

(** C2, as the code has it. [runSimulation] calls [Math.random] at one
    place only: at a balancer whose strategy is [random], to pick among
    the candidates.  A result that highlights no balancer with strategy
    [random] and two or more candidates is the result of every run on
    the same arguments, whatever values [Math.random] gives: such a run
    is a function of the input, the nodes and the edges. *)
Theorem runSimulation_deterministic_off_random_choice
    (regexpTest : string -> string -> option bool)
    (input : Simulation.SimulationInput)
    (nodes : list GraphNode) (edges : list GraphEdge)
    (random1 random2 : nat -> Simulation.Draw) (r : Simulation.SimulationResult) :
  Simulation.runSimulation regexpTest random1 input nodes edges = Some (Returned r) ->
  passesRandomChoice nodes edges r = false ->
  Simulation.runSimulation regexpTest random2 input nodes edges = Some (Returned r).
Proof.
  unfold Simulation.runSimulation.
  destruct (find _ nodes) as [startNode |] eqn:Hfind; [| auto].
  apply trace_off_random_choice. right.
  apply find_some in Hfind. destruct Hfind as [_ Hkind].
  unfold choosesAtRandom. cbn [Simulation.currentNode].
  now destruct (node_data startNode).
Qed.

Lemma runSimulation_deterministic_off_random_choice_witness :
  Simulation.runSimulation noRegExp drawHalf scenarioInput
    singleCandidateNodes randomBalancerEdges = Some (Returned singleCandidateRun).
Proof.
  apply (runSimulation_deterministic_off_random_choice noRegExp scenarioInput
           singleCandidateNodes randomBalancerEdges drawZero drawHalf
           singleCandidateRun);
    reflexivity.
Defined.

(** C2 as stated fails: through a balancer with strategy [random] and
    two candidates, the run in which [Math.random] gives 0 takes the
    first candidate and ends on the outbound [a], the run in which it
    gives one half takes the second and ends on [b]. *)
Lemma runSimulation_random_balancer_differs :
  exists r0 r1,
    Simulation.runSimulation noRegExp drawZero scenarioInput
      randomBalancerNodes randomBalancerEdges = Some (Returned r0) /\
    Simulation.runSimulation noRegExp drawHalf scenarioInput
      randomBalancerNodes randomBalancerEdges = Some (Returned r1) /\
    Simulation.finalOutbound r0 = Some "a" /\
    Simulation.finalOutbound r1 = Some "b" /\
    Simulation.highlightEdgeIds r0 = ["e1"; "e2"] /\
    Simulation.highlightEdgeIds r1 = ["e1"; "e3"] /\
    passesRandomChoice randomBalancerNodes randomBalancerEdges r0 = true.
Proof.
  eexists. eexists.
  split; [vm_compute; reflexivity |].
  split; [vm_compute; reflexivity |].
  repeat split; reflexivity.
Qed.

(** ** Balancer candidates *)

Lemma prefix_refl (u : string) : String.prefix u u = true.
Proof.
  induction u as [| c u IH]; [reflexivity |]. cbn.
  destruct (ascii_dec c c); [exact IH | contradiction].
Qed.

Lemma includes_refl (u : string) : Js.includes u u = true.
Proof. destruct u; cbn -[String.prefix]; now rewrite prefix_refl. Qed.

Lemma equal_or_includes (tag sel : string) :
  String.eqb tag sel || Js.includes tag sel = Js.includes tag sel.
Proof.
  destruct (String.eqb_spec tag sel) as [-> | Hne]; [| reflexivity].
  now rewrite includes_refl.
Qed.

(** The filter keeps an edge exactly when its target exists and either
    the selector is empty or the target's tag contains a selector entry
    anywhere. *)
Lemma isValidTarget_by_substring nodes selector e target tag :
  Simulation.getNodeById (edge_target e) nodes = Some target ->
  dataTag (node_data target) = Some tag ->
  Simulation.isValidTarget nodes selector e =
  Returned (match selector with
            | [] => true
            | _ => existsb (fun sel => Js.includes tag sel) selector
            end).
Proof.
  intros Hget Htag. unfold Simulation.isValidTarget. rewrite Hget, Htag.
  destruct selector as [| sel rest]; [reflexivity |].
  f_equal. generalize (sel :: rest). intros l.
  induction l as [| x l IH]; [reflexivity |].
  cbn [existsb]. now rewrite equal_or_includes, IH.
Qed.

(** C3 at the failing input. The selector entry [proxy] is neither equal
    to nor a prefix of the tag [my-proxy], yet the edge to [my-proxy]
    is kept as a candidate, and being first in priority it is the one
    the balancer takes. *)
Theorem balancer_keeps_interior_substring :
  String.eqb "my-proxy" "proxy" = false
  /\ Js.startsWith "my-proxy" "proxy" = false
  /\ Simulation.validTargets substringBalancerNodes ["proxy"]
       (Simulation.getOutgoingEdges "n2" substringBalancerEdges) =
     Returned
       [mkEdge "e2" "n2" "n3" (Some (mkEdgeData (Some 1%Z) None None));
        mkEdge "e3" "n2" "n4" (Some (mkEdgeData (Some 2%Z) None None))]
  /\ exists r,
       Simulation.runSimulation noRegExp drawZero scenarioInput
         substringBalancerNodes substringBalancerEdges = Some (Returned r)
       /\ Simulation.finalOutbound r = Some "my-proxy".
Proof.
  repeat split; try reflexivity.
  eexists. split; [vm_compute; reflexivity | reflexivity].
Qed.

(* ================================================================== *)
(** * Properties of the validation engine *)
(* ================================================================== *)

Section ValidationFacts.
Import Validation.

(** ** The searches end *)

Lemma filter_length_pointwise_le {A : Type} (p q : A -> bool) (l : list A) :
  (forall x, In x l -> p x = true -> q x = true) ->
  List.length (filter p l) <= List.length (filter q l).
Proof.
  induction l as [| a l IH]; intros Hpq; [constructor |].
  cbn. assert (Hl : forall x, In x l -> p x = true -> q x = true)
    by (intros; apply Hpq; [now right | assumption]).
  specialize (IH Hl).
  destruct (p a) eqn:Hp.
  - rewrite (Hpq a (or_introl eq_refl) Hp). cbn. lia.
  - destruct (q a); cbn; lia.
Qed.

Lemma filter_length_pointwise_lt {A : Type} (p q : A -> bool) (l : list A) (a : A) :
  (forall x, In x l -> p x = true -> q x = true) ->
  In a l -> p a = false -> q a = true ->
  List.length (filter p l) < List.length (filter q l).
Proof.
  induction l as [| b l IH]; intros Hpq Hin Hp Hq; [destruct Hin |].
  assert (Hl : forall x, In x l -> p x = true -> q x = true)
    by (intros; apply Hpq; [now right | assumption]).
  cbn. destruct Hin as [-> | Hin].
  - rewrite Hp, Hq. cbn. pose proof (filter_length_pointwise_le p q l Hl). lia.
  - specialize (IH Hl Hin Hp Hq).
    destruct (p b) eqn:Hpb.
    + rewrite (Hpq b (or_introl eq_refl) Hpb). cbn. lia.
    + destruct (q b); cbn; lia.
Qed.

Lemma unvisited_le_length universe visited :
  unvisited universe visited <= List.length universe.
Proof. apply List.filter_length_le. Qed.

Lemma unvisited_mono universe visited visited' :
  incl visited visited' ->
  unvisited universe visited' <= unvisited universe visited.
Proof.
  intros Hincl. apply filter_length_pointwise_le. intros x _ Hx.
  apply negb_true_iff in Hx. apply negb_true_iff.
  apply memStr_not_In. apply memStr_not_In in Hx. auto.
Qed.

Lemma unvisited_add universe visited x :
  In x universe -> Js.memStr x visited = false ->
  unvisited universe (x :: visited) < unvisited universe visited.
Proof.
  intros Hin Hfresh. apply filter_length_pointwise_lt with (a := x).
  - intros y _ Hy. apply negb_true_iff in Hy. apply negb_true_iff.
    apply memStr_not_In. apply memStr_not_In in Hy. intros H. apply Hy. now right.
  - assumption.
  - apply negb_false_iff. apply memStr_In. now left.
  - now rewrite Hfresh.
Qed.

Section Reachability.

Variable edges : list GraphEdge.
Variable outboundIds : list string.
Variable universe : list string.
Hypothesis targets_in_universe :
  forall e, In e edges -> In (edge_target e) universe.

Lemma someReach_returns reach bound :
  (forall target seen,
      In target universe -> unvisited universe seen < bound ->
      exists b seen', reach target seen = Some (b, seen') /\ incl seen seen') ->
  forall outgoing seen,
    incl outgoing edges -> unvisited universe seen < bound ->
    exists b seen',
      someReach reach outgoing seen = Some (b, seen') /\ incl seen seen'.
Proof.
  intros Hreach. induction outgoing as [| e rest IH]; intros seen Hsub Hm.
  - exists false, seen. split; [reflexivity | apply incl_refl].
  - cbn. assert (He : In e edges) by (apply Hsub; now left).
    destruct (Hreach (edge_target e) seen (targets_in_universe e He) Hm)
      as (b & seen1 & -> & Hincl1).
    destruct b.
    + eauto.
    + destruct (IH seen1) as (b2 & seen2 & -> & Hincl2).
      * intros y Hy. apply Hsub. now right.
      * pose proof (unvisited_mono universe seen seen1 Hincl1). lia.
      * exists b2, seen2. split; [reflexivity |].
        eapply incl_tran; eassumption.
Qed.

Lemma canReachOutbound_returns fuel :
  forall nodeId visited,
    In nodeId universe -> unvisited universe visited < fuel ->
    exists b visited',
      canReachOutbound fuel nodeId edges outboundIds visited = Some (b, visited')
      /\ incl visited visited'.
Proof.
  induction fuel as [| fuel IH]; intros nodeId visited Hin Hm; [lia |].
  cbn. destruct (Js.memStr nodeId outboundIds).
  { exists true, visited. split; [reflexivity | apply incl_refl]. }
  destruct (Js.memStr nodeId visited) eqn:Hseen.
  { exists false, visited. split; [reflexivity | apply incl_refl]. }
  pose proof (unvisited_add universe visited nodeId Hin Hseen) as Hlt.
  destruct (someReach_returns
              (fun target seen =>
                 canReachOutbound fuel target edges outboundIds seen)
              fuel IH
              (filter (fun e => String.eqb (edge_source e) nodeId) edges)
              (nodeId :: visited))
    as (b & seen' & Heq & Hincl).
  - intros e He. apply filter_In in He. tauto.
  - lia.
  - exists b, seen'. split; [exact Heq |].
    intros y Hy. apply Hincl. now right.
Qed.

End Reachability.

Lemma reachabilityIssues_returns inbounds edges terminalIds :
  exists issues, reachabilityIssues inbounds edges terminalIds = Some issues.
Proof.
  induction inbounds as [| n rest [more IH]]; [eexists; reflexivity |].
  cbn [reachabilityIssues].
  destruct (canReachOutbound_returns edges terminalIds
              (node_id n :: map edge_target edges)
              (fun e He => or_intror (in_map edge_target edges e He))
              (reachFuel edges) (node_id n) [])
    as (b & visited' & -> & _).
  - now left.
  - pose proof (unvisited_le_length (node_id n :: map edge_target edges) []).
    unfold reachFuel. cbn [List.length] in *. rewrite length_map in H. lia.
  - rewrite IH. eexists. reflexivity.
Qed.

Section CycleSearch.

Variable nodes : list GraphNode.
Variable edges : list GraphEdge.

Lemma neighborsOf_in_universe id x :
  In x (neighborsOf nodes edges id) -> In x (searchUniverse nodes edges).
Proof.
  unfold neighborsOf, searchUniverse. destruct (nodeTypeOfId nodes id); [| intros []].
  intros H. apply in_map_iff in H. destruct H as (e & <- & He).
  apply filter_In in He. apply in_or_app. right. apply in_map. tauto.
Qed.

Lemma eachNeighbor_returns search bound id :
  (forall x s,
      In x (searchUniverse nodes edges) ->
      unvisited (searchUniverse nodes edges) (dfs_visited s) < bound ->
      exists b s', search x s = Some (b, s') /\
                   incl (dfs_visited s) (dfs_visited s')) ->
  forall neighbors s,
    (forall x, In x neighbors -> In x (searchUniverse nodes edges)) ->
    unvisited (searchUniverse nodes edges) (dfs_visited s) < bound ->
    exists b s',
      eachNeighbor search id neighbors s = Some (b, s') /\
      incl (dfs_visited s) (dfs_visited s').
Proof.
  intros Hsearch. induction neighbors as [| x rest IH]; intros s Hsub Hm.
  - eexists _, _. split; [reflexivity | apply incl_refl].
  - cbn. destruct (Hsearch x s (Hsub x (or_introl eq_refl)) Hm)
      as (b & s1 & -> & Hincl1).
    destruct b.
    + eexists _, _. split; [reflexivity | exact Hincl1].
    + destruct (IH s1) as (b2 & s2 & -> & Hincl2).
      * intros y Hy. apply Hsub. now right.
      * pose proof (unvisited_mono (searchUniverse nodes edges)
                      (dfs_visited s) (dfs_visited s1) Hincl1). lia.
      * exists b2, s2. split; [reflexivity |].
        eapply incl_tran; eassumption.
Qed.

Lemma dfs_returns fuel :
  forall id s,
    In id (searchUniverse nodes edges) ->
    unvisited (searchUniverse nodes edges) (dfs_visited s) < fuel ->
    exists b s',
      dfs fuel nodes edges id s = Some (b, s') /\
      incl (dfs_visited s) (dfs_visited s').
Proof.
  induction fuel as [| fuel IH]; intros id s Hin Hm; [lia |].
  cbn. destruct (Js.memStr id (inStack s)).
  { exists true, s. split; [reflexivity | apply incl_refl]. }
  destruct (Js.memStr id (dfs_visited s)) eqn:Hseen.
  { exists false, s. split; [reflexivity | apply incl_refl]. }
  pose proof (unvisited_add (searchUniverse nodes edges) (dfs_visited s) id Hin Hseen)
    as Hlt.
  destruct (eachNeighbor_returns (dfs fuel nodes edges) fuel id IH
              (neighborsOf nodes edges id)
              (mkDfs (id :: dfs_visited s) (id :: inStack s) (dfs_issues s)))
    as (b & s' & Heq & Hincl).
  - apply neighborsOf_in_universe.
  - cbn. lia.
  - exists b, s'. split; [exact Heq |].
    intros y Hy. apply Hincl. now right.
Qed.

Lemma dfsRoots_returns roots :
  forall s,
    incl roots nodes ->
    exists s', dfsRoots (dfsFuel nodes edges) nodes edges roots s = Some s'.
Proof.
  induction roots as [| n rest IH]; intros s Hsub; [eexists; reflexivity |].
  assert (Hrest : incl rest nodes) by (intros y Hy; apply Hsub; now right).
  cbn [dfsRoots].
  destruct (Js.memStr (node_id n) (dfs_visited s)); [now apply IH |].
  destruct (dfs_returns (dfsFuel nodes edges) (node_id n) s) as (b & s' & -> & _).
  - unfold searchUniverse. apply in_or_app. left. apply in_map.
    apply Hsub. now left.
  - pose proof (unvisited_le_length (searchUniverse nodes edges) (dfs_visited s)).
    unfold dfsFuel, searchUniverse in *.
    rewrite length_app, !length_map in H. lia.
  - now apply IH.
Qed.

Lemma detectCycles_returns :
  exists issues, detectCycles nodes edges = Some issues.
Proof.
  unfold detectCycles.
  destruct (dfsRoots_returns nodes (mkDfs [] [] []) (incl_refl nodes)) as [s' ->].
  eexists. reflexivity.
Qed.

End CycleSearch.

Lemma validateStructure_returns nodes edges :
  exists issues, validateStructure nodes edges = Some issues.
Proof.
  unfold validateStructure.
  destruct (reachabilityIssues_returns (nodesOfType inbound nodes) edges
              (map node_id (nodesOfType outbound_terminal nodes))) as [r ->].
  destruct (detectCycles_returns nodes edges) as [c ->].
  eexists. reflexivity.
Qed.

(** [validateGraph] returns a result on every graph, cyclic or not. *)
Lemma validateGraph_returns nodes edges :
  exists result, validateGraph nodes edges = Some result.
Proof.
  unfold validateGraph.
  destruct (validateStructure_returns nodes edges) as [issues ->].
  eexists. reflexivity.
Qed.

(** ** Graphs that were never checked *)

Lemma map_seen_Declared nodes :
  map Unchecked.seen (map Unchecked.Declared nodes) = nodes.
Proof. induction nodes as [| n rest IH]; [reflexivity |]. cbn. now rewrite IH. Qed.

Lemma selectorLoop_Declared tags nodes :
  Unchecked.selectorLoop tags (map Unchecked.Declared nodes) =
  Returned (flat_map (selectorIssues tags) nodes).
Proof.
  induction nodes as [| n rest IH]; [reflexivity |].
  cbn [map Unchecked.selectorLoop flat_map]. now rewrite IH.
Qed.

Lemma selectorLoop_throws tags before after id type position tag strategy serverId :
  Unchecked.selectorLoop tags
    (before ++
     Unchecked.BalancerWithoutSelector id type position tag strategy serverId :: after) =
  Thrown "TypeError: Cannot read properties of undefined (reading 'length')".
Proof.
  induction before as [| u rest IH]; [reflexivity |].
  cbn [app Unchecked.selectorLoop]. destruct u; [| reflexivity]. now rewrite IH.
Qed.

(** On a graph of the declared types the validator returns, with the
    result of [validateGraph], and the hook hands that result on. *)
Lemma validateGraph_returns_on_declared nodes edges :
  exists result,
    validateGraph nodes edges = Some result /\
    Unchecked.validateGraph (map Unchecked.Declared nodes) edges =
      Some (Returned result) /\
    useValidationCallback (map Unchecked.Declared nodes) edges = Some result.
Proof.
  destruct (validateGraph_returns nodes edges) as [result Hresult].
  exists result. split; [exact Hresult |].
  assert (Hrun : Unchecked.validateGraph (map Unchecked.Declared nodes) edges =
                 Some (Returned result)).
  { unfold Unchecked.validateGraph, Unchecked.validateConfig, Unchecked.validateNode.
    rewrite map_seen_Declared, selectorLoop_Declared.
    unfold validateGraph, validateConfig in Hresult.
    destruct (validateStructure nodes edges) as [structural |]; [| discriminate].
    injection Hresult as <-.
    assert (Hnodes : flat_map (fun u => validateNode (Unchecked.seen u))
                       (map Unchecked.Declared nodes) =
                     flat_map validateNode nodes).
    { clear. induction nodes as [| n rest IH]; [reflexivity |].
      cbn [map flat_map Unchecked.seen]. now rewrite IH. }
    now rewrite Hnodes. }
  split; [exact Hrun |]. unfold useValidationCallback. now rewrite Hrun.
Qed.

(** C6 at the failing input. On every graph that holds a balancer node
    whose data has no [selector], [validateGraph] does not return: the
    unguarded [data.selector.length] of [validateConfig] throws a
    [TypeError], and nothing in [validateGraph] catches it.  It is the
    timer callback of [useValidation] that catches, and stores the
    empty valid result. *)
Theorem validateGraph_throws_without_selector
    (before after : list Unchecked.Node) (edges : list GraphEdge)
    (id type : string) (position : Z * Z) (tag strategy : string)
    (serverId : option string) :
  Unchecked.validateGraph
    (before ++
     Unchecked.BalancerWithoutSelector id type position tag strategy serverId :: after)
    edges =
  Some (Thrown "TypeError: Cannot read properties of undefined (reading 'length')") /\
  useValidationCallback
    (before ++
     Unchecked.BalancerWithoutSelector id type position tag strategy serverId :: after)
    edges =
  Some (mkValidation true [] [] []).
Proof.
  assert (Hrun :
    Unchecked.validateGraph
      (before ++
       Unchecked.BalancerWithoutSelector id type position tag strategy serverId :: after)
      edges =
    Some (Thrown "TypeError: Cannot read properties of undefined (reading 'length')")).
  { unfold Unchecked.validateGraph, Unchecked.validateConfig.
    destruct (validateStructure_returns
                (map Unchecked.seen
                   (before ++
                    Unchecked.BalancerWithoutSelector id type position tag strategy
                      serverId :: after))
                edges) as [structural ->].
    now rewrite selectorLoop_throws. }
  split; [exact Hrun |]. unfold useValidationCallback. now rewrite Hrun.
Qed.


End ValidationFacts.

Section DuplicateTags.
Import Validation.

Lemma assocGet_In {A : Type} (key : string) (m : list (string * A)) (v : A) :
  assocGet key m = Some v -> In (key, v) m.
Proof.
  induction m as [| [k w] m IH]; cbn; [discriminate |].
  destruct (String.eqb_spec k key) as [-> | Hne].
  - intros H. injection H as ->. now left.
  - intros H. right. now apply IH.
Qed.

Lemma pushTo_get {A : Type} (key key' : string) (x : A) (m : list (string * list A)) :
  assocGet key' (Js.pushTo key x m) =
  if String.eqb key key'
  then Some ((match assocGet key' m with Some xs => xs | None => [] end) ++ [x])%list
  else assocGet key' m.
Proof.
  induction m as [| [k xs] m IH]; cbn.
  - destruct (String.eqb key key'); reflexivity.
  - destruct (String.eqb_spec k key) as [-> | Hk]; cbn.
    + destruct (String.eqb key key'); reflexivity.
    + rewrite IH. destruct (String.eqb_spec key key') as [<- | Hkk].
      * destruct (String.eqb_spec k key); [contradiction | reflexivity].
      * reflexivity.
Qed.

Lemma extendEntry_cons entry id ids :
  extendEntry
    (Some ((match entry with Some old => old | None => [] end) ++ [id])%list) ids =
  extendEntry entry (id :: ids).
Proof.
  destruct ids; cbn; [reflexivity |]. f_equal. now rewrite <- app_assoc.
Qed.

Lemma tagMap_fold_get tag nodes :
  forall m,
    assocGet tag
      (fold_left
         (fun m n =>
            match dataTag (node_data n) with
            | Some t => if negb (blank t) then Js.pushTo t (node_id n) m else m
            | None => m
            end)
         nodes m) =
    extendEntry (assocGet tag m) (taggedIds tag nodes).
Proof.
  induction nodes as [| n nodes IH]; intros m; [reflexivity |].
  cbn [fold_left]. rewrite IH. unfold taggedIds. cbn [filter].
  unfold carriesTag at 2.
  destruct (dataTag (node_data n)) as [t |]; [| reflexivity].
  destruct (blank t); cbn [negb andb]; [reflexivity |].
  rewrite pushTo_get. destruct (String.eqb t tag); [| reflexivity].
  cbn [map]. apply extendEntry_cons.
Qed.

Lemma tagMap_get tag nodes :
  assocGet tag (tagMap nodes) = extendEntry None (taggedIds tag nodes).
Proof. unfold tagMap. now rewrite tagMap_fold_get. Qed.

Lemma sharedEntries_In describe m key ids id :
  In (key, ids) m -> 1 < List.length ids -> In id ids ->
  In (issueError id (describe key)) (sharedEntries describe m).
Proof.
  intros Hentry Hlen Hid. unfold sharedEntries. apply in_flat_map.
  exists (key, ids). split; [assumption |].
  apply Nat.ltb_lt in Hlen. rewrite Hlen.
  apply in_map_iff. now exists id.
Qed.

Lemma taggedIds_two tag before n1 between n2 after :
  carriesTag tag n1 = true -> carriesTag tag n2 = true ->
  let ids := taggedIds tag (before ++ n1 :: between ++ n2 :: after) in
  In (node_id n1) ids /\ In (node_id n2) ids /\ 1 < List.length ids.
Proof.
  intros H1 H2. unfold taggedIds.
  rewrite filter_app. cbn [filter]. rewrite H1, filter_app. cbn [filter]. rewrite H2.
  rewrite map_app. cbn [map]. rewrite map_app. cbn [map].
  repeat split.
  - apply in_or_app. right. now left.
  - apply in_or_app. right. right. apply in_or_app. right. now left.
  - rewrite length_app. cbn [List.length]. rewrite length_app. cbn [List.length]. lia.
Qed.

(** The duplicate tag check: two nodes that carry the same non-blank
    tag both get the error. *)
Lemma duplicate_tags_reported tag before n1 between n2 after :
  carriesTag tag n1 = true -> carriesTag tag n2 = true ->
  let dups :=
    sharedEntries (fun t => "Duplicate tag: " ++ Js.quoted t)
      (tagMap (before ++ n1 :: between ++ n2 :: after)) in
  In (duplicateTagIssue (node_id n1) tag) dups /\
  In (duplicateTagIssue (node_id n2) tag) dups.
Proof.
  intros H1 H2.
  destruct (taggedIds_two tag before n1 between n2 after H1 H2) as (Hi1 & Hi2 & Hlen).
  pose proof (tagMap_get tag (before ++ n1 :: between ++ n2 :: after)) as Hget.
  destruct (taggedIds tag (before ++ n1 :: between ++ n2 :: after)) as [| i ids] eqn:Hids.
  { destruct Hi1. }
  cbn [extendEntry app] in Hget. apply assocGet_In in Hget.
  split; eapply sharedEntries_In with (describe := fun t => "Duplicate tag: " ++ Js.quoted t);
    eassumption.
Qed.

Lemma validateGraph_errors_include nodes edges structural issue :
  validateStructure nodes edges = Some structural ->
  In issue structural -> level issue = LevelError ->
  exists result,
    validateGraph nodes edges = Some result /\
    In issue (errors result) /\ valid result = false.
Proof.
  intros Hs Hin Hlevel. unfold validateGraph. rewrite Hs.
  eexists. split; [reflexivity |]. cbn [errors valid].
  assert (Herr :
    In issue
      (filter (hasLevel LevelError)
         (flat_map validateNode nodes ++ validateEdges nodes edges ++
          structural ++ validateConfig nodes edges))).
  { apply filter_In. split.
    - apply in_or_app. right. apply in_or_app. right. apply in_or_app. now left.
    - unfold hasLevel. now rewrite Hlevel. }
  split; [exact Herr |].
  destruct (filter _ _); [destruct Herr | reflexivity].
Qed.

(** C9, as the code has it. In a graph with two nodes that share a tag
    which is not blank (not empty after trimming), the errors of
    [validateGraph] contain the duplicate tag error for the id of each
    of the two nodes, and the graph is not valid. *)
Theorem duplicate_tag_errors
    (before between after : list GraphNode) (n1 n2 : GraphNode)
    (edges : list GraphEdge) (tag : string) :
  dataTag (node_data n1) = Some tag ->
  dataTag (node_data n2) = Some tag ->
  blank tag = false ->
  exists result,
    validateGraph (before ++ n1 :: between ++ n2 :: after) edges = Some result
    /\ In (duplicateTagIssue (node_id n1) tag) (errors result)
    /\ In (duplicateTagIssue (node_id n2) tag) (errors result)
    /\ valid result = false.
Proof.
  intros Ht1 Ht2 Hblank.
  assert (Hc1 : carriesTag tag n1 = true)
    by (unfold carriesTag; now rewrite Ht1, Hblank, String.eqb_refl).
  assert (Hc2 : carriesTag tag n2 = true)
    by (unfold carriesTag; now rewrite Ht2, Hblank, String.eqb_refl).
  destruct (duplicate_tags_reported tag before n1 between n2 after Hc1 Hc2)
    as [Hd1 Hd2].
  set (nodes := (before ++ n1 :: between ++ n2 :: after)%list) in *.
  destruct (validateStructure_returns nodes edges) as [structural Hs].
  assert (Hin : forall i,
             In i (sharedEntries (fun t => "Duplicate tag: " ++ Js.quoted t)
                     (tagMap nodes)) ->
             In i structural).
  { intros i Hi. unfold validateStructure in Hs.
    destruct (reachabilityIssues _ _ _); [| discriminate].
    destruct (detectCycles _ _); [| discriminate].
    injection Hs as <-. apply in_or_app. now left. }
  destruct (validateGraph_errors_include nodes edges structural
              (duplicateTagIssue (node_id n1) tag) Hs (Hin _ Hd1) eq_refl)
    as (result & Hres & He1 & Hvalid).
  destruct (validateGraph_errors_include nodes edges structural
              (duplicateTagIssue (node_id n2) tag) Hs (Hin _ Hd2) eq_refl)
    as (result' & Hres' & He2 & _).
  rewrite Hres in Hres'. injection Hres' as <-.
  exists result. auto.
Qed.

Lemma duplicate_tag_errors_witness :
  exists result,
    validateGraph
      ([] ++ node "a" (RoutingNode (plainRouting "x"))
          :: [] ++ node "b" (InboundNode (plainInbound "x" 443)) :: []) []
      = Some result
    /\ In (duplicateTagIssue "a" "x") (errors result)
    /\ In (duplicateTagIssue "b" "x") (errors result)
    /\ valid result = false.
Proof.
  apply (duplicate_tag_errors [] [] [] (node "a" (RoutingNode (plainRouting "x")))
           (node "b" (InboundNode (plainInbound "x" 443))) [] "x");
    reflexivity.
Defined.

(** C9 as stated fails: two nodes that share the empty tag get the
    error that a tag is required, and no duplicate tag error. *)
Lemma empty_shared_tag_not_reported :
  exists result,
    validateGraph emptyTagNodes [] = Some result
    /\ map (fun n => dataTag (node_data n)) emptyTagNodes =
       [Some EmptyString; Some EmptyString]
    /\ errors result =
       [issueError "a" "Routing node requires a tag";
        issueError "b" "Routing node requires a tag"]
    /\ ~ In (duplicateTagIssue "a" EmptyString) (errors result)
    /\ ~ In (duplicateTagIssue "b" EmptyString) (errors result).
Proof.
  eexists. split; [vm_compute; reflexivity |].
  split; [reflexivity |]. split; [reflexivity |].
  split; intros [H | [H | []]]; discriminate H.
Qed.

End DuplicateTags.

Section CycleErrors.
Import Validation.

(** ** Where cycle errors come from *)

Lemma noCycleIssue_app l1 l2 :
  noCycleIssue l1 -> noCycleIssue l2 -> noCycleIssue (l1 ++ l2).
Proof.
  unfold noCycleIssue. intros H1 H2. now rewrite forallb_app, H1, H2.
Qed.

Lemma noCycleIssue_flat_map {A : Type} (f : A -> list ValidationIssue) (l : list A) :
  (forall x, noCycleIssue (f x)) -> noCycleIssue (flat_map f l).
Proof.
  intros Hf. induction l as [| a l IH]; [reflexivity |].
  cbn [flat_map]. now apply noCycleIssue_app.
Qed.

(** Splits an issue list built with [++] and decides each piece by
    cases on the tests that guard it. *)
Ltac no_cycle :=
  repeat first
    [ reflexivity
    | apply noCycleIssue_app
    | match goal with
      | |- noCycleIssue (match ?x with _ => _ end) => destruct x
      | |- noCycleIssue (if ?x then _ else _) => destruct x
      end ].

Lemma validateUsers_noCycle id protocol users :
  forall i, noCycleIssue (validateUsers id protocol i users).
Proof.
  induction users as [| u users IH]; intros i; [reflexivity |].
  cbn [validateUsers]. apply noCycleIssue_app; [| apply IH].
  unfold validateUser. no_cycle.
Qed.

Lemma validateSimpleRuleList_noCycle id rules :
  forall i, noCycleIssue (validateSimpleRuleList id i rules).
Proof.
  induction rules as [| r rules IH]; intros i; [reflexivity |].
  cbn [validateSimpleRuleList]. apply noCycleIssue_app; [| apply IH].
  no_cycle.
Qed.

Lemma validateNode_noCycle n : noCycleIssue (validateNode n).
Proof.
  unfold validateNode. destruct (node_data n); try reflexivity.
  - unfold validateInbound. no_cycle; apply validateUsers_noCycle.
  - unfold validateRouting. no_cycle.
  - unfold validateBalancer. no_cycle.
  - unfold validateOutbound. no_cycle.
  - unfold validateOutbound. no_cycle.
  - unfold validateSimpleServer. no_cycle.
  - unfold validateSimpleRules. destruct rules; [reflexivity |].
    apply validateSimpleRuleList_noCycle.
Qed.

Lemma validateTransport_noCycle id t : noCycleIssue (validateTransport id t).
Proof. unfold validateTransport. no_cycle. Qed.

Lemma validateEdges_noCycle nodes edges : noCycleIssue (validateEdges nodes edges).
Proof.
  unfold validateEdges. apply noCycleIssue_flat_map. intros e.
  no_cycle.
Qed.

Lemma sharedEntries_noCycle describe m :
  (forall key id, isCycleIssue (issueError id (describe key)) = false) ->
  noCycleIssue (sharedEntries describe m).
Proof.
  intros Hd. unfold sharedEntries. apply noCycleIssue_flat_map.
  intros [key ids]. destruct (1 <? List.length ids)%nat; [| reflexivity].
  induction ids as [| id ids IH]; [reflexivity |].
  unfold noCycleIssue in *. cbn [map forallb]. now rewrite Hd, IH.
Qed.

Lemma warnUnless_noCycle ok msg ns :
  String.eqb msg cycleMessage = false -> noCycleIssue (warnUnless ok msg ns).
Proof.
  intros Hmsg. unfold warnUnless. apply noCycleIssue_flat_map. intros n.
  destruct (ok (node_id n)); [reflexivity |].
  unfold noCycleIssue, isCycleIssue. cbn. now rewrite Hmsg.
Qed.

Lemma deviceIssues_noCycle nodes edges dev :
  noCycleIssue (deviceIssues nodes edges dev).
Proof.
  unfold deviceIssues. destruct (node_data dev); try reflexivity.
  apply noCycleIssue_flat_map. intros e. no_cycle.
Qed.

Lemma reachabilityIssues_noCycle inbounds edges terminalIds issues :
  reachabilityIssues inbounds edges terminalIds = Some issues ->
  noCycleIssue issues.
Proof.
  revert issues. induction inbounds as [| n rest IH]; intros issues;
    cbn [reachabilityIssues].
  - intros H. injection H as <-. reflexivity.
  - destruct (canReachOutbound _ _ _ _ _) as [[reached visited'] |]; [| discriminate].
    destruct (reachabilityIssues rest edges terminalIds) as [more |]; [| discriminate].
    intros H. injection H as <-.
    apply noCycleIssue_app; [| now apply IH]. destruct reached; reflexivity.
Qed.

Lemma validateConfig_noCycle nodes edges : noCycleIssue (validateConfig nodes edges).
Proof.
  unfold validateConfig, danglingInboundTags, selectorIssues.
  apply noCycleIssue_app; apply noCycleIssue_flat_map; intros n.
  - no_cycle.
  - destruct (node_data n); try reflexivity.
    apply noCycleIssue_flat_map. intros sel. no_cycle.
Qed.

Lemma eachNeighbor_issues search id neighbors :
  (forall x s b s',
      search x s = Some (b, s') ->
      allCycleErrors (dfs_issues s) -> allCycleErrors (dfs_issues s')) ->
  forall s b s',
    eachNeighbor search id neighbors s = Some (b, s') ->
    allCycleErrors (dfs_issues s) -> allCycleErrors (dfs_issues s').
Proof.
  intros Hsearch. induction neighbors as [| x rest IH]; intros s b s'; cbn.
  - intros H. injection H as <- <-. auto.
  - destruct (search x s) as [[[] s1] |] eqn:Hx; [| | discriminate].
    + intros H Hall. injection H as <- <-. cbn [dfs_issues].
      unfold allCycleErrors in *. rewrite forallb_app.
      rewrite (Hsearch _ _ _ _ Hx Hall). reflexivity.
    + intros H Hall. eapply IH; [exact H |]. eapply Hsearch; eassumption.
Qed.

Lemma dfs_issues_cycle nodes edges fuel :
  forall id s b s',
    dfs fuel nodes edges id s = Some (b, s') ->
    allCycleErrors (dfs_issues s) -> allCycleErrors (dfs_issues s').
Proof.
  induction fuel as [| fuel IH]; intros id s b s'; cbn; [discriminate |].
  destruct (Js.memStr id (inStack s)).
  { intros H. injection H as <- <-. auto. }
  destruct (Js.memStr id (dfs_visited s)).
  { intros H. injection H as <- <-. auto. }
  intros H Hall. eapply eachNeighbor_issues; [exact IH | exact H | exact Hall].
Qed.

Lemma detectCycles_issues nodes edges cycles :
  detectCycles nodes edges = Some cycles -> allCycleErrors cycles.
Proof.
  unfold detectCycles.
  assert (Hroots : forall roots s s',
             dfsRoots (dfsFuel nodes edges) nodes edges roots s = Some s' ->
             allCycleErrors (dfs_issues s) -> allCycleErrors (dfs_issues s')).
  { induction roots as [| n rest IH]; intros s s'; cbn [dfsRoots].
    - intros H. injection H as <-. auto.
    - destruct (Js.memStr (node_id n) (dfs_visited s)); [apply IH |].
      destruct (dfs _ _ _ _ _) as [[b s1] |] eqn:Hdfs; [| discriminate].
      intros H Hall. eapply IH; [exact H |]. eapply dfs_issues_cycle; eassumption. }
  destruct (dfsRoots _ _ _ _ _) as [s' |] eqn:Hrun; [| discriminate].
  intros H. injection H as <-. eapply Hroots; [exact Hrun | reflexivity].
Qed.

Lemma filter_cycle_none (l : list ValidationIssue) :
  noCycleIssue l -> filter isCycleIssue (filter (hasLevel LevelError) l) = [].
Proof.
  unfold noCycleIssue. induction l as [| i l IH]; [reflexivity |].
  cbn [forallb filter]. intros H. apply andb_true_iff in H. destruct H as [Hi Hl].
  apply negb_true_iff in Hi.
  destruct (hasLevel LevelError i); cbn [filter]; rewrite ?Hi; now apply IH.
Qed.

Lemma filter_cycle_all (l : list ValidationIssue) :
  allCycleErrors l -> filter isCycleIssue (filter (hasLevel LevelError) l) = l.
Proof.
  unfold allCycleErrors. induction l as [| i l IH]; [reflexivity |].
  cbn [forallb filter]. intros H. apply andb_true_iff in H. destruct H as [Hi Hl].
  apply andb_true_iff in Hi. destruct Hi as [Hc He].
  rewrite He. cbn [filter]. rewrite Hc. f_equal. now apply IH.
Qed.

(** The cycle errors of [validateGraph] are the issues of
    [detectCycles], one for one. *)
Lemma validateGraph_cycle_errors nodes edges result cycles :
  validateGraph nodes edges = Some result ->
  detectCycles nodes edges = Some cycles ->
  filter isCycleIssue (errors result) = cycles.
Proof.
  unfold validateGraph, validateStructure. intros Hres Hcyc. rewrite Hcyc in Hres.
  destruct (reachabilityIssues _ _ _) as [unreachable |] eqn:Hreach; [| discriminate].
  injection Hres as <-. cbn [errors].
  repeat rewrite filter_app.
  rewrite (filter_cycle_all cycles (detectCycles_issues _ _ _ Hcyc)).
  repeat rewrite filter_cycle_none;
    [ now rewrite !app_nil_r
    | apply validateConfig_noCycle
    | eapply reachabilityIssues_noCycle; eassumption
    | apply warnUnless_noCycle; reflexivity
    | apply warnUnless_noCycle; reflexivity
    | apply warnUnless_noCycle; reflexivity
    | apply warnUnless_noCycle; reflexivity
    | apply warnUnless_noCycle; reflexivity
    | apply noCycleIssue_flat_map; intros d; apply deviceIssues_noCycle
    | apply warnUnless_noCycle; reflexivity
    | apply warnUnless_noCycle; reflexivity
    | apply sharedEntries_noCycle; reflexivity
    | apply sharedEntries_noCycle; reflexivity
    | apply validateEdges_noCycle
    | apply noCycleIssue_flat_map; intros n; apply validateNode_noCycle ].
Qed.

(** A proxy chain edge is no neighbor of its source in the traversal. *)
Lemma proxy_chain_edge_excluded nodes edges e :
  isProxyChainEdge nodes e = true ->
  neighborsOf nodes (e :: edges) (edge_source e) =
  neighborsOf nodes edges (edge_source e).
Proof.
  intros Hchain. unfold neighborsOf.
  destruct (nodeTypeOfId nodes (edge_source e)); [| reflexivity].
  cbn [filter]. now rewrite String.eqb_refl, Hchain.
Qed.

(** C5. For the ring of three routing nodes [validateGraph] reports a
    cycle error (one on each node of the ring). For the ring proxy A,
    inbound B, proxy B, inbound A it reports no cycle error: its two
    edges from a proxy to an inbound are proxy chain edges, which the
    traversal leaves out, so the cycle search finds nothing. The fields
    of the nodes do not matter. *)
Theorem cycle_detection_rings
    (da db dc : RoutingData) (outA outB : OutboundData) (inA inB : InboundData) :
  (exists result,
      validateGraph (routingRing da db dc) routingRingEdges = Some result
      /\ filter isCycleIssue (errors result) =
         [cycleIssue "c"; cycleIssue "b"; cycleIssue "a"]
      /\ valid result = false)
  /\ (exists result,
        validateGraph (proxyRing outA outB inA inB) proxyRingEdges = Some result
        /\ filter isCycleIssue (errors result) = []
        /\ detectCycles (proxyRing outA outB inA inB) proxyRingEdges = Some []
        /\ map (isProxyChainEdge (proxyRing outA outB inA inB)) proxyRingEdges =
           [true; false; true; false]).
Proof.
  split.
  - destruct (validateGraph_returns (routingRing da db dc) routingRingEdges)
      as [result Hres].
    assert (Hcyc : detectCycles (routingRing da db dc) routingRingEdges =
                   Some [cycleIssue "c"; cycleIssue "b"; cycleIssue "a"])
      by (vm_compute; reflexivity).
    pose proof (validateGraph_cycle_errors _ _ _ _ Hres Hcyc) as Herr.
    exists result. repeat split; [assumption | assumption |].
    unfold validateGraph in Hres.
    destruct (validateStructure _ _); [| discriminate].
    injection Hres as <-. cbn [errors valid] in *.
    destruct (filter (hasLevel LevelError) _); [discriminate Herr | reflexivity].
  - destruct (validateGraph_returns (proxyRing outA outB inA inB) proxyRingEdges)
      as [result Hres].
    assert (Hcyc : detectCycles (proxyRing outA outB inA inB) proxyRingEdges = Some [])
      by (vm_compute; reflexivity).
    exists result. repeat split; try assumption.
    eapply validateGraph_cycle_errors; eassumption.
Qed.

End CycleErrors.

(* ================================================================== *)
(** * Properties of the forward compiler *)
(* ================================================================== *)

Section ExportFacts.
Import Config ExportConfig.

(** ** Stream settings *)

Lemma buildStreamSettings_default :
  buildStreamSettings None = emptyStream /\
  buildStreamSettings (Some defaultTransport) = emptyStream /\
  streamBlock emptyStream = None.
Proof. repeat split. Qed.

(** On the wire the network is never [raw]: a raw transport is written
    as [tcp], or the block is left out when the security is [none]. *)
Lemma buildStreamSettings_network (t : TransportSettings) :
  stream_network (buildStreamSettings (Some t)) =
  match network t, security t with
  | NetRaw, SecNone => None
  | NetRaw, _ => Some "tcp"
  | other, _ => Some (networkName other)
  end.
Proof.
  destruct t as [net w g x sec l r].
  destruct net, sec, w, g, x, l, r; reflexivity.
Qed.

Lemma find_append {A : Type} (p : A -> bool) l1 l2 :
  find p (l1 ++ l2)%list =
  match find p l1 with
  | Some x => Some x
  | None => find p l2
  end.
Proof.
  induction l1 as [| x l1 IH]; [reflexivity |]. cbn [app find].
  now destruct (p x).
Qed.

(** The map from node ids to servers that the compiler builds gives
    every id the server group of the node it stands for. *)
Lemma serverOfId_serverGroup allNodes id :
  serverOfId allNodes id = serverGroup allNodes id.
Proof.
  unfold serverGroup, endpointNode.
  induction allNodes as [| n rest IH]; [reflexivity |].
  cbn [serverOfId rev]. rewrite find_append.
  destruct (existsb (fun m => String.eqb (node_id m) id) rest) eqn:Hlater.
  - rewrite IH.
    destruct (find (fun m => String.eqb (node_id m) id) (rev rest)) as [x |] eqn:Hfind;
      [reflexivity |].
    apply existsb_exists in Hlater. destruct Hlater as (m & Hm & Hid).
    apply in_rev in Hm. now rewrite (find_none _ _ Hfind m Hm) in Hid.
  - destruct (find (fun m => String.eqb (node_id m) id) (rev rest)) as [x |] eqn:Hfind.
    + apply find_some in Hfind. destruct Hfind as [Hx Hid].
      apply in_rev in Hx.
      assert (Htrue : existsb (fun m => String.eqb (node_id m) id) rest = true)
        by (apply existsb_exists; now exists x).
      rewrite Htrue in Hlater. discriminate.
    + cbn [find]. now destruct (String.eqb (node_id n) id).
Qed.

(** The compiler's test of an edge is the test of the specification:
    the two ends belong to different server groups. *)
Lemma isCrossGroupEdge_crossGroup e allNodes :
  isCrossGroupEdge e allNodes = crossGroup allNodes e.
Proof.
  unfold isCrossGroupEdge, crossGroup. rewrite !serverOfId_serverGroup.
  now destruct (serverGroup allNodes (edge_source e)),
               (serverGroup allNodes (edge_target e)).
Qed.

Lemma getIncomingTransport_spec nodeId edges allNodes :
  getIncomingTransport nodeId edges allNodes =
  hd_error (incomingCrossGroupTransports nodeId edges allNodes).
Proof.
  induction edges as [| e edges IH]; [reflexivity |].
  cbn [getIncomingTransport incomingCrossGroupTransports flat_map].
  destruct (String.eqb (edge_target e) nodeId); cbn [negb andb]; [| exact IH].
  rewrite isCrossGroupEdge_crossGroup.
  destruct (crossGroup allNodes e); cbn [negb]; [| exact IH].
  destruct (edgeTransport e); [reflexivity | exact IH].
Qed.

(** ** The groups of [exportConfig] *)

Lemma pushTo_members {A : Type} (P : A -> Prop) key (x : A) m :
  P x ->
  (forall k xs y, In (k, xs) m -> In y xs -> P y) ->
  forall k xs y, In (k, xs) (Js.pushTo key x m) -> In y xs -> P y.
Proof.
  intros Hx. induction m as [| [k0 xs0] m IH]; intros Hm k xs y Hin Hy.
  - cbn in Hin. destruct Hin as [Heq | []]. injection Heq as <- <-.
    destruct Hy as [<- | []]. exact Hx.
  - cbn in Hin. destruct (String.eqb k0 key).
    + destruct Hin as [Heq | Hin].
      * injection Heq as <- <-. apply in_app_or in Hy.
        destruct Hy as [Hy | [<- | []]]; [| exact Hx].
        eapply Hm; [now left | exact Hy].
      * eapply Hm; [right; exact Hin | exact Hy].
    + destruct Hin as [Heq | Hin].
      * injection Heq as <- <-. eapply Hm; [now left | exact Hy].
      * eapply IH; [| exact Hin | exact Hy].
        intros k' xs' y' Hin' Hy'. eapply Hm; [right; exact Hin' | exact Hy'].
Qed.

Lemma nodesByServer_members servers configNodes :
  forall k group n,
    In (k, group) (nodesByServer servers configNodes) -> In n group ->
    In n configNodes.
Proof.
  unfold nodesByServer.
  assert (Hgen : forall rest m,
             (forall k xs y, In (k, xs) m -> In y xs -> In y configNodes) ->
             incl rest configNodes ->
             forall k xs y,
               In (k, xs)
                 (fold_left
                    (fun groups n =>
                       match groupOf servers n with
                       | Some sid => Js.pushTo sid n groups
                       | None => groups
                       end) rest m) ->
               In y xs -> In y configNodes).
  { induction rest as [| n rest IH]; intros m Hm Hsub; [exact Hm |].
    cbn [fold_left]. apply IH.
    - destruct (groupOf servers n); [| exact Hm].
      apply pushTo_members; [apply Hsub; now left | exact Hm].
    - intros y Hy. apply Hsub. now right. }
  intros k group n. apply Hgen; [intros ? ? ? [] | apply incl_refl].
Qed.

(** Every document of the general mode is [buildSingleConfig] of a
    group of the graph's nodes, with all edges and all nodes as the
    context of the transports. *)
Lemma exportConfig_documents nodes edges servers mode r :
  optStr_eqb mode (Some "simple") = false ->
  In r (exportConfig nodes edges servers mode) ->
  exists group groupEdges file,
    incl group nodes /\ incl groupEdges edges /\
    r = buildSingleConfig group groupEdges edges nodes file.
Proof.
  intros Hmode. unfold exportConfig. rewrite Hmode.
  set (configNodes :=
         filter (fun n => negb (NodeType_eqb (nodeType (node_data n)) device)) nodes).
  assert (Hconfig : incl configNodes nodes)
    by (intros n Hn; apply filter_In in Hn; tauto).
  assert (Hwithin : forall group, incl (edgesWithin group edges) edges)
    by (intros group e He; unfold edgesWithin in He; apply filter_In in He; tauto).
  destruct (nodesByServer servers configNodes) as [| g groups] eqn:Hgroups.
  - intros [<- | []]. eexists _, _, _. split; [exact Hconfig |].
    split; [apply incl_refl | reflexivity].
  - rewrite <- Hgroups. intros Hin. apply in_app_or in Hin. destruct Hin as [Hin | Hin].
    + apply in_flat_map in Hin. destruct Hin as ([sid serverNodes] & Hg & Hr).
      destruct (serverMapGet servers sid); [| destruct Hr].
      destruct Hr as [<- | []].
      eexists _, _, _. split; [| split; [apply Hwithin | reflexivity]].
      intros n Hn. apply Hconfig. eapply nodesByServer_members; eassumption.
    + destruct (unassignedNodes servers configNodes) eqn:Hun; [destruct Hin |].
      destruct Hin as [<- | []].
      eexists _, _, _. split; [| split; [apply Hwithin | reflexivity]].
      rewrite <- Hun. intros n Hn. apply Hconfig.
      unfold unassignedNodes in Hn. apply filter_In in Hn. tauto.
Qed.

(** C8, as the code has it. In every mode but the simple one, every
    inbound entry of every document [exportConfig] compiles belongs to
    an inbound node of the graph, and its stream settings are the
    serialization of the transport of the first incoming cross-group
    edge that carries one (an edge whose two ends belong to different
    server groups), else of the node's legacy inline transport, else of
    the raw/none default; the block is left out of the entry exactly
    when that serialization is empty, as it is for the default. A raw
    network is never written as [raw]: it is [tcp] on the wire. *)
Theorem inbound_stream_settings
    (nodes : list GraphNode) (edges : list GraphEdge) (servers : list Server)
    (mode : option string) (r : ExportResult) (entry : XrayInbound) :
  optStr_eqb mode (Some "simple") = false ->
  In r (exportConfig nodes edges servers mode) ->
  In entry (match cfg_inbounds (config r) with Some l => l | None => [] end) ->
  exists n data,
    In n nodes /\ node_data n = InboundNode data /\
    xin_tag entry = in_tag data /\
    xin_streamSettings entry =
      streamBlock
        (buildStreamSettings (Some (specInboundTransport n data edges nodes))) /\
    streamBlock (buildStreamSettings (Some defaultTransport)) = None /\
    match xin_streamSettings entry with
    | Some stream =>
        stream_network stream =
        Some (match network (specInboundTransport n data edges nodes) with
              | NetRaw => "tcp"
              | other => networkName other
              end)
    | None => True
    end.
Proof.
  intros Hmode Hr Hentry.
  destruct (exportConfig_documents _ _ _ _ _ Hmode Hr)
    as (group & groupEdges & file & Hsub & _ & ->).
  unfold buildSingleConfig in Hentry.
  destruct (buildRoutingRules group groupEdges) as [ruleList balancerList].
  cbn [config cfg_inbounds] in Hentry.
  apply in_flat_map in Hentry. destruct Hentry as (n & Hn & Hentry).
  unfold buildInbound in Hentry.
  destruct (node_data n) as [| data | | | | | | | |] eqn:Hdata;
    try (destruct Hentry; fail).
  destruct Hentry as [<- | []].
  exists n, data. cbn [xin_tag xin_streamSettings].
  assert (Hspec :
    buildStreamSettings
      (orElse (getIncomingTransport (node_id n) edges nodes) (in_transport data)) =
    buildStreamSettings (Some (specInboundTransport n data edges nodes))).
  { rewrite getIncomingTransport_spec. unfold specInboundTransport, orElse.
    destruct (incomingCrossGroupTransports (node_id n) edges nodes); cbn [hd_error].
    - destruct (in_transport data); reflexivity.
    - reflexivity. }
  rewrite Hspec.
  repeat split; auto.
  set (t := specInboundTransport n data edges nodes).
  pose proof (buildStreamSettings_network t) as Hnet.
  unfold streamBlock.
  destruct (0 <? streamKeys (buildStreamSettings (Some t)))%nat eqn:Hkeys; [| exact I].
  rewrite Hnet.
  destruct t as [net w g x sec l rs]. cbn [network security] in *.
  destruct net, sec; try reflexivity.
  destruct w, g, x, l, rs; discriminate Hkeys.
Qed.

Lemma inbound_stream_settings_witness :
  exists n data,
    In n twoServerNodes /\ node_data n = InboundNode data /\
    "from-a" = in_tag data /\
    Some (mkStream (Some "ws") (Some "tls") (Some (mkWs (Some "/tunnel") None))
            None None (Some (mkTls (Some "edge.example.org") None None)) None) =
      streamBlock
        (buildStreamSettings
           (Some (specInboundTransport n data twoServerEdges twoServerNodes))) /\
    streamBlock (buildStreamSettings (Some defaultTransport)) = None /\
    Some "ws" =
      Some (match network (specInboundTransport n data twoServerEdges twoServerNodes) with
            | NetRaw => "tcp"
            | other => networkName other
            end).
Proof.
  apply (inbound_stream_settings twoServerNodes twoServerEdges twoServers None
           (nth 1 (exportConfig twoServerNodes twoServerEdges twoServers None)
              (mkExport EmptyString (mkConfig None None None None)))
           (mkXrayInbound "from-a" "vless" (Some "0.0.0.0") (Some 443%Z)
              (Some (mkInboundSettings
                       (Some [mkClient (Some EmptyString) None (Some "default") None])
                       (Some "none") None None None None None))
              None
              (Some (mkStream (Some "ws") (Some "tls")
                       (Some (mkWs (Some "/tunnel") None)) None None
                       (Some (mkTls (Some "edge.example.org") None None)) None)))).
  - reflexivity.
  - vm_compute. right. left. reflexivity.
  - vm_compute. left. reflexivity.
Defined.

(** C8 as stated fails in simple mode: the document of a chained server
    has an inbound entry whose stream settings say WebSocket, although
    the graph has no inbound node and none of its edges carries a
    transport; the settings are read off the fields of the simple
    server node. *)
Lemma simple_mode_inbound_from_server :
  exists r entry stream,
    In r (exportConfig chainedServerNodes chainedServerEdges [] (Some "simple")) /\
    In entry (match cfg_inbounds (config r) with Some l => l | None => [] end) /\
    xin_streamSettings entry = Some stream /\
    stream_network stream = Some "ws" /\
    (forall n data, In n chainedServerNodes -> node_data n <> InboundNode data) /\
    (forall e, In e chainedServerEdges -> edgeTransport e = None).
Proof.
  eexists. eexists. eexists.
  split; [vm_compute; right; left; reflexivity |].
  split; [vm_compute; left; reflexivity |].
  split; [reflexivity |]. split; [reflexivity |].
  split.
  - intros n data [<- | [<- | []]]; discriminate.
  - intros e [<- | []]. reflexivity.
Qed.

End ExportFacts.

(* ================================================================== *)
(** * Properties of the reverse compiler *)
(* ================================================================== *)

Section ImportFacts.
Import Config ImportConfig.

Variable uuidv4 : nat -> string.

(** ** When the import throws *)

Lemma addBalancers_returns bals :
  forallb (fun b => match xbal_selector b with Some _ => true | None => false end)
    bals = true ->
  forall s, exists s', addBalancers uuidv4 s bals = Returned s'.
Proof.
  induction bals as [| b bals IH]; intros Hall s; [eexists; reflexivity |].
  cbn [forallb] in Hall. apply andb_true_iff in Hall. destruct Hall as [Hb Hbals].
  cbn [addBalancers]. unfold addBalancer.
  destruct (xbal_selector b); [| discriminate]. now apply IH.
Qed.

(** The two descriptive errors: input that does not parse, and a
    document with neither top-level key. *)
Lemma importXrayConfig_descriptive_errors options :
  importXrayConfig uuidv4 None options =
    Thrown "Invalid JSON: could not parse the file."
  /\ forall cfg,
       hasTopLevelKey cfg = false ->
       importXrayConfig uuidv4 (Some cfg) options =
         Thrown "Invalid xray config: must have inbounds or outbounds.".
Proof.
  split; [reflexivity |]. intros cfg Hkey. unfold importXrayConfig, hasTopLevelKey in *.
  destruct (cfg_inbounds cfg), (cfg_outbounds cfg); try discriminate; reflexivity.
Qed.

(** A document with a top-level key whose balancers all have a selector
    is imported without a throw. *)
Lemma importXrayConfig_returns cfg options :
  hasTopLevelKey cfg = true ->
  balancersHaveSelectors cfg = true ->
  exists result, importXrayConfig uuidv4 (Some cfg) options = Returned result.
Proof.
  intros Hkey Hsel. unfold importXrayConfig.
  assert (Hbal : exists s',
    addBalancers uuidv4
      (fold_left (addOutbound uuidv4) (orEmpty (cfg_outbounds cfg))
         (fold_left (addInbound uuidv4) (orEmpty (cfg_inbounds cfg))
            (mkImportState [] [] [] [] 0)))
      (match cfg_routing cfg with
       | Some r => orEmpty (routing_balancers r)
       | None => []
       end) = Returned s').
  { apply addBalancers_returns. unfold balancersHaveSelectors in Hsel.
    destruct (cfg_routing cfg); [exact Hsel | reflexivity]. }
  destruct Hbal as [s' Hs'].
  unfold hasTopLevelKey in Hkey.
  destruct (cfg_inbounds cfg), (cfg_outbounds cfg); try discriminate;
    rewrite Hs'; eexists; reflexivity.
Qed.

(** An inbound of unknown protocol adds no node and one warning. *)
Lemma addInbound_unknown_protocol s inb :
  Js.memStr (xin_protocol inb) INBOUND_PROTOCOLS = false ->
  st_nodes (addInbound uuidv4 s inb) = st_nodes s /\
  st_edges (addInbound uuidv4 s inb) = st_edges s /\
  st_warnings (addInbound uuidv4 s inb) =
    st_warnings
      (pushWarning s
         ("Unknown inbound protocol " ++ Js.quoted (xin_protocol inb) ++ " (skipped)")).
Proof.
  intros Hunknown. unfold addInbound. rewrite Hunknown. cbn. auto.
Qed.

(** C7 at the failing input. The document [{"inbounds": [], "routing":
    {"balancers": [{"tag": "b"}]}}] parses and has an [inbounds] key,
    yet importing it throws: the loop over [balancer.selector] meets a
    selector that is missing, and the error is neither of the two
    descriptive ones. *)
Theorem importXrayConfig_throws_on_missing_selector (options : ImportOptions) :
  hasTopLevelKey selectorlessDocument = true
  /\ importXrayConfig uuidv4 (Some selectorlessDocument) options =
     Thrown "TypeError: balancer.selector is not iterable".
Proof. split; reflexivity. Qed.

End ImportFacts.

(* ================================================================== *)
(** * The round trip through export and import *)
(* ================================================================== *)

Section StreamRoundTrip.
Import Config ExportConfig ImportConfig.

Lemma keepTruthy_idempotent o : keepTruthy (keepTruthy o) = keepTruthy o.
Proof.
  destruct o as [s |]; [| reflexivity]. cbn.
  destruct (Js.truthy s) eqn:H; cbn; now rewrite ?H.
Qed.

Lemma keepNonEmpty_idempotent {A : Type} (o : option (list A)) :
  keepNonEmpty (keepNonEmpty o) = keepNonEmpty o.
Proof. destruct o as [[| x xs] |]; reflexivity. Qed.

(** Reading back the stream settings of a transport and writing them
    again gives the same stream settings. *)
Lemma stream_settings_round_trip (t : option TransportSettings) :
  streamBlock (buildStreamSettings
                 (Some (parseTransport (streamBlock (buildStreamSettings t))))) =
  streamBlock (buildStreamSettings t).
Proof.
  destruct t as [[net w g x sec l r] |]; [| reflexivity].
  destruct net, sec;
    destruct w as [[wp wh] |], g as [[gs gm] |], x as [[xp xh] |],
             l as [[ls la lf] |], r as [[rs rf rk ri rx] |];
    cbn; unfold strOrUndefined;
    rewrite ?keepTruthy_idempotent, ?keepNonEmpty_idempotent; reflexivity.
Qed.

End StreamRoundTrip.

(* ================================================================== *)
(** * The round trip through both compilers *)
(* ================================================================== *)

Section GraphLayout.
Import Config ExportConfig ImportConfig.

Lemma sameKeys_refl l : sameKeys l l.
Proof. induction l; constructor; auto. Qed.

Lemma placeNodes_keys all before rest : sameKeys rest (placeNodes all before rest).
Proof.
  revert before. induction rest as [| n rest IH]; intros before; cbn [placeNodes].
  - constructor.
  - constructor; [reflexivity | apply IH].
Qed.

Lemma autoLayout_keys ns es : sameKeys ns (autoLayout ns es).
Proof. apply placeNodes_keys. Qed.

Lemma nodeKey_id a b : nodeKey a = nodeKey b -> node_id a = node_id b.
Proof. unfold nodeKey. congruence. Qed.

Lemma nodeKey_data a b : nodeKey a = nodeKey b -> node_data a = node_data b.
Proof. unfold nodeKey. congruence. Qed.

Lemma findTargetNode_keys l l' id :
  sameKeys l l' ->
  option_map node_data (findTargetNode id l) =
  option_map node_data (findTargetNode id l').
Proof.
  unfold findTargetNode. induction 1 as [| a b l l' Hkey _ IH]; [reflexivity |].
  cbn [find]. rewrite (nodeKey_id a b Hkey).
  destruct (String.eqb (node_id b) id); [| exact IH].
  cbn. now rewrite (nodeKey_data a b Hkey).
Qed.

Lemma ruleOfEdge_keys l l' routeData e :
  sameKeys l l' -> ruleOfEdge l routeData e = ruleOfEdge l' routeData e.
Proof.
  intros Hkeys. unfold ruleOfEdge.
  pose proof (findTargetNode_keys l l' (edge_target e) Hkeys) as Hfind.
  destruct (findTargetNode (edge_target e) l) as [a |],
           (findTargetNode (edge_target e) l') as [b |];
    cbn in Hfind; try discriminate; [| reflexivity].
  injection Hfind as ->. reflexivity.
Qed.

Lemma flat_map_ext_in {A B : Type} (f g : A -> list B) l :
  (forall a, In a l -> f a = g a) -> flat_map f l = flat_map g l.
Proof.
  induction l as [| a l IH]; intros Hfg; [reflexivity |].
  cbn. rewrite (Hfg a (or_introl eq_refl)). f_equal.
  apply IH. intros b Hb. apply Hfg. now right.
Qed.

Lemma flat_map_filter_keys {B : Type} (g g' : GraphNode -> list B)
    (p : GraphNode -> bool) l l' :
  sameKeys l l' ->
  (forall a b, nodeKey a = nodeKey b -> p a = p b) ->
  (forall a b, nodeKey a = nodeKey b -> g a = g' b) ->
  flat_map g (filter p l) = flat_map g' (filter p l').
Proof.
  intros Hkeys Hp Hg. induction Hkeys as [| a b l l' Hkey _ IH]; [reflexivity |].
  cbn [filter]. rewrite (Hp a b Hkey).
  destruct (p b); [| exact IH].
  cbn [flat_map]. now rewrite (Hg a b Hkey), IH.
Qed.

Lemma flat_map_keys {B : Type} (g g' : GraphNode -> list B) l l' :
  sameKeys l l' ->
  (forall a b, nodeKey a = nodeKey b -> g a = g' b) ->
  flat_map g l = flat_map g' l'.
Proof.
  intros Hkeys Hg. induction Hkeys as [| a b l l' Hkey _ IH]; [reflexivity |].
  cbn [flat_map]. now rewrite (Hg a b Hkey), IH.
Qed.

Lemma kind_keys t a b :
  nodeKey a = nodeKey b ->
  NodeType_eqb (nodeType (node_data a)) t = NodeType_eqb (nodeType (node_data b)) t.
Proof. intros Hkey. now rewrite (nodeKey_data a b Hkey). Qed.

Lemma rulesOfRoutingNode_keys l l' es a b :
  sameKeys l l' -> nodeKey a = nodeKey b ->
  rulesOfRoutingNode l es a = rulesOfRoutingNode l' es b.
Proof.
  intros Hkeys Hkey. unfold rulesOfRoutingNode.
  rewrite (nodeKey_data a b Hkey), (nodeKey_id a b Hkey).
  destruct (node_data b); try reflexivity.
  apply flat_map_ext_in. intros e _. now apply ruleOfEdge_keys.
Qed.

Lemma directRules_keys l l' es a b :
  sameKeys l l' -> nodeKey a = nodeKey b ->
  directRules l es a = directRules l' es b.
Proof.
  intros Hkeys Hkey. unfold directRules.
  rewrite (nodeKey_data a b Hkey), (nodeKey_id a b Hkey).
  destruct (node_data b); try reflexivity.
  apply flat_map_ext_in. intros e _.
  pose proof (findTargetNode_keys l l' (edge_target e) Hkeys) as Hfind.
  destruct (findTargetNode (edge_target e) l) as [x |],
           (findTargetNode (edge_target e) l') as [y |];
    cbn in Hfind; try discriminate; [| reflexivity].
  injection Hfind as ->. reflexivity.
Qed.

Lemma balancerSelector_keys l l' declared es :
  sameKeys l l' -> balancerSelector l declared es = balancerSelector l' declared es.
Proof.
  intros Hkeys. unfold balancerSelector. revert declared.
  induction es as [| e es IH]; intros declared; [reflexivity |].
  cbn [fold_left]. rewrite IH. f_equal.
  pose proof (findTargetNode_keys l l' (edge_target e) Hkeys) as Hfind.
  destruct (findTargetNode (edge_target e) l) as [x |],
           (findTargetNode (edge_target e) l') as [y |];
    cbn in Hfind; try discriminate; [| reflexivity].
  injection Hfind as ->. reflexivity.
Qed.

Lemma buildBalancer_keys l l' es a b :
  sameKeys l l' -> nodeKey a = nodeKey b ->
  buildBalancer l es a = buildBalancer l' es b.
Proof.
  intros Hkeys Hkey. unfold buildBalancer.
  rewrite (nodeKey_data a b Hkey), (nodeKey_id a b Hkey).
  destruct (node_data b); try reflexivity.
  now rewrite (balancerSelector_keys l l').
Qed.

Lemma buildRoutingRules_keys l l' es :
  sameKeys l l' -> buildRoutingRules l es = buildRoutingRules l' es.
Proof.
  intros Hkeys. unfold buildRoutingRules. f_equal; [f_equal |].
  - apply flat_map_filter_keys; [assumption | apply kind_keys |].
    intros a b. now apply rulesOfRoutingNode_keys.
  - apply flat_map_filter_keys; [assumption | apply kind_keys |].
    intros a b. now apply directRules_keys.
  - apply flat_map_filter_keys; [assumption | apply kind_keys |].
    intros a b. now apply buildBalancer_keys.
Qed.

Lemma getIncomingTransport_plain id es allNodes :
  plainEdges es -> getIncomingTransport id es allNodes = None.
Proof.
  induction es as [| e es IH]; intros Hplain; [reflexivity |].
  cbn [getIncomingTransport]. unfold edgeTransport.
  rewrite (Hplain e (or_introl eq_refl)).
  rewrite IH by (intros e' He'; apply Hplain; now right).
  repeat match goal with |- context [if ?c then _ else _] => destruct c end;
    reflexivity.
Qed.

Lemma getOutgoingTransport_plain id es allNodes :
  plainEdges es -> getOutgoingTransport id es allNodes = None.
Proof.
  induction es as [| e es IH]; intros Hplain; [reflexivity |].
  cbn [getOutgoingTransport]. unfold edgeTransport.
  rewrite (Hplain e (or_introl eq_refl)).
  rewrite IH by (intros e' He'; apply Hplain; now right).
  repeat match goal with |- context [if ?c then _ else _] => destruct c end;
    reflexivity.
Qed.

Lemma buildInbound_keys es all all' a b :
  plainEdges es -> nodeKey a = nodeKey b ->
  buildInbound es all a = buildInbound es all' b.
Proof.
  intros Hplain Hkey. unfold buildInbound.
  rewrite (nodeKey_data a b Hkey).
  destruct (node_data b); try reflexivity.
  now rewrite !getIncomingTransport_plain.
Qed.

Lemma buildOutbound_keys es all all' a b :
  plainEdges es -> nodeKey a = nodeKey b ->
  buildOutbound es all a = buildOutbound es all' b.
Proof.
  intros Hplain Hkey. unfold buildOutbound.
  rewrite (nodeKey_data a b Hkey).
  destruct (node_data b); try reflexivity.
  now rewrite !getOutgoingTransport_plain.
Qed.

(** Where the nodes sit makes no difference to the document. *)
Lemma buildSingleConfig_keys l l' es file :
  sameKeys l l' -> plainEdges es ->
  buildSingleConfig l es es l file = buildSingleConfig l' es es l' file.
Proof.
  intros Hkeys Hplain. unfold buildSingleConfig.
  rewrite (buildRoutingRules_keys l l' es Hkeys).
  destruct (buildRoutingRules l' es) as [ruleList balancerList].
  rewrite (flat_map_keys (buildInbound es l) (buildInbound es l') l l' Hkeys)
    by (intros a b; now apply buildInbound_keys).
  rewrite (flat_map_keys (buildOutbound es l) (buildOutbound es l') l l' Hkeys)
    by (intros a b; now apply buildOutbound_keys).
  reflexivity.
Qed.

End GraphLayout.

Section ExportOfImportedNodes.
Import Config ExportConfig ImportConfig.

Lemma inboundProtocol_read_back q :
  match inboundProtocolOfName (inboundProtocolName q) with
  | Some p => p
  | None => InVless
  end = q.
Proof. now destruct q. Qed.

Lemma inboundProtocol_known q :
  Js.memStr (inboundProtocolName q) INBOUND_PROTOCOLS = true.
Proof. now destruct q. Qed.

(** The inbound entries of the re-export have the core fields of the
    entries that were imported. *)
Lemma export_inbounds_core es all added ins :
  plainEdges es ->
  map node_data added = map (fun x => InboundNode (parseInbound EmptyString x)) ins ->
  (forall x, In x ins -> inboundReady x) ->
  map coreInbound (flat_map (buildInbound es all) added) = map coreInbound ins.
Proof.
  intros Hplain. revert ins.
  induction added as [| n added IH]; intros [| x ins] Hdata Hready;
    try discriminate; [reflexivity |].
  cbn [map] in Hdata. injection Hdata as Hn Hrest.
  cbn [flat_map]. rewrite map_app, (IH ins Hrest) by (intros y Hy; apply Hready; now right).
  destruct (Hready x (or_introl eq_refl))
    as (Htag & (q & Hq) & (p & Hp & Hnonzero) & (t & Ht)).
  unfold buildInbound. rewrite Hn, getIncomingTransport_plain by assumption.
  cbn [map app]. f_equal. unfold coreInbound, parseInbound.
  cbn [xin_tag xin_port xin_protocol xin_streamSettings in_tag in_port in_protocol
       in_transport orElse].
  rewrite Htag, Hq, inboundProtocol_read_back, Hp, Ht, stream_settings_round_trip.
  cbn [portOr]. apply Z.eqb_neq in Hnonzero. now rewrite Hnonzero.
Qed.

Lemma outboundNodeData_kind x :
  exists d,
    (outboundNodeData x = OutboundTerminalNode d \/
     outboundNodeData x = OutboundProxyNode d) /\
    d = parseOutbound EmptyString x.
Proof.
  unfold outboundNodeData. destruct (isTerminalProtocol _); eauto.
Qed.

(** The same for the outbound entries. *)
Lemma export_outbounds_core es all added outs :
  plainEdges es ->
  map node_data added = map outboundNodeData outs ->
  (forall x, In x outs -> outboundReady x) ->
  map coreOutbound (flat_map (buildOutbound es all) added) = map coreOutbound outs.
Proof.
  intros Hplain. revert outs.
  induction added as [| n added IH]; intros [| x outs] Hdata Hready;
    try discriminate; [reflexivity |].
  cbn [map] in Hdata. injection Hdata as Hn Hrest.
  cbn [flat_map]. rewrite map_app, (IH outs Hrest) by (intros y Hy; apply Hready; now right).
  destruct (Hready x (or_introl eq_refl)) as (Htag & Hprotocol & (t & Ht) & Hterminal).
  unfold buildOutbound. rewrite Hn. unfold outboundNodeData. rewrite Hprotocol.
  destruct (isTerminalProtocol (xout_protocol x)) eqn:Hkind;
    cbn [map app]; f_equal; unfold coreOutbound, parseOutbound;
    cbn [xout_tag xout_protocol xout_streamSettings out_tag out_protocol out_transport];
    rewrite Htag, Hprotocol; unfold isTerminalProtocol in Hkind; rewrite Hkind.
  - rewrite (Hterminal eq_refl). reflexivity.
  - rewrite getOutgoingTransport_plain by assumption. cbn [orElse].
    now rewrite Ht, stream_settings_round_trip.
Qed.

(** The balancers of the re-export carry the tags that were imported. *)
Lemma export_balancer_tags nodes es added bals :
  map node_data added = map balancerNodeData bals ->
  map xbal_tag (flat_map (buildBalancer nodes es) added) = map xbal_tag bals.
Proof.
  revert bals. induction added as [| n added IH]; intros [| b bals] Hdata;
    try discriminate; [reflexivity |].
  cbn [map] in Hdata. injection Hdata as Hn Hrest.
  cbn [flat_map]. rewrite map_app, (IH bals Hrest).
  unfold buildBalancer. rewrite Hn. reflexivity.
Qed.

Lemma data_of_member {A : Type} (f : A -> XrayNodeData) added (xs : list A) n :
  map node_data added = map f xs -> In n added ->
  exists x, In x xs /\ node_data n = f x.
Proof.
  revert xs. induction added as [| a added IH]; intros [| x xs] Hdata Hn;
    try discriminate; [destruct Hn |].
  cbn [map] in Hdata. injection Hdata as Ha Hrest.
  destruct Hn as [<- | Hn]; [exists x; split; [now left | assumption] |].
  destruct (IH xs Hrest Hn) as (y & Hy & Hdata).
  exists y. split; [now right | assumption].
Qed.

Lemma member_of_data {A : Type} (f : A -> XrayNodeData) added (xs : list A) x :
  map node_data added = map f xs -> In x xs ->
  exists n, In n added /\ node_data n = f x.
Proof.
  revert xs. induction added as [| a added IH]; intros [| y xs] Hdata Hx;
    try discriminate; [destruct Hx |].
  cbn [map] in Hdata. injection Hdata as Ha Hrest.
  destruct Hx as [<- | Hx]; [exists a; split; [now left | assumption] |].
  destruct (IH xs Hrest Hx) as (n & Hn & Hdata).
  exists n. split; [now right | assumption].
Qed.

End ExportOfImportedNodes.

Section ExportedDocuments.
Import Config ExportConfig ImportConfig.

Variables (nodes : list GraphNode) (edges : list GraphEdge).
Hypothesis ready : roundTripReady nodes edges = true.

Lemma node_ready n : In n nodes -> nodeReady nodes edges n = true.
Proof.
  unfold roundTripReady in ready. apply andb_prop in ready.
  destruct ready as [Hnodes _]. rewrite forallb_forall in Hnodes. apply Hnodes.
Qed.

Lemma routing_edge_ready e source target :
  In e edges -> In source nodes -> In target nodes ->
  isKind routing source = true ->
  node_id source = edge_source e -> node_id target = edge_target e ->
  ConnectionRules.valid (ConnectionRules.isValidConnection source target) = true.
Proof.
  intros He Hsource Htarget Hkind Hsrc Htgt.
  unfold roundTripReady in ready. apply andb_prop in ready.
  destruct ready as [_ Hedges]. rewrite forallb_forall in Hedges.
  specialize (Hedges e He). unfold routingEdgeReady in Hedges.
  rewrite forallb_forall in Hedges. specialize (Hedges source Hsource).
  rewrite forallb_forall in Hedges. specialize (Hedges target Htarget).
  unfold isKind in Hkind.
  rewrite Hkind, Hsrc, Htgt, !String.eqb_refl in Hedges. exact Hedges.
Qed.

Variables (group : list GraphNode) (groupEdges : list GraphEdge).
Hypothesis group_nodes : incl group nodes.
Hypothesis group_edges : incl groupEdges edges.

Lemma streamless_block t :
  streamless t = true -> streamBlock (buildStreamSettings t) = None.
Proof. unfold streamless. now destruct (streamBlock (buildStreamSettings t)). Qed.

Lemma exported_inbound x :
  In x (flat_map (buildInbound edges nodes) group) -> inboundReady x.
Proof.
  intros Hx. apply in_flat_map in Hx. destruct Hx as (n & Hn & Hx).
  pose proof (node_ready n (group_nodes n Hn)) as Hready.
  unfold buildInbound in Hx. unfold nodeReady in Hready.
  destruct (node_data n); try (destruct Hx; fail).
  destruct Hx as [<- | []]. apply andb_prop in Hready. destruct Hready as [Htag Hport].
  repeat split; cbn [xin_tag xin_protocol xin_port xin_streamSettings]; eauto.
  eexists. split; [reflexivity |]. apply Z.eqb_neq. now apply negb_true_iff.
Qed.

Lemma exported_outbound x :
  In x (flat_map (buildOutbound edges nodes) group) -> outboundReady x.
Proof.
  intros Hx. apply in_flat_map in Hx. destruct Hx as (n & Hn & Hx).
  pose proof (node_ready n (group_nodes n Hn)) as Hready.
  unfold buildOutbound in Hx. unfold nodeReady in Hready.
  destruct (node_data n); try (destruct Hx; fail);
    destruct Hx as [<- | []];
    apply andb_prop in Hready; destruct Hready as [Hready Hstream];
    apply andb_prop in Hready; destruct Hready as [Htag Hprotocol];
    (split; [exact Htag |]); (split; [exact Hprotocol |]);
    cbn [xout_protocol xout_streamSettings]; (split; [eauto |]);
    intros Hterminal; rewrite Hterminal in Hstream; cbn [negb orb] in Hstream;
    now apply streamless_block.
Qed.

Lemma exported_outbound_tag target tag :
  In target group -> outboundTagOf (node_data target) = Some tag ->
  exists x, In x (flat_map (buildOutbound edges nodes) group) /\ xout_tag x = tag.
Proof.
  intros Htarget Htag. unfold outboundTagOf in Htag.
  destruct (node_data target) eqn:Hdata; try discriminate; injection Htag as <-;
    eexists; (split; [apply in_flat_map; exists target; split; [exact Htarget |];
                      unfold buildOutbound; rewrite Hdata; left; reflexivity
                     | reflexivity]).
Qed.

Lemma exported_balancer_tag target d :
  In target group -> node_data target = BalancerNode d ->
  exists b,
    In b (flat_map (buildBalancer group groupEdges)
            (filter (fun n => NodeType_eqb (nodeType (node_data n)) balancer) group)) /\
    xbal_tag b = bal_tag d.
Proof.
  intros Htarget Hdata. eexists. split.
  - apply in_flat_map. exists target. split.
    + apply filter_In. split; [exact Htarget | now rewrite Hdata].
    + unfold buildBalancer. rewrite Hdata. left. reflexivity.
  - reflexivity.
Qed.

Lemma exported_balancer b :
  In b (flat_map (buildBalancer group groupEdges)
          (filter (fun n => NodeType_eqb (nodeType (node_data n)) balancer) group)) ->
  balancerReady (flat_map (buildOutbound edges nodes) group) b.
Proof.
  intros Hb. apply in_flat_map in Hb. destruct Hb as (n & Hn & Hb).
  apply filter_In in Hn. destruct Hn as [Hn _].
  pose proof (node_ready n (group_nodes n Hn)) as Hready.
  unfold buildBalancer in Hb. unfold nodeReady in Hready.
  destruct (node_data n) as [| | | balData | | | | | |]; try (destruct Hb; fail).
  destruct Hb as [<- | []]. apply andb_prop in Hready. destruct Hready as [Htag Hothers].
  split; [exact Htag |]. split; [cbn; eauto |].
  intros x Hx Hsame. cbn [xbal_tag] in Hsame.
  apply in_flat_map in Hx. destruct Hx as (m & Hm & Hx).
  rewrite forallb_forall in Hothers. specialize (Hothers m (group_nodes m Hm)).
  unfold buildOutbound in Hx.
  destruct (node_data m); try (destruct Hx; fail);
    destruct Hx as [<- | []]; cbn [xout_tag outboundTagOf optStr_eqb] in *;
    rewrite Hsame, String.eqb_refl in Hothers; discriminate.
Qed.

Lemma exported_rule_normal routeData outboundTag balancerTag :
  ruleNormal
    (mkRule (Some "field")
       (keepNonEmpty (rt_domain routeData))
       (keepNonEmpty (rt_ip routeData))
       (keepTruthy (rt_port routeData))
       (keepNonEmpty (rt_protocol routeData))
       (option_map ruleNetworkName (rt_network routeData))
       (match keepTruthy (rt_inboundTag routeData) with
        | Some t => Some [t]
        | None => None
        end)
       outboundTag balancerTag).
Proof.
  unfold ruleNormal. cbn [rule_type rule_domain rule_ip rule_port rule_protocol
                          rule_network rule_inboundTag].
  rewrite !keepNonEmpty_idempotent, keepTruthy_idempotent.
  repeat split.
  - destruct (rt_network routeData) as [[|] |]; cbn; auto.
  - destruct (rt_inboundTag routeData) as [t |]; cbn; [| now left].
    destruct (Js.truthy t) eqn:Ht; [right; eauto | now left].
Qed.

Lemma exported_rule r :
  In r (fst (buildRoutingRules group groupEdges)) ->
  ruleReady (flat_map (buildOutbound edges nodes) group)
    (flat_map (buildBalancer group groupEdges)
       (filter (fun n => NodeType_eqb (nodeType (node_data n)) balancer) group))
    r.
Proof.
  unfold buildRoutingRules. cbn [fst]. intros Hr.
  apply in_app_or in Hr. destruct Hr as [Hr | Hr];
    apply in_flat_map in Hr; destruct Hr as (source & Hsource & Hr);
    apply filter_In in Hsource; destruct Hsource as [Hsource Hkind].
  - unfold rulesOfRoutingNode in Hr.
    destruct (node_data source) as [| | routeData | | | | | | |] eqn:Hdata;
      try (destruct Hr; fail).
    apply in_flat_map in Hr. destruct Hr as (e & He & Hr).
    unfold getOutgoingEdges in He. apply filter_In in He. destruct He as [He Hsrc].
    apply String.eqb_eq in Hsrc. unfold ruleOfEdge in Hr.
    destruct (findTargetNode (edge_target e) group) as [target |] eqn:Hfind;
      [| destruct Hr].
    apply find_some in Hfind. destruct Hfind as [Htarget Htgt].
    apply String.eqb_eq in Htgt.
    pose proof (routing_edge_ready e source target (group_edges e He)
                  (group_nodes source Hsource) (group_nodes target Htarget))
      as Hvalid.
    unfold isKind in Hvalid. rewrite Hdata in Hvalid.
    specialize (Hvalid eq_refl (eq_sym Hsrc) Htgt).
    unfold ConnectionRules.isValidConnection in Hvalid. rewrite Hdata in Hvalid.
    destruct (node_data target) as [| | | balData | outData | outData | | | |] eqn:Htd;
      cbn in Hvalid; try discriminate; try (destruct Hr; fail);
      destruct Hr as [<- | []]; (split; [apply exported_rule_normal |]).
    + right. destruct (exported_balancer_tag target balData Htarget Htd) as (b & Hb & Htag).
      exists b. rewrite Htag. auto.
    + left. destruct (exported_outbound_tag target (out_tag outData) Htarget) as (x & Hx & Htag);
        [now rewrite Htd |].
      exists x. rewrite Htag. auto.
    + left. destruct (exported_outbound_tag target (out_tag outData) Htarget) as (x & Hx & Htag);
        [now rewrite Htd |].
      exists x. rewrite Htag. auto.
  - unfold directRules in Hr.
    pose proof (node_ready source (group_nodes source Hsource)) as Hready.
    unfold nodeReady in Hready.
    destruct (node_data source) as [| inData | | | | | | | |] eqn:Hdata;
      try (destruct Hr; fail).
    apply andb_prop in Hready. destruct Hready as [Hintag _].
    apply in_flat_map in Hr. destruct Hr as (e & He & Hr).
    destruct (findTargetNode (edge_target e) group) as [target |] eqn:Hfind;
      [| destruct Hr].
    apply find_some in Hfind. destruct Hfind as [Htarget _].
    destruct (outboundTagOf (node_data target)) as [tag |] eqn:Htag; [| destruct Hr].
    destruct Hr as [<- | []]. split.
    + unfold ruleNormal. cbn. repeat split; auto. right. eauto.
    + left. destruct (exported_outbound_tag target tag Htarget Htag) as (x & Hx & Hxtag).
      exists x. rewrite Hxtag. auto.
Qed.

(** Every document compiled for a ready graph is a ready document. *)
Lemma buildSingleConfig_ready file :
  documentReady (config (buildSingleConfig group groupEdges edges nodes file)).
Proof.
  pose proof exported_rule as Hrule. pose proof exported_balancer as Hbalancer.
  unfold buildSingleConfig.
  destruct (buildRoutingRules group groupEdges) as [ruleList balancerList] eqn:Hbuilt.
  assert (Hbalancers : balancerList =
            flat_map (buildBalancer group groupEdges)
              (filter (fun n => NodeType_eqb (nodeType (node_data n)) balancer) group))
    by (unfold buildRoutingRules in Hbuilt; now injection Hbuilt).
  cbn [fst] in Hrule. rewrite <- Hbalancers in Hrule, Hbalancer.
  constructor;
    unfold inboundsOf, outboundsOf, balancersOf, rulesOfDocument, hasTopLevelKey;
    cbn [config cfg_inbounds cfg_outbounds cfg_routing routing_rules routing_balancers
         orEmpty].
  - reflexivity.
  - apply exported_inbound.
  - apply exported_outbound.
  - intros b Hb. apply Hbalancer. now destruct balancerList.
  - intros r Hr. replace (orEmpty (keepNonEmpty (Some balancerList))) with balancerList
      by now destruct balancerList.
    now apply Hrule.
Qed.

End ExportedDocuments.

Section ExportReady.
Import Config ExportConfig ImportConfig.

Lemma exportConfig_ready nodes edges servers mode r :
  optStr_eqb mode (Some "simple") = false ->
  roundTripReady nodes edges = true ->
  In r (exportConfig nodes edges servers mode) ->
  documentReady (config r).
Proof.
  intros Hmode Hready Hr.
  destruct (exportConfig_documents _ _ _ _ _ Hmode Hr)
    as (group & groupEdges & file & Hnodes & Hedges & ->).
  now apply buildSingleConfig_ready.
Qed.

End ExportReady.

Section ImportSteps.
Import Config ExportConfig ImportConfig.

Variable uuidv4 : nat -> string.
Hypothesis uuid_injective : forall i j, uuidv4 i = uuidv4 j -> i = j.
Hypothesis uuid_truthy : forall i, Js.truthy (uuidv4 i) = true.

(** ** The tag map *)

Lemma mapGet_mapSet key value tag m :
  mapGet tag (mapSet key value m) =
  if String.eqb key tag then Some value else mapGet tag m.
Proof.
  induction m as [| [k v] m IH]; cbn.
  - reflexivity.
  - destruct (String.eqb_spec k key) as [-> | Hk]; cbn.
    + destruct (String.eqb key tag); reflexivity.
    + rewrite IH. destruct (String.eqb_spec key tag) as [<- | Hkt].
      * destruct (String.eqb_spec k key); [contradiction | reflexivity].
      * reflexivity.
Qed.

Lemma lastTagged_app tag l1 l2 :
  lastTagged tag (l1 ++ l2) =
  match lastTagged tag l2 with
  | Some m => Some m
  | None => lastTagged tag l1
  end.
Proof.
  induction l1 as [| n l1 IH]; cbn.
  - destruct (lastTagged tag l2); reflexivity.
  - rewrite IH. destruct (lastTagged tag l2); reflexivity.
Qed.

Lemma lastTagged_snoc tag l n :
  lastTagged tag (l ++ [n]) =
  if optStr_eqb (registeredTag n) (Some tag) then Some n else lastTagged tag l.
Proof.
  rewrite lastTagged_app. cbn.
  destruct (optStr_eqb (registeredTag n) (Some tag)); reflexivity.
Qed.

Lemma optStr_eqb_eq a b : optStr_eqb a b = true <-> a = b.
Proof.
  destruct a, b; cbn; try (split; congruence).
  rewrite String.eqb_eq. split; congruence.
Qed.

Lemma lastTagged_In tag l n :
  lastTagged tag l = Some n -> In n l /\ registeredTag n = Some tag.
Proof.
  induction l as [| m l IH]; cbn; [discriminate |].
  destruct (lastTagged tag l) as [x |].
  - intros H. injection H as ->. destruct (IH eq_refl). auto.
  - destruct (optStr_eqb (registeredTag m) (Some tag)) eqn:Heq; [| discriminate].
    intros H. injection H as ->. apply optStr_eqb_eq in Heq. auto.
Qed.

Lemma lastTagged_exists tag l n :
  In n l -> registeredTag n = Some tag -> exists m, lastTagged tag l = Some m.
Proof.
  induction l as [| x l IH]; intros Hin Htag; [destruct Hin |].
  cbn. destruct (lastTagged tag l) as [m |]; [eauto |].
  destruct Hin as [-> | Hin].
  - rewrite Htag. cbn. rewrite String.eqb_refl. eauto.
  - destruct (IH Hin Htag) as [m Hm]. discriminate.
Qed.

Lemma lastTagged_none tag l :
  (forall n, In n l -> registeredTag n <> Some tag) -> lastTagged tag l = None.
Proof.
  induction l as [| x l IH]; intros Hnone; [reflexivity |].
  cbn. rewrite IH by (intros n Hn; apply Hnone; now right).
  destruct (optStr_eqb (registeredTag x) (Some tag)) eqn:Heq; [| reflexivity].
  apply optStr_eqb_eq in Heq. exfalso. eapply Hnone; [now left | exact Heq].
Qed.

(** ** Fresh identifiers *)

Lemma drawnBefore_mono bound bound' id :
  bound <= bound' -> drawnBefore uuidv4 bound id -> drawnBefore uuidv4 bound' id.
Proof. intros Hle (k & Hk & ->). exists k. split; [lia | reflexivity]. Qed.

Lemma drawnBefore_fresh bound k id :
  bound <= k -> drawnBefore uuidv4 bound id -> id <> uuidv4 k.
Proof.
  intros Hle (j & Hj & ->) Heq. apply uuid_injective in Heq. lia.
Qed.

(** ** Steps that keep the invariant *)

Lemma invariant_add_node s n warnings bound k :
  importInvariant uuidv4 s ->
  drawn s <= k -> k < bound -> node_id n = uuidv4 k ->
  dataServerId (node_data n) = None ->
  (isKind inbound n || isOutboundNode n || isKind balancer n || isKind routing n)
  = true ->
  node_type n = nodeTypeName (nodeType (node_data n)) ->
  importInvariant uuidv4
    (mkImportState (st_nodes s ++ [n]) (st_edges s) warnings
       (tagsAfter n (tagToNodeId s)) bound).
Proof.
  intros [Hids Hnd Hkinds Hedges Htags] Hk Hbound Hid Hserver Hkind Htype.
  assert (Hle : drawn s <= bound) by lia.
  constructor; cbn [st_nodes st_edges tagToNodeId drawn].
  - intros m Hm. apply in_app_or in Hm. destruct Hm as [Hm | [<- | []]].
    + eapply drawnBefore_mono; [exact Hle | now apply Hids].
    + exists k. auto.
  - rewrite map_app. cbn [map]. apply NoDup_app.
    + exact Hnd.
    + constructor; [intros [] | constructor].
    + intros x Hx [<- | []]. apply in_map_iff in Hx. destruct Hx as (m & Hmid & Hm).
      apply Hids in Hm. rewrite Hmid, Hid in Hm.
      eapply drawnBefore_fresh; [exact Hk | exact Hm | reflexivity].
  - intros m Hm. apply in_app_or in Hm. destruct Hm as [Hm | [<- | []]]; auto.
  - intros e He. destruct (Hedges e He) as (Hdata & Hsrc & (t & Ht & Htid) & Hkinds').
    repeat split.
    + exact Hdata.
    + eapply drawnBefore_mono; eassumption.
    + exists t. split; [apply in_or_app; now left | exact Htid].
    + destruct Hkinds' as [(x & Hx & Hxk & Hxid) | [(x & Hx & Hxk & Hxid) | (x & Hx & Hxk & Hxid)]];
        [left | right; left | right; right];
        exists x; (split; [apply in_or_app; now left | auto]).
  - intros tag. rewrite lastTagged_snoc. unfold tagsAfter.
    destruct (registeredTag n) as [t |]; cbn [optStr_eqb].
    + rewrite mapGet_mapSet. destruct (String.eqb t tag); [reflexivity | apply Htags].
    + apply Htags.
Qed.

Lemma invariant_pushWarning s w :
  importInvariant uuidv4 s -> importInvariant uuidv4 (pushWarning s w).
Proof. intros [Hids Hnd Hkinds Hedges Htags]. constructor; assumption. Qed.

Lemma invariant_pushEdge s source target :
  importInvariant uuidv4 s ->
  (exists n, In n (st_nodes s) /\ node_id n = source) ->
  (exists n, In n (st_nodes s) /\ node_id n = target) ->
  ((exists n, In n (st_nodes s) /\ isKind balancer n = true /\ node_id n = source) \/
   (exists n, In n (st_nodes s) /\ isKind routing n = true /\ node_id n = target) \/
   (exists n, In n (st_nodes s) /\ isKind routing n = true /\ node_id n = source)) ->
  importInvariant uuidv4 (pushEdge uuidv4 s source target).
Proof.
  intros [Hids Hnd Hkinds Hedges Htags] (ns & Hns & Hsid) Htarget Hkind.
  constructor; cbn [pushEdge st_nodes st_edges tagToNodeId drawn].
  - intros m Hm. eapply drawnBefore_mono; [| now apply Hids]. lia.
  - exact Hnd.
  - exact Hkinds.
  - intros e He. apply in_app_or in He. destruct He as [He | [<- | []]].
    + destruct (Hedges e He) as (Hdata & Hsrc & Ht & Hk).
      repeat split; auto. eapply drawnBefore_mono; [| exact Hsrc]. lia.
    + cbn [edge_data edge_source edge_target]. repeat split; auto.
      rewrite <- Hsid. eapply drawnBefore_mono; [| now apply Hids]. lia.
  - exact Htags.
Qed.

Lemma lookupTag_lastTagged s tag :
  importInvariant uuidv4 s ->
  lookupTag (tagToNodeId s) tag =
  option_map node_id (lastTagged tag (st_nodes s)).
Proof.
  intros Hinv. unfold lookupTag. rewrite (inv_tags uuidv4 s Hinv).
  destruct (lastTagged tag (st_nodes s)) as [m |] eqn:Hlast; [| reflexivity].
  cbn. apply lastTagged_In in Hlast. destruct Hlast as [Hin _].
  destruct (inv_ids uuidv4 s Hinv m Hin) as (k & _ & ->).
  now rewrite uuid_truthy.
Qed.

(** ** Inbounds *)

Lemma parseInbound_tagged fresh inb :
  Js.truthy (xin_tag inb) = true ->
  parseInbound fresh inb = parseInbound EmptyString inb.
Proof. intros H. unfold parseInbound. now rewrite H. Qed.

Lemma parseOutbound_tagged fresh outb :
  Js.truthy (xout_tag outb) = true ->
  parseOutbound fresh outb = parseOutbound EmptyString outb.
Proof. intros H. unfold parseOutbound. now rewrite H. Qed.

Lemma addInbound_invariant s inb :
  importInvariant uuidv4 s -> importInvariant uuidv4 (addInbound uuidv4 s inb).
Proof.
  intros Hinv. unfold addInbound.
  destruct (Js.memStr (xin_protocol inb) INBOUND_PROTOCOLS);
    [| now apply invariant_pushWarning].
  cbn [negb].
  apply (invariant_add_node s
           (mkNode (uuidv4 (drawn s)) "inbound" (0, 0)%Z
              (InboundNode (parseInbound (uuidv4 (S (drawn s))) inb)))
           (st_warnings s) _ (drawn s) Hinv);
    try reflexivity; try lia.
  destruct (Js.truthy (xin_tag inb)); lia.
Qed.

Lemma import_inbounds ins :
  forall s,
    importInvariant uuidv4 s ->
    (forall x, In x ins ->
               Js.truthy (xin_tag x) = true /\
               Js.memStr (xin_protocol x) INBOUND_PROTOCOLS = true) ->
    let s' := fold_left (addInbound uuidv4) ins s in
    importInvariant uuidv4 s' /\
    st_edges s' = st_edges s /\
    exists added,
      st_nodes s' = (st_nodes s ++ added)%list /\
      map node_data added =
      map (fun x => InboundNode (parseInbound EmptyString x)) ins.
Proof.
  induction ins as [| x ins IH]; intros s Hinv Hshape; cbn [fold_left].
  - split; [assumption |]. split; [reflexivity |]. exists []. now rewrite app_nil_r.
  - destruct (Hshape x (or_introl eq_refl)) as [Htag Hproto].
    destruct (IH (addInbound uuidv4 s x)) as (Hinv' & Hedges & added & Hnodes & Hdata).
    + now apply addInbound_invariant.
    + intros y Hy. apply Hshape. now right.
    + split; [exact Hinv' |]. split.
      * rewrite Hedges. unfold addInbound. now rewrite Hproto.
      * eexists (_ :: added). split.
        -- rewrite Hnodes. unfold addInbound. rewrite Hproto. cbn [negb st_nodes].
           rewrite <- app_assoc. reflexivity.
        -- cbn [map node_data]. rewrite Hdata.
           now rewrite (parseInbound_tagged _ x Htag).
Qed.

(** ** Outbounds *)

Lemma addOutbound_invariant s outb :
  importInvariant uuidv4 s -> importInvariant uuidv4 (addOutbound uuidv4 s outb).
Proof.
  intros Hinv. unfold addOutbound.
  destruct (Js.memStr _ TERMINAL_PROTOCOLS).
  - apply (invariant_add_node s
             (mkNode (uuidv4 (drawn s)) "outbound-terminal" (0, 0)%Z
                (OutboundTerminalNode (parseOutbound (uuidv4 (S (drawn s))) outb)))
             (st_warnings s) _ (drawn s) Hinv);
      try reflexivity; try lia.
    destruct (Js.truthy (xout_tag outb)); lia.
  - apply (invariant_add_node s
             (mkNode (uuidv4 (drawn s)) "outbound-proxy" (0, 0)%Z
                (OutboundProxyNode (parseOutbound (uuidv4 (S (drawn s))) outb)))
             (st_warnings s) _ (drawn s) Hinv);
      try reflexivity; try lia.
    destruct (Js.truthy (xout_tag outb)); lia.
Qed.

Lemma import_outbounds outs :
  forall s,
    importInvariant uuidv4 s ->
    (forall x, In x outs -> Js.truthy (xout_tag x) = true) ->
    let s' := fold_left (addOutbound uuidv4) outs s in
    importInvariant uuidv4 s' /\
    st_edges s' = st_edges s /\
    exists added,
      st_nodes s' = (st_nodes s ++ added)%list /\
      map node_data added = map outboundNodeData outs.
Proof.
  induction outs as [| x outs IH]; intros s Hinv Hshape; cbn [fold_left].
  - split; [assumption |]. split; [reflexivity |]. exists []. now rewrite app_nil_r.
  - pose proof (Hshape x (or_introl eq_refl)) as Htag.
    destruct (IH (addOutbound uuidv4 s x)) as (Hinv' & Hedges & added & Hnodes & Hdata).
    + now apply addOutbound_invariant.
    + intros y Hy. apply Hshape. now right.
    + split; [exact Hinv' |]. split.
      * rewrite Hedges. reflexivity.
      * eexists (_ :: added). split.
        -- rewrite Hnodes. unfold addOutbound. cbn [st_nodes].
           rewrite <- app_assoc. reflexivity.
        -- cbn [map]. rewrite Hdata. f_equal.
           unfold outboundNodeData, isTerminalProtocol.
           destruct (Js.memStr _ TERMINAL_PROTOCOLS); cbn [node_data];
             now rewrite (parseOutbound_tagged _ x Htag).
Qed.

(** ** Balancers *)

Lemma selectorEdges_invariant balancerId pattern s :
  importInvariant uuidv4 s ->
  (exists b, In b (st_nodes s) /\ isKind balancer b = true /\ node_id b = balancerId) ->
  let s' := selectorEdges uuidv4 balancerId pattern s in
  importInvariant uuidv4 s' /\ st_nodes s' = st_nodes s.
Proof.
  intros Hinv Hbal. unfold selectorEdges.
  generalize (tagToNodeId s) as entries.
  assert (Hgen : forall entries acc,
             importInvariant uuidv4 acc -> st_nodes acc = st_nodes s ->
             let acc' :=
               fold_left
                 (fun acc entry =>
                    let '(tag, targetNodeId) := entry in
                    if String.eqb tag pattern || Js.startsWith tag pattern then
                      match findNodeById (st_nodes acc) targetNodeId with
                      | Some targetNode =>
                          if isOutboundType (node_type targetNode) then
                            mkImportState (st_nodes acc)
                              (st_edges acc ++
                               [mkEdge (uuidv4 (drawn acc)) balancerId targetNodeId None])
                              (st_warnings acc) (tagToNodeId acc) (S (drawn acc))
                          else acc
                      | None => acc
                      end
                    else acc)
                 entries acc in
             importInvariant uuidv4 acc' /\ st_nodes acc' = st_nodes s).
  { induction entries as [| [tag target] entries IH]; intros acc Hacc Hnodes;
      cbn [fold_left]; [auto |].
    apply IH.
    - destruct (String.eqb tag pattern || Js.startsWith tag pattern); [| assumption].
      destruct (findNodeById (st_nodes acc) target) as [targetNode |] eqn:Hfind;
        [| assumption].
      destruct (isOutboundType (node_type targetNode)); [| assumption].
      apply find_some in Hfind. destruct Hfind as [Hin Hid].
      apply String.eqb_eq in Hid.
      destruct Hbal as (b & Hb & Hbk & Hbid). rewrite <- Hnodes in Hb.
      apply (invariant_pushEdge acc balancerId target Hacc); eauto 6.
    - destruct (String.eqb tag pattern || Js.startsWith tag pattern); [| assumption].
      destruct (findNodeById (st_nodes acc) target) as [targetNode |]; [| assumption].
      destruct (isOutboundType (node_type targetNode)); assumption. }
  intros entries. now apply Hgen.
Qed.

Lemma addBalancer_effect s bal selector :
  importInvariant uuidv4 s ->
  xbal_selector bal = Some selector ->
  exists s' n,
    addBalancer uuidv4 s bal = Returned s' /\
    importInvariant uuidv4 s' /\
    st_nodes s' = (st_nodes s ++ [n])%list /\
    node_data n = balancerNodeData bal.
Proof.
  intros Hinv Hsel. unfold addBalancer. rewrite Hsel.
  set (n := mkNode (uuidv4 (drawn s)) "balancer" (0, 0)%Z
              (BalancerNode
                 (mkBalancer (xbal_tag bal) (strOr (xbal_strategyType bal) "random")
                    (orEmpty (Some selector)) None))).
  set (withNode := mkImportState (st_nodes s ++ [n]) (st_edges s) (st_warnings s)
                     (mapSet (xbal_tag bal) (uuidv4 (drawn s)) (tagToNodeId s))
                     (S (drawn s))).
  assert (Hwith : importInvariant uuidv4 withNode).
  { apply (invariant_add_node s n (st_warnings s) (S (drawn s)) (drawn s) Hinv);
      try reflexivity; lia. }
  assert (Hfold : forall patterns acc,
             importInvariant uuidv4 acc -> st_nodes acc = st_nodes withNode ->
             let acc' :=
               fold_left (fun acc pattern => selectorEdges uuidv4 (uuidv4 (drawn s)) pattern acc)
                 patterns acc in
             importInvariant uuidv4 acc' /\ st_nodes acc' = st_nodes withNode).
  { induction patterns as [| p patterns IH]; intros acc Hacc Hnodes; cbn [fold_left];
      [auto |].
    destruct (selectorEdges_invariant (uuidv4 (drawn s)) p acc Hacc) as [Hacc' Hnodes'].
    - exists n. rewrite Hnodes. cbn [withNode st_nodes]. split.
      + apply in_or_app. right. now left.
      + split; reflexivity.
    - apply IH; [exact Hacc' | congruence]. }
  destruct (Hfold selector withNode Hwith eq_refl) as [Hinv' Hnodes'].
  eexists _, n. split; [reflexivity |]. split; [exact Hinv' |].
  split; [exact Hnodes' |]. unfold balancerNodeData. now rewrite Hsel.
Qed.

Lemma import_balancers bals :
  forall s,
    importInvariant uuidv4 s ->
    (forall b, In b bals -> exists selector, xbal_selector b = Some selector) ->
    exists s' added,
      addBalancers uuidv4 s bals = Returned s' /\
      importInvariant uuidv4 s' /\
      st_nodes s' = (st_nodes s ++ added)%list /\
      map node_data added = map balancerNodeData bals.
Proof.
  induction bals as [| b bals IH]; intros s Hinv Hshape; cbn [addBalancers].
  - exists s, []. rewrite app_nil_r. auto.
  - destruct (Hshape b (or_introl eq_refl)) as [selector Hsel].
    destruct (addBalancer_effect s b selector Hinv Hsel) as (s1 & n & -> & Hinv1 & Hn1 & Hd1).
    destruct (IH s1 Hinv1) as (s' & added & Hrun & Hinv' & Hnodes & Hdata).
    { intros y Hy. apply Hshape. now right. }
    exists s', (n :: added). split; [exact Hrun |]. split; [exact Hinv' |]. split.
    + rewrite Hnodes, Hn1, <- app_assoc. reflexivity.
    + cbn [map]. now rewrite Hd1, Hdata.
Qed.

(** ** Routing rules *)

Lemma find_app_found {A : Type} (p : A -> bool) l1 l2 x :
  find p l1 = Some x -> find p (l1 ++ l2) = Some x.
Proof.
  induction l1 as [| a l1 IH]; cbn; [discriminate |].
  destruct (p a); [auto | exact IH].
Qed.

Lemma find_app_missing {A : Type} (p : A -> bool) l1 l2 :
  find p l1 = None -> find p (l1 ++ l2) = find p l2.
Proof.
  induction l1 as [| a l1 IH]; cbn; [reflexivity |].
  destruct (p a); [discriminate | exact IH].
Qed.

Lemma NoDup_map_injective {A B : Type} (f : A -> B) l a b :
  NoDup (map f l) -> In a l -> In b l -> f a = f b -> a = b.
Proof.
  induction l as [| x l IH]; intros Hnd Ha Hb Heq; [destruct Ha |].
  cbn in Hnd. inversion Hnd as [| y ys Hnotin Hnd']; subst.
  destruct Ha as [-> | Ha], Hb as [-> | Hb].
  - reflexivity.
  - exfalso. apply Hnotin. rewrite Heq. now apply in_map.
  - exfalso. apply Hnotin. rewrite <- Heq. now apply in_map.
  - now apply IH.
Qed.

Lemma findTargetNode_unique nodes n :
  NoDup (map node_id nodes) -> In n nodes ->
  findTargetNode (node_id n) nodes = Some n.
Proof.
  intros Hnd Hin. unfold findTargetNode.
  destruct (find (fun m => String.eqb (node_id m) (node_id n)) nodes) as [m |] eqn:Hfind.
  - apply find_some in Hfind. destruct Hfind as [Hm Hid].
    apply String.eqb_eq in Hid. f_equal.
    eapply NoDup_map_injective; eassumption.
  - exfalso. eapply find_none in Hfind; [| exact Hin].
    now rewrite String.eqb_refl in Hfind.
Qed.

Lemma registered_not_routing n tag :
  registeredTag n = Some tag -> isKind routing n = false.
Proof. unfold registeredTag, isKind. destruct (node_data n); cbn; congruence. Qed.

(** What [addRuleNode] adds: one routing node, edges that enter it from
    registered nodes, and edges that leave it for the nodes its tags
    resolve to. *)
Lemma addRuleNode_effect s r i :
  importInvariant uuidv4 s ->
  let rid := uuidv4 (drawn s) in
  let rn := mkNode rid "routing" (0, 0)%Z (RoutingNode (parseRoutingRule r i)) in
  let s' := addRuleNode uuidv4 s r i in
  importInvariant uuidv4 s' /\
  st_nodes s' = (st_nodes s ++ [rn])%list /\
  exists added,
    st_edges s' = (st_edges s ++ added)%list /\
    map edge_target (filter (fun e => String.eqb (edge_source e) rid) added) =
      ruleTargetIds (st_nodes s) r /\
    forall e, In e added ->
      edge_source e = rid \/
      (edge_target e = rid /\
       exists m tag, In m (st_nodes s) /\ registeredTag m = Some tag /\
                     node_id m = edge_source e).
Proof.
  intros Hinv rid rn.
  set (s1 := mkImportState (st_nodes s ++ [rn]) (st_edges s) (st_warnings s)
               (tagToNodeId s) (S (drawn s))).
  assert (Hinv1 : importInvariant uuidv4 s1).
  { apply (invariant_add_node s rn (st_warnings s) (S (drawn s)) (drawn s) Hinv);
      try reflexivity; lia. }
  assert (Hrn : In rn (st_nodes s1)) by (apply in_or_app; right; now left).
  assert (Hfresh : forall m, In m (st_nodes s) -> node_id m <> rid).
  { intros m Hm. eapply drawnBefore_fresh; [| apply (inv_ids uuidv4 s Hinv m Hm)]. lia. }
  (* a lookup in a state that holds the nodes of s1 *)
  assert (Hlookup : forall acc tag,
             importInvariant uuidv4 acc -> st_nodes acc = st_nodes s1 ->
             lookupTag (tagToNodeId acc) tag =
             option_map node_id (lastTagged tag (st_nodes s))).
  { intros acc tag Hacc Hnodes. rewrite (lookupTag_lastTagged acc tag Hacc), Hnodes.
    cbn [s1 st_nodes]. now rewrite lastTagged_snoc. }
  (* the edges that enter the routing node *)
  assert (Hin : forall inTags acc,
             importInvariant uuidv4 acc -> st_nodes acc = st_nodes s1 ->
             let acc' :=
               fold_left
                 (fun acc inTag =>
                    match lookupTag (tagToNodeId acc) inTag with
                    | Some inNodeId => pushEdge uuidv4 acc inNodeId rid
                    | None => acc
                    end)
                 inTags acc in
             importInvariant uuidv4 acc' /\ st_nodes acc' = st_nodes s1 /\
             exists added,
               st_edges acc' = (st_edges acc ++ added)%list /\
               forall e, In e added ->
                 edge_target e = rid /\
                 exists m tag, In m (st_nodes s) /\ registeredTag m = Some tag /\
                               node_id m = edge_source e).
  { induction inTags as [| inTag inTags IH]; intros acc Hacc Hnodes; cbn [fold_left].
    - split; [assumption |]. split; [assumption |].
      exists []. split; [now rewrite app_nil_r | intros e []].
    - rewrite (Hlookup acc inTag Hacc Hnodes).
      destruct (lastTagged inTag (st_nodes s)) as [m |] eqn:Hlast; cbn [option_map].
      + apply lastTagged_In in Hlast. destruct Hlast as [Hm Htag].
        assert (Hpush : importInvariant uuidv4 (pushEdge uuidv4 acc (node_id m) rid)).
        { apply invariant_pushEdge; [assumption | | |].
          - exists m. rewrite Hnodes. split; [apply in_or_app; now left | reflexivity].
          - exists rn. rewrite Hnodes. auto.
          - right. left. exists rn. rewrite Hnodes. auto. }
        destruct (IH (pushEdge uuidv4 acc (node_id m) rid) Hpush Hnodes)
          as (Hacc' & Hnodes' & added & Hedges & Hadded).
        split; [exact Hacc' |]. split; [exact Hnodes' |].
        exists (mkEdge (uuidv4 (drawn acc)) (node_id m) rid None :: added). split.
        * rewrite Hedges. cbn [pushEdge st_edges]. now rewrite <- app_assoc.
        * intros e [<- | He]; [| now apply Hadded].
          cbn [edge_target edge_source]. split; [reflexivity |]. eauto.
      + now apply IH. }
  (* the edge that leaves it for the target of one tag *)
  assert (Hout : forall acc tag,
             importInvariant uuidv4 acc -> st_nodes acc = st_nodes s1 ->
             forall warning,
             let acc' :=
               match tag with
               | Some t =>
                   if Js.truthy t then
                     match lookupTag (tagToNodeId acc) t with
                     | Some id => pushEdge uuidv4 acc rid id
                     | None => pushWarning acc (warning t)
                     end
                   else acc
               | None => acc
               end in
             importInvariant uuidv4 acc' /\ st_nodes acc' = st_nodes s1 /\
             exists added,
               st_edges acc' = (st_edges acc ++ added)%list /\
               map edge_target added = tagTargetIds (st_nodes s) tag /\
               forall e, In e added -> edge_source e = rid).
  { intros acc tag Hacc Hnodes warning. unfold tagTargetIds.
    destruct tag as [t |];
      [| split; [assumption |]; split; [assumption |];
         exists []; rewrite app_nil_r; repeat split; intros e []].
    destruct (Js.truthy t);
      [| split; [assumption |]; split; [assumption |];
         exists []; rewrite app_nil_r; repeat split; intros e []].
    rewrite (Hlookup acc t Hacc Hnodes).
    destruct (lastTagged t (st_nodes s)) as [m |] eqn:Hlast; cbn [option_map].
    - apply lastTagged_In in Hlast. destruct Hlast as [Hm Htag]. split.
      + apply invariant_pushEdge; [assumption | | |].
        * exists rn. rewrite Hnodes. auto.
        * exists m. rewrite Hnodes. split; [apply in_or_app; now left | reflexivity].
        * right. right. exists rn. rewrite Hnodes. auto.
      + split; [exact Hnodes |].
        exists [mkEdge (uuidv4 (drawn acc)) rid (node_id m) None].
        repeat split. intros e [<- | []]. reflexivity.
    - split; [now apply invariant_pushWarning |]. split; [exact Hnodes |].
      exists []. cbn [pushWarning st_edges]. rewrite app_nil_r.
      repeat split; intros e []. }
  unfold addRuleNode. fold rid. fold rn. fold s1.
  destruct (Hin (orEmpty (rule_inboundTag r)) s1 Hinv1 eq_refl)
    as (Hinv2 & Hnodes2 & inEdges & Hedges2 & HinEdges).
  set (s2 := fold_left _ (orEmpty (rule_inboundTag r)) s1) in *.
  destruct (Hout s2 (rule_outboundTag r) Hinv2 Hnodes2
              (fun t => "Routing rule " ++ Js.showZ (Z.of_nat (i + 1)) ++
                        ": outboundTag " ++ Js.quoted t ++ " not found"))
    as (Hinv3 & Hnodes3 & outEdges & Hedges3 & Houts & HoutSrc).
  cbv beta in Hinv3, Hnodes3, Hedges3.
  set (s3 := match rule_outboundTag r with
             | Some t => _
             | None => s2
             end) in *.
  destruct (Hout s3 (rule_balancerTag r) Hinv3 Hnodes3
              (fun t => "Routing rule " ++ Js.showZ (Z.of_nat (i + 1)) ++
                        ": balancerTag " ++ Js.quoted t ++ " not found"))
    as (Hinv4 & Hnodes4 & balEdges & Hedges4 & Hbals & HbalSrc).
  cbv beta in Hinv4, Hnodes4, Hedges4.
  split; [exact Hinv4 |]. split; [exact Hnodes4 |].
  exists (inEdges ++ outEdges ++ balEdges)%list. split; [| split].
  - rewrite Hedges4, Hedges3, Hedges2. cbn [s1 st_edges].
    now rewrite <- !app_assoc.
  - rewrite !filter_app, !map_app.
    assert (HinNone : filter (fun e => String.eqb (edge_source e) rid) inEdges = []).
    { clear - HinEdges Hfresh. induction inEdges as [| e es IH]; [reflexivity |].
      cbn [filter]. destruct (HinEdges e (or_introl eq_refl)) as (_ & m & tag & Hm & _ & Hid).
      destruct (String.eqb_spec (edge_source e) rid) as [Heq | _].
      - exfalso. apply (Hfresh m Hm). congruence.
      - apply IH. intros e' He'. apply HinEdges. now right. }
    assert (Hall : forall es, (forall e, In e es -> edge_source e = rid) ->
                              filter (fun e => String.eqb (edge_source e) rid) es = es).
    { induction es as [| e es IH]; intros Hsrc; [reflexivity |].
      cbn [filter]. rewrite (Hsrc e (or_introl eq_refl)), String.eqb_refl.
      f_equal. apply IH. intros e' He'. apply Hsrc. now right. }
    rewrite HinNone, (Hall outEdges HoutSrc), (Hall balEdges HbalSrc).
    cbn [map app]. unfold ruleTargetIds. now rewrite Houts, Hbals.
  - intros e He. apply in_app_or in He. destruct He as [He | He].
    + right. now apply HinEdges.
    + left. apply in_app_or in He. destruct He as [He | He]; auto.
Qed.

Lemma getOutgoingEdges_none id es :
  (forall e, In e es -> edge_source e <> id) -> getOutgoingEdges id es = [].
Proof.
  induction es as [| e es IH]; intros Hsrc; [reflexivity |].
  unfold getOutgoingEdges. cbn [filter].
  destruct (String.eqb_spec (edge_source e) id) as [Heq | _].
  - now destruct (Hsrc e (or_introl eq_refl)).
  - apply IH. intros e' He'. apply Hsrc. now right.
Qed.

Lemma getOutgoingEdges_app id es1 es2 :
  getOutgoingEdges id (es1 ++ es2) =
  (getOutgoingEdges id es1 ++ getOutgoingEdges id es2)%list.
Proof. apply filter_app. Qed.

Lemma findTargetNode_app nodes extra id :
  (exists n, In n nodes /\ node_id n = id) ->
  findTargetNode id (nodes ++ extra) = findTargetNode id nodes.
Proof.
  intros (n & Hn & Hid). unfold findTargetNode.
  destruct (find (fun m => String.eqb (node_id m) id) nodes) as [m |] eqn:Hfind.
  - now apply find_app_found.
  - exfalso. eapply find_none in Hfind; [| exact Hn].
    cbv beta in Hfind. now rewrite Hid, String.eqb_refl in Hfind.
Qed.

Lemma ruleOfEdge_app nodes extra routeData e :
  (exists n, In n nodes /\ node_id n = edge_target e) ->
  ruleOfEdge (nodes ++ extra) routeData e = ruleOfEdge nodes routeData e.
Proof. intros Htarget. unfold ruleOfEdge. now rewrite findTargetNode_app. Qed.

Lemma ruleOfEdge_target nodes routeData es :
  flat_map (ruleOfEdge nodes routeData) es =
  flat_map (ruleOfTarget nodes routeData) (map edge_target es).
Proof. induction es as [| e es IH]; cbn; [reflexivity | now rewrite IH]. Qed.

(** A rule the export wrote is the rule of the routing node the import
    makes of it. *)
Lemma rule_rebuilt nodes extra r i :
  NoDup (map node_id nodes) ->
  ruleNormal r -> resolves nodes r ->
  flat_map (ruleOfTarget (nodes ++ extra) (parseRoutingRule r i))
    (ruleTargetIds nodes r) = [r].
Proof.
  intros Hnd (Htype & Hdomain & Hip & Hport & Hprotocol & Hnetwork & Hinbound) Hres.
  assert (Hfields :
            forall outboundTag balancerTag,
              rule_outboundTag r = outboundTag -> rule_balancerTag r = balancerTag ->
              mkRule (Some "field")
                (keepNonEmpty (rt_domain (parseRoutingRule r i)))
                (keepNonEmpty (rt_ip (parseRoutingRule r i)))
                (keepTruthy (rt_port (parseRoutingRule r i)))
                (keepNonEmpty (rt_protocol (parseRoutingRule r i)))
                (option_map ruleNetworkName (rt_network (parseRoutingRule r i)))
                (match keepTruthy (rt_inboundTag (parseRoutingRule r i)) with
                 | Some t => Some [t]
                 | None => None
                 end)
                outboundTag balancerTag = r).
  { intros outboundTag balancerTag Hout Hbal. destruct r as [ty dom ip port proto net inb out bal].
    cbn in *. subst. rewrite Hdomain, Hip, Hport, Hprotocol. f_equal.
    - destruct Hnetwork as [-> | [-> | ->]]; reflexivity.
    - destruct Hinbound as [-> | (t & Ht & ->)]; [reflexivity |].
      cbn. now rewrite Ht. }
  unfold ruleTargetIds, tagTargetIds.
  destruct Hres as [(t & m & Hout & Hbal & Ht & Hlast & Hkind)
                   | (t & m & Hbal & Hout & Ht & Hlast & Hkind)];
    rewrite Hout, Hbal, Ht, Hlast; cbn [app flat_map]; rewrite app_nil_r;
    apply lastTagged_In in Hlast; destruct Hlast as [Hm Htag];
    unfold ruleOfTarget, ruleOfEdge; cbn [edge_target];
    rewrite (find_app_found _ _ _ _ (findTargetNode_unique nodes m Hnd Hm)
             : findTargetNode (node_id m) (nodes ++ extra) = Some m);
    unfold registeredTag in Htag; unfold isOutboundNode, isKind in Hkind;
    destruct (node_data m); cbn in Hkind; try discriminate;
    injection Htag as Htag; rewrite Htag; f_equal; now apply Hfields.
Qed.

(** The rules of the graph after one rule is imported: the rules before,
    then the rule. *)
Lemma addRuleNode_rules s r i :
  importInvariant uuidv4 s ->
  ruleNormal r -> resolves (st_nodes s) r ->
  let s' := addRuleNode uuidv4 s r i in
  rulesOf (st_nodes s') (st_edges s') =
  (rulesOf (st_nodes s) (st_edges s) ++ [r])%list.
Proof.
  intros Hinv Hnormal Hres.
  destruct (addRuleNode_effect s r i Hinv) as (_ & Hnodes & added & Hedges & Htargets & Hadded).
  cbv zeta in *. rewrite Hnodes, Hedges. clear Hnodes Hedges.
  set (rid := uuidv4 (drawn s)) in *.
  set (rn := mkNode rid "routing" (0, 0)%Z (RoutingNode (parseRoutingRule r i))).
  unfold rulesOf. rewrite flat_map_app. cbn [flat_map]. rewrite app_nil_r. f_equal.
  - apply flat_map_ext_in. intros n Hn. unfold rulesOfRoutingNode.
    destruct (node_data n) as [| | routeData | | | | | | |] eqn:Hdata; try reflexivity.
    rewrite getOutgoingEdges_app.
    rewrite (getOutgoingEdges_none (node_id n) added), app_nil_r.
    + apply flat_map_ext_in. intros e He. apply ruleOfEdge_app.
      unfold getOutgoingEdges in He. apply filter_In in He.
      apply (inv_edges uuidv4 s Hinv e (proj1 He)).
    + intros e He Hsrc. destruct (Hadded e He) as [Hrid | (_ & m & tag & Hm & Htag & Hid)].
      * eapply drawnBefore_fresh; [| apply (inv_ids uuidv4 s Hinv n Hn) |];
          [apply Nat.le_refl | fold rid; congruence].
      * assert (m = n).
        { eapply NoDup_map_injective;
            [apply (inv_nodup uuidv4 s Hinv) | assumption | assumption | congruence]. }
        subst m. apply registered_not_routing in Htag.
        unfold isKind in Htag. now rewrite Hdata in Htag.
  - unfold rulesOfRoutingNode. cbn [node_data node_id rn].
    rewrite getOutgoingEdges_app.
    rewrite (getOutgoingEdges_none rid (st_edges s)).
    + cbn [app]. rewrite ruleOfEdge_target. unfold getOutgoingEdges. rewrite Htargets.
      apply rule_rebuilt; [apply (inv_nodup uuidv4 s Hinv) | assumption | assumption].
    + intros e He. eapply drawnBefore_fresh; [apply Nat.le_refl |].
      apply (inv_edges uuidv4 s Hinv e He).
Qed.

Lemma resolves_snoc_routing nodes n r :
  isKind routing n = true -> resolves nodes r -> resolves (nodes ++ [n]) r.
Proof.
  intros Hkind Hres.
  assert (Hlast : forall t, lastTagged t (nodes ++ [n]) = lastTagged t nodes).
  { intros t. rewrite lastTagged_snoc.
    destruct (optStr_eqb (registeredTag n) (Some t)) eqn:Htag; [| reflexivity].
    apply optStr_eqb_eq, registered_not_routing in Htag. congruence. }
  destruct Hres as [(t & m & H) | (t & m & H)]; [left | right];
    exists t, m; rewrite Hlast; exact H.
Qed.

(** All the rules of a document, imported as routing nodes. *)
Lemma import_rules ruleList :
  forall s i,
    importInvariant uuidv4 s ->
    (forall r, In r ruleList -> ruleNormal r /\ resolves (st_nodes s) r) ->
    let s' := addRules uuidv4 true s ruleList i in
    importInvariant uuidv4 s' /\
    rulesOf (st_nodes s') (st_edges s') =
      (rulesOf (st_nodes s) (st_edges s) ++ ruleList)%list /\
    exists added,
      st_nodes s' = (st_nodes s ++ added)%list /\
      forall n, In n added -> isKind routing n = true.
Proof.
  induction ruleList as [| r rest IH]; intros s i Hinv Hrules; cbn [addRules].
  - split; [assumption |]. split; [now rewrite app_nil_r |].
    exists []. split; [now rewrite app_nil_r | intros n []].
  - destruct (Hrules r (or_introl eq_refl)) as [Hnormal Hres].
    destruct (addRuleNode_effect s r i Hinv) as (Hinv' & Hnodes & _).
    pose proof (addRuleNode_rules s r i Hinv Hnormal Hres) as Hstep.
    cbv zeta in Hinv', Hnodes, Hstep.
    destruct (IH (addRuleNode uuidv4 s r i) (S i) Hinv') as (Hinv'' & Hall & added & Hadded & Hkinds).
    + intros r' Hr'. destruct (Hrules r' (or_intror Hr')) as [Hnormal' Hres'].
      split; [assumption |]. rewrite Hnodes. now apply resolves_snoc_routing.
    + split; [exact Hinv'' |]. split.
      * rewrite Hall, Hstep. now rewrite <- app_assoc.
      * eexists (_ :: added). split.
        -- rewrite Hadded, Hnodes. now rewrite <- app_assoc.
        -- intros n [<- | Hn]; [reflexivity | now apply Hkinds].
Qed.

Lemma flat_map_nil {A B : Type} (f : A -> list B) l :
  (forall a, In a l -> f a = []) -> flat_map f l = [].
Proof.
  induction l as [| a l IH]; intros Hf; [reflexivity |].
  cbn. rewrite (Hf a (or_introl eq_refl)). apply IH. intros b Hb. apply Hf. now right.
Qed.

Lemma flat_map_filter_nil {A B : Type} (f : A -> list B) (p : A -> bool) l :
  (forall a, In a l -> p a = false -> f a = []) ->
  flat_map f (filter p l) = flat_map f l.
Proof.
  induction l as [| a l IH]; intros Hf; [reflexivity |].
  cbn [filter flat_map]. rewrite <- IH by (intros b Hb; apply Hf; now right).
  destruct (p a) eqn:Hp; [reflexivity |].
  now rewrite (Hf a (or_introl eq_refl) Hp).
Qed.

Lemma same_id_same_node s a b :
  importInvariant uuidv4 s ->
  In a (st_nodes s) -> In b (st_nodes s) -> node_id a = node_id b -> a = b.
Proof.
  intros Hinv. apply NoDup_map_injective, (inv_nodup uuidv4 s Hinv).
Qed.

(** No edge of an imported graph joins an inbound to an outbound, so the
    export finds no direct rule in it. *)
Lemma directRules_imported s n :
  importInvariant uuidv4 s -> In n (st_nodes s) ->
  directRules (st_nodes s) (st_edges s) n = [].
Proof.
  intros Hinv Hn. unfold directRules.
  destruct (node_data n) as [| inData | | | | | | | |] eqn:Hdata; try reflexivity.
  apply flat_map_nil. intros e He. unfold getOutgoingEdges in He.
  apply filter_In in He. destruct He as [He Hsrc]. apply String.eqb_eq in Hsrc.
  destruct (inv_edges uuidv4 s Hinv e He)
    as (_ & _ & _ & [(b & Hb & Hkind & Hid) | [(t & Ht & Hkind & Hid) | (t & Ht & Hkind & Hid)]]).
  - assert (b = n) by (eapply same_id_same_node; try eassumption; congruence).
    subst b. unfold isKind in Hkind. now rewrite Hdata in Hkind.
  - rewrite <- Hid, (findTargetNode_unique _ t (inv_nodup uuidv4 s Hinv) Ht).
    unfold isKind in Hkind. now destruct (node_data t).
  - assert (t = n) by (eapply same_id_same_node; try eassumption; congruence).
    subst t. unfold isKind in Hkind. now rewrite Hdata in Hkind.
Qed.

(** ** The whole import *)

Lemma importInvariant_initial :
  importInvariant uuidv4 (mkImportState [] [] [] [] 0).
Proof.
  constructor; cbn.
  - intros n [].
  - constructor.
  - intros n [].
  - intros e [].
  - reflexivity.
Qed.

(** The import as the steps it takes, for a document with a top-level
    key and with routing nodes asked for. *)
Lemma importXrayConfig_steps cfg options s3 :
  hasTopLevelKey cfg = true ->
  createRoutingNodes options <> Some false ->
  addBalancers uuidv4
    (fold_left (addOutbound uuidv4) (outboundsOf cfg)
       (fold_left (addInbound uuidv4) (inboundsOf cfg)
          (mkImportState [] [] [] [] 0)))
    (balancersOf cfg) = Returned s3 ->
  exists i,
    importXrayConfig uuidv4 (Some cfg) options = Returned i /\
    sameKeys (st_nodes (addRules uuidv4 true s3 (rulesOfDocument cfg) 0)) (nodes i) /\
    edges i = st_edges (addRules uuidv4 true s3 (rulesOfDocument cfg) 0).
Proof.
  intros Hkey Hrouting. unfold importXrayConfig, hasTopLevelKey in *.
  unfold inboundsOf, outboundsOf, balancersOf, rulesOfDocument.
  assert (Hwith : match createRoutingNodes options with
                  | Some b => b
                  | None => true
                  end = true).
  { destruct (createRoutingNodes options) as [[|] |]; congruence. }
  rewrite Hwith.
  destruct (cfg_inbounds cfg), (cfg_outbounds cfg); try discriminate;
    intros Hs3; rewrite Hs3; eexists; (split; [reflexivity |]);
    cbn [nodes edges]; (split; [| reflexivity]);
    destruct (match autoLayoutOption options with
              | Some b => b
              | None => true
              end);
    first [apply autoLayout_keys | apply sameKeys_refl].
Qed.

Lemma sameKeys_member l l' b :
  sameKeys l l' -> In b l' -> exists a, In a l /\ nodeKey a = nodeKey b.
Proof.
  induction 1 as [| x y l l' Hkey _ IH]; intros Hb; [destruct Hb |].
  destruct Hb as [<- | Hb].
  - exists x. split; [now left | assumption].
  - destruct (IH Hb) as (a & Ha & Hkeys). exists a. split; [now right | assumption].
Qed.

Lemma filter_all {A : Type} (p : A -> bool) l :
  (forall a, In a l -> p a = true) -> filter p l = l.
Proof.
  induction l as [| a l IH]; intros Hp; [reflexivity |].
  cbn. rewrite (Hp a (or_introl eq_refl)). f_equal.
  apply IH. intros b Hb. apply Hp. now right.
Qed.

Lemma nodesByServer_none servers l :
  (forall n, In n l -> dataServerId (node_data n) = None) ->
  nodesByServer servers l = [].
Proof.
  intros Hnone. unfold nodesByServer.
  enough (Hfold : forall groups : list (string * list GraphNode),
             fold_left
               (fun groups n =>
                  match groupOf servers n with
                  | Some sid => Js.pushTo sid n groups
                  | None => groups
                  end)
               l groups = groups) by apply Hfold.
  induction l as [| n l IH]; intros groups; [reflexivity |].
  cbn [fold_left]. unfold groupOf at 2.
  rewrite (Hnone n (or_introl eq_refl)).
  apply IH. intros m Hm. apply Hnone. now right.
Qed.

(** A graph of nodes that belong to no server, none of them a device,
    is exported as one document. *)
Lemma exportConfig_single nodes edges servers mode :
  optStr_eqb mode (Some "simple") = false ->
  (forall n, In n nodes ->
             dataServerId (node_data n) = None /\ isKind device n = false) ->
  exportConfig nodes edges servers mode =
  [buildSingleConfig nodes edges edges nodes "config.json"].
Proof.
  intros Hmode Hnodes. unfold exportConfig. rewrite Hmode.
  rewrite filter_all.
  - rewrite nodesByServer_none; [reflexivity |].
    intros n Hn. apply (Hnodes n Hn).
  - intros n Hn. destruct (Hnodes n Hn) as [_ Hkind].
    unfold isKind in Hkind. now rewrite Hkind.
Qed.

Lemma outbound_registered n x :
  node_data n = outboundNodeData x -> Js.truthy (xout_tag x) = true ->
  registeredTag n = Some (xout_tag x) /\ isOutboundNode n = true.
Proof.
  intros Hdata Htag. unfold registeredTag, isOutboundNode, isKind. rewrite Hdata.
  unfold outboundNodeData. destruct (isTerminalProtocol _);
    cbn; unfold parseOutbound; cbn [out_tag]; now rewrite Htag.
Qed.

Lemma balancer_registered n b :
  node_data n = balancerNodeData b ->
  registeredTag n = Some (xbal_tag b) /\ isKind balancer n = true.
Proof.
  intros Hdata. unfold registeredTag, isKind. now rewrite Hdata.
Qed.

(** The tags of the rules of a ready document lead, in the tag map the
    import has built when it comes to the rules, to nodes of the right
    kind. *)
Lemma ready_resolves cfg ins outs bals r :
  documentReady cfg ->
  map node_data outs = map outboundNodeData (outboundsOf cfg) ->
  map node_data bals = map balancerNodeData (balancersOf cfg) ->
  In r (rulesOfDocument cfg) ->
  resolves ((ins ++ outs) ++ bals) r.
Proof.
  intros Hready Houts Hbals Hr.
  destruct (ready_rules cfg Hready r Hr)
    as [_ [(x & Hx & Hout & Hbal) | (b & Hb & Hbal & Hout)]].
  - left. destruct (ready_outbounds cfg Hready x Hx) as (Htag & _).
    destruct (member_of_data _ _ _ x Houts Hx) as (n & Hn & Hdata).
    destruct (outbound_registered n x Hdata Htag) as [Hreg _].
    destruct (lastTagged_exists _ _ n Hn Hreg) as [m Hm].
    exists (xout_tag x), m. repeat split; try assumption.
    + rewrite !lastTagged_app, Hm.
      rewrite lastTagged_none; [reflexivity |].
      intros k Hk Hreg'. destruct (data_of_member _ _ _ k Hbals Hk) as (b & Hb & Hkdata).
      destruct (balancer_registered k b Hkdata) as [Hkreg _].
      destruct (ready_balancers cfg Hready b Hb) as (_ & _ & Hdistinct).
      apply (Hdistinct x Hx). congruence.
    + apply lastTagged_In in Hm. destruct Hm as [Hm _].
      destruct (data_of_member _ _ _ m Houts Hm) as (y & Hy & Hmdata).
      destruct (ready_outbounds cfg Hready y Hy) as (Hytag & _).
      apply (outbound_registered m y Hmdata Hytag).
  - right. destruct (ready_balancers cfg Hready b Hb) as (Htag & _).
    destruct (member_of_data _ _ _ b Hbals Hb) as (n & Hn & Hdata).
    destruct (balancer_registered n b Hdata) as [Hreg _].
    destruct (lastTagged_exists _ _ n Hn Hreg) as [m Hm].
    exists (xbal_tag b), m. repeat split; try assumption.
    + now rewrite lastTagged_app, Hm.
    + apply lastTagged_In in Hm. destruct Hm as [Hm _].
      destruct (data_of_member _ _ _ m Hbals Hm) as (y & Hy & Hmdata).
      apply (balancer_registered m y Hmdata).
Qed.

Lemma orEmpty_keepNonEmpty {A : Type} (l : list A) :
  orEmpty (keepNonEmpty (Some l)) = l.
Proof. now destruct l. Qed.

(** Importing a ready document and exporting the graph gives one
    document with the same core fields. *)
Lemma import_then_export cfg options :
  documentReady cfg ->
  createRoutingNodes options <> Some false ->
  exists i,
    importXrayConfig uuidv4 (Some cfg) options = Returned i /\
    forall servers mode,
      optStr_eqb mode (Some "simple") = false ->
      exists r,
        exportConfig (nodes i) (edges i) servers mode = [r] /\
        coreOf (config r) = coreOf cfg.
Proof.
  intros Hready Hrouting.
  destruct (import_inbounds (inboundsOf cfg) _ importInvariant_initial)
    as (Hinv1 & _ & ins & Hnodes1 & Hins).
  { intros x Hx. destruct (ready_inbounds cfg Hready x Hx) as (Htag & (q & Hq) & _).
    split; [assumption |]. rewrite Hq. apply inboundProtocol_known. }
  cbn [st_nodes app] in Hnodes1.
  set (s1 := fold_left (addInbound uuidv4) (inboundsOf cfg) _) in *.
  destruct (import_outbounds (outboundsOf cfg) s1 Hinv1)
    as (Hinv2 & _ & outs & Hnodes2 & Houts).
  { intros x Hx. apply (ready_outbounds cfg Hready x Hx). }
  set (s2 := fold_left (addOutbound uuidv4) (outboundsOf cfg) s1) in *.
  destruct (import_balancers (balancersOf cfg) s2 Hinv2)
    as (s3 & bals & Hs3 & Hinv3 & Hnodes3 & Hbals).
  { intros b Hb. apply (ready_balancers cfg Hready b Hb). }
  rewrite Hnodes2, Hnodes1 in Hnodes3.
  destruct (importXrayConfig_steps cfg options s3 (ready_key cfg Hready) Hrouting Hs3)
    as (i & Hi & Hkeys & Hedges).
  exists i. split; [exact Hi |].
  destruct (import_rules (rulesOfDocument cfg) s3 0 Hinv3)
    as (Hinv4 & Hrules & routes & Hnodes4 & Hroutes).
  { intros r Hr. split; [apply (ready_rules cfg Hready r Hr) |].
    rewrite Hnodes3. now apply (ready_resolves cfg). }
  set (s4 := addRules uuidv4 true s3 (rulesOfDocument cfg) 0) in *.
  rewrite Hnodes3 in Hnodes4.
  assert (Hplain : plainEdges (st_edges s4))
    by (intros e He; apply (inv_edges uuidv4 s4 Hinv4 e He)).
  (* what the nodes of each part are *)
  assert (HinsData : forall n, In n ins -> exists d, node_data n = InboundNode d).
  { intros n Hn. destruct (data_of_member _ _ _ n Hins Hn) as (x & _ & Hdata). eauto. }
  assert (HoutsData : forall n, In n outs ->
                                exists d, node_data n = OutboundTerminalNode d \/
                                          node_data n = OutboundProxyNode d).
  { intros n Hn. destruct (data_of_member _ _ _ n Houts Hn) as (x & _ & Hdata).
    destruct (outboundNodeData_kind x) as (d & Hkind & _). exists d. now rewrite Hdata. }
  assert (HbalsData : forall n, In n bals -> exists d, node_data n = BalancerNode d).
  { intros n Hn. destruct (data_of_member _ _ _ n Hbals Hn) as (x & _ & Hdata).
    unfold balancerNodeData in Hdata. eauto. }
  assert (HroutesData : forall n, In n routes -> exists d, node_data n = RoutingNode d).
  { intros n Hn. specialize (Hroutes n Hn). unfold isKind in Hroutes.
    destruct (node_data n); try discriminate. eauto. }
  intros servers mode Hmode. eexists. split.
  - apply exportConfig_single; [assumption |].
    intros n Hn. destruct (sameKeys_member _ _ n Hkeys Hn) as (a & Ha & Hkey).
    destruct (inv_kinds uuidv4 s4 Hinv4 a Ha) as (Hserver & Hkind & _).
    unfold isKind, isOutboundNode, isKind in *.
    rewrite <- (nodeKey_data a n Hkey). split; [assumption |].
    destruct (node_data a); cbn in Hkind |- *; congruence.
  - rewrite Hedges, <- (buildSingleConfig_keys _ _ _ "config.json" Hkeys Hplain).
    unfold buildSingleConfig, buildRoutingRules. cbv beta iota zeta.
    unfold coreOf. cbn [config cfg_inbounds cfg_outbounds cfg_routing routing_rules
                        routing_balancers orEmpty].
    rewrite orEmpty_keepNonEmpty.
    fold (inboundsOf cfg). fold (outboundsOf cfg).
    fold (rulesOfDocument cfg). fold (balancersOf cfg).
    f_equal.
    + generalize (st_nodes s4) at 1. intros allNodes. rewrite Hnodes4.
      rewrite !flat_map_app, !map_app.
      rewrite (export_inbounds_core _ _ ins (inboundsOf cfg) Hplain Hins
                 (ready_inbounds cfg Hready)).
      rewrite !flat_map_nil; [now rewrite !app_nil_r | | |];
        intros n Hn; unfold buildInbound;
        first [destruct (HroutesData n Hn) as [d Hd]
              | destruct (HbalsData n Hn) as [d Hd]
              | destruct (HoutsData n Hn) as [d [Hd | Hd]]]; now rewrite Hd.
    + generalize (st_nodes s4) at 1. intros allNodes. rewrite Hnodes4.
      rewrite !flat_map_app, !map_app.
      rewrite (export_outbounds_core _ _ outs (outboundsOf cfg) Hplain Houts
                 (ready_outbounds cfg Hready)).
      rewrite !flat_map_nil; [now rewrite !app_nil_r | | |];
        intros n Hn; unfold buildOutbound;
        first [destruct (HroutesData n Hn) as [d Hd]
              | destruct (HbalsData n Hn) as [d Hd]
              | destruct (HinsData n Hn) as [d Hd]]; now rewrite Hd.
    + rewrite flat_map_filter_nil.
      * fold (rulesOf (st_nodes s4) (st_edges s4)). rewrite Hrules.
        rewrite (flat_map_nil (directRules _ _)).
        -- rewrite app_nil_r. unfold rulesOf. rewrite flat_map_nil; [reflexivity |].
           intros n Hn. rewrite Hnodes3 in Hn. unfold rulesOfRoutingNode.
           apply in_app_or in Hn. destruct Hn as [Hn | Hn];
             [apply in_app_or in Hn; destruct Hn as [Hn | Hn] |];
             [destruct (HinsData n Hn) as [d Hd]
             | destruct (HoutsData n Hn) as [d [Hd | Hd]]
             | destruct (HbalsData n Hn) as [d Hd]]; now rewrite Hd.
        -- intros n Hn. apply filter_In in Hn.
           apply (directRules_imported s4 n Hinv4 (proj1 Hn)).
      * intros n _ Hkind. unfold rulesOfRoutingNode.
        destruct (node_data n); try reflexivity; discriminate.
    + rewrite flat_map_filter_nil.
      * generalize (st_nodes s4) at 1. intros allNodes. rewrite Hnodes4.
        rewrite !flat_map_app, !map_app.
        rewrite (export_balancer_tags _ _ bals (balancersOf cfg) Hbals).
        rewrite !flat_map_nil;
          [cbn [map app]; rewrite ?app_nil_r; unfold balancersOf;
           now destruct (cfg_routing cfg) | | |];
          intros n Hn; unfold buildBalancer;
          first [destruct (HroutesData n Hn) as [d Hd]
                | destruct (HoutsData n Hn) as [d [Hd | Hd]]
                | destruct (HinsData n Hn) as [d Hd]]; now rewrite Hd.
      * intros n _ Hkind. unfold buildBalancer.
        destruct (node_data n); try reflexivity; discriminate.
Qed.

End ImportSteps.

(* ================================================================== *)
(** * The round-trip law *)
(* ================================================================== *)

Section RoundTrip.
Import Config ExportConfig ImportConfig.

Lemma unaryId_injective i j : unaryId i = unaryId j -> i = j.
Proof.
  revert j. induction i as [| i IH]; intros [| j] Heq; cbn in Heq;
    try discriminate; [reflexivity |].
  injection Heq as Heq. f_equal. now apply IH.
Qed.

Lemma unaryId_truthy i : Js.truthy (unaryId i) = true.
Proof. now destruct i. Qed.

(** C1. Take a graph ready for the round trip: every inbound, outbound
    and balancer has a non-empty tag, every inbound a non-zero port,
    every outbound a non-empty protocol and, when the protocol is
    terminal, no stream settings, no balancer shares its tag with an
    outbound, and every edge that leaves a routing node is a valid
    connection.  Then every document the export compiles for it (outside
    simple mode) is imported without a throw when routing nodes are asked
    for and identifiers never repeat, and the reconstructed graph
    exports, under any servers and any mode but simple, to one document
    whose inbounds, outbounds, routing rules and balancers have the core
    fields of the first document. *)
Theorem export_import_round_trip
    (uuidv4 : nat -> string) (graphNodes : list GraphNode)
    (graphEdges : list GraphEdge) (servers : list Server) (mode : option string)
    (options : ImportOptions) (exported : ExportResult) :
  (forall i j, uuidv4 i = uuidv4 j -> i = j) ->
  (forall i, Js.truthy (uuidv4 i) = true) ->
  optStr_eqb mode (Some "simple") = false ->
  roundTripReady graphNodes graphEdges = true ->
  createRoutingNodes options <> Some false ->
  In exported (exportConfig graphNodes graphEdges servers mode) ->
  exists imported,
    importXrayConfig uuidv4 (Some (config exported)) options = Returned imported /\
    forall servers' mode',
      optStr_eqb mode' (Some "simple") = false ->
      exists again,
        exportConfig (nodes imported) (edges imported) servers' mode' = [again] /\
        coreOf (config again) = coreOf (config exported).
Proof.
  intros Hinjective Htruthy Hmode Hready Hrouting Hexported.
  apply (import_then_export uuidv4 Hinjective Htruthy); [| exact Hrouting].
  exact (exportConfig_ready _ _ _ _ _ Hmode Hready Hexported).
Qed.

Lemma export_import_round_trip_witness :
  exists imported,
    importXrayConfig unaryId
      (Some (config (buildSingleConfig roundTripNodes roundTripEdges roundTripEdges
                       roundTripNodes "config.json")))
      defaultOptions = Returned imported /\
    forall servers' mode',
      optStr_eqb mode' (Some "simple") = false ->
      exists again,
        exportConfig (nodes imported) (edges imported) servers' mode' = [again] /\
        coreOf (config again) =
        coreOf (config (buildSingleConfig roundTripNodes roundTripEdges roundTripEdges
                          roundTripNodes "config.json")).
Proof.
  apply (export_import_round_trip unaryId roundTripNodes roundTripEdges [] None
           defaultOptions _ unaryId_injective unaryId_truthy).
  - reflexivity.
  - vm_compute. reflexivity.
  - discriminate.
  - left. reflexivity.
Defined.

(** The round trip of a graph whose inbound has no tag: the import makes
    a tag up, and the second export carries it. *)
Lemma round_trip_changes_empty_tag :
  exists exported imported again,
    exportConfig untaggedNodes [] [] None = [exported] /\
    importXrayConfig unaryId (Some (config exported)) defaultOptions =
      Returned imported /\
    exportConfig (nodes imported) (edges imported) [] None = [again] /\
    map (fun x => xin_tag x) (inboundsOf (config exported)) = [EmptyString] /\
    map (fun x => xin_tag x) (inboundsOf (config again)) = ["input-id"] /\
    coreOf (config again) <> coreOf (config exported).
Proof.
  eexists _, _, _.
  split; [reflexivity |]. split; [reflexivity |]. split; [reflexivity |].
  split; [reflexivity |]. split; [reflexivity |]. discriminate.
Qed.

End RoundTrip.

(* ================================================================== *)
(** * Results of the traffic simulator *)
(* ================================================================== *)

Section SimulationResults.
Import Simulation.

Variable regexpTest : string -> string -> option bool.

Lemma appendToLastDescription_ids p suffix :
  map step_nodeId (appendToLastDescription p suffix) = map step_nodeId p.
Proof.
  induction p as [| x [| y rest] IH]; [reflexivity | reflexivity |].
  change (appendToLastDescription (x :: y :: rest) suffix)
    with (x :: appendToLastDescription (y :: rest) suffix).
  cbn [map]. now rewrite IH.
Qed.

Lemma follow_state nodes s p ids e d s' :
  follow nodes s p ids e d = Continue s' \/ follow nodes s p ids e d = LeaveLoop s' ->
  visited s' = node_id (currentNode s) :: visited s /\
  st_path s' = p /\ st_nodeIds s' = ids /\
  st_edgeIds s' = (st_edgeIds s ++ [edge_id e])%list.
Proof.
  unfold follow. destruct (getNodeById (edge_target e) nodes);
    intros [H | H]; try discriminate; injection H as <-; cbn; auto.
Qed.

Lemma visit_ids nodes s :
  traceInvariant nodes s ->
  Js.memStr (node_id (currentNode s)) (visited s) = false ->
  NoDup (st_nodeIds s ++ [node_id (currentNode s)]) /\
  incl (st_nodeIds s ++ [node_id (currentNode s)]) (map node_id nodes) /\
  (st_nodeIds s ++ [node_id (currentNode s)])%list =
  rev (node_id (currentNode s) :: visited s).
Proof.
  intros ((Hcur & Hnd & Hincl) & Hids & _) Hfresh.
  assert (Heq : (st_nodeIds s ++ [node_id (currentNode s)])%list =
                rev (node_id (currentNode s) :: visited s))
    by (cbn [rev]; now rewrite Hids).
  rewrite Heq. repeat split.
  - apply NoDup_rev. constructor; [now apply memStr_not_In | assumption].
  - intros x Hx. apply in_rev in Hx. destruct Hx as [<- | Hx];
      [now apply in_map | now apply Hincl].
Qed.

(** Following an edge keeps the invariant when the target exists, and
    leaves the loop with the ids in order when it does not. *)
Lemma follow_outcome nodes s p e d :
  traceInvariant nodes s ->
  Js.memStr (node_id (currentNode s)) (visited s) = false ->
  map step_nodeId p = (st_nodeIds s ++ [node_id (currentNode s)])%list ->
  match follow nodes s p (st_nodeIds s ++ [node_id (currentNode s)]) e d with
  | Continue s' => traceInvariant nodes s'
  | LeaveLoop s' =>
      NoDup (st_nodeIds s') /\ incl (st_nodeIds s') (map node_id nodes)
  | _ => False
  end.
Proof.
  intros Hinv Hfresh Hpath.
  destruct (visit_ids nodes s Hinv Hfresh) as (Hnd & Hincl & Hrev).
  destruct Hinv as ((Hcur & Hvnd & Hvincl) & Hids & Hlen & _).
  unfold follow. destruct (getNodeById (edge_target e) nodes) as [n |] eqn:Hget.
  - apply getNodeById_In in Hget. destruct Hget as [Hn _].
    unfold traceInvariant, loopInvariant. cbn.
    repeat split; try assumption.
    + constructor; [now apply memStr_not_In | assumption].
    + intros x [<- | Hx]; [now apply in_map | now apply Hvincl].
    + rewrite !length_app, Hlen. reflexivity.
  - cbn. split; assumption.
Qed.

Lemma endsAtOutbound_snoc p last tag :
  step_tag last = tag -> isOutboundType (step_nodeType last) = true ->
  endsAtOutbound (p ++ [last]) tag.
Proof. intros Htag Hkind. exists p, last. auto. Qed.

(** One turn of the loop: it keeps the invariant when the loop goes on,
    and returns a result of the right shape when it ends. *)
Lemma turn_outcome random input nodes edges s :
  traceInvariant nodes s ->
  match turn regexpTest random input nodes edges s with
  | Return r => resultShape nodes r
  | Continue s' => traceInvariant nodes s'
  | LeaveLoop s' =>
      NoDup (st_nodeIds s') /\ incl (st_nodeIds s') (map node_id nodes)
  | Throw _ => True
  end.
Proof.
  intros Hinv. unfold turn.
  destruct (Js.memStr (node_id (currentNode s)) (visited s)) eqn:Hfresh.
  - destruct Hinv as ((_ & Hnd & Hincl) & Hids & _).
    unfold resultShape, failure. cbn. rewrite Hids. repeat split.
    + now apply NoDup_rev.
    + intros x Hx. apply in_rev in Hx. now apply Hincl.
    + discriminate.
  - destruct (visit_ids nodes s Hinv Hfresh) as (Hnd & Hincl & _).
    assert (Hpath : forall d,
               map step_nodeId
                 (st_path s ++
                  [mkStep (node_id (currentNode s)) (stepTag (currentNode s))
                     (nodeType (node_data (currentNode s))) d]) =
               (st_nodeIds s ++ [node_id (currentNode s)])%list).
    { intros d. rewrite map_app. cbn.
      now destruct Hinv as (_ & _ & _ & ->). }
    assert (Hlen : List.length (st_edgeIds s) + 1 =
                   List.length (st_nodeIds s ++ [node_id (currentNode s)])).
    { rewrite length_app. cbn. now destruct Hinv as (_ & _ & -> & _). }
    assert (Hfail : forall p why,
               resultShape nodes
                 (failure p (st_nodeIds s ++ [node_id (currentNode s)])
                    (st_edgeIds s) why)).
    { intros p why. unfold resultShape, failure. cbn.
      repeat split; try assumption. discriminate. }
    assert (Hfollow : forall p e d,
               map step_nodeId p = (st_nodeIds s ++ [node_id (currentNode s)])%list ->
               match follow nodes s p (st_nodeIds s ++ [node_id (currentNode s)]) e d with
               | Return r => resultShape nodes r
               | Continue s' => traceInvariant nodes s'
               | LeaveLoop s' =>
                   NoDup (st_nodeIds s') /\ incl (st_nodeIds s') (map node_id nodes)
               | Throw _ => True
               end).
    { intros p e d Hp. pose proof (follow_outcome nodes s p e d Hinv Hfresh Hp) as H.
      destruct (follow _ _ _ _ _ _); [contradiction | exact H | exact H | exact I]. }
    assert (Hstop : forall d tag text,
               node_data (currentNode s) = d ->
               dataTag d = Some tag -> isOutboundType (nodeType d) = true ->
               resultShape nodes
                 (mkResult true
                    (st_path s ++
                     [mkStep (node_id (currentNode s)) (stepTag (currentNode s))
                        (nodeType d) (describeNode (currentNode s))])
                    (st_nodeIds s ++ [node_id (currentNode s)])
                    (st_edgeIds s) (Some tag) text)).
    { intros d tag text Hd Htag Hkind. unfold resultShape. cbn.
      repeat split; try assumption; [| discriminate].
      intros _. exists tag. repeat split; try assumption.
      - apply endsAtOutbound_snoc; [| exact Hkind].
        cbn. unfold stepTag. now rewrite Hd, Htag.
      - rewrite <- Hd. apply Hpath. }
    destruct (node_data (currentNode s)) as
        [dev | inb | rt | bal | term | proxy | ss | si | sb | sr rules] eqn:Hdata.
    + (* device *)
      destruct (getOutgoingEdges _ edges); [apply Hfail |].
      cbn. split; assumption.
    + (* inbound *)
      destruct (getOutgoingEdges _ edges) as [| first rest] eqn:Hout; [apply Hfail |].
      destruct (scanInbound _ _ _ _ _) as [nextEdge |]; [| apply Hfail].
      apply Hfollow, Hpath.
    + (* routing *)
      destruct (getOutgoingEdges _ edges) as [| first rest]; [apply Hfail |].
      apply Hfollow, Hpath.
    + (* balancer *)
      destruct (getOutgoingEdges _ edges) as [| first rest] eqn:Hout; [apply Hfail |].
      destruct (validTargets _ _ _) as [[| firstValid moreValid] | err];
        [apply Hfollow, Hpath | | exact I].
      match goal with
      | |- context [match ?picked with Some _ => _ | None => _ end] =>
          destruct picked as [selectedEdge |]
      end; [| exact I].
      apply Hfollow.
      destruct (getNodeById (edge_target selectedEdge) nodes);
        [rewrite appendToLastDescription_ids |]; apply Hpath.
    + (* terminal outbound *)
      now apply (Hstop (OutboundTerminalNode term)).
    + (* proxy outbound *)
      destruct (getOutgoingEdges _ edges) as [| nextEdge rest];
        [now apply (Hstop (OutboundProxyNode proxy)) |].
      destruct (getNodeById (edge_target nextEdge) nodes) as [nextNode |];
        [| now apply (Hstop (OutboundProxyNode proxy))].
      destruct (node_data nextNode);
        try (now apply (Hstop (OutboundProxyNode proxy))).
      apply Hfollow, Hpath.
    + destruct (getOutgoingEdges _ edges); [apply Hfail |]. cbn. split; assumption.
    + destruct (getOutgoingEdges _ edges); [apply Hfail |]. cbn. split; assumption.
    + destruct (getOutgoingEdges _ edges); [apply Hfail |]. cbn. split; assumption.
    + destruct (getOutgoingEdges _ edges); [apply Hfail |]. cbn. split; assumption.
Qed.

Lemma trace_shape random input nodes edges fuel :
  forall s r,
    traceInvariant nodes s ->
    trace regexpTest fuel random input nodes edges s = Some (Returned r) ->
    resultShape nodes r.
Proof.
  induction fuel as [| fuel IH]; intros s r Hinv; cbn [trace]; [discriminate |].
  pose proof (turn_outcome random input nodes edges s Hinv) as Hturn.
  destruct (turn regexpTest random input nodes edges s) as [r' | s' | s' | err].
  - intros H. injection H as <-. exact Hturn.
  - now apply IH.
  - intros H. injection H as <-. destruct Hturn as [Hnd Hincl].
    unfold resultShape, failure. cbn. repeat split; try assumption. discriminate.
  - discriminate.
Qed.

Lemma runSimulation_shape random input nodes edges r :
  runSimulation regexpTest random input nodes edges = Some (Returned r) ->
  resultShape nodes r.
Proof.
  unfold runSimulation.
  destruct (find _ nodes) as [startNode |] eqn:Hfind.
  - apply trace_shape. apply find_some in Hfind.
    unfold traceInvariant, loopInvariant. cbn. repeat split.
    + tauto.
    + constructor.
    + intros x [].
  - intros H. injection H as <-. unfold resultShape. cbn.
    repeat split; [constructor | intros x [] | discriminate].
Qed.

(** X1. A run that succeeds ends at an outbound node: [finalOutbound] is the
    tag of the last step of the path, that step is at a terminal or a
    proxy outbound, the path lists the highlighted nodes in order, and
    one edge fewer than nodes is highlighted.  A run that fails has no
    final outbound. *)
Theorem runSimulation_success_ends_at_outbound
    (random : nat -> Draw) (input : SimulationInput)
    (nodes : list GraphNode) (edges : list GraphEdge) (r : SimulationResult) :
  runSimulation regexpTest random input nodes edges = Some (Returned r) ->
  (success r = true ->
   exists tag,
     finalOutbound r = Some tag /\
     endsAtOutbound (path r) tag /\
     map step_nodeId (path r) = highlightNodeIds r /\
     List.length (highlightEdgeIds r) + 1 = List.length (highlightNodeIds r)) /\
  (success r = false -> finalOutbound r = None).
Proof.
  intros Hrun. apply runSimulation_shape in Hrun.
  destruct Hrun as (_ & _ & Hsuccess & Hfailure). auto.
Qed.

(** X2. No node is highlighted twice, and every highlighted id is the id of
    a node of the graph: a run visits at most as many nodes as there
    are. *)
Theorem runSimulation_highlights_distinct_nodes
    (random : nat -> Draw) (input : SimulationInput)
    (nodes : list GraphNode) (edges : list GraphEdge) (r : SimulationResult) :
  runSimulation regexpTest random input nodes edges = Some (Returned r) ->
  NoDup (highlightNodeIds r) /\
  incl (highlightNodeIds r) (map node_id nodes) /\
  List.length (highlightNodeIds r) <= List.length nodes.
Proof.
  intros Hrun. apply runSimulation_shape in Hrun.
  destruct Hrun as (Hnd & Hincl & _). repeat split; try assumption.
  rewrite <- (length_map node_id nodes). now apply NoDup_incl_length.
Qed.

End SimulationResults.

Lemma runSimulation_success_ends_at_outbound_witness :
  (Simulation.success balancerRunResult = true ->
   exists tag,
     Simulation.finalOutbound balancerRunResult = Some tag /\
     endsAtOutbound (Simulation.path balancerRunResult) tag /\
     map Simulation.step_nodeId (Simulation.path balancerRunResult) =
       Simulation.highlightNodeIds balancerRunResult /\
     List.length (Simulation.highlightEdgeIds balancerRunResult) + 1 =
       List.length (Simulation.highlightNodeIds balancerRunResult)) /\
  (Simulation.success balancerRunResult = false ->
   Simulation.finalOutbound balancerRunResult = None).
Proof.
  apply (runSimulation_success_ends_at_outbound noRegExp drawZero scenarioInput
           randomBalancerNodes randomBalancerEdges balancerRunResult).
  vm_compute. reflexivity.
Defined.

Lemma runSimulation_highlights_distinct_nodes_witness :
  NoDup (Simulation.highlightNodeIds balancerRunResult) /\
  incl (Simulation.highlightNodeIds balancerRunResult)
    (map node_id randomBalancerNodes) /\
  List.length (Simulation.highlightNodeIds balancerRunResult) <=
  List.length randomBalancerNodes.
Proof.
  apply (runSimulation_highlights_distinct_nodes noRegExp drawZero scenarioInput
           randomBalancerNodes randomBalancerEdges balancerRunResult).
  vm_compute. reflexivity.
Defined.

(* ================================================================== *)
(** * Rule matching of the simulator *)
(* ================================================================== *)

Section StringFacts.

Lemma substring_all s : String.substring 0 (String.length s) s = s.
Proof. induction s as [| c s IH]; cbn; [reflexivity | now rewrite IH]. Qed.

Lemma length_append a b :
  String.length (a ++ b) = String.length a + String.length b.
Proof. induction a as [| c a IH]; cbn; [reflexivity | now rewrite IH]. Qed.

Lemma substring_skip a b n :
  String.substring (String.length a) n (a ++ b) = String.substring 0 n b.
Proof. induction a as [| c a IH]; cbn; [reflexivity | exact IH]. Qed.

Lemma slice_append a b : Js.slice (String.length a) (a ++ b) = b.
Proof.
  unfold Js.slice. rewrite substring_skip, length_append.
  replace (String.length a + String.length b - String.length a)
    with (String.length b) by lia.
  apply substring_all.
Qed.

Lemma substring_split s :
  forall n, n <= String.length s ->
            s = String.substring 0 n s ++ String.substring n (String.length s - n) s.
Proof.
  induction s as [| c s IH]; intros [| n] Hn; cbn in *; try reflexivity; try lia.
  - now rewrite substring_all.
  - f_equal. apply IH. lia.
Qed.

(** [s.endsWith(suf)] holds exactly when [s] is some text followed by
    [suf]. *)
Lemma endsWith_spec s suf :
  Js.endsWith s suf = true <-> exists x, s = x ++ suf.
Proof.
  unfold Js.endsWith. split.
  - intros H. apply andb_prop in H. destruct H as [Hlen Heq].
    apply Nat.leb_le in Hlen. apply String.eqb_eq in Heq.
    exists (String.substring 0 (String.length s - String.length suf) s).
    pose proof (substring_split s (String.length s - String.length suf)) as Hsplit.
    unfold Js.slice in Heq. rewrite Heq in Hsplit. apply Hsplit. lia.
  - intros [x ->]. rewrite length_append.
    replace (String.length x + String.length suf - String.length suf)
      with (String.length x) by lia.
    rewrite slice_append, String.eqb_refl, andb_true_r.
    apply Nat.leb_le. lia.
Qed.

Lemma startsWith_append p s : Js.startsWith (p ++ s) p = true.
Proof.
  unfold Js.startsWith. induction p as [| c p IH]; cbn.
  - now destruct s.
  - destruct (ascii_dec c c); [exact IH | contradiction].
Qed.

Lemma mapString_append f a b :
  Js.mapString f (a ++ b) = Js.mapString f a ++ Js.mapString f b.
Proof. induction a as [| c a IH]; cbn; [reflexivity | now rewrite IH]. Qed.

End StringFacts.

Section RuleMatching.
Import Simulation.

Variable regexpTest : string -> string -> option bool.

Lemma suffixMatch_spec lower target :
  suffixMatch lower target = true <->
  lower = target \/ exists x, lower = x ++ "." ++ target.
Proof.
  unfold suffixMatch. rewrite orb_true_iff, String.eqb_eq, endsWith_spec. tauto.
Qed.

(** X3. A [domain:] rule matches the domain it names and every subdomain of
    it, whatever the case of the letters, and nothing else; a [full:]
    rule matches the domain it names only. *)
Theorem matchDomainRule_domain_and_full (d domain : string) :
  (matchDomainRule regexpTest ("domain:" ++ d) domain = true <->
   Js.toLowerCase domain = Js.toLowerCase d \/
   exists x, Js.toLowerCase domain = x ++ "." ++ Js.toLowerCase d) /\
  (matchDomainRule regexpTest ("full:" ++ d) domain = true <->
   Js.toLowerCase domain = Js.toLowerCase d).
Proof.
  split.
  - unfold matchDomainRule.
    change (Js.startsWith ("domain:" ++ d) "regexp:") with false.
    rewrite startsWith_append.
    change (Js.slice 7 ("domain:" ++ d))
      with (Js.slice (String.length "domain:") ("domain:" ++ d)).
    rewrite slice_append. apply suffixMatch_spec.
  - unfold matchDomainRule.
    change (Js.startsWith ("full:" ++ d) "regexp:") with false.
    change (Js.startsWith ("full:" ++ d) "domain:") with false.
    rewrite startsWith_append.
    change (Js.slice 5 ("full:" ++ d))
      with (Js.slice (String.length "full:") ("full:" ++ d)).
    rewrite slice_append. apply String.eqb_eq.
Qed.

(** X4. IP rules never match in the simulator: a routing node that has them
    lets a request through only when it has domain rules as well, and
    then exactly as if the IP rules were not there. *)
Theorem doesRoutingMatch_ip_rules
    (r : RoutingData) (input : SimulationInput) (sourceInboundTag : string) :
  Js.nonEmptyOpt (rt_ip r) = true ->
  doesRoutingMatch regexpTest r input sourceInboundTag = true ->
  Js.nonEmptyOpt (rt_domain r) = true /\
  doesRoutingMatch regexpTest (withoutIpRules r) input sourceInboundTag = true.
Proof.
  unfold doesRoutingMatch, withoutIpRules. cbn [rt_ip rt_domain rt_port rt_protocol
    rt_network rt_inboundTag Js.nonEmptyOpt].
  intros Hip. rewrite Hip.
  destruct (Js.truthyOpt (rt_inboundTag r) && _); [discriminate |].
  assert (Hnone : someOpt (fun rule => matchIpRule rule (si_domain input)) (rt_ip r)
                  = false).
  { clear Hip. destruct (rt_ip r) as [rules |]; [| reflexivity]. cbn.
    induction rules as [| rule rules IH]; [reflexivity | exact IH]. }
  rewrite Hnone.
  destruct (Js.nonEmptyOpt (rt_domain r)); cbn.
  - intros H. split; [reflexivity |].
    rewrite !andb_true_r in *. exact H.
  - discriminate.
Qed.

End RuleMatching.

Lemma doesRoutingMatch_ip_rules_witness :
  Js.nonEmptyOpt (rt_domain domainAndIpRouting) = true /\
  Simulation.doesRoutingMatch noRegExp (withoutIpRules domainAndIpRouting)
    scenarioInput "in1" = true.
Proof.
  apply (doesRoutingMatch_ip_rules noRegExp domainAndIpRouting scenarioInput "in1");
    reflexivity.
Defined.

Section PortRules.
Import Simulation.

Lemma allChars_append p a b :
  Js.allChars p (a ++ b) = Js.allChars p a && Js.allChars p b.
Proof. induction a as [| c a IH]; cbn; [reflexivity | now rewrite IH, andb_assoc]. Qed.

Lemma allChars_weaken (p q : ascii -> bool) s :
  (forall c, p c = true -> q c = true) ->
  Js.allChars p s = true -> Js.allChars q s = true.
Proof.
  intros Hpq. induction s as [| c s IH]; cbn; [reflexivity |].
  intros H. apply andb_prop in H. destruct H as [Hc Hs].
  now rewrite (Hpq c Hc), IH.
Qed.

Lemma digit_not_below c sep :
  Js.isDigit c = true -> nat_of_ascii sep < 48 -> Ascii.eqb c sep = false.
Proof.
  intros Hc Hsep. apply Ascii.eqb_neq. intros ->.
  unfold Js.isDigit in Hc. apply andb_prop in Hc. destruct Hc as [Hlow _].
  apply Nat.leb_le in Hlow. lia.
Qed.

Lemma digits_without sep a :
  nat_of_ascii sep < 48 -> Js.allChars Js.isDigit a = true ->
  Js.allChars (fun c => negb (Ascii.eqb c sep)) a = true.
Proof.
  intros Hsep. apply allChars_weaken. intros c Hc.
  now rewrite (digit_not_below c sep Hc Hsep).
Qed.

Lemma digit_not_space c : Js.isDigit c = true -> Js.isSpace c = false.
Proof.
  unfold Js.isDigit, Js.isSpace. intros Hc. apply andb_prop in Hc.
  destruct Hc as [Hlow _]. apply Nat.leb_le in Hlow.
  apply orb_false_iff. split.
  - apply andb_false_iff. right. apply Nat.leb_gt. lia.
  - apply Nat.eqb_neq. lia.
Qed.

(** ** [split] *)

Lemma append_assoc a b c : (a ++ b) ++ c = a ++ b ++ c.
Proof. induction a as [| x a IH]; cbn; [reflexivity | now rewrite IH]. Qed.

Lemma append_empty a : a ++ EmptyString = a.
Proof. induction a as [| x a IH]; cbn; [reflexivity | now rewrite IH]. Qed.

Lemma splitAux_plain sep s :
  Js.allChars (fun c => negb (Ascii.eqb c sep)) s = true ->
  forall cur, Js.splitAux sep s cur = [cur ++ s].
Proof.
  induction s as [| c s IH]; cbn; intros H cur.
  - now rewrite append_empty.
  - apply andb_prop in H. destruct H as [Hc Hs].
    apply negb_true_iff in Hc. rewrite Hc, IH by assumption.
    now rewrite append_assoc.
Qed.

Lemma splitAux_first sep a b :
  Js.allChars (fun c => negb (Ascii.eqb c sep)) a = true ->
  forall cur,
    Js.splitAux sep (a ++ String sep b) cur =
    (cur ++ a) :: Js.splitAux sep b EmptyString.
Proof.
  induction a as [| c a IH]; cbn; intros H cur.
  - now rewrite Ascii.eqb_refl, append_empty.
  - apply andb_prop in H. destruct H as [Hc Ha].
    apply negb_true_iff in Hc. rewrite Hc, IH by assumption.
    now rewrite append_assoc.
Qed.

(** ** [trim] *)

Lemma trimEnd_plain s :
  Js.allChars (fun c => negb (Js.isSpace c)) s = true -> Js.trimEnd s = s.
Proof.
  induction s as [| c s IH]; cbn; [reflexivity |].
  intros H. apply andb_prop in H. destruct H as [Hc Hs].
  apply negb_true_iff in Hc. rewrite IH, Hc by assumption. now destruct s.
Qed.

Lemma trim_plain s :
  Js.allChars (fun c => negb (Js.isSpace c)) s = true -> Js.trim s = s.
Proof.
  intros H. unfold Js.trim.
  assert (Hstart : Js.trimStart s = s).
  { destruct s as [| c s]; [reflexivity |]. cbn in *.
    apply andb_prop in H. destruct H as [Hc _].
    apply negb_true_iff in Hc. now rewrite Hc. }
  rewrite Hstart. now apply trimEnd_plain.
Qed.

(** ** One item of a port rule *)

Lemma toNumber_digits a :
  Js.allChars Js.isDigit a = true -> toNumber a = Some (Js.digitsValue 0 a).
Proof.
  intros Ha. unfold toNumber. rewrite trim_plain, Ha; [reflexivity |].
  eapply allChars_weaken; [| exact Ha].
  intros c Hc. now rewrite digit_not_space.
Qed.

Lemma includes_digits a :
  Js.allChars Js.isDigit a = true -> Js.includes a "-" = false.
Proof.
  induction a as [| c a IH]; [reflexivity |]. cbn [Js.allChars].
  intros H. apply andb_prop in H. destruct H as [Hc Ha].
  cbn [Js.includes]. rewrite (IH Ha), orb_false_r. cbn -[ascii_dec].
  destruct (ascii_dec "-" c) as [<- | _]; [discriminate | reflexivity].
Qed.

Lemma includes_dash a b : Js.includes (a ++ "-" ++ b) "-" = true.
Proof.
  induction a as [| c a IH].
  - cbn -[ascii_dec]. destruct (ascii_dec "-" "-"); [| contradiction].
    now destruct b.
  - change (Js.includes (String c a ++ "-" ++ b) "-")
      with (String.prefix "-" (String c (a ++ "-" ++ b))
            || Js.includes (a ++ "-" ++ b) "-").
    rewrite IH. apply orb_true_r.
Qed.

Lemma range_plain (p : ascii -> bool) a b :
  (forall c, Js.isDigit c = true -> p c = true) -> p "-"%char = true ->
  Js.allChars Js.isDigit a = true -> Js.allChars Js.isDigit b = true ->
  Js.allChars p (a ++ "-" ++ b) = true.
Proof.
  intros Hdigit Hdash Ha Hb. rewrite allChars_append. cbn [append Js.allChars].
  rewrite Hdash, (allChars_weaken Js.isDigit p a Hdigit Ha),
    (allChars_weaken Js.isDigit p b Hdigit Hb).
  reflexivity.
Qed.

Lemma matchPortPart_number a port :
  Js.allChars Js.isDigit a = true ->
  matchPortPart a port = (Js.digitsValue 0 a =? port)%Z.
Proof.
  intros Ha. unfold matchPortPart.
  rewrite trim_plain
    by (eapply allChars_weaken; [| exact Ha]; intros c Hc; now rewrite digit_not_space).
  now rewrite includes_digits, toNumber_digits.
Qed.

Lemma matchPortPart_range a b port :
  Js.allChars Js.isDigit a = true -> Js.allChars Js.isDigit b = true ->
  matchPortPart (a ++ "-" ++ b) port =
  ((Js.digitsValue 0 a <=? port) && (port <=? Js.digitsValue 0 b))%Z.
Proof.
  intros Ha Hb. unfold matchPortPart.
  rewrite trim_plain
    by (apply range_plain; try assumption; [| reflexivity];
        intros c Hc; now rewrite digit_not_space).
  rewrite includes_dash. unfold Js.split.
  change (a ++ "-" ++ b) with (a ++ String "-"%char b).
  rewrite splitAux_first by (apply digits_without; [cbn; lia | exact Ha]).
  rewrite splitAux_plain by (apply digits_without; [cbn; lia | exact Hb]).
  cbn [append map]. now rewrite !toNumber_digits.
Qed.

Lemma split_comma_first x rest :
  Js.allChars (fun c => negb (Ascii.eqb c ","%char)) x = true ->
  Js.split "," (x ++ "," ++ rest) = x :: Js.split "," rest.
Proof.
  intros Hx. unfold Js.split.
  change (x ++ "," ++ rest) with (x ++ String ","%char rest).
  now rewrite splitAux_first.
Qed.

Lemma split_comma_plain x :
  Js.allChars (fun c => negb (Ascii.eqb c ","%char)) x = true ->
  Js.split "," x = [x].
Proof. intros Hx. unfold Js.split. now rewrite splitAux_plain. Qed.

Lemma digits_no_comma a :
  Js.allChars Js.isDigit a = true ->
  Js.allChars (fun c => negb (Ascii.eqb c ","%char)) a = true.
Proof. apply digits_without. cbn. lia. Qed.

(** What [matchPortRule] does with the first item of a rule. *)
Lemma matchPortRule_steps (a b rest : string) (port : Z) :
  Js.allChars Js.isDigit a = true -> Js.allChars Js.isDigit b = true ->
  matchPortRule a port = (Js.digitsValue 0 a =? port)%Z /\
  matchPortRule (a ++ "-" ++ b) port =
    ((Js.digitsValue 0 a <=? port) && (port <=? Js.digitsValue 0 b))%Z /\
  matchPortRule (a ++ "," ++ rest) port =
    ((Js.digitsValue 0 a =? port)%Z || matchPortRule rest port) /\
  matchPortRule ((a ++ "-" ++ b) ++ "," ++ rest) port =
    (((Js.digitsValue 0 a <=? port) && (port <=? Js.digitsValue 0 b))%Z
     || matchPortRule rest port).
Proof.
  intros Ha Hb.
  assert (Hrange : Js.allChars (fun c => negb (Ascii.eqb c ","%char)) (a ++ "-" ++ b)
                   = true).
  { apply range_plain; try assumption; [| reflexivity].
    intros c Hc. rewrite (digit_not_below c ","%char Hc); [reflexivity | cbn; lia]. }
  unfold matchPortRule. repeat split.
  - rewrite split_comma_plain by now apply digits_no_comma.
    cbn [existsb]. now rewrite orb_false_r, matchPortPart_number.
  - rewrite split_comma_plain by assumption.
    cbn [existsb]. now rewrite orb_false_r, matchPortPart_range.
  - rewrite split_comma_first by now apply digits_no_comma.
    cbn [existsb]. now rewrite matchPortPart_number.
  - rewrite split_comma_first by assumption.
    cbn [existsb]. now rewrite matchPortPart_range.
Qed.

Lemma matchPortRule_first (first : PortItem) (rest : string) (port : Z) :
  exactItem first = true ->
  matchPortRule (showItem first) port = itemMatches port first /\
  matchPortRule (showItem first ++ "," ++ rest) port =
    (itemMatches port first || matchPortRule rest port).
Proof.
  unfold exactItem, exactDigits. destruct first as [a | a b]; intros Hok.
  - apply andb_true_iff in Hok. destruct Hok as [Ha _].
    destruct (matchPortRule_steps a a rest port Ha Ha) as (H1 & _ & H3 & _).
    now split.
  - apply andb_true_iff in Hok. destruct Hok as [Ha Hb].
    apply andb_true_iff in Ha. apply andb_true_iff in Hb.
    destruct (matchPortRule_steps a b rest port (proj1 Ha) (proj1 Hb))
      as (_ & H2 & _ & H4).
    now split.
Qed.

(** X5. The grammar of a port rule, for ports and rule numbers that
    JavaScript numbers hold exactly (up to 2^53): a rule of items
    separated by commas matches a port exactly when one of its items
    does, a number matching the port it writes and a range [lo-hi] the
    ports from [lo] to [hi]. *)
Theorem matchPortRule_grammar (first : PortItem) (rest : list PortItem) (port : Z) :
  forallb exactItem (first :: rest) = true ->
  (Z.abs port <=? 2 ^ 53)%Z = true ->
  matchPortRule (showItems first rest) port =
  existsb (itemMatches port) (first :: rest).
Proof.
  intros Hitems _. revert first Hitems.
  induction rest as [| next more IH]; intros first Hitems;
    cbn [forallb] in Hitems; apply andb_true_iff in Hitems;
    destruct Hitems as [Hfirst Hrest].
  - cbn [showItems existsb]. rewrite orb_false_r.
    exact (proj1 (matchPortRule_first first EmptyString port Hfirst)).
  - cbn [showItems]. change (existsb (itemMatches port) (first :: next :: more))
      with (itemMatches port first || existsb (itemMatches port) (next :: more)).
    destruct (matchPortRule_first first (showItems next more) port Hfirst) as [_ ->].
    now rewrite (IH next Hrest).
Qed.

Lemma matchPortRule_grammar_witness :
  matchPortRule "22,80-443,8080" 443 =
  existsb (itemMatches 443)
    [SinglePort "22"; PortRange "80" "443"; SinglePort "8080"].
Proof.
  exact (matchPortRule_grammar (SinglePort "22")
           [PortRange "80" "443"; SinglePort "8080"] 443 eq_refl eq_refl).
Defined.

End PortRules.

(* ================================================================== *)
(** * The issues of the validator *)
(* ================================================================== *)

Section IssueShape.
Import Validation.

(** A property that every error and every warning built for a node
    has. *)
Variable p : ValidationIssue -> bool.
Hypothesis p_error : forall id msg, p (issueError id msg) = true.
Hypothesis p_warning : forall id msg, p (issueWarning id msg) = true.

Lemma allIssues_app l1 l2 :
  allIssues p l1 -> allIssues p l2 -> allIssues p (l1 ++ l2).
Proof. unfold allIssues. intros H1 H2. now rewrite forallb_app, H1, H2. Qed.

Lemma allIssues_flat_map {A : Type} (f : A -> list ValidationIssue) (l : list A) :
  (forall x, allIssues p (f x)) -> allIssues p (flat_map f l).
Proof.
  intros Hf. induction l as [| a l IH]; [reflexivity |].
  cbn [flat_map]. now apply allIssues_app.
Qed.

Lemma allIssues_error id msg : allIssues p [issueError id msg].
Proof. unfold allIssues. cbn. now rewrite p_error. Qed.

Lemma allIssues_warning id msg : allIssues p [issueWarning id msg].
Proof. unfold allIssues. cbn. now rewrite p_warning. Qed.

Lemma allIssues_two_errors id1 msg1 id2 msg2 :
  allIssues p [issueError id1 msg1; issueError id2 msg2].
Proof. unfold allIssues. cbn. now rewrite !p_error. Qed.

Ltac all_issues :=
  repeat first
    [ reflexivity
    | apply allIssues_error
    | apply allIssues_warning
    | apply allIssues_two_errors
    | apply allIssues_app
    | match goal with
      | |- allIssues _ (match ?x with _ => _ end) => destruct x
      | |- allIssues _ (if ?x then _ else _) => destruct x
      end ].

Lemma validateUsers_all id protocol users :
  forall i, allIssues p (validateUsers id protocol i users).
Proof.
  induction users as [| u users IH]; intros i; [reflexivity |].
  cbn [validateUsers]. apply allIssues_app; [| apply IH].
  unfold validateUser. all_issues.
Qed.

Lemma validateSimpleRuleList_all id rules :
  forall i, allIssues p (validateSimpleRuleList id i rules).
Proof.
  induction rules as [| r rules IH]; intros i; [reflexivity |].
  cbn [validateSimpleRuleList]. apply allIssues_app; [| apply IH].
  all_issues.
Qed.

Lemma validateNode_all n : allIssues p (validateNode n).
Proof.
  unfold validateNode. destruct (node_data n); try reflexivity.
  - unfold validateInbound. all_issues; apply validateUsers_all.
  - unfold validateRouting. all_issues.
  - unfold validateBalancer. all_issues.
  - unfold validateOutbound. all_issues.
  - unfold validateOutbound. all_issues.
  - unfold validateSimpleServer. all_issues.
  - unfold validateSimpleRules. destruct rules; [all_issues |].
    apply validateSimpleRuleList_all.
Qed.

Lemma validateTransport_all id t : allIssues p (validateTransport id t).
Proof. unfold validateTransport. all_issues. Qed.

Lemma validateEdges_all nodes edges : allIssues p (validateEdges nodes edges).
Proof.
  unfold validateEdges. apply allIssues_flat_map. intros e.
  destruct (optStr_eqb _ _); [reflexivity |].
  destruct (edgeTransport e); [apply validateTransport_all | reflexivity].
Qed.

Lemma sharedEntries_all describe m : allIssues p (sharedEntries describe m).
Proof.
  unfold sharedEntries. apply allIssues_flat_map.
  intros [key ids]. destruct (1 <? List.length ids)%nat; [| reflexivity].
  induction ids as [| id ids IH]; [reflexivity |].
  unfold allIssues in *. cbn [map forallb]. now rewrite p_error, IH.
Qed.

Lemma warnUnless_all ok msg ns : allIssues p (warnUnless ok msg ns).
Proof.
  unfold warnUnless. apply allIssues_flat_map. intros n. all_issues.
Qed.

Lemma deviceIssues_all nodes edges dev : allIssues p (deviceIssues nodes edges dev).
Proof.
  unfold deviceIssues. destruct (node_data dev); try reflexivity.
  apply allIssues_flat_map. intros e. all_issues.
Qed.

Lemma reachabilityIssues_all inbounds edges terminalIds issues :
  reachabilityIssues inbounds edges terminalIds = Some issues ->
  allIssues p issues.
Proof.
  revert issues. induction inbounds as [| n rest IH]; intros issues;
    cbn [reachabilityIssues].
  - intros H. injection H as <-. reflexivity.
  - destruct (canReachOutbound _ _ _ _ _) as [[reached visited'] |]; [| discriminate].
    destruct (reachabilityIssues rest edges terminalIds) as [more |]; [| discriminate].
    intros H. injection H as <-.
    apply allIssues_app; [| now apply IH]. all_issues.
Qed.

Lemma validateConfig_all nodes edges : allIssues p (validateConfig nodes edges).
Proof.
  unfold validateConfig, danglingInboundTags, selectorIssues.
  apply allIssues_app; apply allIssues_flat_map; intros n.
  - all_issues.
  - destruct (node_data n); try reflexivity.
    apply allIssues_flat_map. intros sel. all_issues.
Qed.

Lemma eachNeighbor_all search id neighbors :
  (forall x s b s',
      search x s = Some (b, s') ->
      allIssues p (dfs_issues s) -> allIssues p (dfs_issues s')) ->
  forall s b s',
    eachNeighbor search id neighbors s = Some (b, s') ->
    allIssues p (dfs_issues s) -> allIssues p (dfs_issues s').
Proof.
  intros Hsearch. induction neighbors as [| x rest IH]; intros s b s'; cbn.
  - intros H. injection H as <- <-. auto.
  - destruct (search x s) as [[[] s1] |] eqn:Hx; [| | discriminate].
    + intros H Hall. injection H as <- <-. cbn [dfs_issues].
      apply allIssues_app; [eapply Hsearch; eassumption | apply allIssues_error].
    + intros H Hall. eapply IH; [exact H |]. eapply Hsearch; eassumption.
Qed.

Lemma dfs_all nodes edges fuel :
  forall id s b s',
    dfs fuel nodes edges id s = Some (b, s') ->
    allIssues p (dfs_issues s) -> allIssues p (dfs_issues s').
Proof.
  induction fuel as [| fuel IH]; intros id s b s'; cbn; [discriminate |].
  destruct (Js.memStr id (inStack s)).
  { intros H. injection H as <- <-. auto. }
  destruct (Js.memStr id (dfs_visited s)).
  { intros H. injection H as <- <-. auto. }
  intros H Hall. eapply eachNeighbor_all; [exact IH | exact H | exact Hall].
Qed.

Lemma detectCycles_all nodes edges cycles :
  detectCycles nodes edges = Some cycles -> allIssues p cycles.
Proof.
  unfold detectCycles.
  assert (Hroots : forall roots s s',
             dfsRoots (dfsFuel nodes edges) nodes edges roots s = Some s' ->
             allIssues p (dfs_issues s) -> allIssues p (dfs_issues s')).
  { induction roots as [| n rest IH]; intros s s'; cbn [dfsRoots].
    - intros H. injection H as <-. auto.
    - destruct (Js.memStr (node_id n) (dfs_visited s)); [apply IH |].
      destruct (dfs _ _ _ _ _) as [[b s1] |] eqn:Hdfs; [| discriminate].
      intros H Hall. eapply IH; [exact H |]. eapply dfs_all; eassumption. }
  destruct (dfsRoots _ _ _ _ _) as [s' |] eqn:Hrun; [| discriminate].
  intros H. injection H as <-. eapply Hroots; [exact Hrun | reflexivity].
Qed.

Lemma validateStructure_all nodes edges structural :
  validateStructure nodes edges = Some structural -> allIssues p structural.
Proof.
  unfold validateStructure.
  destruct (reachabilityIssues _ _ _) as [unreachable |] eqn:Hreach; [| discriminate].
  destruct (detectCycles nodes edges) as [cycles |] eqn:Hcycles; [| discriminate].
  intros H. injection H as <-.
  repeat apply allIssues_app;
    first [ apply sharedEntries_all | apply warnUnless_all
          | apply allIssues_flat_map; intros dev; apply deviceIssues_all
          | eapply reachabilityIssues_all; eassumption
          | eapply detectCycles_all; eassumption ].
Qed.

(** Every issue [validateGraph] collects has the property. *)
Lemma validateGraph_all nodes edges result :
  validateGraph nodes edges = Some result ->
  allIssues p (errors result ++ warnings result ++ infos result).
Proof.
  unfold validateGraph.
  destruct (validateStructure nodes edges) as [structural |] eqn:Hstructure;
    [| discriminate].
  intros H. injection H as <-. cbn [errors warnings infos].
  assert (Hall : allIssues p
                   (flat_map validateNode nodes ++ validateEdges nodes edges ++
                    structural ++ validateConfig nodes edges)).
  { apply allIssues_app; [apply allIssues_flat_map, validateNode_all |].
    apply allIssues_app; [apply validateEdges_all |].
    apply allIssues_app; [| apply validateConfig_all].
    eapply validateStructure_all; eassumption. }
  unfold allIssues in *. rewrite forallb_forall in Hall.
  apply forallb_forall. intros i Hi.
  apply Hall. repeat (apply in_app_or in Hi; destruct Hi as [Hi | Hi]);
    apply filter_In in Hi; tauto.
Qed.

End IssueShape.

Section ValidatorGuarantees.
Import Validation.

(** X6. No issue of [validateGraph] is of level info, and every error and
    every warning names a node: [infos] is always empty. *)
Theorem validateGraph_issues_attached (nodes : list GraphNode) (edges : list GraphEdge) :
  exists result,
    validateGraph nodes edges = Some result /\
    infos result = [] /\
    forall i, In i (errors result) \/ In i (warnings result) ->
              exists id, nodeId i = Some id.
Proof.
  destruct (validateGraph_returns nodes edges) as [result Hresult].
  exists result. split; [exact Hresult |].
  pose proof (validateGraph_all attachedIssue (fun _ _ => eq_refl) (fun _ _ => eq_refl)
                nodes edges result Hresult) as Hall.
  unfold allIssues in Hall. rewrite forallb_forall in Hall.
  split.
  - assert (Hnone : forall i, In i (infos result) -> False).
    { intros i Hi.
      pose proof (Hall i (in_or_app _ _ _ (or_intror (in_or_app _ _ _ (or_intror Hi)))))
        as Hattached.
      unfold validateGraph in Hresult.
      destruct (validateStructure nodes edges); [| discriminate].
      injection Hresult as <-. cbn [infos] in Hi. apply filter_In in Hi.
      destruct Hi as [_ Hlevel]. unfold attachedIssue in Hattached.
      now rewrite Hlevel in Hattached. }
    destruct (infos result) as [| i rest]; [reflexivity |].
    exfalso. apply (Hnone i). now left.
  - intros i Hi.
    assert (Hattached : attachedIssue i = true).
    { apply Hall. destruct Hi as [Hi | Hi]; apply in_or_app; [now left | right].
      apply in_or_app. now left. }
    unfold attachedIssue in Hattached. apply andb_prop in Hattached.
    destruct (nodeId i) as [id |]; [now exists id | now destruct Hattached].
Qed.

Lemma validateGraph_node_error nodes edges n issue :
  In n nodes -> In issue (validateNode n) -> level issue = LevelError ->
  exists result,
    validateGraph nodes edges = Some result /\
    In issue (errors result) /\ valid result = false.
Proof.
  intros Hn Hissue Hlevel.
  destruct (validateStructure_returns nodes edges) as [structural Hs].
  unfold validateGraph. rewrite Hs.
  eexists. split; [reflexivity |]. cbn [errors valid].
  assert (Herr :
    In issue
      (filter (hasLevel LevelError)
         (flat_map validateNode nodes ++ validateEdges nodes edges ++
          structural ++ validateConfig nodes edges))).
  { apply filter_In. split.
    - apply in_or_app. left. apply in_flat_map. now exists n.
    - unfold hasLevel. now rewrite Hlevel. }
  split; [exact Herr |].
  destruct (filter _ _); [destruct Herr | reflexivity].
Qed.

Lemma isValidPort_zero p : (p =? 0)%Z || negb (isValidPort p) = negb (isValidPort p).
Proof.
  unfold isValidPort. destruct (Z.eqb_spec p 0) as [-> | _]; reflexivity.
Qed.

Lemma lacking_node_error n :
  lacksRequiredField n = true ->
  exists msg, In (issueError (node_id n) msg) (validateNode n).
Proof.
  unfold lacksRequiredField, validateNode.
  destruct (node_data n) as [| d | d | d | d | d | | | |]; try discriminate.
  - unfold validateInbound. intros H. apply orb_prop in H.
    destruct H as [-> | ->]; eexists.
    + left. reflexivity.
    + apply in_or_app. right. left. reflexivity.
  - unfold validateRouting. intros ->. eexists. left. reflexivity.
  - unfold validateBalancer. intros ->. eexists. left. reflexivity.
  - unfold validateOutbound. intros ->. eexists. left. reflexivity.
  - unfold validateOutbound. cbn [NodeType_eqb]. intros H.
    apply orb_prop in H. destruct H as [H | Hport];
      [apply orb_prop in H; destruct H as [-> | ->] |]; eexists.
    + left. reflexivity.
    + apply in_or_app. right. left. reflexivity.
    + apply in_or_app. right. apply in_or_app. right.
      destruct (out_serverPort d) as [p |]; [| left; reflexivity].
      rewrite isValidPort_zero, Hport. left. reflexivity.
Qed.

(** X7. A graph with a node that lacks a required field is not valid, and an
    error names the node. *)
Theorem validateGraph_rejects_lacking_node
    (nodes : list GraphNode) (edges : list GraphEdge) (n : GraphNode) :
  In n nodes -> lacksRequiredField n = true ->
  exists result issue,
    validateGraph nodes edges = Some result /\
    valid result = false /\
    In issue (errors result) /\ nodeId issue = Some (node_id n).
Proof.
  intros Hn Hlacks. destruct (lacking_node_error n Hlacks) as [msg Hissue].
  destruct (validateGraph_node_error nodes edges n _ Hn Hissue eq_refl)
    as (result & Hresult & Herror & Hvalid).
  exists result, (issueError (node_id n) msg). auto.
Qed.

Lemma validateGraph_rejects_lacking_node_witness :
  exists result issue,
    validateGraph [node "n1" (InboundNode (plainInbound "in1" 70000))] [] =
      Some result /\
    valid result = false /\
    In issue (errors result) /\ nodeId issue = Some "n1".
Proof.
  apply (validateGraph_rejects_lacking_node
           [node "n1" (InboundNode (plainInbound "in1" 70000))] []
           (node "n1" (InboundNode (plainInbound "in1" 70000))));
    [now left | reflexivity].
Defined.

(** ** Port conflicts *)

Lemma portMap_fold_get key nodes :
  forall m,
    assocGet key
      (fold_left
         (fun m n =>
            match node_data n with
            | InboundNode d => Js.pushTo (Js.showZ (in_port d)) (node_id n) m
            | _ => m
            end)
         nodes m) =
    extendEntry (assocGet key m) (listenerIds key nodes).
Proof.
  induction nodes as [| n nodes IH]; intros m; [reflexivity |].
  cbn [fold_left]. rewrite IH. unfold listenerIds. cbn [filter].
  unfold listensOn at 2.
  destruct (node_data n); try reflexivity.
  rewrite pushTo_get. destruct (String.eqb _ key); [| reflexivity].
  cbn [map]. apply extendEntry_cons.
Qed.

Lemma listenerIds_two key before n1 between n2 after :
  listensOn key n1 = true -> listensOn key n2 = true ->
  let ids := listenerIds key (before ++ n1 :: between ++ n2 :: after) in
  In (node_id n1) ids /\ In (node_id n2) ids /\ 1 < List.length ids.
Proof.
  intros H1 H2. unfold listenerIds.
  rewrite filter_app. cbn [filter]. rewrite H1, filter_app. cbn [filter]. rewrite H2.
  rewrite map_app. cbn [map]. rewrite map_app. cbn [map].
  repeat split.
  - apply in_or_app. right. now left.
  - apply in_or_app. right. right. apply in_or_app. right. now left.
  - rewrite length_app. cbn [List.length]. rewrite length_app. cbn [List.length]. lia.
Qed.

(** X8. Two inbound nodes that listen on the same port both get the port
    conflict error, and the graph is not valid. *)
Theorem port_conflict_errors
    (before between after : list GraphNode) (n1 n2 : GraphNode)
    (d1 d2 : InboundData) (edges : list GraphEdge) :
  node_data n1 = InboundNode d1 -> node_data n2 = InboundNode d2 ->
  in_port d1 = in_port d2 ->
  exists result,
    validateGraph (before ++ n1 :: between ++ n2 :: after) edges = Some result /\
    In (portConflictIssue (node_id n1) (in_port d1)) (errors result) /\
    In (portConflictIssue (node_id n2) (in_port d1)) (errors result) /\
    valid result = false.
Proof.
  intros Hd1 Hd2 Hport.
  set (key := Js.showZ (in_port d1)).
  assert (H1 : listensOn key n1 = true)
    by (unfold listensOn; rewrite Hd1; apply String.eqb_refl).
  assert (H2 : listensOn key n2 = true)
    by (unfold listensOn; rewrite Hd2, <- Hport; apply String.eqb_refl).
  destruct (listenerIds_two key before n1 between n2 after H1 H2) as (Hi1 & Hi2 & Hlen).
  set (nodes := (before ++ n1 :: between ++ n2 :: after)%list) in *.
  assert (Hget : assocGet key (portMap nodes) = extendEntry None (listenerIds key nodes))
    by (unfold portMap; now rewrite portMap_fold_get).
  destruct (listenerIds key nodes) as [| i ids] eqn:Hids; [destruct Hi1 |].
  cbn [extendEntry app] in Hget. apply assocGet_In in Hget.
  set (describe := fun port => "Port conflict: port " ++ port ++
                               " used by multiple INPUT nodes").
  pose proof (sharedEntries_In describe _ _ _ _ Hget Hlen Hi1) as He1.
  pose proof (sharedEntries_In describe _ _ _ _ Hget Hlen Hi2) as He2.
  destruct (validateStructure_returns nodes edges) as [structural Hs].
  assert (Hin : forall issue, In issue (sharedEntries describe (portMap nodes)) ->
                              In issue structural).
  { intros issue Hissue. unfold validateStructure in Hs.
    destruct (reachabilityIssues _ _ _); [| discriminate].
    destruct (detectCycles _ _); [| discriminate].
    injection Hs as <-. apply in_or_app. right. apply in_or_app. now left. }
  destruct (validateGraph_errors_include nodes edges structural _ Hs (Hin _ He1) eq_refl)
    as (result & Hres & Herr1 & Hvalid).
  destruct (validateGraph_errors_include nodes edges structural _ Hs (Hin _ He2) eq_refl)
    as (result' & Hres' & Herr2 & _).
  rewrite Hres in Hres'. injection Hres' as <-.
  exists result. auto.
Qed.

Lemma port_conflict_errors_witness :
  exists result,
    validateGraph
      ([] ++ node "a" (InboundNode (plainInbound "in1" 443))
          :: [] ++ node "b" (InboundNode (plainInbound "in2" 443)) :: []) []
      = Some result /\
    In (portConflictIssue "a" 443) (errors result) /\
    In (portConflictIssue "b" 443) (errors result) /\
    valid result = false.
Proof.
  apply (port_conflict_errors [] [] [] (node "a" (InboundNode (plainInbound "in1" 443)))
           (node "b" (InboundNode (plainInbound "in2" 443)))
           (plainInbound "in1" 443) (plainInbound "in2" 443) []);
    reflexivity.
Defined.

End ValidatorGuarantees.

(* ================================================================== *)
(** * The reachability search *)
(* ================================================================== *)

Section ReachabilityExact.
Import Validation.

Variable edges : list GraphEdge.
Variable targets : list string.

(** ** A search that succeeds has found a chain *)



(** ** A search that fails has closed a set of nodes *)








End ReachabilityExact.

(* ================================================================== *)
(** * The cycle search *)
(* ================================================================== *)

Section CycleSearchSound.
Import Validation.

Variable nodes : list GraphNode.
Variable edges : list GraphEdge.


Lemma walk_trans x y z :
  walk nodes edges x y -> walk nodes edges y z -> walk nodes edges x z.
Proof.
  induction 1 as [x y Hxy | x y w Hxy _ IH]; intros Hz.
  - eapply walk_more; eassumption.
  - eapply walk_more; [exact Hxy | now apply IH].
Qed.

Lemma reachesCycle_before x y :
  adjacent nodes edges x y -> reachesCycle nodes edges y ->
  reachesCycle nodes edges x.
Proof.
  intros Hxy [Hcycle | (z & Hyz & Hcycle)]; right.
  - exists y. split; [now apply walk_one | assumption].
  - exists z. split; [eapply walk_more; eassumption | assumption].
Qed.

Lemma reachesCycle_walk x y :
  walk nodes edges x y -> reachesCycle nodes edges y -> reachesCycle nodes edges x.
Proof.
  induction 1 as [x y Hxy | x y w Hxy _ IH]; intros Hcycle.
  - eapply reachesCycle_before; eassumption.
  - eapply reachesCycle_before; [exact Hxy | now apply IH].
Qed.






End CycleSearchSound.

Section CycleSearchComplete.
Import Validation.

Variable nodes : list GraphNode.
Variable edges : list GraphEdge.





(** ** A call that finds a cycle reports it *)










End CycleSearchComplete.

(* ================================================================== *)
(** * Documents of the forward compiler *)
(* ================================================================== *)

Section FileNames.
Import ExportConfig.

Lemma dashRuns_safe s : forall inRun, Js.allChars safeChar (dashRuns s inRun) = true.
Proof.
  induction s as [| c s IH]; intros inRun; cbn [dashRuns]; [reflexivity |].
  destruct (isLowerAlnum c) eqn:Hc.
  - cbn [Js.allChars]. unfold safeChar at 1. now rewrite Hc, IH.
  - destruct inRun; [apply IH |]. cbn [Js.allChars]. now rewrite IH.
Qed.

Lemma dropTrailingDashes_safe s :
  Js.allChars safeChar s = true ->
  Js.allChars safeChar (dropTrailingDashes s) = true.
Proof.
  induction s as [| c s IH]; cbn [Js.allChars dropTrailingDashes]; [reflexivity |].
  intros H. apply andb_prop in H. destruct H as [Hc Hs]. specialize (IH Hs).
  destruct (dropTrailingDashes s) as [| k kept].
  - destruct (Ascii.eqb c "-"); [reflexivity |]. cbn. now rewrite Hc.
  - cbn [Js.allChars] in *. now rewrite Hc, IH.
Qed.

Lemma dropTrailingDashes_last s : lastChar (dropTrailingDashes s) <> Some "-"%char.
Proof.
  induction s as [| c s IH]; cbn [dropTrailingDashes]; [discriminate |].
  destruct (dropTrailingDashes s) as [| k kept].
  - destruct (Ascii.eqb_spec c "-"); [discriminate |]. cbn. congruence.
  - exact IH.
Qed.

(** After a character that is no dash, or at the start when [inRun] is
    false, [dashRuns] writes no two dashes in a row; when [inRun] holds
    its output does not start a run either. *)
Lemma dashRuns_single s :
  forall inRun,
    hasDoubleDash (dashRuns s inRun) = false /\
    (inRun = true ->
     match dashRuns s inRun with
     | String c _ => Ascii.eqb c "-"%char = false
     | EmptyString => True
     end).
Proof.
  assert (Halnum : forall c, isLowerAlnum c = true -> Ascii.eqb c "-"%char = false).
  { intros c Hc. apply Ascii.eqb_neq. intros ->. discriminate Hc. }
  induction s as [| c s IH]; intros inRun; cbn [dashRuns]; [split; auto |].
  destruct (isLowerAlnum c) eqn:Hc.
  - destruct (IH false) as [Hnone _]. split.
    + cbn [hasDoubleDash]. destruct (dashRuns s false); [reflexivity |].
      now rewrite (Halnum c Hc).
    + intros _. now apply Halnum.
  - destruct inRun.
    + apply IH.
    + destruct (IH true) as [Hnone Hstart]. split; [| discriminate].
      cbn [hasDoubleDash]. destruct (dashRuns s true) as [| d rest]; [reflexivity |].
      now rewrite (Hstart eq_refl), andb_false_r.
Qed.

Lemma dropTrailingDashes_single s :
  hasDoubleDash s = false -> hasDoubleDash (dropTrailingDashes s) = false.
Proof.
  induction s as [| c s IH]; [reflexivity |].
  cbn [hasDoubleDash dropTrailingDashes].
  destruct s as [| d s]; [cbn; now destruct (Ascii.eqb c "-") |].
  intros H. apply orb_false_iff in H. destruct H as [Hpair Hrest].
  specialize (IH Hrest).
  destruct (dropTrailingDashes (String d s)) as [| k kept] eqn:Hdrop.
  - now destruct (Ascii.eqb c "-").
  - change (hasDoubleDash (String c (String k kept)))
      with ((Ascii.eqb c "-"%char && Ascii.eqb k "-"%char)
            || hasDoubleDash (String k kept)).
    rewrite IH, orb_false_r.
    assert (Hk : k = d).
    { cbn [dropTrailingDashes] in Hdrop.
      destruct (dropTrailingDashes s); [destruct (Ascii.eqb d "-") |];
        congruence. }
    now rewrite Hk.
Qed.

(** X11. The base of the file name of a server: it holds lower-case letters,
    digits and dashes only, never two dashes in a row, and it does not
    end with a dash. *)
Theorem safeName_safe (name : string) :
  Js.allChars safeChar (safeName name) = true /\
  hasDoubleDash (safeName name) = false /\
  lastChar (safeName name) <> Some "-"%char.
Proof.
  unfold safeName. split; [| split].
  - apply dropTrailingDashes_safe, dashRuns_safe.
  - apply dropTrailingDashes_single, dashRuns_single.
  - apply dropTrailingDashes_last.
Qed.

End FileNames.

Section StreamSettingsFacts.
Import Config ExportConfig.

(** X12. The stream settings written for a transport are consistent: a
    settings block is present only under the network or the security it
    belongs to, so at most one network block and at most one security
    block is written, and the network is never written as [raw]. *)
Theorem buildStreamSettings_consistent (t : option TransportSettings) :
  let s := buildStreamSettings t in
  (stream_ws s <> None -> stream_network s = Some "ws") /\
  (stream_grpc s <> None -> stream_network s = Some "grpc") /\
  (stream_xhttp s <> None -> stream_network s = Some "xhttp") /\
  (stream_tls s <> None -> stream_security s = Some "tls") /\
  (stream_reality s <> None -> stream_security s = Some "reality") /\
  stream_network s <> Some "raw".
Proof.
  destruct t as [[net w g x sec l r] |]; [| cbn; repeat split; congruence].
  destruct net, sec, w, g, x, l, r; cbn; repeat split; congruence.
Qed.

End StreamSettingsFacts.

Section BalancerSelector.
Import Config ExportConfig.



End BalancerSelector.

Section DocumentCoverage.
Import Config ExportConfig.

Lemma pushTo_adds {A : Type} key (x : A) m :
  exists xs, In (key, xs) (Js.pushTo key x m) /\ In x xs.
Proof.
  induction m as [| [k ys] m (xs & Hin & Hx)]; cbn [Js.pushTo].
  - exists [x]. split; now left.
  - destruct (String.eqb_spec k key) as [-> | _].
    + exists (ys ++ [x])%list. split; [now left |]. apply in_or_app. right. now left.
    + exists xs. split; [now right | exact Hx].
Qed.

Lemma pushTo_keeps {A : Type} key (x : A) m k ys y :
  In (k, ys) m -> In y ys ->
  exists xs, In (k, xs) (Js.pushTo key x m) /\ In y xs.
Proof.
  induction m as [| [k' zs] m IH]; intros Hin Hy; [destruct Hin |].
  cbn [Js.pushTo]. destruct Hin as [Heq | Hin].
  - injection Heq as -> ->. destruct (String.eqb k key).
    + exists (ys ++ [x])%list. split; [now left |]. apply in_or_app. now left.
    + exists ys. split; [now left | exact Hy].
  - destruct (IH Hin Hy) as (xs & Hxs & Hyxs).
    destruct (String.eqb k' key).
    + exists ys. split; [now right | exact Hy].
    + exists xs. split; [now right | exact Hyxs].
Qed.

(** A node grouped under a server is in the group of that server. *)
Lemma nodesByServer_covers servers configNodes n sid :
  In n configNodes -> groupOf servers n = Some sid ->
  exists group, In (sid, group) (nodesByServer servers configNodes) /\ In n group.
Proof.
  intros Hn Hgroup. unfold nodesByServer.
  enough (Hfold : forall l m,
             In n l \/ (exists g, In (sid, g) m /\ In n g) ->
             exists group,
               In (sid, group)
                 (fold_left
                    (fun groups x =>
                       match groupOf servers x with
                       | Some s => Js.pushTo s x groups
                       | None => groups
                       end)
                    l m) /\
               In n group)
    by (apply Hfold; now left).
  induction l as [| a l IH]; intros m H; cbn [fold_left].
  - destruct H as [[] | H]. exact H.
  - apply IH. destruct H as [[-> | Hl] | (g & Hg & Hng)].
    + right. rewrite Hgroup. apply pushTo_adds.
    + now left.
    + right. destruct (groupOf servers a) as [s |].
      * eapply pushTo_keeps; eassumption.
      * now exists g.
Qed.

(** Every node that is no device belongs to the node list of one of the
    documents. *)
Lemma exportConfig_node_group nodes edges servers mode n :
  optStr_eqb mode (Some "simple") = false ->
  In n nodes -> NodeType_eqb (nodeType (node_data n)) device = false ->
  exists group groupEdges file,
    In (buildSingleConfig group groupEdges edges nodes file)
      (exportConfig nodes edges servers mode) /\
    In n group.
Proof.
  intros Hmode Hn Hkind. unfold exportConfig. rewrite Hmode.
  set (configNodes :=
         filter (fun n => negb (NodeType_eqb (nodeType (node_data n)) device)) nodes).
  assert (Hconfig : In n configNodes)
    by (apply filter_In; split; [exact Hn | now rewrite Hkind]).
  destruct (nodesByServer servers configNodes) as [| g groups] eqn:Hgroups.
  - eexists _, _, _. split; [now left | exact Hconfig].
  - rewrite <- Hgroups. destruct (groupOf servers n) as [sid |] eqn:Hgroup.
    + destruct (nodesByServer_covers servers configNodes n sid Hconfig Hgroup)
        as (group & Hin & Hng).
      assert (Hserver : exists server, serverMapGet servers sid = Some server).
      { unfold groupOf in Hgroup. destruct (dataServerId (node_data n)) as [s |];
          [| discriminate].
        destruct (Js.truthy s); [| discriminate]. cbn in Hgroup.
        destruct (serverMapGet servers s) as [server |] eqn:Hget; [| discriminate].
        injection Hgroup as <-. now exists server. }
      destruct Hserver as [server Hserver].
      eexists _, _, _. split; [| exact Hng].
      apply in_or_app. left. apply in_flat_map. exists (sid, group).
      split; [exact Hin |]. rewrite Hserver. now left.
    + assert (Hun : In n (unassignedNodes servers configNodes))
        by (apply filter_In; split; [exact Hconfig | now rewrite Hgroup]).
      destruct (unassignedNodes servers configNodes) as [| u rest] eqn:Hrest;
        [destruct Hun |].
      eexists _, _, _. split; [| exact Hun].
      apply in_or_app. right. now left.
Qed.

(** X14. No node is lost by the grouping: outside simple mode, every
    inbound, outbound and balancer node of the graph has an entry with
    its tag in one of the documents. *)
Theorem exportConfig_covers_nodes
    (nodes : list GraphNode) (edges : list GraphEdge) (servers : list Server)
    (mode : option string) (n : GraphNode) (tag : string) :
  optStr_eqb mode (Some "simple") = false ->
  In n nodes -> registeredTag n = Some tag ->
  exists r,
    In r (exportConfig nodes edges servers mode) /\
    match node_data n with
    | InboundNode d =>
        exists entry,
          In entry (inboundsOf (config r)) /\ xin_tag entry = tag /\
          xin_port entry = Some (in_port d) /\
          xin_protocol entry = inboundProtocolName (in_protocol d)
    | OutboundTerminalNode d | OutboundProxyNode d =>
        exists entry,
          In entry (outboundsOf (config r)) /\ xout_tag entry = tag /\
          xout_protocol entry = out_protocol d
    | BalancerNode _ =>
        exists entry, In entry (balancersOf (config r)) /\ xbal_tag entry = tag
    | _ => True
    end.
Proof.
  intros Hmode Hn Htag.
  assert (Hkind : NodeType_eqb (nodeType (node_data n)) device = false)
    by (unfold registeredTag in Htag; now destruct (node_data n)).
  destruct (exportConfig_node_group nodes edges servers mode n Hmode Hn Hkind)
    as (group & groupEdges & file & Hdoc & Hgroup).
  eexists. split; [exact Hdoc |].
  unfold buildSingleConfig, buildRoutingRules, inboundsOf, outboundsOf, balancersOf.
  cbn [config cfg_inbounds cfg_outbounds cfg_routing routing_balancers
       ImportConfig.orEmpty].
  unfold registeredTag in Htag.
  destruct (node_data n) as [| d | | d | d | d | | | |] eqn:Hdata; try discriminate;
    injection Htag as <-.
  - eexists. split; [apply in_flat_map; exists n; split; [exact Hgroup |];
                     unfold buildInbound; rewrite Hdata; now left |].
    cbn. auto.
  - assert (Hentry : exists entry,
               In entry
                 (flat_map (buildBalancer group groupEdges)
                    (filter (fun m => NodeType_eqb (nodeType (node_data m)) balancer)
                       group)) /\
               xbal_tag entry = bal_tag d)
      by now apply (exported_balancer_tag group groupEdges n).
    destruct Hentry as (entry & Hentry & Hbal). exists entry. split; [| exact Hbal].
    now destruct (flat_map _ _).
  - eexists. split; [apply in_flat_map; exists n; split; [exact Hgroup |];
                     unfold buildOutbound; rewrite Hdata; now left |].
    cbn. auto.
  - eexists. split; [apply in_flat_map; exists n; split; [exact Hgroup |];
                     unfold buildOutbound; rewrite Hdata; now left |].
    cbn. auto.
Qed.

Lemma exportConfig_covers_nodes_witness :
  exists r,
    In r (exportConfig roundTripNodes roundTripEdges [] None) /\
    exists entry,
      In entry (inboundsOf (config r)) /\ xin_tag entry = "in1" /\
      xin_port entry = Some 443%Z /\ xin_protocol entry = "vless".
Proof.
  exact (exportConfig_covers_nodes roundTripNodes roundTripEdges [] None
           (node "n1" (InboundNode (plainInbound "in1" 443))) "in1"
           eq_refl (or_introl eq_refl) eq_refl).
Defined.

(** ** The tags the rules name *)

(** X15. In every document compiled outside simple mode, a rule that names
    an outbound tag names the tag of an outbound of the same document,
    and a rule that names a balancer tag names the tag of a balancer of
    the same document. *)
Theorem exportConfig_rules_resolve
    (nodes : list GraphNode) (edges : list GraphEdge) (servers : list Server)
    (mode : option string) (r : ExportResult) (rule : XrayRoutingRule) :
  optStr_eqb mode (Some "simple") = false ->
  In r (exportConfig nodes edges servers mode) ->
  In rule (rulesOfDocument (config r)) ->
  (forall tag, rule_outboundTag rule = Some tag ->
               exists entry, In entry (outboundsOf (config r)) /\ xout_tag entry = tag) /\
  (forall tag, rule_balancerTag rule = Some tag ->
               exists entry, In entry (balancersOf (config r)) /\ xbal_tag entry = tag).
Proof.
  intros Hmode Hr.
  destruct (exportConfig_documents _ _ _ _ _ Hmode Hr)
    as (group & groupEdges & file & _ & _ & ->).
  unfold buildSingleConfig, buildRoutingRules, rulesOfDocument, outboundsOf, balancersOf.
  cbn [config cfg_outbounds cfg_routing routing_rules routing_balancers
       ImportConfig.orEmpty].
  rewrite orEmpty_keepNonEmpty.
  assert (Hout : forall target tag,
             In target group -> outboundTagOf (node_data target) = Some tag ->
             exists entry,
               In entry (flat_map (buildOutbound edges nodes) group) /\
               xout_tag entry = tag)
    by (intros target tag; apply exported_outbound_tag).
  intros Hrule. apply in_app_or in Hrule. destruct Hrule as [Hrule | Hrule];
    apply in_flat_map in Hrule; destruct Hrule as (source & Hsource & Hrule);
    apply filter_In in Hsource; destruct Hsource as [Hsource _].
  - unfold rulesOfRoutingNode in Hrule.
    destruct (node_data source) as [| | routeData | | | | | | |];
      try (destruct Hrule; fail).
    apply in_flat_map in Hrule. destruct Hrule as (e & _ & Hrule).
    unfold ruleOfEdge in Hrule.
    destruct (findTargetNode (edge_target e) group) as [target |] eqn:Hfind;
      [| destruct Hrule].
    apply find_some in Hfind. destruct Hfind as [Htarget _].
    destruct (node_data target) as [| | | balData | outData | outData | | | |] eqn:Htd;
      try (destruct Hrule; fail);
      destruct Hrule as [<- | []]; cbn [rule_outboundTag rule_balancerTag];
      split; intros tag Htag; try discriminate; injection Htag as <-.
    + destruct (exported_balancer_tag group groupEdges target balData Htarget Htd)
        as (entry & Hentry & Hbal).
      now exists entry.
    + apply (Hout target); [exact Htarget | now rewrite Htd].
    + apply (Hout target); [exact Htarget | now rewrite Htd].
  - unfold directRules in Hrule.
    destruct (node_data source) as [| inData | | | | | | | |];
      try (destruct Hrule; fail).
    apply in_flat_map in Hrule. destruct Hrule as (e & _ & Hrule).
    destruct (findTargetNode (edge_target e) group) as [target |] eqn:Hfind;
      [| destruct Hrule].
    apply find_some in Hfind. destruct Hfind as [Htarget _].
    destruct (outboundTagOf (node_data target)) as [tag' |] eqn:Htag'; [| destruct Hrule].
    destruct Hrule as [<- | []]. cbn [rule_outboundTag rule_balancerTag].
    split; intros tag Htag; [| discriminate]. injection Htag as <-.
    now apply (Hout target).
Qed.

Lemma exportConfig_rules_resolve_witness :
  (forall tag,
      Some "out1" = Some tag ->
      exists entry,
        In entry
          (outboundsOf
             (config (buildSingleConfig roundTripNodes roundTripEdges roundTripEdges
                        roundTripNodes "config.json"))) /\
        xout_tag entry = tag) /\
  (forall tag,
      None = Some tag ->
      exists entry,
        In entry
          (balancersOf
             (config (buildSingleConfig roundTripNodes roundTripEdges roundTripEdges
                        roundTripNodes "config.json"))) /\
        xbal_tag entry = tag).
Proof.
  exact (exportConfig_rules_resolve roundTripNodes roundTripEdges [] None
           (buildSingleConfig roundTripNodes roundTripEdges roundTripEdges
              roundTripNodes "config.json")
           (mkRule (Some "field") (Some ["domain:example.com"]) None (Some "443") None
              (Some "tcp") (Some ["in1"]) (Some "out1") None)
           eq_refl (or_introl eq_refl) (or_introl eq_refl)).
Defined.

End DocumentCoverage.
Section SimpleExport.
Import ExportConfig Config.

Lemma nodeMapGet_In nodes id target :
  nodeMapGet nodes id = Some target -> In target nodes.
Proof.
  unfold nodeMapGet. intros H. apply find_some in H. destruct H as [H _].
  now apply in_rev.
Qed.

Lemma chainTarget_server nodes outEdges target :
  chainTarget nodes outEdges = Some target ->
  In target nodes /\ exists d, node_data target = SimpleServerNode d.
Proof.
  induction outEdges as [| e rest IH]; cbn [chainTarget]; [discriminate |].
  destruct (nodeMapGet nodes (edge_target e)) as [t |] eqn:Hget; [| exact IH].
  destruct (node_data t) eqn:Hdata; try exact IH.
  intros H. injection H as <-. split; [now apply (nodeMapGet_In _ _ _ Hget) |].
  eexists; exact Hdata.
Qed.

Lemma rulesTarget_cases nodes outEdges tag :
  rulesTarget nodes outEdges = Some tag ->
  (exists target d, In target nodes /\ node_data target = SimpleServerNode d /\
                    tag = "proxy-" ++ node_id target) \/
  tag = "direct" \/ tag = "block".
Proof.
  induction outEdges as [| e rest IH]; cbn [rulesTarget]; [discriminate |].
  destruct (nodeMapGet nodes (edge_target e)) as [t |] eqn:Hget; [| exact IH].
  unfold resolveOutboundTag.
  destruct (node_data t) eqn:Hdata; try exact IH;
    match goal with
    | |- context [Js.truthy ?s] => destruct (Js.truthy s); [| exact IH]
    end;
    intros H; injection H as <-.
  - left. eexists; eexists. split; [now apply (nodeMapGet_In _ _ _ Hget) |].
    split; [exact Hdata | reflexivity].
  - now right; left.
  - now right; right.
Qed.

Lemma simple_server_outbound nodes edges target d :
  In target nodes -> node_data target = SimpleServerNode d ->
  exists entry,
    In entry
      (flat_map
         (fun n =>
            match node_data n with
            | SimpleServerNode data =>
                [buildSimpleOutbound data ("proxy-" ++ node_id n)
                   (option_map (fun t => "proxy-" ++ node_id t)
                      (chainTarget nodes (getOutgoingEdges (node_id n) edges)))]
            | _ => []
            end)
         (filter (fun n => NodeType_eqb (nodeType (node_data n)) simple_server) nodes)) /\
    xout_tag entry = "proxy-" ++ node_id target.
Proof.
  intros Hin Hdata. eexists. split.
  - apply in_flat_map. exists target. split.
    + apply filter_In. split; [exact Hin | now rewrite Hdata].
    + rewrite Hdata. left. reflexivity.
  - reflexivity.
Qed.

(** X16. In simple mode the first document is the client's
    [config.json]; every routing rule of it names the tag of an
    outbound of the same document, and the [proxySettings] tag of every
    outbound that has one is the tag of an outbound of the same
    document (its own tag, when a server is chained to itself). *)
Theorem exportSimpleConfig_client_resolves
    (nodes : list GraphNode) (edges : list GraphEdge) :
  exists client rest,
    exportSimpleConfig nodes edges = client :: rest /\
    filename client = "config.json" /\
    (forall rule, In rule (rulesOfDocument (config client)) ->
        exists entry, In entry (outboundsOf (config client)) /\
                      rule_outboundTag rule = Some (xout_tag entry)) /\
    (forall entry tag,
        In entry (outboundsOf (config client)) ->
        proxySettingsTag entry = Some tag ->
        exists next, In next (outboundsOf (config client)) /\ xout_tag next = tag).
Proof.
  unfold exportSimpleConfig. eexists; eexists. split; [reflexivity |].
  split; [reflexivity |].
  unfold rulesOfDocument, outboundsOf.
  cbn [config cfg_outbounds cfg_routing routing_rules ImportConfig.orEmpty].
  split.
  - intros rule Hrule. apply in_flat_map in Hrule.
    destruct Hrule as (source & Hsource & Hrule).
    destruct (node_data source) eqn:Hdata; try (destruct Hrule; fail).
    destruct (rulesTarget nodes (getOutgoingEdges (node_id source) edges))
      as [tag |] eqn:Htarget; [| destruct Hrule].
    apply in_map_iff in Hrule. destruct Hrule as (condition & <- & _).
    assert (Hnamed : rule_outboundTag (simpleRule tag condition) = Some tag)
      by (unfold simpleRule; now destruct (sr_type condition)).
    rewrite Hnamed.
    assert (Hused : In tag
              (flat_map
                 (fun n =>
                    match rulesTarget nodes (getOutgoingEdges (node_id n) edges) with
                    | Some t => [t]
                    | None => []
                    end)
                 (filter (fun n => NodeType_eqb (nodeType (node_data n)) simple_rules)
                    nodes))).
    { apply in_flat_map. exists source. split; [exact Hsource |].
      rewrite Htarget. now left. }
    destruct (rulesTarget_cases _ _ _ Htarget)
      as [(target & d & Hin & Htd & ->) | [-> | ->]].
    + destruct (simple_server_outbound nodes edges target d Hin Htd)
        as (entry & Hentry & Htag).
      exists entry. split; [apply in_or_app; now left | now rewrite Htag].
    + apply memStr_In in Hused. rewrite Hused, orb_true_r.
      exists freedomOutbound. split; [| reflexivity].
      apply in_or_app. right. now left.
    + apply memStr_In in Hused. rewrite Hused, orb_true_r.
      exists blackholeOutbound. split; [| reflexivity].
      apply in_or_app. right. apply in_or_app. right. now left.
  - intros entry tag Hentry Htag.
    apply in_app_or in Hentry. destruct Hentry as [Hentry | Hentry].
    + apply in_flat_map in Hentry. destruct Hentry as (source & Hsource & Hentry).
      destruct (node_data source) eqn:Hdata; try (destruct Hentry; fail).
      destruct Hentry as [<- | []].
      unfold buildSimpleOutbound in Htag. cbn [proxySettingsTag] in Htag.
      destruct (chainTarget nodes (getOutgoingEdges (node_id source) edges))
        as [target |] eqn:Hchain; [| discriminate].
      cbn [option_map] in Htag. injection Htag as <-.
      destruct (chainTarget_server _ _ _ Hchain) as (Hin & d' & Htd).
      destruct (simple_server_outbound nodes edges target d' Hin Htd)
        as (next & Hnext & Hnt).
      exists next. split; [apply in_or_app; now left | exact Hnt].
    + exfalso. apply in_app_or in Hentry.
      destruct Hentry as [Hentry | Hentry];
        match type of Hentry with
        | In _ (if ?c then _ else _) => destruct c
        end;
        try (destruct Hentry; fail);
        destruct Hentry as [<- | []]; discriminate.
Qed.

End SimpleExport.
(* ================================================================== *)
(** * Graphs of the reverse compiler *)
(* ================================================================== *)

Section ImportShape.
Import Config ExportConfig ImportConfig.

Variable uuidv4 : nat -> string.

Lemma mapSet_In key value m k v :
  In (k, v) (mapSet key value m) -> v = value \/ In (k, v) m.
Proof.
  induction m as [| [k0 v0] rest IH]; cbn [mapSet].
  - intros [H | []]. injection H as _ <-. now left.
  - destruct (String.eqb k0 key).
    + intros [H | H]; [injection H as _ <-; now left | right; now right].
    + intros [H | H]; [right; now left |].
      destruct (IH H) as [-> | Hin]; [now left | right; now right].
Qed.

Lemma mapGet_In tag m v : mapGet tag m = Some v -> In (tag, v) m.
Proof.
  induction m as [| [k0 v0] rest IH]; cbn [mapGet]; [discriminate |].
  destruct (String.eqb k0 tag) eqn:Heq.
  - intros H. injection H as <-. apply String.eqb_eq in Heq. subst. now left.
  - intros H. right. now apply IH.
Qed.

Lemma lookupTag_In m tag id : lookupTag m tag = Some id -> In (tag, id) m.
Proof.
  unfold lookupTag. destruct (mapGet tag m) as [v |] eqn:Hget; [| discriminate].
  destruct (Js.truthy v); [| discriminate].
  intros H. injection H as <-. now apply mapGet_In.
Qed.

Lemma joins_more ns extra e : joins ns e -> joins (ns ++ extra) e.
Proof.
  unfold joins. rewrite map_app. intros (Hs & Ht & Hd).
  split; [apply in_or_app; now left |].
  split; [apply in_or_app; now left | exact Hd].
Qed.

Lemma joined_add_node s n warnings tags' k :
  joinedState s ->
  (forall tag id, In (tag, id) tags' ->
                  id = node_id n \/ In (tag, id) (tagToNodeId s)) ->
  joinedState (mkImportState (st_nodes s ++ [n]) (st_edges s) warnings tags' k).
Proof.
  intros [Htags Hedges] Hnew. split; cbn [tagToNodeId st_nodes st_edges].
  - intros tag id Hin. rewrite map_app. apply in_or_app.
    destruct (Hnew tag id Hin) as [-> | Hold]; [right; now left | left].
    now apply (Htags tag).
  - intros e He. apply joins_more. now apply Hedges.
Qed.

Lemma joined_pushWarning s w : joinedState s -> joinedState (pushWarning s w).
Proof. intros H. exact H. Qed.

Lemma joined_pushEdge s source target :
  joinedState s ->
  In source (map node_id (st_nodes s)) -> In target (map node_id (st_nodes s)) ->
  joinedState (pushEdge uuidv4 s source target).
Proof.
  intros [Htags Hedges] Hs Ht. split; cbn [pushEdge tagToNodeId st_nodes st_edges].
  - exact Htags.
  - intros e He. apply in_app_or in He. destruct He as [He | [<- | []]].
    + now apply Hedges.
    + split; [exact Hs | split; [exact Ht | reflexivity]].
Qed.

Lemma addInbound_shape s inb :
  joinedState s ->
  joinedState (addInbound uuidv4 s inb) /\
  map node_type (st_nodes (addInbound uuidv4 s inb)) =
  (map node_type (st_nodes s) ++
   (if Js.memStr (xin_protocol inb) INBOUND_PROTOCOLS then ["inbound"] else []))%list.
Proof.
  intros Hs. unfold addInbound.
  destruct (Js.memStr (xin_protocol inb) INBOUND_PROTOCOLS); cbn [negb].
  - split.
    + apply joined_add_node; [exact Hs |].
      intros tag id Hin. apply mapSet_In in Hin. exact Hin.
    + cbn [st_nodes]. now rewrite map_app.
  - split; [exact Hs |]. cbn [pushWarning st_nodes]. now rewrite app_nil_r.
Qed.

Lemma import_inbounds_shape ins : forall s,
  joinedState s ->
  joinedState (fold_left (addInbound uuidv4) ins s) /\
  map node_type (st_nodes (fold_left (addInbound uuidv4) ins s)) =
  (map node_type (st_nodes s) ++
   repeat "inbound"
     (List.length (filter (fun inb => Js.memStr (xin_protocol inb) INBOUND_PROTOCOLS) ins)))%list.
Proof.
  induction ins as [| inb rest IH]; intros s Hs; cbn [fold_left filter].
  - split; [exact Hs |]. cbn [List.length repeat]. now rewrite app_nil_r.
  - destruct (addInbound_shape s inb Hs) as [Hjoined Htypes].
    destruct (IH _ Hjoined) as [Hrest Hall]. split; [exact Hrest |].
    rewrite Hall, Htypes, <- app_assoc.
    now destruct (Js.memStr (xin_protocol inb) INBOUND_PROTOCOLS).
Qed.

Lemma addOutbound_shape s outb :
  joinedState s ->
  joinedState (addOutbound uuidv4 s outb) /\
  exists t,
    isOutboundType t = true /\
    map node_type (st_nodes (addOutbound uuidv4 s outb)) =
    (map node_type (st_nodes s) ++ [t])%list.
Proof.
  intros Hs. unfold addOutbound. split.
  - apply joined_add_node; [exact Hs |].
    intros tag id Hin. apply mapSet_In in Hin.
    destruct Hin as [-> | Hin]; [left | now right].
    now destruct (Js.memStr _ TERMINAL_PROTOCOLS).
  - cbn [st_nodes]. rewrite map_app. cbn [map].
    destruct (Js.memStr _ TERMINAL_PROTOCOLS); eexists;
      (split; [| reflexivity]); reflexivity.
Qed.

Lemma import_outbounds_shape outs : forall s,
  joinedState s ->
  joinedState (fold_left (addOutbound uuidv4) outs s) /\
  exists ts,
    List.length ts = List.length outs /\
    Forall (fun t => isOutboundType t = true) ts /\
    map node_type (st_nodes (fold_left (addOutbound uuidv4) outs s)) =
    (map node_type (st_nodes s) ++ ts)%list.
Proof.
  induction outs as [| outb rest IH]; intros s Hs; cbn [fold_left].
  - split; [exact Hs |]. exists []. split; [reflexivity |].
    split; [constructor | now rewrite app_nil_r].
  - destruct (addOutbound_shape s outb Hs) as (Hjoined & t & Ht & Htypes).
    destruct (IH _ Hjoined) as (Hrest & ts & Hlen & Hall & Heq).
    split; [exact Hrest |]. exists (t :: ts).
    split; [cbn [List.length]; now rewrite Hlen |].
    split; [now constructor |].
    rewrite Heq, Htypes, <- app_assoc. reflexivity.
Qed.

Lemma findNodeById_In ns id n :
  findNodeById ns id = Some n -> In id (map node_id ns).
Proof.
  unfold findNodeById. intros H. apply find_some in H. destruct H as [Hin Heq].
  apply String.eqb_eq in Heq. subst id. now apply in_map.
Qed.

Lemma selectorEdges_shape balancerId pattern s :
  joinedState s -> In balancerId (map node_id (st_nodes s)) ->
  joinedState (selectorEdges uuidv4 balancerId pattern s) /\
  st_nodes (selectorEdges uuidv4 balancerId pattern s) = st_nodes s /\
  tagToNodeId (selectorEdges uuidv4 balancerId pattern s) = tagToNodeId s.
Proof.
  unfold selectorEdges. generalize (tagToNodeId s) at 1 2 3. intros entries. revert s.
  induction entries as [| [tag targetNodeId] rest IH]; intros s Hs Hid; cbn [fold_left].
  - now split.
  - destruct (String.eqb tag pattern || Js.startsWith tag pattern); [| now apply IH].
    destruct (findNodeById (st_nodes s) targetNodeId) as [targetNode |] eqn:Hfind;
      [| now apply IH].
    destruct (isOutboundType (node_type targetNode)); [| now apply IH].
    apply findNodeById_In in Hfind.
    pose proof (joined_pushEdge s balancerId targetNodeId Hs Hid Hfind) as Hnext.
    unfold pushEdge in Hnext.
    destruct (IH _ Hnext Hid) as (H1 & H2 & H3). now split.
Qed.

Lemma selectors_shape balancerId selector : forall s,
  joinedState s -> In balancerId (map node_id (st_nodes s)) ->
  joinedState (fold_left (fun acc pattern => selectorEdges uuidv4 balancerId pattern acc)
                 selector s) /\
  st_nodes (fold_left (fun acc pattern => selectorEdges uuidv4 balancerId pattern acc)
              selector s) = st_nodes s.
Proof.
  induction selector as [| pattern rest IH]; intros s Hs Hid; cbn [fold_left].
  - now split.
  - destruct (selectorEdges_shape balancerId pattern s Hs Hid) as (H1 & H2 & _).
    destruct (IH _ H1) as [H3 H4]; [now rewrite H2 |].
    split; [exact H3 | now rewrite H4].
Qed.

Lemma addBalancer_shape s bal s' :
  joinedState s -> addBalancer uuidv4 s bal = Returned s' ->
  joinedState s' /\
  map node_type (st_nodes s') = (map node_type (st_nodes s) ++ ["balancer"])%list.
Proof.
  intros Hs. unfold addBalancer.
  destruct (xbal_selector bal) as [selector |]; [| discriminate].
  intros H. injection H as <-.
  match goal with
  | |- context [fold_left _ selector ?withNode] =>
      destruct (selectors_shape (uuidv4 (drawn s)) selector withNode) as [H1 H2]
  end.
  - apply joined_add_node; [exact Hs |].
    intros tag id Hin. apply mapSet_In in Hin. exact Hin.
  - cbn [st_nodes]. rewrite map_app. apply in_or_app. right. now left.
  - split; [exact H1 |]. rewrite H2. cbn [st_nodes]. now rewrite map_app.
Qed.

Lemma addBalancers_shape bals : forall s s',
  joinedState s -> addBalancers uuidv4 s bals = Returned s' ->
  joinedState s' /\
  map node_type (st_nodes s') =
  (map node_type (st_nodes s) ++ repeat "balancer" (List.length bals))%list.
Proof.
  induction bals as [| bal rest IH]; intros s s' Hs; cbn [addBalancers].
  - intros H. injection H as <-. split; [exact Hs |]. cbn. now rewrite app_nil_r.
  - destruct (addBalancer uuidv4 s bal) as [s1 |] eqn:Hone; [| discriminate].
    intros Hrest. destruct (addBalancer_shape s bal s1 Hs Hone) as [H1 H2].
    destruct (IH _ _ H1 Hrest) as [H3 H4]. split; [exact H3 |].
    rewrite H4, H2, <- app_assoc. reflexivity.
Qed.

(** A step that only adds edges between nodes that are there. *)
Lemma edge_steps_shape {A : Type} (step : ImportState -> A -> ImportState) :
  (forall s a, joinedState s ->
               joinedState (step s a) /\ st_nodes (step s a) = st_nodes s /\
               tagToNodeId (step s a) = tagToNodeId s) ->
  forall l s, joinedState s ->
              joinedState (fold_left step l s) /\
              st_nodes (fold_left step l s) = st_nodes s /\
              tagToNodeId (fold_left step l s) = tagToNodeId s.
Proof.
  intros Hstep l. induction l as [| a rest IH]; intros s Hs; cbn [fold_left].
  - now split.
  - destruct (Hstep s a Hs) as (H1 & H2 & H3).
    destruct (IH _ H1) as (H4 & H5 & H6).
    split; [exact H4 |]. split; congruence.
Qed.

Lemma lookupTag_node s tag id :
  joinedState s -> lookupTag (tagToNodeId s) tag = Some id ->
  In id (map node_id (st_nodes s)).
Proof.
  intros [Htags _] H. apply lookupTag_In in H. now apply (Htags tag).
Qed.

Lemma tagged_edge_shape s source tag :
  joinedState s -> In source (map node_id (st_nodes s)) ->
  let s' :=
    match lookupTag (tagToNodeId s) tag with
    | Some target => pushEdge uuidv4 s source target
    | None => s
    end in
  joinedState s' /\ st_nodes s' = st_nodes s /\ tagToNodeId s' = tagToNodeId s.
Proof.
  intros Hs Hsource. cbn zeta.
  destruct (lookupTag (tagToNodeId s) tag) as [target |] eqn:Hlook; [| now split].
  split; [| now split].
  apply joined_pushEdge; [exact Hs | exact Hsource |].
  now apply (lookupTag_node s tag).
Qed.

Lemma addRuleNode_shape s rule i :
  joinedState s ->
  joinedState (addRuleNode uuidv4 s rule i) /\
  map node_type (st_nodes (addRuleNode uuidv4 s rule i)) =
  (map node_type (st_nodes s) ++ ["routing"])%list.
Proof.
  intros Hs. unfold addRuleNode.
  set (routeNodeId := uuidv4 (drawn s)).
  set (s1 := mkImportState _ (st_edges s) (st_warnings s) (tagToNodeId s) (S (drawn s))).
  assert (H1 : joinedState s1)
    by (apply joined_add_node; [exact Hs | intros tag id Hin; now right]).
  assert (Hroute : In routeNodeId (map node_id (st_nodes s1)))
    by (cbn [s1 st_nodes]; rewrite map_app; apply in_or_app; right; now left).
  set (s2 := fold_left _ (orEmpty (rule_inboundTag rule)) s1).
  assert (H2 : joinedState s2 /\ st_nodes s2 = st_nodes s1 /\
               tagToNodeId s2 = tagToNodeId s1).
  { subst s2. generalize (orEmpty (rule_inboundTag rule)). intros inTags.
    revert H1 Hroute. generalize s1. clear s1.
    induction inTags as [| inTag rest IH]; intros acc Hacc Hin; cbn [fold_left].
    - now split.
    - destruct (lookupTag (tagToNodeId acc) inTag) as [inNodeId |] eqn:Hlook;
        [| now apply IH].
      assert (Hnext : joinedState (pushEdge uuidv4 acc inNodeId routeNodeId)).
      { apply joined_pushEdge; [exact Hacc | | exact Hin].
        now apply (lookupTag_node acc inTag). }
      destruct (IH _ Hnext Hin) as (Ha & Hb & Hc). now split. }
  destruct H2 as (H2 & Hnodes2 & Htags2).
  assert (Hroute2 : In routeNodeId (map node_id (st_nodes s2)))
    by now rewrite Hnodes2.
  set (s3 := match rule_outboundTag rule with Some _ => _ | None => _ end).
  assert (H3 : joinedState s3 /\ st_nodes s3 = st_nodes s2).
  { subst s3. destruct (rule_outboundTag rule) as [t |]; [| now split].
    destruct (Js.truthy t); [| now split].
    destruct (lookupTag (tagToNodeId s2) t) as [outNodeId |] eqn:Hlook; [| now split].
    split; [| reflexivity].
    apply joined_pushEdge; [exact H2 | exact Hroute2 |].
    now apply (lookupTag_node s2 t). }
  destruct H3 as (H3 & Hnodes3).
  assert (Hroute3 : In routeNodeId (map node_id (st_nodes s3)))
    by now rewrite Hnodes3.
  assert (Hshape : map node_type (st_nodes s3) =
                   (map node_type (st_nodes s) ++ ["routing"])%list).
  { rewrite Hnodes3, Hnodes2. cbn [s1 st_nodes]. now rewrite map_app. }
  destruct (rule_balancerTag rule) as [t |]; [| now split].
  destruct (Js.truthy t); [| now split].
  destruct (lookupTag (tagToNodeId s3) t) as [balNodeId |] eqn:Hlook; [| now split].
  split; [| exact Hshape].
  apply joined_pushEdge; [exact H3 | exact Hroute3 |].
  now apply (lookupTag_node s3 t).
Qed.

Lemma addRuleEdges_shape s rule :
  joinedState s ->
  joinedState (addRuleEdges uuidv4 s rule) /\
  st_nodes (addRuleEdges uuidv4 s rule) = st_nodes s.
Proof.
  intros Hs. unfold addRuleEdges.
  destruct (rule_outboundTag rule) as [t |]; [| now split].
  destruct (rule_inboundTag rule) as [inTags |]; [| now split].
  destruct (Js.truthy t); [| now split].
  revert s Hs. induction inTags as [| inTag rest IH]; intros s Hs; cbn [fold_left].
  - now split.
  - destruct (lookupTag (tagToNodeId s) inTag) as [inNodeId |] eqn:Hin;
      [| now apply IH].
    destruct (lookupTag (tagToNodeId s) t) as [outNodeId |] eqn:Hout;
      [| now apply IH].
    assert (Hnext : joinedState (pushEdge uuidv4 s inNodeId outNodeId)).
    { apply joined_pushEdge; [exact Hs | |].
      - now apply (lookupTag_node s inTag).
      - now apply (lookupTag_node s t). }
    destruct (IH _ Hnext) as [Ha Hb]. now split.
Qed.

Lemma addRules_shape withNodes ruleList : forall s i,
  joinedState s ->
  joinedState (addRules uuidv4 withNodes s ruleList i) /\
  map node_type (st_nodes (addRules uuidv4 withNodes s ruleList i)) =
  (map node_type (st_nodes s) ++
   repeat "routing" (if withNodes then List.length ruleList else 0))%list.
Proof.
  induction ruleList as [| rule rest IH]; intros s i Hs; cbn [addRules].
  - split; [exact Hs |]. destruct withNodes; cbn; now rewrite app_nil_r.
  - destruct withNodes.
    + destruct (addRuleNode_shape s rule i Hs) as [H1 H2].
      destruct (IH _ (S i) H1) as [H3 H4]. split; [exact H3 |].
      rewrite H4, H2, <- app_assoc. reflexivity.
    + destruct (addRuleEdges_shape s rule Hs) as [H1 H2].
      destruct (IH _ (S i) H1) as [H3 H4]. split; [exact H3 |].
      now rewrite H4, H2.
Qed.

Lemma placeNodes_ids all rest : forall before,
  map node_id (placeNodes all before rest) = map node_id rest /\
  map node_type (placeNodes all before rest) = map node_type rest /\
  map node_data (placeNodes all before rest) = map node_data rest.
Proof.
  induction rest as [| n more IH]; intros before; cbn [placeNodes map].
  - now split.
  - destruct (IH (before ++ [n])%list) as (H1 & H2 & H3).
    cbn [node_id node_type node_data]. rewrite H1, H2, H3. now split.
Qed.

Lemma joinedState_initial : joinedState (mkImportState [] [] [] [] 0).
Proof. split; [intros tag id [] | intros e []]. Qed.

(** The states an import that returns goes through. *)
Lemma importXrayConfig_result cfg options r :
  importXrayConfig uuidv4 (Some cfg) options = Returned r ->
  exists s3,
    addBalancers uuidv4
      (fold_left (addOutbound uuidv4) (outboundsOf cfg)
         (fold_left (addInbound uuidv4) (inboundsOf cfg) (mkImportState [] [] [] [] 0)))
      (balancersOf cfg) = Returned s3 /\
    let s4 := addRules uuidv4 (wantsRoutingNodes options) s3 (rulesOfDocument cfg) 0 in
    edges r = st_edges s4 /\
    map node_id (nodes r) = map node_id (st_nodes s4) /\
    map node_type (nodes r) = map node_type (st_nodes s4) /\
    inboundCount (summary r) = countType ["inbound"] (nodes r) /\
    outboundCount (summary r) =
      countType ["outbound-terminal"; "outbound-proxy"] (nodes r) /\
    routingCount (summary r) = countType ["routing"] (nodes r) /\
    balancerCount (summary r) = countType ["balancer"] (nodes r) /\
    edgeCount (summary r) = List.length (edges r).
Proof.
  unfold importXrayConfig, inboundsOf, outboundsOf, balancersOf, rulesOfDocument,
    wantsRoutingNodes.
  intros H.
  match type of H with
  | context [addBalancers uuidv4 ?s2 ?bals] =>
      destruct (addBalancers uuidv4 s2 bals) as [s3 |] eqn:Hbal
  end.
  - exists s3. split; [reflexivity |]. cbn zeta.
    destruct (cfg_inbounds cfg), (cfg_outbounds cfg); try discriminate;
      injection H as <-;
      cbn [edges nodes summary inboundCount outboundCount routingCount
           balancerCount edgeCount];
      (split; [reflexivity |]);
      (split;
       [destruct (match autoLayoutOption options with Some b => b | None => true end);
        [apply placeNodes_ids | reflexivity] |]);
      (split;
       [destruct (match autoLayoutOption options with Some b => b | None => true end);
        [apply placeNodes_ids | reflexivity] |]);
      now repeat split.
  - destruct (cfg_inbounds cfg), (cfg_outbounds cfg); discriminate.
Qed.

(** X17. Every edge of an imported graph joins two nodes of that
    graph and carries no data, whatever the document and the options. *)
Theorem import_edges_join_nodes
    (parsed : option XrayConfig) (options : ImportOptions) (r : ImportResult) :
  importXrayConfig uuidv4 parsed options = Returned r ->
  forall e, In e (edges r) -> joins (nodes r) e.
Proof.
  destruct parsed as [cfg |]; [| discriminate].
  intros H. destruct (importXrayConfig_result cfg options r H)
    as (s3 & Hbal & Hedges & Hids & _).
  cbn zeta in Hedges, Hids.
  destruct (import_inbounds_shape (inboundsOf cfg) _ joinedState_initial) as [H1 _].
  destruct (import_outbounds_shape (outboundsOf cfg) _ H1) as [H2 _].
  destruct (addBalancers_shape _ _ _ H2 Hbal) as [H3 _].
  destruct (addRules_shape (wantsRoutingNodes options) (rulesOfDocument cfg) s3 0 H3)
    as [[_ H4] _].
  intros e He. rewrite Hedges in He. unfold joins. rewrite Hids. now apply H4.
Qed.

Lemma count_repeat (p : string -> bool) x n :
  List.length (filter p (repeat x n)) = if p x then n else 0.
Proof.
  induction n as [| n IH]; cbn [repeat filter]; [now destruct (p x) |].
  destruct (p x); cbn [List.length]; now rewrite ?IH.
Qed.

Lemma count_outbound_all (p : string -> bool) ts :
  Forall (fun t => isOutboundType t = true) ts ->
  p "outbound-terminal" = true -> p "outbound-proxy" = true ->
  List.length (filter p ts) = List.length ts.
Proof.
  intros Hall Hterminal Hproxy.
  induction Hall as [| t rest Ht _ IH]; cbn [filter List.length]; [reflexivity |].
  unfold isOutboundType in Ht. apply orb_true_iff in Ht.
  destruct Ht as [Ht | Ht]; apply String.eqb_eq in Ht; subst t.
  - rewrite Hterminal. cbn [List.length]. now rewrite IH.
  - rewrite Hproxy. cbn [List.length]. now rewrite IH.
Qed.

Lemma count_outbound_none (p : string -> bool) ts :
  Forall (fun t => isOutboundType t = true) ts ->
  p "outbound-terminal" = false -> p "outbound-proxy" = false ->
  List.length (filter p ts) = 0.
Proof.
  intros Hall Hterminal Hproxy.
  induction Hall as [| t rest Ht _ IH]; cbn [filter List.length]; [reflexivity |].
  unfold isOutboundType in Ht. apply orb_true_iff in Ht.
  destruct Ht as [Ht | Ht]; apply String.eqb_eq in Ht; subst t.
  - now rewrite Hterminal.
  - now rewrite Hproxy.
Qed.

Lemma countType_types typeNames ns :
  countType typeNames ns =
  List.length (filter (fun t => Js.memStr t typeNames) (map node_type ns)).
Proof.
  unfold countType. induction ns as [| n rest IH]; cbn [filter map]; [reflexivity |].
  destruct (Js.memStr (node_type n) typeNames); cbn [List.length]; now rewrite IH.
Qed.

(** X18. The import makes one node for every inbound of a known
    protocol, every outbound and every balancer of the document, and one
    for every rule when routing nodes are asked for (none otherwise);
    the counts of the summary are these numbers, they add up to the
    number of nodes, and the edge count is the number of edges. *)
Theorem import_summary_counts
    (cfg : XrayConfig) (options : ImportOptions) (r : ImportResult) :
  importXrayConfig uuidv4 (Some cfg) options = Returned r ->
  inboundCount (summary r) = List.length (knownInbounds cfg) /\
  outboundCount (summary r) = List.length (outboundsOf cfg) /\
  balancerCount (summary r) = List.length (balancersOf cfg) /\
  routingCount (summary r) =
    (if wantsRoutingNodes options then List.length (rulesOfDocument cfg) else 0) /\
  List.length (nodes r) =
    inboundCount (summary r) + outboundCount (summary r) +
    routingCount (summary r) + balancerCount (summary r) /\
  edgeCount (summary r) = List.length (edges r).
Proof.
  intros H. destruct (importXrayConfig_result cfg options r H)
    as (s3 & Hbal & _ & _ & Htypes & Hin & Hout & Hroute & Hbalc & Hedge).
  cbn zeta in Htypes.
  destruct (import_inbounds_shape (inboundsOf cfg) _ joinedState_initial) as [H1 T1].
  destruct (import_outbounds_shape (outboundsOf cfg) _ H1) as (H2 & ts & Hlen & Hall & T2).
  destruct (addBalancers_shape _ _ _ H2 Hbal) as [H3 T3].
  destruct (addRules_shape (wantsRoutingNodes options) (rulesOfDocument cfg) s3 0 H3)
    as [_ T4].
  rewrite T4, T3, T2, T1 in Htypes. cbn [st_nodes map app] in Htypes.
  fold (knownInbounds cfg) in Htypes.
  assert (Hcount : forall typeNames,
             countType typeNames (nodes r) =
             (if Js.memStr "inbound" typeNames then List.length (knownInbounds cfg) else 0) +
             List.length (filter (fun t => Js.memStr t typeNames) ts) +
             (if Js.memStr "balancer" typeNames then List.length (balancersOf cfg) else 0) +
             (if Js.memStr "routing" typeNames
              then if wantsRoutingNodes options then List.length (rulesOfDocument cfg) else 0
              else 0)).
  { intros typeNames. rewrite countType_types, Htypes.
    rewrite !filter_app, !length_app, !count_repeat. lia. }
  assert (Hnodes : List.length (nodes r) =
                   List.length (knownInbounds cfg) + List.length ts + List.length (balancersOf cfg) +
                   (if wantsRoutingNodes options
                    then List.length (rulesOfDocument cfg) else 0)).
  { rewrite <- (length_map node_type), Htypes.
    rewrite !length_app, !repeat_length. lia. }
  rewrite Hin, Hout, Hroute, Hbalc, Hedge, !Hcount, Hnodes.
  rewrite (count_outbound_none (fun t => Js.memStr t ["inbound"]) ts Hall eq_refl eq_refl).
  rewrite (count_outbound_none (fun t => Js.memStr t ["routing"]) ts Hall eq_refl eq_refl).
  rewrite (count_outbound_none (fun t => Js.memStr t ["balancer"]) ts Hall eq_refl eq_refl).
  rewrite (count_outbound_all
             (fun t => Js.memStr t ["outbound-terminal"; "outbound-proxy"]) ts Hall
             eq_refl eq_refl).
  rewrite Hlen.
  change (Js.memStr "inbound" ["inbound"]) with true.
  change (Js.memStr "balancer" ["inbound"]) with false.
  change (Js.memStr "routing" ["inbound"]) with false.
  change (Js.memStr "inbound" ["outbound-terminal"; "outbound-proxy"]) with false.
  change (Js.memStr "balancer" ["outbound-terminal"; "outbound-proxy"]) with false.
  change (Js.memStr "routing" ["outbound-terminal"; "outbound-proxy"]) with false.
  change (Js.memStr "inbound" ["routing"]) with false.
  change (Js.memStr "balancer" ["routing"]) with false.
  change (Js.memStr "routing" ["routing"]) with true.
  change (Js.memStr "inbound" ["balancer"]) with false.
  change (Js.memStr "balancer" ["balancer"]) with true.
  change (Js.memStr "routing" ["balancer"]) with false.
  split; [lia |]. split; [lia |]. split; [lia |]. split; [lia |].
  split; [lia | reflexivity].
Qed.

End ImportShape.

Lemma import_edges_join_nodes_witness :
  exists r,
    sampleImport = Returned r /\
    ImportConfig.edges r <> [] /\
    forall e, In e (ImportConfig.edges r) -> joins (ImportConfig.nodes r) e.
Proof.
  eexists. split; [reflexivity |]. split; [discriminate |].
  apply (import_edges_join_nodes unaryId (Some sampleDocument) defaultOptions).
  vm_compute. reflexivity.
Defined.

Lemma import_summary_counts_witness :
  exists r,
    sampleImport = Returned r /\
    ImportConfig.inboundCount (ImportConfig.summary r) = 1 /\
    ImportConfig.outboundCount (ImportConfig.summary r) = 2 /\
    ImportConfig.balancerCount (ImportConfig.summary r) = 1 /\
    ImportConfig.routingCount (ImportConfig.summary r) = 2 /\
    List.length (ImportConfig.nodes r) = 6 /\
    ImportConfig.edgeCount (ImportConfig.summary r) = List.length (ImportConfig.edges r).
Proof.
  eexists. split; [reflexivity |].
  apply (import_summary_counts unaryId sampleDocument defaultOptions).
  vm_compute. reflexivity.
Defined.
Section ModeDetection.
Import Config ImportConfig.

Lemma optZ_eqb_eq a b : optZ_eqb a b = true <-> a = b.
Proof.
  destruct a as [x |], b as [y |]; cbn [optZ_eqb]; split; intros H;
    try discriminate; try reflexivity.
  - apply Z.eqb_eq in H. now subst.
  - injection H as <-. apply Z.eqb_refl.
Qed.

Lemma distinctPorts_In ps p : In p (distinctPorts ps) <-> In p ps.
Proof.
  induction ps as [| q rest IH]; cbn [distinctPorts]; [reflexivity |].
  split.
  - intros [-> | H]; [now left |].
    apply filter_In in H. right. now apply IH.
  - intros [-> | H]; [now left |].
    destruct (optZ_eqb q p) eqn:Heq.
    + apply optZ_eqb_eq in Heq. now left.
    + right. apply filter_In. split; [now apply IH | now rewrite Heq].
Qed.

Lemma distinctPorts_two ps :
  (1 <? List.length (distinctPorts ps))%nat = true <->
  exists p q, In p ps /\ In q ps /\ p <> q.
Proof.
  destruct ps as [| p rest]; cbn [distinctPorts List.length].
  - split; [discriminate | intros (p & q & [] & _)].
  - split.
    + intros H.
      destruct (filter (fun q => negb (optZ_eqb p q)) (distinctPorts rest))
        as [| q more] eqn:Hfilter; [discriminate |].
      assert (Hq : In q (filter (fun q => negb (optZ_eqb p q)) (distinctPorts rest)))
        by (rewrite Hfilter; now left).
      apply filter_In in Hq. destruct Hq as [Hq Hne].
      exists p, q. split; [now left |]. split; [right; now apply distinctPorts_In |].
      intros ->. rewrite (proj2 (optZ_eqb_eq q q) eq_refl) in Hne. discriminate.
    + intros (a & b & Ha & Hb & Hne).
      assert (Hother : exists q, In q rest /\ p <> q).
      { destruct Ha as [<- | Ha].
        - destruct Hb as [<- | Hb]; [now destruct Hne |]. now exists b.
        - destruct (optZ_eqb p a) eqn:Heq.
          + apply optZ_eqb_eq in Heq. subst a.
            destruct Hb as [<- | Hb]; [now destruct Hne |]. now exists b.
          + exists a. split; [exact Ha |]. intros ->.
            rewrite (proj2 (optZ_eqb_eq a a) eq_refl) in Heq. discriminate. }
      destruct Hother as (q & Hq & Hpq).
      assert (Hin : In q (filter (fun q => negb (optZ_eqb p q)) (distinctPorts rest))).
      { apply filter_In. split; [now apply distinctPorts_In |].
        destruct (optZ_eqb p q) eqn:Heq; [| reflexivity].
        apply optZ_eqb_eq in Heq. now destruct Hpq. }
      destruct (filter (fun q => negb (optZ_eqb p q)) (distinctPorts rest));
        [destruct Hin | reflexivity].
Qed.

Lemma two_members {A : Type} (l : list A) a b :
  In a l -> In b l -> a <> b -> (1 <? List.length l)%nat = true.
Proof.
  destruct l as [| x [| y rest]]; cbn [List.length].
  - intros [].
  - intros [<- | []] [<- | []] Hne. now destruct Hne.
  - reflexivity.
Qed.

(** X19. The import takes a document for an infrastructure document exactly
    when some outbound of it is not a terminal one and two of its
    inbounds differ in their port (a missing port is a port of its own);
    every other document is a client document. *)
Theorem detectMode_infrastructure (cfg : XrayConfig) :
  (detectMode cfg = "infrastructure" <->
   (exists o, In o (outboundsOf cfg) /\
              Js.memStr (xout_protocol o) TERMINAL_PROTOCOLS = false) /\
   (exists i j, In i (inboundsOf cfg) /\ In j (inboundsOf cfg) /\
                xin_port i <> xin_port j)) /\
  (detectMode cfg <> "infrastructure" -> detectMode cfg = "client").
Proof.
  unfold detectMode, outboundsOf, inboundsOf.
  set (outs := orEmpty (cfg_outbounds cfg)). set (ins := orEmpty (cfg_inbounds cfg)).
  assert (Hproxy :
            existsb (fun o => negb (Js.memStr (xout_protocol o) TERMINAL_PROTOCOLS)) outs
            = true <->
            exists o, In o outs /\ Js.memStr (xout_protocol o) TERMINAL_PROTOCOLS = false).
  { rewrite existsb_exists. split; intros (o & Ho & H); exists o; split; auto.
    - now apply negb_true_iff in H.
    - now apply negb_true_iff. }
  assert (Hports :
            (1 <? List.length (distinctPorts (map xin_port ins)))%nat = true <->
            exists i j, In i ins /\ In j ins /\ xin_port i <> xin_port j).
  { rewrite distinctPorts_two. split.
    - intros (p & q & Hp & Hq & Hne).
      apply in_map_iff in Hp. destruct Hp as (i & <- & Hi).
      apply in_map_iff in Hq. destruct Hq as (j & <- & Hj).
      now exists i, j.
    - intros (i & j & Hi & Hj & Hne).
      exists (xin_port i), (xin_port j).
      split; [now apply in_map |]. split; [now apply in_map | exact Hne]. }
  split.
  - split.
    + intros H.
      destruct (existsb _ outs) eqn:E1; [| discriminate].
      destruct (1 <? List.length ins)%nat; [| discriminate].
      destruct (1 <? List.length (distinctPorts (map xin_port ins)))%nat eqn:E3;
        [| discriminate].
      split; [now apply Hproxy | now apply Hports].
    + intros [Ho Hi].
      apply Hproxy in Ho. rewrite Ho.
      destruct Hi as (i & j & Hi & Hj & Hne).
      assert (Hlen : (1 <? List.length ins)%nat = true).
      { apply (two_members ins i j Hi Hj). intros ->. now destruct Hne. }
      rewrite Hlen.
      assert (Htwo : (1 <? List.length (distinctPorts (map xin_port ins)))%nat = true)
        by (apply Hports; now exists i, j).
      now rewrite Htwo.
  - destruct (existsb _ outs && (1 <? List.length ins)%nat &&
              (1 <? List.length (distinctPorts (map xin_port ins)))%nat);
      [intros H; now destruct H | reflexivity].
Qed.

End ModeDetection.

Section Layout.
Import ImportConfig.

Lemma layerCount_snoc layer before n :
  layerCount layer (before ++ [n]) =
  (layerCount layer before +
   (if (layerOf (node_type n) =? layer)%Z then 1 else 0))%nat.
Proof.
  unfold layerCount. rewrite filter_app, length_app. cbn [filter].
  now destruct (layerOf (node_type n) =? layer)%Z.
Qed.

(** Where a node is put: the column of its layer, and a row that is not
    above the rows taken by the nodes before it. *)
Lemma placeNodes_position all rest : forall before q,
  In q (placeNodes all before rest) ->
  exists rank : nat,
    Nat.le (layerCount (layerOf (node_type q)) before) rank /\
    node_position q =
    (50 + layerOf (node_type q) * 300,
     50 + Z.max 0
            ((4 * 150 - Z.of_nat (layerCount (layerOf (node_type q)) all) * 150) / 2) +
     Z.of_nat rank * 150)%Z.
Proof.
  induction rest as [| n more IH]; intros before q; cbn [placeNodes]; [intros [] |].
  intros [<- | Hin].
  - exists (layerCount (layerOf (node_type n)) before). cbn [node_type node_position].
    split; [apply Nat.le_refl | reflexivity].
  - destruct (IH _ _ Hin) as (rank & Hrank & Hpos).
    exists rank. rewrite layerCount_snoc in Hrank.
    split; [unfold Nat.le in *; lia | exact Hpos].
Qed.

(** X20. The layout keeps the nodes, their order, their types and their
    data, and puts no two of them on the same spot. *)
Theorem autoLayout_places_apart (ns : list GraphNode) (es : list GraphEdge) :
  map node_id (autoLayout ns es) = map node_id ns /\
  map node_type (autoLayout ns es) = map node_type ns /\
  map node_data (autoLayout ns es) = map node_data ns /\
  NoDup (map node_position (autoLayout ns es)).
Proof.
  unfold autoLayout.
  split; [apply placeNodes_ids |]. split; [apply placeNodes_ids |].
  split; [apply placeNodes_ids |].
  generalize (@nil GraphNode) as before. generalize ns at 2 as rest.
  induction rest as [| n more IH]; intros before; cbn [placeNodes map].
  - constructor.
  - constructor; [| apply IH].
    intros Hin. apply in_map_iff in Hin. destruct Hin as (q & Hpos & Hq).
    destruct (placeNodes_position ns more _ q Hq) as (rank & Hrank & Hq_pos).
    rewrite Hq_pos in Hpos. cbn [node_position] in Hpos.
    pose proof (f_equal fst Hpos) as Hx. pose proof (f_equal snd Hpos) as Hy.
    cbn [fst snd] in Hx, Hy. cbv zeta in Hx, Hy.
    assert (Hlayer : layerOf (node_type q) = layerOf (node_type n)) by lia.
    rewrite Hlayer in Hy, Hrank. rewrite layerCount_snoc, Z.eqb_refl in Hrank.
    unfold layerCount, Nat.le in *. lia.
Qed.

End Layout.
